(** * The EXPA table container of MVGLTools (DSCSTools)

    A shallow embedding of the row codec ([Structure]), the structure
    resolver and the container reader and writer, followed by the
    properties of the specification that they satisfy or break.

    The repository holds two revisions of the component:
    - [EXPANew]: DSCSTools/EXPANew.cpp with DSCSTools/include/EXPAnew.h
      (row codec, resolver, container reader and writer);
    - [EXPA]: the later EXPA.cpp (row codec and resolver; its header with
      the container templates is not among the sources).
    The CSV side of EXPA.cpp (cells, rows, headers and file names) and
    the names and the index of an archive ([MDB1], from MDB1new) follow
    the two revisions.

    Conventions of the embedding:
    - a [char] buffer is a [list byte]; a pointer into it is the buffer
      together with an offset, or an address of a [memory];
    - unsigned conversions are written out with [to_uint32]; the [int]
      cursors of the loops are unbounded [Z] (they stay below [2^31] for
      every structure of fewer than [2^26] fields);
    - a C++ exception is [Throw], an access outside a buffer is
      [Undefined]. *)

From Stdlib Require Import ZArith List String Ascii Lia Bool.
From Stdlib Require Import DecimalString DecimalPos.
From coqutil Require Import Byte Word.LittleEndianList.
From coqutil Require Map.Interface Map.SortedListString.
Import ListNotations.
Local Open Scope Z_scope.

(** ** Exceptions and undefined behaviour *)

Inductive exn : Set :=
| bad_variant_access   (* std::get on the wrong alternative *)
| out_of_range         (* std::bitset::set past the last bit *)
| json_parser_error.   (* boost::property_tree::read_json *)

Inductive result (A : Type) : Type :=
| Ok (a : A)
| Throw (e : exn)
| Undefined.

Arguments Ok {A} a.
Arguments Throw {A} e.
Arguments Undefined {A}.

Definition bind {A B : Type} (r : result A) (k : A -> result B) : result B :=
  match r with
  | Ok a => k a
  | Throw e => Throw e
  | Undefined => Undefined
  end.

Notation "x <- r ;; k" := (bind r (fun x => k))
  (at level 61, r at next level, right associativity).
Notation "' p <- r ;; k" := (bind r (fun x => let p := x in k))
  (at level 61, p pattern, r at next level, right associativity).

(** ** Machine integers *)

Definition to_uint32 (z : Z) : Z := z mod 2 ^ 32.
Definition to_uint64 (z : Z) : Z := z mod 2 ^ 64.

(** The value of a [w]-bit two's complement pattern. *)
Definition to_signed (w : Z) (z : Z) : Z :=
  (z + 2 ^ (w - 1)) mod 2 ^ w - 2 ^ (w - 1).

Definition to_int32 (z : Z) : Z := to_signed 32 z.

Abbreviation len l := (Z.of_nat (List.length l)).

(** Modelled from the spec: [ceilInteger] of Helpers.h, which is not among
    the sources. It rounds [value] up to the next multiple of [step]
    ("align offset upward to T's alignment", "rounded up to 8"); a step
    of 0, the alignment of the types without storage, leaves the value
    as it is. The template form [ceilInteger<step>(value)] is the same
    function. *)
Definition ceilInteger (value step : Z) : Z :=
  if step =? 0 then value else (value + step - 1) / step * step.

(** ** Data model (EXPAnew.h) *)

Inductive EntryType : Set :=
| UNK0 | UNK1 | INT32 | INT16 | INT8 | FLOAT
| STRING3 | STRING | STRING2 | BOOL | EMPTY | INT_ARRAY
| INVALID (code : Z).   (* any other value of the underlying uint32_t *)

Definition EntryType_code (t : EntryType) : Z :=
  match t with
  | UNK0 => 0 | UNK1 => 1 | INT32 => 2 | INT16 => 3 | INT8 => 4
  | FLOAT => 5 | STRING3 => 6 | STRING => 7 | STRING2 => 8 | BOOL => 9
  | EMPTY => 10 | INT_ARRAY => 100
  | INVALID c => c
  end.

Definition EntryType_of_code (c : Z) : EntryType :=
  match c with
  | 0 => UNK0 | 1 => UNK1 | 2 => INT32 | 3 => INT16 | 4 => INT8
  | 5 => FLOAT | 6 => STRING3 | 7 => STRING | 8 => STRING2 | 9 => BOOL
  | 10 => EMPTY | 100 => INT_ARRAY
  | _ => INVALID c
  end.

Definition EntryType_eqb (a b : EntryType) : bool :=
  EntryType_code a =? EntryType_code b.

Definition is_BOOL (t : EntryType) : bool :=
  match t with BOOL => true | _ => false end.

(** [std::variant<bool, int8_t, int16_t, int32_t, float, std::string,
    std::vector<int32_t>, std::nullopt_t>]. Integers are their values, a
    [float] is its IEEE-754 bit pattern. *)
Inductive EntryValue : Type :=
| VBool (b : bool)
| VInt8 (v : Z)
| VInt16 (v : Z)
| VInt32 (v : Z)
| VFloat (bits : Z)
| VString (s : string)
| VIntArray (a : list Z)
| VNone.

Record StructureEntry : Type := { name : string; type : EntryType }.

Record Structure : Type := { structure : list StructureEntry }.

Record CHNKEntry : Type := { offset : Z; value : list byte }.

(** [std::get<T>(value)] *)
Definition get_bool (v : EntryValue) : result bool :=
  match v with VBool b => Ok b | _ => Throw bad_variant_access end.
Definition get_int8 (v : EntryValue) : result Z :=
  match v with VInt8 z => Ok z | _ => Throw bad_variant_access end.
Definition get_int16 (v : EntryValue) : result Z :=
  match v with VInt16 z => Ok z | _ => Throw bad_variant_access end.
Definition get_int32 (v : EntryValue) : result Z :=
  match v with VInt32 z => Ok z | _ => Throw bad_variant_access end.
Definition get_float (v : EntryValue) : result Z :=
  match v with VFloat z => Ok z | _ => Throw bad_variant_access end.
Definition get_string (v : EntryValue) : result string :=
  match v with VString s => Ok s | _ => Throw bad_variant_access end.
Definition get_int_array (v : EntryValue) : result (list Z) :=
  match v with VIntArray a => Ok a | _ => Throw bad_variant_access end.

(** The value's alternative is the one the codec reads for the type, and
    the payload is a value of that C++ type. *)
Definition value_matches (t : EntryType) (v : EntryValue) : bool :=
  match t, v with
  | INT32, VInt32 z => (- 2 ^ 31 <=? z) && (z <? 2 ^ 31)
  | INT16, VInt16 z => (- 2 ^ 15 <=? z) && (z <? 2 ^ 15)
  | INT8, VInt8 z => (- 2 ^ 7 <=? z) && (z <? 2 ^ 7)
  | FLOAT, VFloat z => (0 <=? z) && (z <? 2 ^ 32)
  | (STRING3 | STRING | STRING2), VString _ => true
  | INT_ARRAY, VIntArray a =>
      forallb (fun z => (- 2 ^ 31 <=? z) && (z <? 2 ^ 31)) a
  | BOOL, VBool _ => true
  | (EMPTY | UNK0 | UNK1 | INVALID _), VNone => true
  | _, _ => false
  end.

Fixpoint row_matches (s : list StructureEntry) (row : list EntryValue) : bool :=
  match s, row with
  | [], [] => true
  | e :: s', v :: row' => value_matches (type e) v && row_matches s' row'
  | _, _ => false
  end.

(** ** Alignment and size of a cell (EXPANew.cpp; EXPA.cpp has the same
    tables, with UNK0 left to the default branch) *)

Definition getAlignment (t : EntryType) : Z :=
  match t with
  | UNK0 => 0
  | UNK1 => 0
  | INT32 => 4
  | INT16 => 2
  | INT8 => 1
  | FLOAT => 4
  | STRING3 => 8
  | STRING => 8
  | STRING2 => 8
  | BOOL => 4
  | EMPTY => 0
  | INT_ARRAY => 8
  | _ => 0
  end.

Definition getSize (t : EntryType) : Z :=
  match t with
  | UNK0 => 0
  | UNK1 => 0
  | INT32 => 4
  | INT16 => 2
  | INT8 => 1
  | FLOAT => 4
  | STRING3 => 8
  | STRING => 8
  | STRING2 => 8
  | BOOL => 4
  | EMPTY => 0
  | INT_ARRAY => 16
  | _ => 0
  end.

(** ** Buffers and memory *)

(** A store of [bs] through a pointer [off] bytes into the buffer. *)
Definition store (buf : list byte) (off : Z) (bs : list byte) : result (list byte) :=
  if (0 <=? off) && (off + len bs <=? len buf)
  then Ok (firstn (Z.to_nat off) buf ++ bs
             ++ skipn (Z.to_nat off + List.length bs) buf)
  else Undefined.

(** The [n] bytes from position [off] on. *)
Definition slice (l : list byte) (off : Z) (n : nat) : list byte :=
  firstn n (skipn (Z.to_nat off) l).

(** The loaded file image: [mem_bytes] lives at address [mem_base]. *)
Record memory : Type := { mem_base : Z; mem_bytes : list byte }.

Definition load (m : memory) (addr : Z) (n : nat) : result (list byte) :=
  let off := addr - mem_base m in
  if (0 <=? off) && (off + Z.of_nat n <=? len (mem_bytes m))
  then Ok (slice (mem_bytes m) off n)
  else Undefined.

Definition load_uint (m : memory) (addr : Z) (n : nat) : result Z :=
  bs <- load m addr n ;; Ok (le_combine bs).

Definition load_int (m : memory) (addr : Z) (n : nat) : result Z :=
  bs <- load m addr n ;; Ok (to_signed (Z.of_nat n * 8) (le_combine bs)).

(** The bytes before the first NUL; [None] when there is none. *)
Fixpoint until_NUL (bs : list byte) : option (list byte) :=
  match bs with
  | [] => None
  | b :: rest =>
      if Byte.eqb b Byte.x00 then Some []
      else option_map (cons b) (until_NUL rest)
  end.

(** [std::string(ptr)] *)
Definition load_cstring (m : memory) (addr : Z) : result string :=
  let off := addr - mem_base m in
  if (0 <=? off) && (off <=? len (mem_bytes m))
  then match until_NUL (skipn (Z.to_nat off) (mem_bytes m)) with
       | Some bs => Ok (string_of_list_byte bs)
       | None => Undefined
       end
  else Undefined.

(** [ptr[0]], ..., [ptr[count - 1]] as int32_t *)
Fixpoint load_int32s (m : memory) (ptr : Z) (count : nat) : result (list Z) :=
  match count with
  | O => Ok []
  | S k =>
      x <- load_int m ptr 4 ;;
      xs <- load_int32s m (ptr + 4) k ;;
      Ok (x :: xs)
  end.

(** [std::bitset<32>::set(pos, val)] *)
Definition bitset_set (bits : Z) (pos : Z) (val : bool) : result Z :=
  if (0 <=? pos) && (pos <? 32)
  then Ok (if val then Z.setbit bits pos else Z.clearbit bits pos)
  else Throw out_of_range.

Definition string_empty (s : string) : bool :=
  match s with EmptyString => true | _ => false end.

Definition padded (bs : list byte) (size : Z) : list byte :=
  bs ++ repeat Byte.x00 (Z.to_nat size - List.length bs).

(** The locals of [Structure::writeEXPA] (the same in both revisions). *)
Record WriteState : Type := {
  ws_data : list byte;
  ws_offset : Z;
  ws_bitCounter : Z;
  ws_currentBool : Z;
  ws_chunkEntries : list CHNKEntry }.

(** The flush of the bool word: it goes to the buffer at the cursor, the
    cursor moves past it, counter and word are reset. *)
Definition flush (st : WriteState) : result WriteState :=
  data' <- store (ws_data st) (ws_offset st) (le_split 4 (ws_currentBool st)) ;;
  Ok {| ws_data := data';
        ws_offset := ws_offset st + 4;
        ws_bitCounter := 0;
        ws_currentBool := 0;
        ws_chunkEntries := ws_chunkEntries st |}.

(** ** The structure resolver (the same text in both revisions)

    The schema files are read with Boost.PropertyTree and matched with
    Boost.Regex. A property tree is its data string and its children in
    document order. The regular-expression engine and [wrapRegex] of
    Helpers.h are not among the sources and are parameters. *)

#[local] Unset Elimination Schemes.
Inductive ptree : Type :=
| PTree (data : string) (children : list (string * ptree)).
#[local] Set Elimination Schemes.

Definition ptree_data (t : ptree) : string :=
  match t with PTree d _ => d end.
Definition ptree_children (t : ptree) : list (string * ptree) :=
  match t with PTree _ c => c end.

(** What the process finds on disk: which paths are directories, which
    exist, and for a file whether it can be opened ([None] when not) and
    whether its text is JSON ([Some None] when not). *)
Record FileSystem : Type := {
  is_directory : string -> bool;
  exists_ : string -> bool;
  json_content : string -> option (option ptree) }.

(** [boost::property_tree::read_json(path, tree)]: it throws
    [json_parser_error] when the file cannot be read or parsed. *)
Definition read_json (fs : FileSystem) (path : string) : result ptree :=
  match json_content fs path with
  | Some (Some t) => Ok t
  | _ => Throw json_parser_error
  end.

(** The fragments of a property-tree path, separated by dots. *)
Fixpoint path_fragments (cur : string) (p : string) : list string :=
  match p with
  | EmptyString => [cur]
  | String c rest =>
      if Ascii.eqb c "."%char
      then cur :: match rest with
                  | EmptyString => []
                  | _ => path_fragments EmptyString rest
                  end
      else path_fragments (cur ++ String c EmptyString) rest
  end.

Definition split_path (p : string) : list string :=
  match p with
  | EmptyString => []
  | _ => path_fragments EmptyString p
  end.

Fixpoint walk_path (t : ptree) (fragments : list string) : option ptree :=
  match fragments with
  | [] => Some t
  | f :: rest =>
      match find (fun kv => String.eqb (fst kv) f) (ptree_children t) with
      | Some kv => walk_path (snd kv) rest
      | None => None
      end
  end.

(** [ptree::get_child_optional(path)] *)
Definition get_child_optional (t : ptree) (path : string) : option ptree :=
  walk_path t (split_path path).

Definition STRUCTURE_FOLDER : string := "structures/".
Definition STRUCTURE_FILE : string := "structures/structure.json".

Section Resolver.

(** [boost::regex_search(subject, boost::regex{pattern})] *)
Variable regex_search : string -> string -> bool.
Variable wrapRegex : string -> string.
Variable convertEntryType : string -> EntryType.

Definition getStructureFromFile (fs : FileSystem) (filePath tableName : string)
    : result (list StructureEntry) :=
  if negb (is_directory fs STRUCTURE_FOLDER) then Ok []
  else if negb (exists_ fs STRUCTURE_FILE) then Ok []
  else
    structure <- read_json fs STRUCTURE_FILE ;;
    let formatFile :=
      match find (fun var => regex_search filePath (fst var))
              (ptree_children structure) with
      | Some var => ptree_data (snd var)
      | None => EmptyString
      end in
    if string_empty formatFile then Ok []
    else
      format <- read_json fs ("structures/" ++ formatFile) ;;
      let formatValue :=
        match get_child_optional format tableName with
        | Some v => Some v
        | None =>
            option_map snd
              (find (fun kv => regex_search tableName (wrapRegex (fst kv)))
                 (ptree_children format))
        end in
      match formatValue with
      | None => Ok []
      | Some v =>
          Ok (map (fun val => {| name := fst val;
                                 type := convertEntryType (ptree_data (snd val)) |})
                (ptree_children v))
      end.

End Resolver.

(** ** Streams *)

(** An output file stream: the bytes of the file and the put position. *)
Record ostream : Type := { os_bytes : list byte; os_pos : Z }.

(** A write at the put position; a gap left by a seek past the end reads
    as zero bytes. *)
Definition os_write (os : ostream) (bs : list byte) : ostream :=
  let file := padded (os_bytes os) (os_pos os) in
  {| os_bytes := firstn (Z.to_nat (os_pos os)) file ++ bs
                   ++ skipn (Z.to_nat (os_pos os) + List.length bs) file;
     os_pos := os_pos os + len bs |}.

Definition os_seekp (os : ostream) (pos : Z) : ostream :=
  {| os_bytes := os_bytes os; os_pos := pos |}.

(** Modelled from the spec: [write(stream, value)] of Helpers.h, which is
    not among the sources, for the 32-bit fields of the file ("u32 magic",
    "u32 table count", "u32 name_size", "u32 row_size", ...): the value as
    four little-endian bytes. *)
Definition write_uint32 (os : ostream) (v : Z) : ostream :=
  os_write os (le_split 4 v).

(** Modelled from the spec: [write(stream, string, size)] of Helpers.h:
    "name_size bytes of name (NUL-terminated, zero-padded)". *)
Definition write_string (os : ostream) (str : string) (size : Z) : ostream :=
  os_write os (padded (list_byte_of_string str) size).

(** An input file stream over the bytes [file] is its get position; a
    read that leaves the file has no defined value. *)
Definition stream_read (file : list byte) (pos : Z) (n : nat)
    : result (list byte * Z) :=
  bs <- load {| mem_base := 0; mem_bytes := file |} pos n ;;
  Ok (bs, pos + Z.of_nat n).

(** [read<uint32_t>(stream)] *)
Definition read_uint32 (file : list byte) (pos : Z) : result (Z * Z) :=
  '(bs, pos') <- stream_read file pos 4 ;; Ok (le_combine bs, pos').

(** Modelled from the spec: [alignStream<step>(stream)] of Helpers.h:
    "align cursor to ALIGN_STEP". *)
Definition alignStream (step : Z) (pos : Z) : Z := ceilInteger pos step.

Definition EXPA_MAGIC : Z := 0x41505845.
Definition CHNK_MAGIC : Z := 0x4B4E4843.

(** [std::expected<T, std::string>] *)
Inductive expected (A : Type) : Type :=
| Value (a : A)
| Unexpected (msg : string).
Arguments Value {A} a.
Arguments Unexpected {A} msg.

(** [std::format("{}", j)] for an [int32_t] *)
Definition format_int (j : Z) : string :=
  DecimalString.NilZero.string_of_int (Z.to_int j).

(** * EXPANew.cpp and EXPAnew.h *)

Module EXPANew.

(** ** The type-string table *)

Definition convertEntryType (val : string) : EntryType :=
  let map : list (string * EntryType) :=
    [ ("int", INT32); ("int array", INT_ARRAY); ("float", FLOAT);
      ("int8", INT8); ("int16", INT16); ("int32", INT32); ("float", FLOAT);
      ("bool", BOOL); ("empty", EMPTY); ("string", STRING);
      ("string2", STRING2); ("string3", STRING3) ]%string in
  match find (fun kv => String.eqb (fst kv) val) map with
  | Some kv => snd kv
  | None => EMPTY
  end.

Definition toString (t : EntryType) : string :=
  match t with
  | UNK0 => "unk0"
  | UNK1 => "unk1"
  | INT32 => "int32"
  | INT16 => "int16"
  | INT8 => "int8"
  | FLOAT => "float"
  | STRING3 => "string3"
  | STRING => "string"
  | STRING2 => "string2"
  | BOOL => "bool"
  | EMPTY => "empty"
  | INT_ARRAY => "int array"
  | _ => "invalid"
  end%string.

(** ** CHNK entries *)

(** [CHNKEntry(uint32_t offset, const std::string& data)]: a zeroed vector
    of [ceilInteger<4>(size + 1)] chars with the string copied to its
    front. *)
Definition CHNKEntry_of_string (off : Z) (data : string) : CHNKEntry :=
  let bytes := list_byte_of_string data in
  {| offset := to_uint32 off;
     value := padded bytes (ceilInteger (len bytes + 1) 4) |}.

(** [CHNKEntry(uint32_t offset, const std::vector<int32_t>& data)]: a
    zeroed vector of [4 * size] chars; [std::copy] then assigns the
    elements one by one, each [int32_t] converted to one [char]. *)
Definition CHNKEntry_of_int_array (off : Z) (data : list Z) : CHNKEntry :=
  {| offset := to_uint32 off;
     value := padded (map byte.of_Z data) (len data * 4) |}.

(** ** Row codec *)

(** [writeEXPAEntry(base_offset, data, type, value)], the pointer [data]
    being [off] bytes into [buf]. *)
Definition writeEXPAEntry (base_offset : Z) (buf : list byte) (off : Z)
    (t : EntryType) (v : EntryValue) : result (list byte * option CHNKEntry) :=
  match t with
  | INT32 =>
      x <- get_int32 v ;; buf' <- store buf off (le_split 4 x) ;; Ok (buf', None)
  | INT16 =>
      x <- get_int16 v ;; buf' <- store buf off (le_split 2 x) ;; Ok (buf', None)
  | INT8 =>
      x <- get_int8 v ;; buf' <- store buf off (le_split 1 x) ;; Ok (buf', None)
  | FLOAT =>
      x <- get_float v ;; buf' <- store buf off (le_split 4 x) ;; Ok (buf', None)
  | STRING3 | STRING | STRING2 =>
      buf' <- store buf off (le_split 8 0) ;;
      str <- get_string v ;;
      if negb (string_empty str)
      then Ok (buf', Some (CHNKEntry_of_string base_offset str))
      else Ok (buf', None)
  | INT_ARRAY =>
      array <- get_int_array v ;;
      buf1 <- store buf off (le_split 4 (to_int32 (len array))) ;;
      buf2 <- store buf1 (off + 8) (le_split 8 0) ;;
      Ok (buf2, Some (CHNKEntry_of_int_array (base_offset + 8) array))
  | _ => Ok (buf, None)
  end.

Definition write_step (base_offset : Z) (st : WriteState)
    (e : StructureEntry) (entry : EntryValue) : result WriteState :=
  let t := type e in
  st1 <- (if negb (is_BOOL t)
          then st' <- (if 0 <? ws_bitCounter st then flush st else Ok st) ;;
               Ok {| ws_data := ws_data st';
                     ws_offset := ceilInteger (ws_offset st') (getAlignment t);
                     ws_bitCounter := ws_bitCounter st';
                     ws_currentBool := ws_currentBool st';
                     ws_chunkEntries := ws_chunkEntries st' |}
          else Ok st) ;;
  '(data', chunk) <- writeEXPAEntry (to_uint32 (base_offset + ws_offset st1))
                       (ws_data st1) (ws_offset st1) t entry ;;
  let chunks := match chunk with
                | Some c => ws_chunkEntries st1 ++ [c]
                | None => ws_chunkEntries st1
                end in
  if is_BOOL t
  then b <- get_bool entry ;;
       bits <- bitset_set (ws_currentBool st1) (ws_bitCounter st1) b ;;
       Ok {| ws_data := data';
             ws_offset := ws_offset st1;
             ws_bitCounter := ws_bitCounter st1 + 1;
             ws_currentBool := bits;
             ws_chunkEntries := chunks |}
  else Ok {| ws_data := data';
             ws_offset := ws_offset st1 + getSize t;
             ws_bitCounter := ws_bitCounter st1;
             ws_currentBool := ws_currentBool st1;
             ws_chunkEntries := chunks |}.

(** The loop over [std::views::zip(structure, entries)]: it ends with the
    shorter of the two. *)
Fixpoint write_loop (base_offset : Z) (s : list StructureEntry)
    (entries : list EntryValue) (st : WriteState) : result WriteState :=
  match s, entries with
  | e :: s', v :: entries' =>
      st' <- write_step base_offset st e v ;;
      write_loop base_offset s' entries' st'
  | _, _ => Ok st
  end.

(** The whole body of [Structure::writeEXPA], up to the [return]: the
    final state, with the cursor after the trailing flush. *)
Definition writeEXPA_run (s : Structure) (base_offset : Z) (data : list byte)
    (entries : list EntryValue) : result WriteState :=
  st <- write_loop base_offset (structure s) entries
          {| ws_data := data; ws_offset := 0; ws_bitCounter := 0;
             ws_currentBool := 0; ws_chunkEntries := [] |} ;;
  if 0 <? ws_bitCounter st then flush st else Ok st.

(** [Structure::writeEXPA(base_offset, data, entries)]: the buffer behind
    [data] after the call and the returned entries. *)
Definition writeEXPA (s : Structure) (base_offset : Z) (data : list byte)
    (entries : list EntryValue) : result (list byte * list CHNKEntry) :=
  st <- writeEXPA_run s base_offset data entries ;;
  Ok (ws_data st, ws_chunkEntries st).

(** [readEXPAEntry(type, data, bitCounter)], [data] being an address. *)
Definition readEXPAEntry (m : memory) (t : EntryType) (data : Z)
    (bitCounter : Z) : result EntryValue :=
  match t with
  | INT32 => x <- load_int m data 4 ;; Ok (VInt32 x)
  | INT16 => x <- load_int m data 2 ;; Ok (VInt16 x)
  | INT8 => x <- load_int m data 1 ;; Ok (VInt8 x)
  | FLOAT => x <- load_uint m data 4 ;; Ok (VFloat x)
  | STRING3 | STRING | STRING2 =>
      ptr <- load_uint m data 8 ;;
      if ptr =? 0 then Ok (VString "")
      else str <- load_cstring m ptr ;; Ok (VString str)
  | BOOL =>
      x <- load_int m data 4 ;;
      Ok (VBool (Z.land (Z.shiftr x bitCounter) 1 =? 1))
  | INT_ARRAY =>
      count <- load_int m data 4 ;;
      ptr <- load_uint m (data + 8) 8 ;;
      values <- load_int32s m ptr (Z.to_nat count) ;;
      Ok (VIntArray values)
  | _ => Ok VNone
  end.

Definition read_step (m : memory) (data : Z)
    (st : list EntryValue * Z * Z) (e : StructureEntry)
    : result (list EntryValue * Z * Z) :=
  let '(values, off, bitCounter) := st in
  let t := type e in
  let '(off, bitCounter) :=
    if negb (bitCounter =? 0) || negb (is_BOOL t)
    then (ceilInteger off (getAlignment t), 0)
    else (off, bitCounter) in
  v <- readEXPAEntry m t (data + off) bitCounter ;;
  let off := if bitCounter =? 0 then off + getSize t else off in
  let bitCounter := if is_BOOL t then bitCounter + 1 else bitCounter in
  Ok (values ++ [v], off, bitCounter).

Fixpoint read_loop (m : memory) (data : Z) (s : list StructureEntry)
    (st : list EntryValue * Z * Z) : result (list EntryValue * Z * Z) :=
  match s with
  | [] => Ok st
  | e :: s' => st' <- read_step m data st e ;; read_loop m data s' st'
  end.

(** [Structure::readEXPA(data)] *)
Definition readEXPA (s : Structure) (m : memory) (data : Z)
    : result (list EntryValue) :=
  match structure s with
  | [] => Ok []
  | _ =>
      '(values, _, _) <- read_loop m data (structure s) ([], 0, 0) ;;
      Ok values
  end.

Definition size_step (st : Z * Z) (e : StructureEntry) : Z * Z :=
  let '(currentSize, bitCounter) := st in
  let '(currentSize, bitCounter) :=
    if negb (bitCounter =? 0) || negb (is_BOOL (type e))
    then (ceilInteger currentSize (getAlignment (type e)), 0)
    else (currentSize, bitCounter) in
  let currentSize :=
    if bitCounter =? 0 then currentSize + getSize (type e) else currentSize in
  let bitCounter := if is_BOOL (type e) then bitCounter + 1 else bitCounter in
  (currentSize, bitCounter).

(** The value of [currentSize] when the loop of [getEXPASize] ends. *)
Definition layout_size (s : list StructureEntry) : Z :=
  fst (fold_left size_step s (0, 0)).

(** [Structure::getEXPASize()] *)
Definition getEXPASize (s : Structure) : Z :=
  match structure s with
  | [] => 0
  | _ =>
      let currentSize := layout_size (structure s) in
      let currentSize :=
        if len (structure s) mod 2 =? 0
        then ceilInteger currentSize 8 else currentSize in
      to_uint32 currentSize
  end.

Definition getEntryCount (s : Structure) : Z := len (structure s).

(** ** The structure of a table *)

Section GetStructure.

(** [getStructureFromFile(filePath, tableName)] in the environment of
    the call, as a function of the table name. *)
Variable fromFile : string -> result (list StructureEntry).

(** The in-band preamble of the 64-bit dialect: [count] type codes, the
    fields named after type and index. *)
Fixpoint read_preamble (file : list byte) (pos : Z) (count : nat) (j : Z)
    : result (list StructureEntry * Z) :=
  match count with
  | O => Ok ([], pos)
  | S k =>
      '(code, pos1) <- read_uint32 file pos ;;
      let t := EntryType_of_code code in
      let e := {| name := toString t ++ " " ++ format_int (to_int32 j);
                  type := t |} in
      '(rest, pos2) <- read_preamble file pos1 k (j + 1) ;;
      Ok (e :: rest, pos2)
  end.

Fixpoint any_mismatch (a b : list StructureEntry) : bool :=
  match a, b with
  | x :: a', y :: b' =>
      negb (EntryType_eqb (type x) (type y)) || any_mismatch a' b'
  | _, _ => false
  end.

(** [EXPA32::getStructure(stream, filePath, tableName)] *)
Definition EXPA32_getStructure (file : list byte) (pos : Z) (tableName : string)
    : result (Structure * Z) :=
  entries <- fromFile tableName ;;
  Ok ({| structure := entries |}, pos).

(** [EXPA64::getStructure(stream, filePath, tableName)] *)
Definition EXPA64_getStructure (file : list byte) (pos : Z) (tableName : string)
    : result (Structure * Z) :=
  '(structureCount, pos1) <- read_uint32 file pos ;;
  '(inBand, pos2) <- read_preamble file pos1 (Z.to_nat structureCount) 0 ;;
  entries <- fromFile tableName ;;
  match entries with
  | [] => Ok ({| structure := inBand |}, pos2)
  | _ =>
      if negb (len entries =? structureCount)
      then Ok ({| structure := inBand |}, pos2)
      else if any_mismatch inBand entries
      then Ok ({| structure := inBand |}, pos2)
      else Ok ({| structure := entries |}, pos2)
  end.

End GetStructure.

(** ** The container (EXPAnew.h) *)

Record FinalTable : Type := {
  ft_name : string;
  ft_structure : Structure;
  ft_entries : list (list EntryValue) }.

Record FinalFile : Type := { tables : list FinalTable }.

(** The concept [EXPA]: what a dialect provides. *)
Record Dialect : Type := {
  ALIGN_STEP : Z;
  HAS_STRUCTURE_SECTION : bool;
  getStructure : (string -> result (list StructureEntry)) ->
                 list byte -> Z -> string -> result (Structure * Z) }.

Definition EXPA32 : Dialect :=
  {| ALIGN_STEP := 4; HAS_STRUCTURE_SECTION := false;
     getStructure := EXPA32_getStructure |}.

Definition EXPA64 : Dialect :=
  {| ALIGN_STEP := 8; HAS_STRUCTURE_SECTION := true;
     getStructure := EXPA64_getStructure |}.

(** *** [writeEXPA<expa>(file, path)] *)

Fixpoint write_rows (s : Structure) (actualStructureSize : Z)
    (entries : list (list EntryValue)) (os : ostream) (chnk : list CHNKEntry)
    : result (ostream * list CHNKEntry) :=
  match entries with
  | [] => Ok (os, chnk)
  | entry :: rest =>
      let data := repeat Byte.xcc (Z.to_nat actualStructureSize) in
      '(data', chunks) <- writeEXPA s (to_uint32 (os_pos os)) data entry ;;
      write_rows s actualStructureSize rest (os_write os data') (chnk ++ chunks)
  end.

(** The statements of the table loop before the rows: name, structure
    section, sizes. *)
Definition write_table_header (expa : Dialect) (table : FinalTable)
    (os : ostream) : ostream :=
  let s := ft_structure table in
  let nameSize := ceilInteger (len (list_byte_of_string (ft_name table)) + 1) 4 in
  let structureSize := getEXPASize s in
  let os := write_uint32 os nameSize in
  let os := write_string os (ft_name table) nameSize in
  let os :=
    if HAS_STRUCTURE_SECTION expa
    then fold_left (fun os entry => write_uint32 os (EntryType_code (type entry)))
           (structure s) (write_uint32 os (to_uint32 (getEntryCount s)))
    else os in
  let os := write_uint32 os structureSize in
  write_uint32 os (to_uint32 (len (ft_entries table))).

Definition write_table (expa : Dialect) (table : FinalTable)
    (os : ostream) (chnk : list CHNKEntry) : result (ostream * list CHNKEntry) :=
  let s := ft_structure table in
  let structureSize := getEXPASize s in
  let actualStructureSize := to_uint32 (ceilInteger structureSize 8) in
  let os := write_table_header expa table os in
  let os := os_seekp os (ceilInteger (os_pos os) 8) in
  write_rows s actualStructureSize (ft_entries table) os chnk.

Fixpoint write_tables (expa : Dialect) (tbls : list FinalTable)
    (os : ostream) (chnk : list CHNKEntry) : result (ostream * list CHNKEntry) :=
  match tbls with
  | [] => Ok (os, chnk)
  | table :: rest =>
      '(os', chnk') <- write_table expa table os chnk ;;
      write_tables expa rest os' chnk'
  end.

Definition write_chnk_entry (os : ostream) (entry : CHNKEntry) : ostream :=
  let os := write_uint32 os (offset entry) in
  let os := write_uint32 os (to_uint32 (len (value entry))) in
  os_write os (value entry).

(** The stream when the table loop has ended and the entries collected
    by then: the CHNK header is written at [os_pos] of this stream. *)
Definition writeEXPA_tables (expa : Dialect) (file : FinalFile)
    : result (ostream * list CHNKEntry) :=
  let os := {| os_bytes := []; os_pos := 0 |} in
  let os := write_uint32 os EXPA_MAGIC in
  let os := write_uint32 os (to_uint32 (len (tables file))) in
  write_tables expa (tables file) os [].

(** The bytes of the file that [writeEXPA<expa>] leaves at [path]. *)
Definition writeEXPA_file (expa : Dialect) (file : FinalFile)
    : result (list byte) :=
  '(os, chnk) <- writeEXPA_tables expa file ;;
  let os := write_uint32 os CHNK_MAGIC in
  let os := write_uint32 os (to_uint32 (len chnk)) in
  Ok (os_bytes (fold_left write_chnk_entry chnk os)).

(** *** [readEXPA<expa>(path)] *)

Record TableEntry : Type := {
  te_name : string;
  te_dataOffset : Z;
  te_entryCount : Z;
  te_entrySize : Z;
  te_structure : Structure }.

Section Reader.

Variable expa : Dialect.
Variable fromFile : string -> result (list StructureEntry).
(** The bytes of the file, which the stream reads. *)
Variable file : list byte.

(** One round of the table loop; [inr] is the early [return]. *)
Definition read_table (pos : Z) : result ((TableEntry * Z) + string) :=
  let pos := alignStream (ALIGN_STEP expa) pos in
  '(nameLength, pos) <- read_uint32 file pos ;;
  '(nameData, pos) <- stream_read file pos (Z.to_nat nameLength) ;;
  match until_NUL nameData with
  | None => Undefined
  | Some nameBytes =>
      let name := string_of_list_byte nameBytes in
      '(structure, pos) <- getStructure expa fromFile file pos name ;;
      '(entrySize, pos) <- read_uint32 file pos ;;
      '(entryCount, pos) <- read_uint32 file pos ;;
      let pos := alignStream 8 pos in
      let entry := {| te_name := name; te_dataOffset := pos;
                      te_entryCount := entryCount; te_entrySize := entrySize;
                      te_structure := structure |} in
      let pos := pos + to_uint32 (entryCount * to_uint32 (ceilInteger entrySize 8)) in
      let structureSize := getEXPASize structure in
      if negb (structureSize =? entrySize)
      then Ok (inr "Structure size doesn't match entry size."%string)
      else Ok (inl (entry, pos))
  end.

Fixpoint read_tables (count : nat) (pos : Z) (acc : list TableEntry)
    : result ((list TableEntry * Z) + string) :=
  match count with
  | O => Ok (inl (acc, pos))
  | S k =>
      r <- read_table pos ;;
      match r with
      | inl (entry, pos') => read_tables k pos' (acc ++ [entry])
      | inr msg => Ok (inr msg)
      end
  end.

(** The CHNK loop: each entry stores the address of its payload, a
    native 64-bit word, into the image at the entry's offset. *)
Fixpoint patch_chunks (base : Z) (numEntry : nat) (pos : Z) (content : list byte)
    : result (list byte) :=
  match numEntry with
  | O => Ok content
  | S k =>
      '(off, pos) <- read_uint32 file pos ;;
      '(size, pos) <- read_uint32 file pos ;;
      let ptr := to_uint64 (base + pos) in
      content' <- store content off (le_split 8 ptr) ;;
      patch_chunks base k (pos + size) content'
  end.

Fixpoint read_rows (m : memory) (s : Structure) (increase : Z)
    (count : nat) (off : Z) : result (list (list EntryValue)) :=
  match count with
  | O => Ok []
  | S k =>
      row <- readEXPA s m (mem_base m + off) ;;
      rows <- read_rows m s increase k (off + increase) ;;
      Ok (row :: rows)
  end.

Fixpoint decode_tables (m : memory) (tbls : list TableEntry)
    : result (list FinalTable) :=
  match tbls with
  | [] => Ok []
  | table :: rest =>
      let increase := to_uint32 (ceilInteger (te_entrySize table) 8) in
      values <- read_rows m (te_structure table) increase
                  (Z.to_nat (te_entryCount table)) (te_dataOffset table) ;;
      others <- decode_tables m rest ;;
      Ok ({| ft_name := te_name table; ft_structure := te_structure table;
             ft_entries := values |} :: others)
  end.

(** [readEXPA<expa>(path)], the image of the file being loaded at the
    address [base]. *)
Definition readEXPA_file (base : Z) : result (expected FinalFile) :=
  '(magic, pos) <- read_uint32 file 0 ;;
  '(tableCount, pos) <- read_uint32 file pos ;;
  if negb (magic =? EXPA_MAGIC)
  then Ok (Unexpected "Given file lacks EXPA header.")
  else
    r <- read_tables (Z.to_nat (to_int32 tableCount)) pos [] ;;
    match r with
    | inr msg => Ok (Unexpected msg)
    | inl (tbls, pos) =>
        let pos := alignStream (ALIGN_STEP expa) pos in
        '(magic, pos) <- read_uint32 file pos ;;
        '(numEntry, pos) <- read_uint32 file pos ;;
        if negb (magic =? CHNK_MAGIC)
        then Ok (Unexpected "Given file lacks CHNK header.")
        else
          content <- patch_chunks base (Z.to_nat numEntry) pos file ;;
          finalTable <- decode_tables {| mem_base := base; mem_bytes := content |} tbls ;;
          Ok (Value {| tables := finalTable |})
    end.

End Reader.

End EXPANew.

(** * EXPA.cpp (the later revision) *)

Module EXPA.

(** ** The type-string table *)

Definition getTypeMap : list (string * EntryType) :=
  [ ("byte", INT8); ("short", INT16); ("int", INT32);
    ("int array", INT_ARRAY); ("float", FLOAT);
    ("int8", INT8); ("int16", INT16); ("int32", INT32); ("float", FLOAT);
    ("bool", BOOL); ("empty", EMPTY); ("string", STRING);
    ("string2", STRING2); ("string3", STRING3) ]%string.

Definition convertEntryType (val : string) : EntryType :=
  match find (fun kv => String.eqb (fst kv) val) getTypeMap with
  | Some kv => snd kv
  | None => EMPTY
  end.

Definition toString (t : EntryType) : string :=
  match t with
  | UNK1 => "unk1"
  | INT32 => "int32"
  | INT16 => "int16"
  | INT8 => "int8"
  | FLOAT => "float"
  | STRING3 => "string3"
  | STRING => "string"
  | STRING2 => "string2"
  | BOOL => "bool"
  | EMPTY => "empty"
  | INT_ARRAY => "int array"
  | _ => "invalid"
  end%string.

(** ** CHNK entries *)

(** [CHNKEntry(uint32_t offset, const std::string& data)]: here the zeroed
    vector has [ceilInteger<4>(size + 2)] chars. *)
Definition CHNKEntry_of_string (off : Z) (data : string) : CHNKEntry :=
  let bytes := list_byte_of_string data in
  {| offset := to_uint32 off;
     value := padded bytes (ceilInteger (len bytes + 2) 4) |}.

(** [CHNKEntry(uint32_t offset, const std::vector<int32_t>& data)]: the
    object representation of the elements, copied with [std::copy_n]. *)
Definition CHNKEntry_of_int_array (off : Z) (data : list Z) : CHNKEntry :=
  {| offset := to_uint32 off;
     value := flat_map (le_split 4) data |}.

(** ** Row codec *)

Definition writeEXPAEntry (base_offset : Z) (buf : list byte) (off : Z)
    (t : EntryType) (v : EntryValue) : result (list byte * option CHNKEntry) :=
  match t with
  | INT32 =>
      x <- get_int32 v ;; buf' <- store buf off (le_split 4 x) ;; Ok (buf', None)
  | INT16 =>
      x <- get_int16 v ;; buf' <- store buf off (le_split 2 x) ;; Ok (buf', None)
  | INT8 =>
      x <- get_int8 v ;; buf' <- store buf off (le_split 1 x) ;; Ok (buf', None)
  | FLOAT =>
      x <- get_float v ;; buf' <- store buf off (le_split 4 x) ;; Ok (buf', None)
  | STRING3 | STRING | STRING2 =>
      buf' <- store buf off (le_split 8 0) ;;
      str <- get_string v ;;
      if negb (string_empty str)
      then Ok (buf', Some (CHNKEntry_of_string base_offset str))
      else Ok (buf', None)
  | INT_ARRAY =>
      array <- get_int_array v ;;
      buf1 <- store buf off (le_split 4 (to_int32 (len array))) ;;
      buf2 <- store buf1 (off + 8) (le_split 8 0) ;;
      match array with
      | _ :: _ => Ok (buf2, Some (CHNKEntry_of_int_array (base_offset + 8) array))
      | [] => Ok (buf2, None)
      end
  | _ => Ok (buf, None)
  end.

Definition size_step (st : Z * Z) (e : StructureEntry) : Z * Z :=
  let '(currentSize, bitCounter) := st in
  let '(currentSize, bitCounter) :=
    if (bitCounter =? 0) || (32 <=? bitCounter) || negb (is_BOOL (type e))
    then (ceilInteger currentSize (getAlignment (type e)), 0)
    else (currentSize, bitCounter) in
  let currentSize :=
    if bitCounter =? 0 then currentSize + getSize (type e) else currentSize in
  let bitCounter := if is_BOOL (type e) then bitCounter + 1 else bitCounter in
  (currentSize, bitCounter).

(** The value of [currentSize] when the loop of [getEXPASize] ends. *)
Definition layout_size (s : list StructureEntry) : Z :=
  fst (fold_left size_step s (0, 0)).

(** [Structure::getEXPASize()] *)
Definition getEXPASize (s : Structure) : Z :=
  match structure s with
  | [] => 0
  | _ => to_uint32 (ceilInteger (layout_size (structure s)) 8)
  end.

Definition getEntryCount (s : Structure) : Z := len (structure s).

Definition write_step (st : WriteState) (e : StructureEntry)
    (entry : EntryValue) : result WriteState :=
  let t := type e in
  st1 <- (if negb (is_BOOL t) || (32 <=? ws_bitCounter st)
          then st' <- (if 0 <? ws_bitCounter st then flush st else Ok st) ;;
               Ok {| ws_data := ws_data st';
                     ws_offset := ceilInteger (ws_offset st') (getAlignment t);
                     ws_bitCounter := ws_bitCounter st';
                     ws_currentBool := ws_currentBool st';
                     ws_chunkEntries := ws_chunkEntries st' |}
          else Ok st) ;;
  '(data', chunk) <- writeEXPAEntry (ws_offset st1)
                       (ws_data st1) (ws_offset st1) t entry ;;
  let chunks := match chunk with
                | Some c => ws_chunkEntries st1 ++ [c]
                | None => ws_chunkEntries st1
                end in
  if is_BOOL t
  then b <- get_bool entry ;;
       bits <- bitset_set (ws_currentBool st1) (ws_bitCounter st1) b ;;
       Ok {| ws_data := data';
             ws_offset := ws_offset st1;
             ws_bitCounter := ws_bitCounter st1 + 1;
             ws_currentBool := bits;
             ws_chunkEntries := chunks |}
  else Ok {| ws_data := data';
             ws_offset := ws_offset st1 + getSize t;
             ws_bitCounter := ws_bitCounter st1;
             ws_currentBool := ws_currentBool st1;
             ws_chunkEntries := chunks |}.

(** The loop over [std::views::zip(structure, entries)]. *)
Fixpoint write_loop (s : list StructureEntry) (entries : list EntryValue)
    (st : WriteState) : result WriteState :=
  match s, entries with
  | e :: s', v :: entries' =>
      st' <- write_step st e v ;; write_loop s' entries' st'
  | _, _ => Ok st
  end.

(** The body of [Structure::writeEXPA] up to the [return]: the final
    state, with the cursor after the trailing flush. *)
Definition writeEXPA_run (s : Structure) (entries : list EntryValue)
    : result WriteState :=
  st <- write_loop (structure s) entries
          {| ws_data := repeat Byte.xcc (Z.to_nat (getEXPASize s));
             ws_offset := 0; ws_bitCounter := 0;
             ws_currentBool := 0; ws_chunkEntries := [] |} ;;
  if 0 <? ws_bitCounter st then flush st else Ok st.

Record EXPAEntry : Type := { data : list byte; chunk : list CHNKEntry }.

(** [Structure::writeEXPA(entries)] *)
Definition writeEXPA (s : Structure) (entries : list EntryValue)
    : result EXPAEntry :=
  st <- writeEXPA_run s entries ;;
  Ok {| data := ws_data st; chunk := ws_chunkEntries st |}.

(** [readEXPAEntry(type, data, bitCounter)]; the word of a BOOL is read
    as [uint32_t] here. *)
Definition readEXPAEntry (m : memory) (t : EntryType) (data : Z)
    (bitCounter : Z) : result EntryValue :=
  match t with
  | INT32 => x <- load_int m data 4 ;; Ok (VInt32 x)
  | INT16 => x <- load_int m data 2 ;; Ok (VInt16 x)
  | INT8 => x <- load_int m data 1 ;; Ok (VInt8 x)
  | FLOAT => x <- load_uint m data 4 ;; Ok (VFloat x)
  | STRING3 | STRING | STRING2 =>
      ptr <- load_uint m data 8 ;;
      if ptr =? 0 then Ok (VString "")
      else str <- load_cstring m ptr ;; Ok (VString str)
  | BOOL =>
      x <- load_uint m data 4 ;;
      Ok (VBool (Z.land (Z.shiftr x bitCounter) 1 =? 1))
  | INT_ARRAY =>
      count <- load_int m data 4 ;;
      ptr <- load_uint m (data + 8) 8 ;;
      values <- load_int32s m ptr (Z.to_nat count) ;;
      Ok (VIntArray values)
  | _ => Ok VNone
  end.

Definition read_step (m : memory) (data : Z)
    (st : list EntryValue * Z * Z) (e : StructureEntry)
    : result (list EntryValue * Z * Z) :=
  let '(values, off, bitCounter) := st in
  let t := type e in
  let '(off, bitCounter) :=
    if negb (is_BOOL t) || (32 <=? bitCounter)
    then
      let off := if 0 <? bitCounter then off + getSize BOOL else off in
      (ceilInteger off (getAlignment t), 0)
    else (off, bitCounter) in
  v <- readEXPAEntry m t (data + off) bitCounter ;;
  if is_BOOL t
  then Ok (values ++ [v], off, bitCounter + 1)
  else Ok (values ++ [v], off + getSize t, bitCounter).

Fixpoint read_loop (m : memory) (data : Z) (s : list StructureEntry)
    (st : list EntryValue * Z * Z) : result (list EntryValue * Z * Z) :=
  match s with
  | [] => Ok st
  | e :: s' => st' <- read_step m data st e ;; read_loop m data s' st'
  end.

(** [Structure::readEXPA(data)] *)
Definition readEXPA (s : Structure) (m : memory) (data : Z)
    : result (list EntryValue) :=
  match structure s with
  | [] => Ok []
  | _ =>
      '(values, _, _) <- read_loop m data (structure s) ([], 0, 0) ;;
      Ok values
  end.

End EXPA.

(** * EXPA.cpp: the CSV side *)

(** ** Conversions of the C++ library *)

(** The exceptions of [std::stoi]. *)
Inductive conv_exn : Set :=
| invalid_argument      (* no conversion could be performed *)
| conv_out_of_range.    (* the value read is not a value of [int] *)

(** [std::isspace] in the "C" locale: space and the controls 9 to 13. *)
Definition isspace (c : ascii) : bool :=
  let n := Z.of_N (N_of_ascii c) in
  (9 <=? n) && (n <=? 13) || (n =? 32).

Definition digit_value (c : ascii) : option Z :=
  let n := Z.of_N (N_of_ascii c) in
  if (48 <=? n) && (n <=? 57) then Some (n - 48) else None.

Fixpoint skip_spaces (s : string) : string :=
  match s with
  | String c r => if isspace c then skip_spaces r else s
  | EmptyString => s
  end.

(** The decimal digits at the start of [s], read onto [acc]. *)
Fixpoint read_digits (s : string) (acc : Z) : Z :=
  match s with
  | String c r =>
      match digit_value c with
      | Some d => read_digits r (10 * acc + d)
      | None => acc
      end
  | EmptyString => acc
  end.

(** [std::stoi(str)]: [strtol] in base 10 (white space, a sign, digits;
    what follows the digits is ignored), [std::invalid_argument] where
    there is no digit, [std::out_of_range] where the value is no [int]. *)
Definition stoi (str : string) : conv_exn + Z :=
  let s := skip_spaces str in
  let '(negative, s) :=
    match s with
    | String c r =>
        if Ascii.eqb c "-" then (true, r)
        else if Ascii.eqb c "+" then (false, r)
        else (false, s)
    | EmptyString => (false, s)
    end in
  match s with
  | String c _ =>
      match digit_value c with
      | Some _ =>
          let v := read_digits s 0 in
          let v := if negative then - v else v in
          if (- 2 ^ 31 <=? v) && (v <? 2 ^ 31) then inr v
          else inl conv_out_of_range
      | None => inl invalid_argument
      end
  | EmptyString => inl invalid_argument
  end.

(** [str.find_last_of(c)] and [str.find_first_of(c)]; [None] is [npos]. *)
Fixpoint find_last_of (c : ascii) (s : string) : option nat :=
  match s with
  | EmptyString => None
  | String a r =>
      match find_last_of c r with
      | Some i => Some (S i)
      | None => if Ascii.eqb a c then Some O else None
      end
  end.

Fixpoint find_first_of (c : ascii) (s : string) : option nat :=
  match s with
  | EmptyString => None
  | String a r =>
      if Ascii.eqb a c then Some O else option_map S (find_first_of c r)
  end.

(** [str.substr(0, count)], [count] being [npos] or a position of [str]. *)
Definition substr0 (s : string) (count : option nat) : string :=
  match count with
  | Some n => String.substring 0 n s
  | None => s
  end.

(** [str | std::views::split(sep)]: the pieces between the separators; no
    piece for the empty string, an empty piece after a last separator. *)
Fixpoint split_pieces (sep : ascii) (s : string) : list string :=
  match s with
  | EmptyString => [EmptyString]
  | String c r =>
      if Ascii.eqb c sep then EmptyString :: split_pieces sep r
      else match split_pieces sep r with
           | piece :: rest => String c piece :: rest
           | [] => [String c EmptyString]
           end
  end.

Definition split (sep : ascii) (s : string) : list string :=
  match s with
  | EmptyString => []
  | _ => split_pieces sep s
  end.

(** [range | std::views::join_with(sep) | std::ranges::to<std::string>()] *)
Fixpoint join_with (sep : ascii) (l : list string) : string :=
  match l with
  | [] => EmptyString
  | [x] => x
  | x :: r => x ++ String sep (join_with sep r)
  end.

(** [stream << std::quoted(s, delim, escape)] *)
Fixpoint quoted_body (delim escape : ascii) (s : string) : string :=
  match s with
  | EmptyString => String delim EmptyString
  | String c r =>
      if Ascii.eqb c delim || Ascii.eqb c escape
      then String escape (String c (quoted_body delim escape r))
      else String c (quoted_body delim escape r)
  end.

Definition quoted (s : string) (delim escape : ascii) : string :=
  String delim (quoted_body delim escape s).

(** The character of the double quote. *)
Definition dquote : ascii := "034"%char.

(** ** Cells *)

Section CSV.

(** [std::format("{}", x)] for a [float], on its bit pattern, and
    [std::stof]: the text of a float is left to the library. *)
Variable format_float : Z -> string.
Variable stof : string -> conv_exn + Z.

(** [getCSVString(type, value)] *)
Definition getCSVString (t : EntryType) (v : EntryValue) : result string :=
  match t with
  | INT32 => x <- get_int32 v ;; Ok (format_int x)
  | INT16 => x <- get_int16 v ;; Ok (format_int x)
  | INT8 => x <- get_int8 v ;; Ok (format_int x)
  | FLOAT => x <- get_float v ;; Ok (format_float x)
  | BOOL => b <- get_bool v ;; Ok (if b then "true" else "false")%string
  | STRING3 | STRING | STRING2 =>
      s <- get_string v ;; Ok (quoted s dquote dquote)
  | INT_ARRAY =>
      a <- get_int_array v ;; Ok (join_with " " (map format_int a))
  | _ => Ok EmptyString
  end.

(** The elements of an int array, converted one after the other. *)
Fixpoint stoi_all (l : list string) : conv_exn + list Z :=
  match l with
  | [] => inr []
  | x :: r =>
      match stoi x with
      | inl e => inl e
      | inr z => match stoi_all r with
                 | inl e => inl e
                 | inr zs => inr (z :: zs)
                 end
      end
  end.

(** [getCSVValue(type, value)] *)
Definition getCSVValue (t : EntryType) (value : string)
    : conv_exn + EntryValue :=
  match t with
  | INT32 =>
      match stoi value with inl e => inl e | inr z => inr (VInt32 z) end
  | INT16 =>
      match stoi value with
      | inl e => inl e
      | inr z => inr (VInt16 (to_signed 16 z))
      end
  | INT8 =>
      match stoi value with
      | inl e => inl e
      | inr z => inr (VInt8 (to_signed 8 z))
      end
  | FLOAT =>
      match stof value with inl e => inl e | inr x => inr (VFloat x) end
  | STRING3 | STRING | STRING2 => inr (VString value)
  | BOOL => inr (VBool (String.eqb value "true"))
  | INT_ARRAY =>
      match stoi_all (split " " value) with
      | inl e => inl e
      | inr a => inr (VIntArray a)
      end
  | _ => inr VNone
  end.

(** The view [std::views::zip_transform(getCSVValue, structure, data)],
    collected. *)
Fixpoint read_cells (s : list StructureEntry) (data : list string)
    : conv_exn + list EntryValue :=
  match s, data with
  | e :: s', d :: data' =>
      match getCSVValue (type e) d with
      | inl x => inl x
      | inr v => match read_cells s' data' with
                 | inl x => inl x
                 | inr vs => inr (v :: vs)
                 end
      end
  | _, _ => inr []
  end.

(** [Structure::readCSV(data)] *)
Definition readCSV (s : Structure) (data : list string)
    : conv_exn + list EntryValue :=
  read_cells (structure s) data.

(** The view [std::views::zip_transform(getCSVString, structure,
    entries)], collected. *)
Fixpoint write_cells (s : list StructureEntry) (entries : list EntryValue)
    : result (list string) :=
  match s, entries with
  | e :: s', v :: entries' =>
      cell <- getCSVString (type e) v ;;
      cells <- write_cells s' entries' ;;
      Ok (cell :: cells)
  | _, _ => Ok []
  end.

(** [Structure::getCSVHeader()] *)
Definition getCSVHeader (s : Structure) : string :=
  join_with "," (map name (structure s)).

(** [Structure::writeCSV(entries)]: the header it sends to its local
    stream is not part of what it returns. *)
Definition writeCSV (s : Structure) (entries : list EntryValue)
    : result string :=
  cells <- write_cells (structure s) entries ;;
  Ok (join_with "," cells).

End CSV.

(** ** CSV files and their structure *)

(** [CSVFile]: header and rows. *)
Record CSVFile : Type := {
  csv_header : list string;
  csv_rows : list (list string) }.

(** The constructor of [CSVFile], on the rows that the parser
    ([aria::csv::CsvParser], not among the sources) yields. *)
Definition CSVFile_load (parsed : list (list string)) : CSVFile :=
  fold_left
    (fun csv data =>
       match csv_header csv with
       | [] => {| csv_header := data; csv_rows := csv_rows csv |}
       | _ => {| csv_header := csv_header csv;
                 csv_rows := csv_rows csv ++ [data] |}
       end)
    parsed {| csv_header := []; csv_rows := [] |}.

(** [getCSVStructure(csv)] *)
Definition getCSVStructure (csv : CSVFile) : list StructureEntry :=
  map (fun val =>
         {| name := val;
            type := EXPA.convertEntryType
                      (substr0 val (find_last_of " " val)) |})
    (csv_header csv).

(** [getStructureCSV(csv, filePath, tableName)], [fromFile] being
    [getStructureFromFile(filePath, _)]. *)
Definition getStructureCSV
    (fromFile : string -> result (list StructureEntry))
    (csv : CSVFile) (tableName : string) : result Structure :=
  let fromHeader := getCSVStructure csv in
  entries <- fromFile tableName ;;
  match entries with
  | [] => Ok {| structure := fromHeader |}
  | _ =>
      if negb (len entries =? len fromHeader)
      then Ok {| structure := fromHeader |}
      else Ok {| structure := entries |}
  end.

(** ** The names of the CSV files *)

(** [std::format("{:03}", id)] for an [int32_t]: sign, then the digits
    filled up with zeros to three characters in all. *)
Definition zero_fill (width : nat) (s : string) : string :=
  string_of_list_ascii (repeat "0"%char (width - String.length s)) ++ s.

Definition format_03 (id : Z) : string :=
  if id <? 0 then String "-" (zero_fill 2 (format_int (- id)))
  else zero_fill 3 (format_int id).

(** The file name that [exportCSV] appends to the target folder for the
    table number [table_id]: [std::format("{:03}_{}.csv", table_id,
    table.name)]. *)
Definition csv_file_name (table_id : Z) (table_name : string) : string :=
  format_03 table_id ++ "_" ++ table_name ++ ".csv".

(** [path.filename()] and [path.stem()] of a path in the generic format. *)
Definition path_filename (p : string) : string :=
  match find_last_of "/" p with
  | Some i => String.substring (S i) (String.length p - S i) p
  | None => p
  end.

Definition path_stem (p : string) : string :=
  let f := path_filename p in
  if String.eqb f "." || String.eqb f ".." then f
  else match find_last_of "." f with
       | Some (S i) => String.substring 0 (S i) f
       | _ => f
       end.

(** [str.substr(pos)] *)
Definition substr_from (pos : nat) (s : string) : result string :=
  if (pos <=? String.length s)%nat
  then Ok (String.substring pos (String.length s - pos) s)
  else Throw out_of_range.

(** The table name that [importCSV] gives the file [file]:
    [file.stem().generic_string().substr(4)]. *)
Definition csv_table_name (file : string) : result string :=
  substr_from 4 (path_stem file).

(** * MDB1new: names of archive members *)

Module MDB1.

(** [trim(view)] *)
Definition trim (view : string) : string :=
  let firstNull := find_first_of "000"%char view in
  let firstSpace := find_first_of " "%char view in
  substr0 view
    (match firstNull, firstSpace with
     | Some a, Some b => Some (Nat.min a b)
     | Some a, None => Some a
     | None, b => b
     end).

(** [FileNameEntry<name_length, extension_length>]: two character arrays. *)
Record FileNameEntry : Type := {
  fn_extension : string;
  fn_name : string }.

(** [FileNameEntry::toString()] *)
Definition toString (e : FileNameEntry) : string :=
  trim (fn_name e) ++ "." ++ trim (fn_extension e).

(** [FileTreeEntry32] and [FileTreeEntry64]: the fields are unsigned, of
    16 bits in the one and of 32 bits in the other. *)
Record FileTreeEntry : Type := {
  te_compareBit : Z;
  te_dataId : Z;
  te_left : Z;
  te_right : Z }.

(** [FileDataEntry32] and [FileDataEntry64] *)
Record FileDataEntry : Type := {
  de_offset : Z;
  de_fullSize : Z;
  de_compressedSize : Z }.

(** [ArchiveInfo::ArchiveEntry] *)
Record ArchiveEntry : Type := {
  ae_offset : Z;
  ae_fullSize : Z;
  ae_compressedSize : Z }.

(** What the index loop needs of an [ArchiveType]: the greatest value of
    its [dataId], [std::numeric_limits<decltype(dataId)>::max()]. *)
Record ArchiveType : Type := { dataId_max : Z }.

Definition DSCS : ArchiveType := {| dataId_max := 2 ^ 16 - 1 |}.
Definition HLTLDA : ArchiveType := {| dataId_max := 2 ^ 32 - 1 |}.

(** [std::map<std::string, ArchiveEntry>] *)
Definition Entries : Type :=
  @Map.Interface.map.rep string ArchiveEntry
    (Map.SortedListString.map ArchiveEntry).

(** [dataEntries.at(dataId)] *)
Definition at_ (dataEntries : list FileDataEntry) (dataId : Z)
    : result FileDataEntry :=
  if (0 <=? dataId) && (dataId <? len dataEntries)
  then match nth_error dataEntries (Z.to_nat dataId) with
       | Some d => Ok d
       | None => Throw out_of_range
       end
  else Throw out_of_range.

(** The last loop of the constructor [ArchiveInfo<MDB>::ArchiveInfo],
    over the three vectors read from the file: [treeEntries[i]] and
    [nameEntries[i]] are the heads of the two lists, and a name entry
    that is not there is an access outside the vector. *)
Fixpoint index_entries (MDB : ArchiveType)
    (treeEntries : list FileTreeEntry) (nameEntries : list FileNameEntry)
    (dataEntries : list FileDataEntry) (entries : Entries)
    : result Entries :=
  match treeEntries with
  | [] => Ok entries
  | t :: treeEntries' =>
      if te_dataId t =? dataId_max MDB
      then index_entries MDB treeEntries' (tl nameEntries) dataEntries entries
      else
        data <- at_ dataEntries (te_dataId t) ;;
        match nameEntries with
        | n :: nameEntries' =>
            index_entries MDB treeEntries' nameEntries' dataEntries
              (Map.Interface.map.put entries (toString n)
                 {| ae_offset := de_offset data;
                    ae_fullSize := de_fullSize data;
                    ae_compressedSize := de_compressedSize data |})
        | [] => Undefined
        end
  end.

End MDB1.

(** * Vocabulary of the properties *)

(** [frame buf buf' lo hi]: [buf'] is [buf] but for the bytes in
    [lo, hi). *)
Definition frame (buf buf' : list byte) (lo hi : Z) : Prop :=
  List.length buf' = List.length buf /\
  forall a n, 0 <= a -> a + Z.of_nat n <= lo \/ hi <= a ->
              slice buf' a n = slice buf a n.

(** The type strings of the schema files. *)
Definition type_strings : list string :=
  [ "byte"; "short"; "int"; "int array"; "float"; "int8"; "int16"; "int32";
    "bool"; "empty"; "string"; "string2"; "string3" ]%string.

(** The structure of scenario S1. *)
Definition scalar_row_structure : Structure :=
  {| structure := [ {| name := "a"; type := INT32 |};
                    {| name := "b"; type := INT16 |};
                    {| name := "c"; type := INT8 |} ] |}.

(** The cursor of [Structure::writeEXPA] of EXPA.cpp as a function of the
    field types alone: the pair of [offset] and [bitCounter] after a
    field. *)
Definition EXPA_cursor_step (c : Z * Z) (e : StructureEntry) : Z * Z :=
  let '(off, bitCounter) := c in
  let '(off, bitCounter) :=
    if negb (is_BOOL (type e)) || (32 <=? bitCounter)
    then (ceilInteger (if 0 <? bitCounter then off + 4 else off)
            (getAlignment (type e)), 0)
    else (off, bitCounter) in
  if is_BOOL (type e) then (off, bitCounter + 1)
  else (off + getSize (type e), bitCounter).

(** The cursor once a pending bool word has been flushed. *)
Definition flushed (c : Z * Z) : Z :=
  if 0 <? snd c then fst c + 4 else fst c.

(** Every run of BOOL fields starts with the write cursor on a multiple
    of 4. *)
Fixpoint EXPA_bool_runs_aligned (c : Z * Z) (s : list StructureEntry) : bool :=
  match s with
  | [] => true
  | e :: s' =>
      (if is_BOOL (type e) && (snd c =? 0) then fst c mod 4 =? 0 else true)
      && EXPA_bool_runs_aligned (EXPA_cursor_step c e) s'
  end.

(** The values match the types of the fields they are paired with by
    [std::views::zip]; the longer of the two lists may have a rest. *)
Fixpoint zip_matches (s : list StructureEntry) (row : list EntryValue) : bool :=
  match s, row with
  | e :: s', v :: row' => value_matches (type e) v && zip_matches s' row'
  | _, _ => true
  end.

(** The cursor of [Structure::writeEXPA] of EXPANew.cpp as a function of
    the field types alone. *)
Definition EXPANew_cursor_step (c : Z * Z) (e : StructureEntry) : Z * Z :=
  let '(off, bitCounter) := c in
  if is_BOOL (type e) then (off, bitCounter + 1)
  else (ceilInteger (if 0 <? bitCounter then off + 4 else off)
          (getAlignment (type e)) + getSize (type e), 0).

Definition starts_with_BOOL (s : list StructureEntry) : bool :=
  match s with
  | e :: _ => is_BOOL (type e)
  | [] => false
  end.

(** No BOOL field is followed directly by another BOOL field. *)
Fixpoint no_adjacent_BOOL (s : list StructureEntry) : bool :=
  match s with
  | [] => true
  | e :: s' =>
      negb (is_BOOL (type e) && starts_with_BOOL s') && no_adjacent_BOOL s'
  end.

(** The bytes of the file behind an output stream up to the put position:
    what has been written, and zeros for a gap left by a seek. *)
Definition contents (os : ostream) : list byte :=
  padded (os_bytes os) (os_pos os).

(** The put position is at or after the end of the file. *)
Definition at_end (os : ostream) : Prop := len (os_bytes os) <= os_pos os.

(** The bytes of a table header in the file. *)
Definition table_header (expa : EXPANew.Dialect) (table : EXPANew.FinalTable)
    : list byte :=
  let s := EXPANew.ft_structure table in
  let name := list_byte_of_string (EXPANew.ft_name table) in
  let nameSize := ceilInteger (len name + 1) 4 in
  le_split 4 nameSize ++ padded name nameSize
  ++ (if EXPANew.HAS_STRUCTURE_SECTION expa
      then le_split 4 (to_uint32 (EXPANew.getEntryCount s))
           ++ flat_map (fun e => le_split 4 (EntryType_code (type e))) (structure s)
      else [])
  ++ le_split 4 (EXPANew.getEXPASize s)
  ++ le_split 4 (to_uint32 (len (EXPANew.ft_entries table))).

(** The bytes of the CHNK entries in the file. *)
Definition chnk_bytes (chnk : list CHNKEntry) : list byte :=
  flat_map (fun entry => le_split 4 (offset entry)
                         ++ le_split 4 (to_uint32 (len (value entry)))
                         ++ value entry) chnk.

(** The schema folder and index exist, and the text of the index, or of
    the schema file that the index selects for [filePath], is not JSON. *)
Definition schema_unparseable (regex_search : string -> string -> bool)
    (fs : FileSystem) (filePath : string) : Prop :=
  is_directory fs STRUCTURE_FOLDER = true /\
  exists_ fs STRUCTURE_FILE = true /\
  (json_content fs STRUCTURE_FILE = Some None \/
   exists index var,
     json_content fs STRUCTURE_FILE = Some (Some index) /\
     find (fun var => regex_search filePath (fst var)) (ptree_children index)
       = Some var /\
     string_empty (ptree_data (snd var)) = false /\
     json_content fs ("structures/" ++ ptree_data (snd var)) = Some None).

(** A file system with the schema folder and an index that is not JSON. *)
Definition broken_index : FileSystem :=
  {| is_directory := fun p => String.eqb p STRUCTURE_FOLDER;
     exists_ := fun p => String.eqb p STRUCTURE_FILE;
     json_content := fun p => if String.eqb p STRUCTURE_FILE
                              then Some None else None |}.

(** A file system without the schema folder. *)
Definition no_schema : FileSystem :=
  {| is_directory := fun _ => false;
     exists_ := fun _ => false;
     json_content := fun _ => None |}.

(** A table file of the 64-bit dialect: one table, one INT32 field named
    as the reader names it, one row. *)
Definition one_cell_file : EXPANew.FinalFile :=
  {| EXPANew.tables :=
       [ {| EXPANew.ft_name := "t";
            EXPANew.ft_structure :=
              {| structure := [ {| name := "int32 0"; type := INT32 |} ] |};
            EXPANew.ft_entries := [ [VInt32 42] ] |} ] |}.

(** File, then image: [readEXPA<expa>] applied to what [writeEXPA<expa>]
    wrote, the image being loaded at [base]. *)
Definition EXPANew_write_then_read (expa : EXPANew.Dialect)
    (fromFile : string -> result (list StructureEntry))
    (file : EXPANew.FinalFile) (base : Z)
    : result (expected EXPANew.FinalFile) :=
  bytes <- EXPANew.writeEXPA_file expa file ;;
  EXPANew.readEXPA_file expa fromFile bytes base.

(** A stand-in for the regular-expression engine that reads a pattern as
    literal text: the subject contains the pattern. *)
Definition literal_search (subject pattern : string) : bool :=
  match String.index 0 pattern subject with
  | Some _ => true
  | None => false
  end.

Definition literal_wrap (pattern : string) : string := pattern.

(** Every field of the list is a BOOL. *)
Definition all_BOOL (run : list StructureEntry) : bool :=
  forallb (fun e => is_BOOL (type e)) run.

(** The last field of the list is a BOOL. *)
Definition ends_in_BOOL (s : list StructureEntry) : bool :=
  starts_with_BOOL (rev s).

(** [n] fields of one type, and a structure of such fields. *)
Definition fields_of (t : EntryType) (n : nat) : list StructureEntry :=
  repeat {| name := "f"; type := t |} n.

(** ** Vocabulary of the round trip *)

Definition no_NUL (bs : list byte) : bool :=
  forallb (fun b => negb (Byte.eqb b Byte.x00)) bs.

(** A string cell without a NUL byte, an int-array cell without
    elements; any other cell. *)
Definition plain_value (v : EntryValue) : bool :=
  match v with
  | VString s => no_NUL (list_byte_of_string s)
  | VIntArray [] => true
  | VIntArray (_ :: _) => false
  | _ => true
  end.

(** A value of [EntryType]: an enumerator, or [INVALID] with a code of
    32 bits that is not the code of an enumerator. *)
Definition wf_type (t : EntryType) : bool :=
  match t with
  | INVALID c =>
      (0 <=? c) && (c <? 2 ^ 32)
      && match EntryType_of_code c with INVALID _ => true | _ => false end
  | _ => true
  end.

(** The slots of the entries lie in [lo, hi), in increasing order and
    eight bytes apart at least. *)
Fixpoint slots_sorted (lo : Z) (chnk : list CHNKEntry) (hi : Z) : Prop :=
  match chnk with
  | [] => lo <= hi
  | e :: rest => lo <= offset e /\ slots_sorted (offset e + 8) rest hi
  end.

(** In the image [content] loaded at [base], the slot of the entry holds
    the address of a copy of its payload. *)
Definition chunk_resolved (content : list byte) (base : Z) (e : CHNKEntry)
    : Prop :=
  exists pos,
    0 <= pos /\ pos + len (value e) <= len content /\
    0 <= offset e /\ offset e + 8 <= len content /\
    slice content (offset e) 8 = le_split 8 (base + pos) /\
    slice content pos (List.length (value e)) = value e.

(** The fields named as [EXPA64::getStructure] names them: type and
    index, from index [j] on. *)
Fixpoint in_band_names (j : Z) (s : list StructureEntry) : bool :=
  match s with
  | [] => true
  | e :: s' =>
      String.eqb (name e)
        (EXPANew.toString (type e) ++ " " ++ format_int (to_int32 j))
      && in_band_names (j + 1) s'
  end.

(** A table that the container can hold and give back. *)
Definition table_ok (table : EXPANew.FinalTable) : bool :=
  let s := structure (EXPANew.ft_structure table) in
  no_NUL (list_byte_of_string (EXPANew.ft_name table))
  && (len s <? 2 ^ 26)
  && (len (EXPANew.ft_entries table) <? 2 ^ 32)
  && forallb (fun e => wf_type (type e)) s
  && no_adjacent_BOOL s
  && forallb (fun row => row_matches s row && forallb plain_value row)
       (EXPANew.ft_entries table).

Definition file_ok (file : EXPANew.FinalFile) : bool :=
  forallb table_ok (EXPANew.tables file)
  && (len (EXPANew.tables file) <? 2 ^ 31).

(** The resolver gives the structure of the table back: the schema files
    hold it under the table's name, or, in a dialect with a structure
    section, they hold nothing and the fields have the in-band names. *)
Definition resolver_ok (expa : EXPANew.Dialect)
    (fromFile : string -> result (list StructureEntry))
    (table : EXPANew.FinalTable) : Prop :=
  fromFile (EXPANew.ft_name table)
    = Ok (structure (EXPANew.ft_structure table)) \/
  (EXPANew.HAS_STRUCTURE_SECTION expa = true /\
   fromFile (EXPANew.ft_name table) = Ok [] /\
   in_band_names 0 (structure (EXPANew.ft_structure table)) = true).

(** [D] is the buffer of the row once the trailing flush is done. *)
Definition finalised (st_end : WriteState) (D : list byte) : Prop :=
  if 0 <? ws_bitCounter st_end
  then store (ws_data st_end) (ws_offset st_end)
         (le_split 4 (ws_currentBool st_end)) = Ok D
  else D = ws_data st_end.

(** The bytes [bs] lie in [file] at the position [pos]. *)
Definition has_at (file : list byte) (pos : Z) (bs : list byte) : Prop :=
  0 <= pos /\ pos + len bs <= len file /\
  slice file pos (List.length bs) = bs.

(** The stream [os'] and the entries [chnk'] continue [os] and [chnk]:
    what was written stays, and the slots of the entries that were added
    lie in what was written since, in increasing order. *)
Definition extends (os : ostream) (chnk : list CHNKEntry)
    (os' : ostream) (chnk' : list CHNKEntry) : Prop :=
  at_end os' /\
  (exists tail, contents os' = contents os ++ tail) /\
  exists new, chnk' = chnk ++ new /\
              slots_sorted (os_pos os) new (os_pos os').

(** The structure that [EXPA64::getStructure] builds from the type codes
    of the structure section, the fields counted from [j]. *)
Fixpoint in_band (j : Z) (s : list StructureEntry) : list StructureEntry :=
  match s with
  | [] => []
  | e :: s' =>
      {| name := EXPANew.toString (type e) ++ " " ++ format_int (to_int32 j);
         type := type e |} :: in_band (j + 1) s'
  end.

(** The bytes of the structure section of a table. *)
Definition structure_section (expa : EXPANew.Dialect) (s : Structure)
    : list byte :=
  if EXPANew.HAS_STRUCTURE_SECTION expa
  then le_split 4 (to_uint32 (EXPANew.getEntryCount s))
       ++ flat_map (fun e => le_split 4 (EntryType_code (type e))) (structure s)
  else [].


(** The bytes of the file that [writeEXPA<expa>] leaves when the table
    loop has ended with the stream [os] and the entries [chnk]. *)
Definition file_bytes (os : ostream) (chnk : list CHNKEntry) : list byte :=
  contents os ++ le_split 4 CHNK_MAGIC
  ++ le_split 4 (to_uint32 (len chnk)) ++ chnk_bytes chnk.

(** ** Sample files and cells *)

(** The value tags of all rows match the types of their structures. *)
Definition rows_match (file : EXPANew.FinalFile) : bool :=
  forallb (fun t => forallb (row_matches (structure (EXPANew.ft_structure t)))
                      (EXPANew.ft_entries t))
    (EXPANew.tables file).

(** A table file with one table of one field and one row. *)
Definition single_cell_file (n : string) (t : EntryType) (v : EntryValue)
    : EXPANew.FinalFile :=
  {| EXPANew.tables :=
       [ {| EXPANew.ft_name := "t";
            EXPANew.ft_structure := {| structure := [ {| name := n; type := t |} ] |};
            EXPANew.ft_entries := [ [v] ] |} ] |}.

(** The string of the three characters [a], NUL, [b]. *)
Definition nul_string : string :=
  String "a" (String (ascii_of_nat 0) (String "b" EmptyString)).

(** A table of four fields with the in-band names, two rows. *)
Definition sample_file : EXPANew.FinalFile :=
  {| EXPANew.tables :=
       [ {| EXPANew.ft_name := "items";
            EXPANew.ft_structure :=
              {| structure := [ {| name := "int32 0"; type := INT32 |};
                                {| name := "string 1"; type := STRING |};
                                {| name := "bool 2"; type := BOOL |};
                                {| name := "int16 3"; type := INT16 |} ] |};
            EXPANew.ft_entries :=
              [ [VInt32 42; VString "sword"; VBool true; VInt16 (-7)];
                [VInt32 (-1); VString ""; VBool false; VInt16 300] ] |} ] |}.

(** A table of two BOOL fields with the in-band names, one row. *)
Definition bool_pair_file (a b : bool) : EXPANew.FinalFile :=
  {| EXPANew.tables :=
       [ {| EXPANew.ft_name := "t";
            EXPANew.ft_structure :=
              {| structure := [ {| name := "bool 0"; type := BOOL |};
                                {| name := "bool 1"; type := BOOL |} ] |};
            EXPANew.ft_entries := [ [VBool a; VBool b] ] |} ] |}.

(** The resolver of EXPANew.cpp where there is no schema folder. *)
Definition no_schema_resolver : string -> result (list StructureEntry) :=
  getStructureFromFile literal_search literal_wrap EXPANew.convertEntryType
    no_schema "data/t.mbe".

(** The value has a payload in the CHNK section: a string or an array
    that is not empty. *)
Definition has_payload (v : EntryValue) : bool :=
  match v with
  | VString s => negb (string_empty s)
  | VIntArray (_ :: _) => true
  | _ => false
  end.

(** A string value without a NUL byte; any other value. *)
Definition nul_free (v : EntryValue) : bool :=
  match v with
  | VString s => no_NUL (list_byte_of_string s)
  | _ => true
  end.

(** The image of a row buffer and the payload of its entry, as the CHNK
    loop of the reader leaves them: the payload lies behind the buffer
    and the slot of the entry holds its address. *)
Definition resolve_cell (base : Z) (buf : list byte) (c : option CHNKEntry)
    : result (list byte) :=
  match c with
  | None => Ok buf
  | Some e =>
      buf' <- store buf (offset e) (le_split 8 (to_uint64 (base + len buf))) ;;
      Ok (buf' ++ value e)
  end.


(** The payload of a value in the CHNK section (EXPA.cpp). *)
Definition EXPA_payload (v : EntryValue) : list byte :=
  match v with
  | VString s =>
      if string_empty s then [] else value (EXPA.CHNKEntry_of_string 0 s)
  | VIntArray a => value (EXPA.CHNKEntry_of_int_array 0 a)
  | _ => []
  end.

(** One cell at [off] of the buffer [buf], which stands for the file up
    to the end of the row: written, resolved, and read again from the
    image at [base]. *)
Definition cell_write_then_read
    (write : Z -> list byte -> Z -> EntryType -> EntryValue ->
             result (list byte * option CHNKEntry))
    (read : memory -> EntryType -> Z -> Z -> result EntryValue)
    (base : Z) (buf : list byte) (off : Z) (t : EntryType) (v : EntryValue)
    : result EntryValue :=
  '(buf', c) <- write off buf off t v ;;
  content <- resolve_cell base buf' c ;;
  read {| mem_base := base; mem_bytes := content |} t (base + off) 0.

(** ** Vocabulary of the CSV side *)

(** The text starts with a decimal digit. *)
Definition starts_with_digit (s : string) : bool :=
  match s with
  | String c _ => match digit_value c with Some _ => true | None => false end
  | EmptyString => false
  end.

(** The character [c] occurs in [s]. *)
Fixpoint has_char (c : ascii) (s : string) : bool :=
  match s with
  | EmptyString => false
  | String a r => Ascii.eqb a c || has_char c r
  end.

(** The types whose cells are text of the program's own: all but FLOAT,
    whose text is the library's, and the strings, which the CSV parser
    unquotes. *)
Definition csv_exact (t : EntryType) : bool :=
  match t with
  | FLOAT | STRING3 | STRING | STRING2 => false
  | _ => true
  end.

(** Every character is white space. *)
Fixpoint all_space (s : string) : bool :=
  match s with
  | EmptyString => true
  | String c r => isspace c && all_space r
  end.

(** The types that [toString] of EXPA.cpp names with a type string. *)
Definition named_type (t : EntryType) : bool :=
  match t with
  | INT32 | INT16 | INT8 | FLOAT | STRING3 | STRING | STRING2 | BOOL | EMPTY
  | INT_ARRAY => true
  | _ => false
  end.

(** The text has no number at its start: the first character is no white
    space, and no digit follows the sign, if there is one. *)
Definition no_number (s : string) : bool :=
  match s with
  | String c r =>
      negb (isspace c)
      && negb (if Ascii.eqb c "-" || Ascii.eqb c "+"
               then starts_with_digit r else starts_with_digit s)
  | EmptyString => true
  end.

(** A float text that nothing is known of. *)
Definition no_float_text (bits : Z) : string := EmptyString.
Definition no_stof (s : string) : conv_exn + Z := inl invalid_argument.


(** Three decimal digits, and four. *)
Definition is_digit (c : ascii) : bool :=
  match digit_value c with Some _ => true | None => false end.

Definition three_digits (s : string) : bool :=
  match s with
  | String a (String b (String c EmptyString)) =>
      is_digit a && is_digit b && is_digit c
  | _ => false
  end.

Definition four_digits (s : string) : bool :=
  match s with
  | String a (String b (String c (String d EmptyString))) =>
      is_digit a && is_digit b && is_digit c && is_digit d
  | _ => false
  end.


(** ** Vocabulary of the archive names *)

(** The NUL character. *)
Definition NUL : ascii := "000"%char.

(** A filler of a fixed-width field: nothing, or text that starts with a
    NUL or a space. *)
Definition is_padding (p : string) : bool :=
  match p with
  | EmptyString => true
  | String c _ => Ascii.eqb c NUL || Ascii.eqb c " "
  end.

(** Text without NUL and without space. *)
Definition no_blank (s : string) : bool :=
  negb (has_char NUL s) && negb (has_char " " s).


(** ** Vocabulary of the row codec *)

(** The value holds the alternative that [writeEXPA] takes out of it for
    a field of type [t]; a field of a type without cell takes nothing
    out of the value. *)
Definition holds_alternative (t : EntryType) (v : EntryValue) : bool :=
  match t, v with
  | INT32, VInt32 _ => true
  | INT16, VInt16 _ => true
  | INT8, VInt8 _ => true
  | FLOAT, VFloat _ => true
  | (STRING3 | STRING | STRING2), VString _ => true
  | INT_ARRAY, VIntArray _ => true
  | BOOL, VBool _ => true
  | (INT32 | INT16 | INT8 | FLOAT | STRING3 | STRING | STRING2
     | INT_ARRAY | BOOL), _ => false
  | _, _ => true
  end.


(** The entry that the index holds for a data entry. *)
Definition ArchiveEntry_of (d : MDB1.FileDataEntry) : MDB1.ArchiveEntry :=
  {| MDB1.ae_offset := MDB1.de_offset d;
     MDB1.ae_fullSize := MDB1.de_fullSize d;
     MDB1.ae_compressedSize := MDB1.de_compressedSize d |}.

(** A tree entry without file: its [dataId] is the greatest value of the
    type. *)
Definition is_sentinel (MDB : MDB1.ArchiveType) (t : MDB1.FileTreeEntry)
    : bool :=
  MDB1.te_dataId t =? MDB1.dataId_max MDB.

(** A tree entry that is a sentinel or names one of the data entries. *)
Definition in_data (MDB : MDB1.ArchiveType) (dataEntries : list MDB1.FileDataEntry)
    (t : MDB1.FileTreeEntry) : bool :=
  is_sentinel MDB t
  || (0 <=? MDB1.te_dataId t) && (MDB1.te_dataId t <? len dataEntries).

(** A tree entry with its name entry that is a sentinel or has another
    name than [key]. *)
Definition another_file (MDB : MDB1.ArchiveType) (key : string)
    (tn : MDB1.FileTreeEntry * MDB1.FileNameEntry) : bool :=
  is_sentinel MDB (fst tn) || negb (String.eqb (MDB1.toString (snd tn)) key).

(** The index of an archive before the loop of the constructor. *)
Definition no_entries : MDB1.Entries := Map.Interface.map.empty.

(** [entries.find(key)], as an option. *)
Definition find_entry (entries : MDB1.Entries) (key : string)
    : option MDB1.ArchiveEntry :=
  Map.Interface.map.get entries key.


(** A type whose cell holds its value, without a pointer to a payload. *)
Definition pointer_free (t : EntryType) : bool :=
  match t with
  | STRING3 | STRING | STRING2 | INT_ARRAY => false
  | _ => true
  end.


(** ** Vocabulary of the rows with payloads *)

(** The payload that EXPANew.cpp gives a value in the CHNK section, the
    int arrays with elements left out. *)
Definition EXPANew_payload (v : EntryValue) : list byte :=
  match v with
  | VString s =>
      if string_empty s then [] else value (EXPANew.CHNKEntry_of_string 0 s)
  | _ => []
  end.

(** The image of a buffer and the payloads of its entries: one entry
    after the other is resolved as [resolve_cell] does, so that the
    payloads lie behind the buffer in the order of the entries. *)
Fixpoint resolve_row (base : Z) (buf : list byte) (rc : list CHNKEntry)
    : result (list byte) :=
  match rc with
  | [] => Ok buf
  | e :: rest =>
      buf' <- resolve_cell base buf (Some e) ;; resolve_row base buf' rest
  end.

(** A row of EXPA.cpp: written for the structure [s], resolved, and read
    again for the structure [s'] from the image at [base]. *)
Definition EXPA_row_write_then_read (s s' : Structure)
    (entries : list EntryValue) (base : Z) : result (list EntryValue) :=
  r <- EXPA.writeEXPA s entries ;;
  content <- resolve_row base (EXPA.data r) (EXPA.chunk r) ;;
  EXPA.readEXPA s' {| mem_base := base; mem_bytes := content |} base.



(** * Properties *)

(** ** Rounding *)

Lemma ceilInteger_ge value step :
  0 <= step -> value <= ceilInteger value step.
Proof.
  intros Hs. unfold ceilInteger.
  destruct (Z.eqb_spec step 0) as [->|Hne]; [lia|].
  pose proof (Z.mul_div_le (value + step - 1) step ltac:(lia)).
  pose proof (Z.mod_pos_bound (value + step - 1) step ltac:(lia)).
  pose proof (Z.div_mod (value + step - 1) step Hne). nia.
Qed.

Lemma ceilInteger_lt value step :
  0 < step -> ceilInteger value step < value + step.
Proof.
  intros Hs. unfold ceilInteger.
  destruct (Z.eqb_spec step 0) as [->|Hne]; [lia|].
  pose proof (Z.mul_div_le (value + step - 1) step ltac:(lia)). nia.
Qed.

Lemma ceilInteger_multiple value step :
  0 < step -> ceilInteger value step mod step = 0.
Proof.
  intros Hs. unfold ceilInteger.
  destruct (Z.eqb_spec step 0) as [->|Hne]; [lia|].
  apply Z.mod_mul; lia.
Qed.

Lemma ceilInteger_fixed value step :
  0 < step -> value mod step = 0 -> ceilInteger value step = value.
Proof.
  intros Hs Hm. unfold ceilInteger.
  destruct (Z.eqb_spec step 0) as [->|Hne]; [lia|].
  apply Z.mod_divide in Hm; [|lia]. destruct Hm as [k ->].
  replace (k * step + step - 1) with ((step - 1) + k * step) by lia.
  rewrite Z.div_add by lia. rewrite Z.div_small by lia. lia.
Qed.

Lemma ceilInteger_mono a b step :
  0 <= step -> a <= b -> ceilInteger a step <= ceilInteger b step.
Proof.
  intros Hs Hab. unfold ceilInteger.
  destruct (Z.eqb_spec step 0) as [->|Hne]; [lia|].
  pose proof (Z.div_le_mono (a + step - 1) (b + step - 1) step ltac:(lia) ltac:(lia)).
  nia.
Qed.

(** The least multiple of [step] that is not below [value]. *)
Lemma ceilInteger_least value step m :
  0 < step -> m mod step = 0 -> value <= m -> ceilInteger value step <= m.
Proof.
  intros Hs Hm Hle.
  rewrite <- (ceilInteger_fixed m step Hs Hm).
  apply ceilInteger_mono; lia.
Qed.

Lemma getAlignment_range t : 0 <= getAlignment t <= 8.
Proof. destruct t; simpl; lia. Qed.

Lemma getSize_range t : 0 <= getSize t <= 16.
Proof. destruct t; simpl; lia. Qed.

(** ** Buffers *)

Lemma bind_Ok {A B : Type} (r : result A) (k : A -> result B) (b : B) :
  bind r k = Ok b -> exists a, r = Ok a /\ k a = Ok b.
Proof. destruct r; simpl; intros H; try discriminate. eauto. Qed.

Ltac inv_bind H :=
  let a := fresh "a" in
  let Ha := fresh "Ha" in
  apply bind_Ok in H; destruct H as [a [Ha H]].

Tactic Notation "invb" hyp(H) "as" simple_intropattern(a) ident(Ha) :=
  apply bind_Ok in H; destruct H as [a [Ha H]].

Lemma nth_error_slice l off n i :
  nth_error (slice l off n) i
  = if (i <? n)%nat then nth_error l (Z.to_nat off + i) else None.
Proof. unfold slice. rewrite nth_error_firstn, nth_error_skipn. reflexivity. Qed.

Lemma length_slice l off n :
  0 <= off -> off + Z.of_nat n <= len l -> List.length (slice l off n) = n.
Proof. intros. unfold slice. rewrite length_firstn, length_skipn. lia. Qed.

Lemma slice_app_mid (a b c : list byte) :
  slice (a ++ b ++ c) (len a) (List.length b) = b.
Proof.
  unfold slice. rewrite Nat2Z.id, skipn_app, Nat.sub_diag, skipn_all2 by lia.
  simpl. rewrite firstn_app, Nat.sub_diag, firstn_all2 by lia.
  simpl. apply app_nil_r.
Qed.

Lemma slice_slice l off n p k :
  0 <= off -> 0 <= p -> p + Z.of_nat k <= Z.of_nat n ->
  slice (slice l off n) p k = slice l (off + p) k.
Proof.
  intros. apply nth_error_ext. intros i. rewrite !nth_error_slice.
  destruct (Nat.ltb_spec i k); [|reflexivity].
  destruct (Nat.ltb_spec (Z.to_nat p + i) n); [|lia].
  f_equal. lia.
Qed.

Lemma store_inv buf off bs buf' :
  store buf off bs = Ok buf' ->
  0 <= off /\ off + len bs <= len buf /\
  buf' = firstn (Z.to_nat off) buf ++ bs
           ++ skipn (Z.to_nat off + List.length bs) buf.
Proof.
  unfold store. destruct (0 <=? off) eqn:E1; [|discriminate].
  destruct (off + len bs <=? len buf) eqn:E2; [|discriminate].
  simpl. intros H. injection H as <-.
  apply Z.leb_le in E1, E2. auto.
Qed.

Lemma store_ok buf off bs :
  0 <= off -> off + len bs <= len buf ->
  store buf off bs
  = Ok (firstn (Z.to_nat off) buf ++ bs
          ++ skipn (Z.to_nat off + List.length bs) buf).
Proof.
  intros H1 H2. unfold store.
  apply Z.leb_le in H1, H2. rewrite H1, H2. reflexivity.
Qed.

Lemma store_length buf off bs buf' :
  store buf off bs = Ok buf' -> List.length buf' = List.length buf.
Proof.
  intros H. apply store_inv in H. destruct H as (H1 & H2 & ->).
  rewrite !length_app, length_firstn, length_skipn. lia.
Qed.

Lemma nth_error_store buf off bs buf' i :
  store buf off bs = Ok buf' ->
  nth_error buf' i
  = if ((Z.to_nat off <=? i) && (i <? Z.to_nat off + List.length bs))%nat
    then nth_error bs (i - Z.to_nat off) else nth_error buf i.
Proof.
  intros H. apply store_inv in H. destruct H as (H1 & H2 & ->).
  destruct (Nat.leb_spec (Z.to_nat off) i); simpl.
  - rewrite nth_error_app2 by (rewrite length_firstn; lia).
    rewrite length_firstn, Nat.min_l by lia.
    destruct (Nat.ltb_spec i (Z.to_nat off + List.length bs)).
    + apply nth_error_app1. lia.
    + rewrite nth_error_app2 by lia. rewrite nth_error_skipn. f_equal. lia.
  - rewrite nth_error_app1 by (rewrite length_firstn; lia).
    rewrite nth_error_firstn.
    destruct (Nat.ltb_spec i (Z.to_nat off)); [reflexivity|lia].
Qed.

Lemma slice_store_same buf off bs buf' :
  store buf off bs = Ok buf' -> slice buf' off (List.length bs) = bs.
Proof.
  intros H. pose proof (store_inv _ _ _ _ H) as (H1 & H2 & _).
  apply nth_error_ext. intros i. rewrite nth_error_slice.
  rewrite (nth_error_store _ _ _ _ _ H).
  destruct (Nat.ltb_spec i (List.length bs)).
  - destruct (Nat.leb_spec (Z.to_nat off) (Z.to_nat off + i)); [|lia].
    destruct (Nat.ltb_spec (Z.to_nat off + i) (Z.to_nat off + List.length bs)); [|lia].
    simpl. f_equal. lia.
  - symmetry. apply nth_error_None. lia.
Qed.

Lemma slice_store_other buf off bs buf' a n :
  store buf off bs = Ok buf' -> 0 <= a ->
  a + Z.of_nat n <= off \/ off + len bs <= a ->
  slice buf' a n = slice buf a n.
Proof.
  intros H Ha Hd. pose proof (store_inv _ _ _ _ H) as (H1 & H2 & _).
  apply nth_error_ext. intros i. rewrite !nth_error_slice.
  destruct (Nat.ltb_spec i n); [|reflexivity].
  rewrite (nth_error_store _ _ _ _ _ H).
  destruct (Nat.leb_spec (Z.to_nat off) (Z.to_nat a + i)); simpl; [|reflexivity].
  destruct (Nat.ltb_spec (Z.to_nat a + i) (Z.to_nat off + List.length bs));
    [lia|reflexivity].
Qed.

Lemma length_le_split_Z n z : len (le_split n z) = Z.of_nat n.
Proof. rewrite length_le_split. reflexivity. Qed.

(** ** The type-string table *)

Lemma EXPA_convertEntryType_unknown val :
  ~ In val type_strings -> EXPA.convertEntryType val = EMPTY.
Proof.
  intros Hn. unfold EXPA.convertEntryType, EXPA.getTypeMap. cbn [find fst snd].
  repeat match goal with
  | |- context [String.eqb ?k val] =>
      destruct (String.eqb_spec k val) as [Heq|_];
      [exfalso; apply Hn; rewrite <- Heq; unfold type_strings; simpl; tauto|]
  end.
  reflexivity.
Qed.

(** C6: the table of EXPA.cpp maps the thirteen type strings as the
    specification lists them and every other string to EMPTY; the table
    of EXPANew.cpp has no entry for "byte" and "short" and sends them to
    EMPTY. *)
Theorem C6_type_string_table :
  (EXPA.convertEntryType "byte" = INT8 /\
   EXPA.convertEntryType "short" = INT16 /\
   EXPA.convertEntryType "int" = INT32 /\
   EXPA.convertEntryType "int array" = INT_ARRAY /\
   EXPA.convertEntryType "float" = FLOAT /\
   EXPA.convertEntryType "int8" = INT8 /\
   EXPA.convertEntryType "int16" = INT16 /\
   EXPA.convertEntryType "int32" = INT32 /\
   EXPA.convertEntryType "bool" = BOOL /\
   EXPA.convertEntryType "empty" = EMPTY /\
   EXPA.convertEntryType "string" = STRING /\
   EXPA.convertEntryType "string2" = STRING2 /\
   EXPA.convertEntryType "string3" = STRING3) /\
  (forall val, ~ In val type_strings -> EXPA.convertEntryType val = EMPTY) /\
  (EXPANew.convertEntryType "byte" = EMPTY /\
   EXPANew.convertEntryType "short" = EMPTY).
Proof.
  split; [repeat split; reflexivity|].
  split; [exact EXPA_convertEntryType_unknown|].
  split; reflexivity.
Qed.

(** ** The size of a row *)

Lemma EXPA_getEXPASize_eq s :
  EXPA.getEXPASize s = to_uint32 (ceilInteger (EXPA.layout_size (structure s)) 8).
Proof.
  unfold EXPA.getEXPASize. destruct (structure s); reflexivity.
Qed.

Lemma to_uint32_multiple_of_8 z : z mod 8 = 0 -> to_uint32 z mod 8 = 0.
Proof.
  unfold to_uint32. intros H.
  change (2 ^ 32) with (8 * 536870912).
  rewrite Z.rem_mul_r by lia. 
  rewrite H. rewrite Z.add_0_l, Z.mul_comm. apply Z.mod_mul. lia.
Qed.


(** ** The empty structure *)

(** A memory without a single byte: every load from it is undefined. *)
Lemma load_no_bytes base addr n :
  load {| mem_base := base; mem_bytes := [] |} addr (S n) = Undefined.
Proof.
  unfold load. cbn [mem_base mem_bytes List.length].
  destruct (0 <=? addr - base) eqn:E1; [|reflexivity].
  destruct (addr - base + Z.of_nat (S n) <=? Z.of_nat 0) eqn:E2; [|reflexivity].
  apply Z.leb_le in E1, E2. lia.
Qed.

(** C9: for the structure without fields [readEXPA] returns the empty
    row whatever the memory behind [data] is (also when no byte of it can
    be loaded), and [getEXPASize] returns 0; in both revisions. *)
Theorem C9_empty_structure :
  forall (m : memory) (data : Z),
    EXPANew.readEXPA {| structure := [] |} m data = Ok [] /\
    EXPA.readEXPA {| structure := [] |} m data = Ok [] /\
    EXPANew.getEXPASize {| structure := [] |} = 0 /\
    EXPA.getEXPASize {| structure := [] |} = 0.
Proof. intros m data. repeat split; reflexivity. Qed.

(** ** What a row write touches *)

Lemma slice_store_word_other buf off k x buf' a n :
  store buf off (le_split k x) = Ok buf' -> 0 <= a ->
  a + Z.of_nat n <= off \/ off + Z.of_nat k <= a ->
  slice buf' a n = slice buf a n.
Proof.
  intros H Ha Hd. eapply slice_store_other; eauto.
  rewrite length_le_split. exact Hd.
Qed.

Lemma frame_refl buf lo hi : frame buf buf lo hi.
Proof. split; auto. Qed.

Lemma frame_trans b1 b2 b3 lo1 hi1 lo2 hi2 lo hi :
  frame b1 b2 lo1 hi1 -> frame b2 b3 lo2 hi2 ->
  lo <= lo1 -> lo <= lo2 -> hi1 <= hi -> hi2 <= hi ->
  frame b1 b3 lo hi.
Proof.
  intros [L1 F1] [L2 F2] ? ? ? ?. split; [congruence|].
  intros a n Ha Hd. rewrite F2 by lia. apply F1; lia.
Qed.

Lemma frame_store buf off k x buf' :
  store buf off (le_split k x) = Ok buf' ->
  frame buf buf' off (off + Z.of_nat k).
Proof.
  intros H. split; [eapply store_length; eauto|].
  intros a n Ha Hd. eapply slice_store_word_other; eauto.
Qed.

Lemma frame_weaken b1 b2 lo1 hi1 lo hi :
  frame b1 b2 lo1 hi1 -> lo <= lo1 -> hi1 <= hi -> frame b1 b2 lo hi.
Proof.
  intros [L F] ? ?. split; [exact L|]. intros a n Ha Hd. apply F; lia.
Qed.

Ltac inv_binds :=
  repeat match goal with
  | H : bind _ _ = Ok _ |- _ => inv_bind H
  | H : (if ?c then _ else _) = Ok _ |- _ => destruct c eqn:?
  | H : match ?a with [] => _ | _ :: _ => _ end = Ok _ |- _ => destruct a eqn:?
  | H : Ok _ = Ok _ |- _ => injection H as H; subst
  | H : (_, _) = (_, _) |- _ => injection H as H; subst
  | H : Throw _ = Ok _ |- _ => discriminate H
  | H : Undefined = Ok _ |- _ => discriminate H
  end.

Lemma EXPANew_writeEXPAEntry_frame base buf off t v buf' c :
  EXPANew.writeEXPAEntry base buf off t v = Ok (buf', c) ->
  frame buf buf' off (off + getSize t).
Proof.
  intros H. unfold EXPANew.writeEXPAEntry in H.
  destruct t; simpl getSize; inv_binds; subst;
    try apply frame_refl;
    try (eapply frame_weaken; [eapply frame_store; eauto|lia|simpl; lia]).
  all: eapply frame_trans;
    [eapply frame_store; eauto|eapply frame_store; eauto| | | |]; simpl; lia.
Qed.

Lemma EXPA_writeEXPAEntry_frame base buf off t v buf' c :
  EXPA.writeEXPAEntry base buf off t v = Ok (buf', c) ->
  frame buf buf' off (off + getSize t).
Proof.
  intros H. unfold EXPA.writeEXPAEntry in H.
  destruct t; simpl getSize; inv_binds; subst;
    try apply frame_refl;
    try (eapply frame_weaken; [eapply frame_store; eauto|lia|simpl; lia]).
  all: eapply frame_trans;
    [eapply frame_store; eauto|eapply frame_store; eauto| | | |]; simpl; lia.
Qed.

Lemma flush_inv st st' :
  flush st = Ok st' ->
  store (ws_data st) (ws_offset st) (le_split 4 (ws_currentBool st))
    = Ok (ws_data st') /\
  ws_offset st' = ws_offset st + 4 /\ ws_bitCounter st' = 0 /\
  ws_currentBool st' = 0 /\ ws_chunkEntries st' = ws_chunkEntries st.
Proof.
  unfold flush. intros H. inv_binds. simpl. auto.
Qed.

Lemma flush_frame st st' :
  flush st = Ok st' -> frame (ws_data st) (ws_data st') (ws_offset st) (ws_offset st').
Proof.
  intros H. apply flush_inv in H. destruct H as (H & -> & _).
  apply frame_store in H. exact H.
Qed.

Lemma is_BOOL_true t : is_BOOL t = true -> t = BOOL.
Proof. destruct t; simpl; congruence. Qed.

Lemma EXPA_write_step_inv st e v st' :
  EXPA.write_step st e v = Ok st' ->
  0 <= ws_offset st -> 0 <= ws_bitCounter st ->
  (ws_offset st', ws_bitCounter st')
    = EXPA_cursor_step (ws_offset st, ws_bitCounter st) e /\
  ws_offset st <= ws_offset st' /\ 0 <= ws_bitCounter st' /\
  frame (ws_data st) (ws_data st') (ws_offset st) (ws_offset st').
Proof.
  intros H Hoff Hbc0. unfold EXPA.write_step in H. unfold EXPA_cursor_step.
  pose proof (getAlignment_range (type e)) as Hal.
  pose proof (getSize_range (type e)) as Hsz.
  destruct (is_BOOL (type e)) eqn:Hb.
  - apply is_BOOL_true in Hb. rewrite Hb in *. simpl negb in *. simpl orb in *.
    simpl getAlignment in *. simpl is_BOOL in *. cbv iota.
    destruct (32 <=? ws_bitCounter st) eqn:Hgate.
    + invb H as st1 H1. invb H1 as st0 H0. injection H1 as <-.
      simpl in H. invb H as b Hg. invb H as bits Hs.
      injection H as <-. simpl.
      assert ((0 <? ws_bitCounter st) = true) as Hbc
        by (apply Z.ltb_lt; apply Z.leb_le in Hgate; lia).
      rewrite Hbc in *.
      pose proof (flush_frame _ _ H0) as Hfr.
      apply flush_inv in H0. destruct H0 as (_ & Ho & Hz & _).
      rewrite Ho, Hz in *.
      pose proof (ceilInteger_ge (ws_offset st + 4) 4 ltac:(lia)).
      split; [reflexivity|]. split; [lia|]. split; [lia|].
      eapply frame_weaken; eauto; lia.
    + simpl in H. invb H as b Hg. invb H as bits Hs.
      injection H as <-. simpl.
      split; [reflexivity|]. split; [lia|]. split; [lia|]. apply frame_refl.
  - simpl negb in *. simpl orb in *. cbv iota.
    invb H as st1 H1. invb H1 as st0 H0. injection H1 as <-.
    simpl in H. invb H as [data' c] Hw. injection H as <-. simpl.
    apply EXPA_writeEXPAEntry_frame in Hw.
    destruct (0 <? ws_bitCounter st) eqn:Hbc.
    + pose proof (flush_frame _ _ H0) as Hfr.
      apply flush_inv in H0. destruct H0 as (_ & Ho & Hz & _).
      rewrite Ho, Hz in *.
      pose proof (ceilInteger_ge (ws_offset st + 4) (getAlignment (type e))
                    ltac:(lia)).
      split; [reflexivity|]. split; [lia|]. split; [lia|].
      eapply frame_trans; eauto; lia.
    + injection H0 as <-. apply Z.ltb_ge in Hbc.
      replace (ws_bitCounter st) with 0 by lia.
      pose proof (ceilInteger_ge (ws_offset st) (getAlignment (type e))
                    ltac:(lia)).
      split; [reflexivity|]. split; [lia|]. split; [lia|].
      eapply frame_weaken; eauto; lia.
Qed.

Lemma EXPA_write_loop_inv s : forall row st st',
  EXPA.write_loop s row st = Ok st' ->
  0 <= ws_offset st -> 0 <= ws_bitCounter st ->
  (ws_offset st', ws_bitCounter st')
    = fold_left EXPA_cursor_step (firstn (List.length row) s)
        (ws_offset st, ws_bitCounter st) /\
  ws_offset st <= ws_offset st' /\ 0 <= ws_bitCounter st' /\
  frame (ws_data st) (ws_data st') (ws_offset st) (ws_offset st').
Proof.
  induction s as [|e s IH]; intros row st st' H Hoff Hbc.
  - simpl in H. injection H as <-. rewrite firstn_nil. simpl.
    repeat split; try lia; auto.
  - destruct row as [|v row].
    + simpl in H. injection H as <-. simpl. repeat split; try lia; auto.
    + simpl in H. invb H as st1 H1.
      apply EXPA_write_step_inv in H1; auto.
      destruct H1 as (Hc & Hle & Hbc1 & Hfr).
      apply IH in H; auto; [|lia].
      destruct H as (Hc' & Hle' & Hbc' & Hfr').
      cbn [firstn fold_left List.length]. rewrite <- Hc.
      split; [exact Hc'|]. split; [lia|].
      split; [lia|]. eapply frame_trans; eauto; lia.
Qed.

(** ** The write cursor and the size computation (EXPA.cpp) *)

Ltac zbool :=
  repeat (cbn [fst snd negb orb andb];
          match goal with
          | |- context [?a <? ?b] => destruct (Z.ltb_spec a b)
          | |- context [?a <=? ?b] => destruct (Z.leb_spec a b)
          | |- context [?a =? ?b] => destruct (Z.eqb_spec a b)
          end);
  cbn [fst snd negb orb andb] in *.

Lemma EXPA_cursor_le_size_step off bc sz e :
  0 <= off -> 0 <= bc <= 32 -> flushed (off, bc) <= sz ->
  let c' := EXPA_cursor_step (off, bc) e in
  let z' := EXPA.size_step (sz, bc) e in
  0 <= fst c' /\ 0 <= snd c' <= 32 /\ snd z' = snd c' /\ flushed c' <= fst z'.
Proof.
  intros Hoff Hbc Hle. unfold EXPA_cursor_step, EXPA.size_step, flushed in *.
  cbn [fst snd] in *.
  pose proof (getAlignment_range (type e)) as Hal.
  pose proof (getSize_range (type e)) as Hsz.
  pose proof (ceilInteger_ge sz (getAlignment (type e)) ltac:(lia)).
  pose proof (ceilInteger_ge off (getAlignment (type e)) ltac:(lia)).
  pose proof (ceilInteger_ge (off + 4) (getAlignment (type e)) ltac:(lia)).
  pose proof (ceilInteger_mono off sz (getAlignment (type e)) ltac:(lia)).
  pose proof (ceilInteger_mono (off + 4) sz (getAlignment (type e)) ltac:(lia)).
  destruct (is_BOOL (type e)) eqn:Hb.
  - apply is_BOOL_true in Hb. rewrite Hb in *. cbn [negb orb getSize getAlignment] in *.
    revert Hle. zbool; intros; lia.
  - revert Hle. zbool; intros; lia.
Qed.

Lemma EXPA_cursor_le_size s : forall off bc sz,
  0 <= off -> 0 <= bc <= 32 -> flushed (off, bc) <= sz ->
  flushed (fold_left EXPA_cursor_step s (off, bc))
    <= fst (fold_left EXPA.size_step s (sz, bc)).
Proof.
  induction s as [|e s IH]; intros off bc sz Hoff Hbc Hle; [exact Hle|].
  cbn [fold_left].
  pose proof (EXPA_cursor_le_size_step off bc sz e Hoff Hbc Hle) as Hs.
  cbv zeta in Hs.
  destruct (EXPA_cursor_step (off, bc) e) as [off' bc'].
  destruct (EXPA.size_step (sz, bc) e) as [sz' sbc'].
  cbn [fst snd] in Hs. destruct Hs as (H1 & H2 & -> & H4).
  apply IH; auto.
Qed.

Lemma EXPA_cursor_eq_size_step off bc sz e :
  0 <= off -> 0 <= bc <= 32 -> flushed (off, bc) = sz ->
  (if is_BOOL (type e) && (bc =? 0) then off mod 4 =? 0 else true) = true ->
  flushed (EXPA_cursor_step (off, bc) e) = fst (EXPA.size_step (sz, bc) e).
Proof.
  intros Hoff Hbc Hle Hal4. unfold EXPA_cursor_step, EXPA.size_step, flushed in *.
  cbn [fst snd] in *.
  destruct (is_BOOL (type e)) eqn:Hb.
  - apply is_BOOL_true in Hb. rewrite Hb in *. cbn [negb orb andb getSize getAlignment] in *.
    revert Hle Hal4. zbool; intros; subst; try lia.
    all: rewrite ceilInteger_fixed; lia.
  - revert Hle. zbool; intros; subst; lia.
Qed.

Lemma EXPA_cursor_eq_size s : forall off bc sz,
  0 <= off -> 0 <= bc <= 32 -> flushed (off, bc) = sz ->
  EXPA_bool_runs_aligned (off, bc) s = true ->
  flushed (fold_left EXPA_cursor_step s (off, bc))
    = fst (fold_left EXPA.size_step s (sz, bc)).
Proof.
  induction s as [|e s IH]; intros off bc sz Hoff Hbc Heq Hal; [exact Heq|].
  cbn [fold_left]. cbn [EXPA_bool_runs_aligned fst snd] in Hal.
  apply andb_prop in Hal. destruct Hal as [Hal1 Hal2].
  pose proof (EXPA_cursor_eq_size_step off bc sz e Hoff Hbc Heq Hal1) as He.
  pose proof (EXPA_cursor_le_size_step off bc sz e Hoff Hbc ltac:(lia)) as Hs.
  cbv zeta in Hs.
  destruct (EXPA_cursor_step (off, bc) e) as [off' bc'].
  destruct (EXPA.size_step (sz, bc) e) as [sz' sbc'].
  cbn [fst snd] in Hs, He. destruct Hs as (H1 & H2 & -> & H4).
  apply IH; auto.
Qed.

Lemma EXPA_size_step_grows sz bc e :
  0 <= sz -> sz <= fst (EXPA.size_step (sz, bc) e) <= sz + 23.
Proof.
  intros Hsz. unfold EXPA.size_step.
  pose proof (getAlignment_range (type e)) as Hal.
  pose proof (getSize_range (type e)) as Hs.
  pose proof (ceilInteger_ge sz (getAlignment (type e)) ltac:(lia)).
  assert (ceilInteger sz (getAlignment (type e)) <= sz + 7).
  { unfold ceilInteger. destruct (Z.eqb_spec (getAlignment (type e)) 0); [lia|].
    pose proof (ceilInteger_lt sz (getAlignment (type e)) ltac:(lia)) as Hlt.
    unfold ceilInteger in Hlt.
    destruct (Z.eqb_spec (getAlignment (type e)) 0); lia. }
  destruct (is_BOOL (type e)) eqn:Hb.
  - apply is_BOOL_true in Hb. rewrite Hb in *. cbn [getSize getAlignment] in *.
    zbool; lia.
  - zbool; lia.
Qed.

Lemma EXPA_size_fold_grows s : forall sz bc,
  0 <= sz ->
  sz <= fst (fold_left EXPA.size_step s (sz, bc)) <= sz + 23 * len s.
Proof.
  induction s as [|e s IH]; intros sz bc Hsz; [simpl; lia|].
  cbn [fold_left]. pose proof (EXPA_size_step_grows sz bc e Hsz) as Hg.
  destruct (EXPA.size_step (sz, bc) e) as [sz' bc']. cbn [fst] in Hg.
  specialize (IH sz' bc' ltac:(lia)).
  change (List.length (e :: s)) with (S (List.length s)). lia.
Qed.

Lemma EXPA_layout_size_prefix s k :
  EXPA.layout_size (firstn k s) <= EXPA.layout_size s.
Proof.
  unfold EXPA.layout_size.
  rewrite <- (firstn_skipn k s) at 2. rewrite fold_left_app.
  pose proof (EXPA_size_fold_grows (firstn k s) 0 0 ltac:(lia)) as H0.
  destruct (fold_left EXPA.size_step (firstn k s) (0, 0)) as [sz bc].
  cbn [fst] in *. apply EXPA_size_fold_grows. lia.
Qed.

Lemma EXPA_getEXPASize_small s :
  len (structure s) < 2 ^ 26 ->
  EXPA.getEXPASize s = ceilInteger (EXPA.layout_size (structure s)) 8.
Proof.
  intros Hlen. rewrite EXPA_getEXPASize_eq. unfold to_uint32.
  pose proof (EXPA_size_fold_grows (structure s) 0 0 ltac:(lia)) as Hg.
  fold (EXPA.layout_size (structure s)) in Hg.
  pose proof (ceilInteger_ge (EXPA.layout_size (structure s)) 8 ltac:(lia)).
  pose proof (ceilInteger_lt (EXPA.layout_size (structure s)) 8 ltac:(lia)).
  apply Z.mod_small. lia.
Qed.

(** ** A matching row is written without error (EXPA.cpp) *)

Lemma store_word_ok buf off k x :
  0 <= off -> off + Z.of_nat k <= len buf ->
  exists buf', store buf off (le_split k x) = Ok buf'.
Proof.
  intros. eexists. apply store_ok; [lia|]. rewrite length_le_split. lia.
Qed.

Ltac do_store :=
  match goal with
  | |- context [store ?b ?o (le_split ?k ?x)] =>
      let Hs := fresh "Hs" in
      let b' := fresh "b" in
      destruct (store_word_ok b o k x) as [b' Hs];
      [lia | simpl; lia
       | rewrite Hs; cbn [bind]; pose proof (store_length _ _ _ _ Hs)]
  end.

Lemma EXPA_writeEXPAEntry_ok base buf off t v :
  value_matches t v = true -> 0 <= off -> off + getSize t <= len buf ->
  exists buf' c, EXPA.writeEXPAEntry base buf off t v = Ok (buf', c).
Proof.
  intros Hm Hoff Hlen.
  destruct t, v; simpl in Hm; try discriminate; simpl in Hlen;
    unfold EXPA.writeEXPAEntry; cbn [get_int32 get_int16 get_int8 get_float
      get_string get_int_array bind]; eauto;
    repeat do_store;
    try match goal with
        | |- context [if ?c then _ else _] => destruct c
        | |- context [match ?a with [] => _ | _ :: _ => _ end] => destruct a
        end; eauto.
Qed.

Lemma EXPANew_writeEXPAEntry_ok base buf off t v :
  value_matches t v = true -> 0 <= off -> off + getSize t <= len buf ->
  exists buf' c, EXPANew.writeEXPAEntry base buf off t v = Ok (buf', c).
Proof.
  intros Hm Hoff Hlen.
  destruct t, v; simpl in Hm; try discriminate; simpl in Hlen;
    unfold EXPANew.writeEXPAEntry; cbn [get_int32 get_int16 get_int8 get_float
      get_string get_int_array bind]; eauto;
    repeat do_store;
    try match goal with
        | |- context [if ?c then _ else _] => destruct c
        end; eauto.
Qed.

Lemma EXPA_cursor_step_grows off bc e :
  0 <= off -> 0 <= bc <= 32 ->
  flushed (off, bc) <= flushed (EXPA_cursor_step (off, bc) e).
Proof.
  intros Hoff Hbc. unfold EXPA_cursor_step, flushed. cbn [fst snd].
  pose proof (getAlignment_range (type e)) as Hal.
  pose proof (getSize_range (type e)) as Hsz.
  pose proof (ceilInteger_ge off (getAlignment (type e)) ltac:(lia)).
  pose proof (ceilInteger_ge (off + 4) (getAlignment (type e)) ltac:(lia)).
  destruct (is_BOOL (type e)) eqn:Hb.
  - apply is_BOOL_true in Hb. rewrite Hb in *. cbn [getSize getAlignment] in *.
    zbool; lia.
  - zbool; lia.
Qed.

Lemma EXPA_cursor_fold_grows s : forall off bc,
  0 <= off -> 0 <= bc <= 32 ->
  flushed (off, bc) <= flushed (fold_left EXPA_cursor_step s (off, bc)).
Proof.
  induction s as [|e s IH]; intros off bc Hoff Hbc; [simpl; lia|].
  cbn [fold_left].
  pose proof (EXPA_cursor_step_grows off bc e Hoff Hbc) as Hg.
  pose proof (EXPA_cursor_le_size_step off bc (flushed (off, bc)) e Hoff Hbc
                ltac:(lia)) as Hs.
  cbv zeta in Hs.
  destruct (EXPA_cursor_step (off, bc) e) as [off' bc'].
  cbn [fst snd] in Hs. destruct Hs as (H1 & H2 & _).
  specialize (IH off' bc' H1 H2). lia.
Qed.

Lemma EXPA_write_step_ok st e v :
  value_matches (type e) v = true ->
  0 <= ws_offset st -> 0 <= ws_bitCounter st <= 32 ->
  flushed (EXPA_cursor_step (ws_offset st, ws_bitCounter st) e)
    <= len (ws_data st) ->
  exists st', EXPA.write_step st e v = Ok st'.
Proof.
  intros Hm Hoff Hbc Hfit. unfold EXPA.write_step.
  unfold EXPA_cursor_step, flushed in Hfit. cbn [fst snd] in Hfit.
  pose proof (getAlignment_range (type e)) as Hal.
  pose proof (getSize_range (type e)) as Hsz.
  pose proof (ceilInteger_ge (ws_offset st) (getAlignment (type e)) ltac:(lia)).
  pose proof (ceilInteger_ge (ws_offset st + 4) (getAlignment (type e)) ltac:(lia)).
  destruct (is_BOOL (type e)) eqn:Hb.
  - apply is_BOOL_true in Hb. rewrite Hb in *.
    destruct v; simpl in Hm; try discriminate.
    cbn [negb orb getSize getAlignment is_BOOL] in *.
    destruct (Z.leb_spec 32 (ws_bitCounter st)).
    + destruct (Z.ltb_spec 0 (ws_bitCounter st)); [|lia].
      revert Hfit. zbool; intros; try lia.
      unfold flush. do_store. cbn [ws_data ws_offset ws_bitCounter
        ws_currentBool ws_chunkEntries EXPA.writeEXPAEntry get_bool bind].
      unfold bitset_set. cbn. eauto.
    + cbn [bind EXPA.writeEXPAEntry get_bool]. unfold bitset_set.
      destruct (Z.leb_spec 0 (ws_bitCounter st)); [|lia].
      destruct (Z.ltb_spec (ws_bitCounter st) 32); [|lia].
      cbn. eauto.
  - cbn [negb orb].
    destruct (Z.ltb_spec 0 (ws_bitCounter st)).
    + revert Hfit. zbool; intros; try lia.
      unfold flush. do_store.
      cbn [ws_data ws_offset ws_bitCounter ws_currentBool ws_chunkEntries].
      destruct (EXPA_writeEXPAEntry_ok
                  (ceilInteger (ws_offset st + 4) (getAlignment (type e))) b
                  (ceilInteger (ws_offset st + 4) (getAlignment (type e)))
                  (type e) v Hm ltac:(lia) ltac:(lia)) as (buf' & c & ->).
      cbn [bind]. eauto.
    + cbn [bind ws_data ws_offset ws_bitCounter ws_currentBool ws_chunkEntries].
      revert Hfit. zbool; intros; try lia.
      all: destruct (EXPA_writeEXPAEntry_ok
                  (ceilInteger (ws_offset st) (getAlignment (type e))) (ws_data st)
                  (ceilInteger (ws_offset st) (getAlignment (type e)))
                  (type e) v Hm ltac:(lia) ltac:(lia)) as (buf' & c & ->);
        cbn [bind]; eauto.
Qed.

Lemma EXPA_write_loop_ok s : forall row st,
  zip_matches s row = true ->
  0 <= ws_offset st -> 0 <= ws_bitCounter st <= 32 ->
  flushed (fold_left EXPA_cursor_step (firstn (List.length row) s)
             (ws_offset st, ws_bitCounter st)) <= len (ws_data st) ->
  exists st', EXPA.write_loop s row st = Ok st'.
Proof.
  induction s as [|e s IH]; intros row st Hm Hoff Hbc Hfit.
  - simpl. eauto.
  - destruct row as [|v row]; [simpl; eauto|].
    cbn [zip_matches] in Hm. apply andb_prop in Hm. destruct Hm as [Hv Hm].
    cbn [firstn fold_left List.length] in Hfit.
    pose proof (EXPA_cursor_le_size_step (ws_offset st) (ws_bitCounter st)
                  (flushed (ws_offset st, ws_bitCounter st)) e Hoff Hbc
                  ltac:(lia)) as Hs.
    cbv zeta in Hs. destruct Hs as (Hs1 & Hs2 & _).
    destruct (EXPA_write_step_ok st e v Hv Hoff Hbc) as [st1 H1].
    { destruct (EXPA_cursor_step (ws_offset st, ws_bitCounter st) e)
        as [off' bc'] eqn:Hc. cbn [fst snd] in Hs1, Hs2.
      pose proof (EXPA_cursor_fold_grows (firstn (List.length row) s)
                    off' bc' Hs1 Hs2). lia. }
    cbn [EXPA.write_loop]. rewrite H1. cbn [bind].
    pose proof (EXPA_write_step_inv _ _ _ _ H1 Hoff ltac:(lia))
      as (Hc & Hle & Hbc1 & [Hlen _]).
    pose proof (f_equal snd Hc) as Hc2. cbn [snd] in Hc2.
    apply IH; auto.
    + lia.
    + rewrite Hc2. exact Hs2.
    + rewrite Hc. rewrite Hlen. exact Hfit.
Qed.

Lemma zip_matches_firstn s : forall row,
  zip_matches s row = true ->
  zip_matches (firstn (List.length row) s) row = true.
Proof.
  induction s as [|e s IH]; intros [|v row] H; simpl in *; auto.
  apply andb_prop in H. destruct H as [-> H]. simpl. auto.
Qed.

Lemma row_matches_zip s : forall row,
  row_matches s row = true ->
  zip_matches s row = true /\ List.length row = List.length s.
Proof.
  induction s as [|e s IH]; intros [|v row] H; simpl in *; try discriminate; auto.
  apply andb_prop in H. destruct H as [-> H]. apply IH in H.
  destruct H as [-> ->]. auto.
Qed.

(** The cursor of a complete run of [writeEXPA] of EXPA.cpp. *)
Lemma EXPA_writeEXPA_run_inv s row st :
  EXPA.writeEXPA_run s row = Ok st ->
  ws_offset st
    = flushed (fold_left EXPA_cursor_step (firstn (List.length row) (structure s))
                 (0, 0)) /\
  0 <= ws_offset st /\
  frame (repeat Byte.xcc (Z.to_nat (EXPA.getEXPASize s))) (ws_data st)
    0 (ws_offset st).
Proof.
  unfold EXPA.writeEXPA_run. intros H. invb H as st1 H1.
  apply EXPA_write_loop_inv in H1; cbn [ws_offset ws_bitCounter ws_data] in *;
    try lia.
  destruct H1 as (Hc & Hle & Hbc & Hfr). rewrite <- Hc. unfold flushed.
  cbn [fst snd]. destruct (0 <? ws_bitCounter st1) eqn:Hb.
  - pose proof (flush_frame _ _ H) as Hfr2.
    apply flush_inv in H. destruct H as (_ & Ho & _). rewrite Ho.
    split; [reflexivity|]. split; [lia|]. rewrite Ho in Hfr2.
    eapply frame_trans; eauto; lia.
  - injection H as <-. split; [reflexivity|]. split; [lia|]. exact Hfr.
Qed.

Lemma EXPA_writeEXPA_run_ok s row :
  len (structure s) < 2 ^ 26 ->
  zip_matches (structure s) row = true ->
  exists st, EXPA.writeEXPA_run s row = Ok st.
Proof.
  intros Hlen Hm. unfold EXPA.writeEXPA_run.
  set (st0 := {| ws_data := repeat Byte.xcc (Z.to_nat (EXPA.getEXPASize s));
                 ws_offset := 0; ws_bitCounter := 0; ws_currentBool := 0;
                 ws_chunkEntries := [] |}).
  assert (Hfit : flushed (fold_left EXPA_cursor_step
                            (firstn (List.length row) (structure s)) (0, 0))
                 <= len (ws_data st0)).
  { cbn [st0 ws_data]. rewrite repeat_length.
    pose proof (EXPA_cursor_le_size (firstn (List.length row) (structure s))
                  0 0 0 ltac:(lia) ltac:(lia) ltac:(cbn; lia)) as H1.
    fold (EXPA.layout_size (firstn (List.length row) (structure s))) in H1.
    pose proof (EXPA_layout_size_prefix (structure s) (List.length row)).
    rewrite (EXPA_getEXPASize_small s Hlen).
    pose proof (ceilInteger_ge (EXPA.layout_size (structure s)) 8 ltac:(lia)).
    lia. }
  destruct (EXPA_write_loop_ok (structure s) row st0 Hm ltac:(cbn; lia)
              ltac:(cbn; lia) Hfit) as [st1 H1].
  rewrite H1. cbn [bind].
  pose proof (EXPA_write_loop_inv _ _ _ _ H1 ltac:(cbn; lia) ltac:(cbn; lia))
    as (Hc & Hle & Hbc & [Hl _]).
  cbn [st0 ws_offset ws_bitCounter ws_data] in *.
  rewrite <- Hc in Hfit. unfold flushed in Hfit. cbn [fst snd] in Hfit.
  destruct (0 <? ws_bitCounter st1); [|eauto].
  unfold flush. do_store. eauto.
Qed.

(** ** The write cursor and the size computation (EXPANew.cpp) *)

Lemma EXPANew_write_step_inv base st e v st' :
  EXPANew.write_step base st e v = Ok st' ->
  0 <= ws_offset st -> 0 <= ws_bitCounter st ->
  (ws_offset st', ws_bitCounter st')
    = EXPANew_cursor_step (ws_offset st, ws_bitCounter st) e /\
  ws_offset st <= ws_offset st' /\ 0 <= ws_bitCounter st' /\
  frame (ws_data st) (ws_data st') (ws_offset st) (ws_offset st').
Proof.
  intros H Hoff Hbc0. unfold EXPANew.write_step in H. unfold EXPANew_cursor_step.
  pose proof (getAlignment_range (type e)) as Hal.
  pose proof (getSize_range (type e)) as Hsz.
  destruct (is_BOOL (type e)) eqn:Hb.
  - apply is_BOOL_true in Hb. rewrite Hb in *. cbn [negb bind] in H.
    simpl in H. invb H as b Hg. invb H as bits Hs.
    injection H as <-. simpl.
    split; [reflexivity|]. split; [lia|]. split; [lia|]. apply frame_refl.
  - cbn [negb] in H.
    invb H as st1 H1. invb H1 as st0 H0. injection H1 as <-.
    simpl in H. invb H as [data' c] Hw. injection H as <-. simpl.
    apply EXPANew_writeEXPAEntry_frame in Hw.
    destruct (0 <? ws_bitCounter st) eqn:Hbc.
    + pose proof (flush_frame _ _ H0) as Hfr.
      apply flush_inv in H0. destruct H0 as (_ & Ho & Hz & _).
      rewrite Ho, Hz in *.
      pose proof (ceilInteger_ge (ws_offset st + 4) (getAlignment (type e))
                    ltac:(lia)).
      split; [reflexivity|]. split; [lia|]. split; [lia|].
      eapply frame_trans; eauto; lia.
    + injection H0 as <-. apply Z.ltb_ge in Hbc.
      replace (ws_bitCounter st) with 0 by lia.
      pose proof (ceilInteger_ge (ws_offset st) (getAlignment (type e))
                    ltac:(lia)).
      split; [reflexivity|]. split; [lia|]. split; [lia|].
      eapply frame_weaken; eauto; lia.
Qed.

Lemma EXPANew_write_loop_inv base s : forall row st st',
  EXPANew.write_loop base s row st = Ok st' ->
  0 <= ws_offset st -> 0 <= ws_bitCounter st ->
  (ws_offset st', ws_bitCounter st')
    = fold_left EXPANew_cursor_step (firstn (List.length row) s)
        (ws_offset st, ws_bitCounter st) /\
  ws_offset st <= ws_offset st' /\ 0 <= ws_bitCounter st' /\
  frame (ws_data st) (ws_data st') (ws_offset st) (ws_offset st').
Proof.
  induction s as [|e s IH]; intros row st st' H Hoff Hbc.
  - simpl in H. injection H as <-. rewrite firstn_nil. simpl.
    repeat split; try lia; auto.
  - destruct row as [|v row].
    + simpl in H. injection H as <-. simpl. repeat split; try lia; auto.
    + simpl in H. invb H as st1 H1.
      apply EXPANew_write_step_inv in H1; auto.
      destruct H1 as (Hc & Hle & Hbc1 & Hfr).
      apply IH in H; auto; [|lia].
      destruct H as (Hc' & Hle' & Hbc' & Hfr').
      cbn [firstn fold_left List.length]. rewrite <- Hc.
      split; [exact Hc'|]. split; [lia|].
      split; [lia|]. eapply frame_trans; eauto; lia.
Qed.

Lemma EXPANew_writeEXPA_run_inv s base data row st :
  EXPANew.writeEXPA_run s base data row = Ok st ->
  ws_offset st
    = flushed (fold_left EXPANew_cursor_step
                 (firstn (List.length row) (structure s)) (0, 0)) /\
  0 <= ws_offset st /\
  frame data (ws_data st) 0 (ws_offset st).
Proof.
  unfold EXPANew.writeEXPA_run. intros H. invb H as st1 H1.
  apply EXPANew_write_loop_inv in H1; cbn [ws_offset ws_bitCounter ws_data] in *;
    try lia.
  destruct H1 as (Hc & Hle & Hbc & Hfr). rewrite <- Hc. unfold flushed.
  cbn [fst snd]. destruct (0 <? ws_bitCounter st1) eqn:Hb.
  - pose proof (flush_frame _ _ H) as Hfr2.
    apply flush_inv in H. destruct H as (_ & Ho & _). rewrite Ho.
    split; [reflexivity|]. split; [lia|]. rewrite Ho in Hfr2.
    eapply frame_trans; eauto; lia.
  - injection H as <-. split; [reflexivity|]. split; [lia|]. exact Hfr.
Qed.

Lemma EXPANew_cursor_le_size_step off bc sz e :
  0 <= off -> 0 <= bc -> flushed (off, bc) <= sz ->
  let c' := EXPANew_cursor_step (off, bc) e in
  let z' := EXPANew.size_step (sz, if 0 <? bc then 1 else 0) e in
  0 <= fst c' /\ 0 <= snd c' /\
  snd z' = (if 0 <? snd c' then 1 else 0) /\ flushed c' <= fst z' /\
  (flushed (off, bc) = sz -> (is_BOOL (type e) && (0 <? bc)) = false ->
   flushed c' = fst z').
Proof.
  intros Hoff Hbc Hle. unfold EXPANew_cursor_step, EXPANew.size_step, flushed in *.
  cbn [fst snd] in *.
  pose proof (getAlignment_range (type e)) as Hal.
  pose proof (getSize_range (type e)) as Hsz.
  pose proof (ceilInteger_ge sz (getAlignment (type e)) ltac:(lia)).
  pose proof (ceilInteger_ge off (getAlignment (type e)) ltac:(lia)).
  pose proof (ceilInteger_ge (off + 4) (getAlignment (type e)) ltac:(lia)).
  pose proof (ceilInteger_mono off sz (getAlignment (type e)) ltac:(lia)).
  pose proof (ceilInteger_mono (off + 4) sz (getAlignment (type e)) ltac:(lia)).
  destruct (is_BOOL (type e)) eqn:Hb.
  - apply is_BOOL_true in Hb. rewrite Hb in *. cbn [getSize getAlignment] in *.
    revert Hle. zbool; intros; repeat split; intros; subst; try lia;
      discriminate.
  - revert Hle. zbool; intros; repeat split; intros; subst; lia.
Qed.

Lemma EXPANew_cursor_le_size s : forall off bc sz,
  0 <= off -> 0 <= bc -> flushed (off, bc) <= sz ->
  flushed (fold_left EXPANew_cursor_step s (off, bc))
    <= fst (fold_left EXPANew.size_step s (sz, if 0 <? bc then 1 else 0)).
Proof.
  induction s as [|e s IH]; intros off bc sz Hoff Hbc Hle; [exact Hle|].
  cbn [fold_left].
  pose proof (EXPANew_cursor_le_size_step off bc sz e Hoff Hbc Hle) as Hs.
  cbv zeta in Hs.
  destruct (EXPANew_cursor_step (off, bc) e) as [off' bc'].
  destruct (EXPANew.size_step (sz, if 0 <? bc then 1 else 0) e) as [sz' sbc'].
  cbn [fst snd] in Hs. destruct Hs as (H1 & H2 & -> & H4 & _).
  apply IH; auto.
Qed.

Lemma EXPANew_cursor_eq_size s : forall off bc sz,
  0 <= off -> 0 <= bc -> flushed (off, bc) = sz ->
  no_adjacent_BOOL s = true ->
  (starts_with_BOOL s && (0 <? bc)) = false ->
  flushed (fold_left EXPANew_cursor_step s (off, bc))
    = fst (fold_left EXPANew.size_step s (sz, if 0 <? bc then 1 else 0)).
Proof.
  induction s as [|e s IH]; intros off bc sz Hoff Hbc Heq Hna Hst; [exact Heq|].
  cbn [fold_left]. cbn [no_adjacent_BOOL starts_with_BOOL] in Hna, Hst.
  apply andb_prop in Hna. destruct Hna as [Hna1 Hna2].
  pose proof (EXPANew_cursor_le_size_step off bc sz e Hoff Hbc ltac:(lia)) as Hs.
  cbv zeta in Hs.
  assert (Hbc' : snd (EXPANew_cursor_step (off, bc) e)
                 = if is_BOOL (type e) then bc + 1 else 0).
  { unfold EXPANew_cursor_step. destruct (is_BOOL (type e)); reflexivity. }
  destruct (EXPANew_cursor_step (off, bc) e) as [off' bc'].
  destruct (EXPANew.size_step (sz, if 0 <? bc then 1 else 0) e) as [sz' sbc'].
  cbn [fst snd] in Hs, Hbc'. destruct Hs as (H1 & H2 & -> & H4 & H5).
  apply IH; auto.
  subst bc'. destruct (is_BOOL (type e)); cbn [negb andb] in *.
  - apply negb_true_iff in Hna1. rewrite Hna1. reflexivity.
  - rewrite andb_false_r. reflexivity.
Qed.

Lemma EXPANew_size_step_grows sz bc e :
  0 <= sz -> sz <= fst (EXPANew.size_step (sz, bc) e) <= sz + 23.
Proof.
  intros Hsz. unfold EXPANew.size_step.
  pose proof (getAlignment_range (type e)) as Hal.
  pose proof (getSize_range (type e)) as Hs.
  pose proof (ceilInteger_ge sz (getAlignment (type e)) ltac:(lia)).
  assert (ceilInteger sz (getAlignment (type e)) <= sz + 7).
  { unfold ceilInteger. destruct (Z.eqb_spec (getAlignment (type e)) 0); [lia|].
    pose proof (ceilInteger_lt sz (getAlignment (type e)) ltac:(lia)) as Hlt.
    unfold ceilInteger in Hlt.
    destruct (Z.eqb_spec (getAlignment (type e)) 0); lia. }
  destruct (is_BOOL (type e)) eqn:Hb.
  - apply is_BOOL_true in Hb. rewrite Hb in *. cbn [getSize getAlignment] in *.
    zbool; lia.
  - zbool; lia.
Qed.

Lemma EXPANew_size_fold_grows s : forall sz bc,
  0 <= sz ->
  sz <= fst (fold_left EXPANew.size_step s (sz, bc)) <= sz + 23 * len s.
Proof.
  induction s as [|e s IH]; intros sz bc Hsz; [simpl; lia|].
  cbn [fold_left]. pose proof (EXPANew_size_step_grows sz bc e Hsz) as Hg.
  destruct (EXPANew.size_step (sz, bc) e) as [sz' bc']. cbn [fst] in Hg.
  specialize (IH sz' bc' ltac:(lia)).
  change (List.length (e :: s)) with (S (List.length s)). lia.
Qed.

(** [getEXPASize] of EXPANew.cpp: no rounding when the field count is
    odd. *)
Lemma EXPANew_getEXPASize_small s :
  len (structure s) < 2 ^ 26 ->
  EXPANew.getEXPASize s
  = if len (structure s) mod 2 =? 0
    then ceilInteger (EXPANew.layout_size (structure s)) 8
    else EXPANew.layout_size (structure s).
Proof.
  intros Hlen. unfold EXPANew.getEXPASize.
  pose proof (EXPANew_size_fold_grows (structure s) 0 0 ltac:(lia)) as Hg.
  fold (EXPANew.layout_size (structure s)) in Hg.
  pose proof (ceilInteger_ge (EXPANew.layout_size (structure s)) 8 ltac:(lia)).
  pose proof (ceilInteger_lt (EXPANew.layout_size (structure s)) 8 ltac:(lia)).
  destruct (structure s) as [|e l] eqn:Hs; [reflexivity|].
  unfold to_uint32. apply Z.mod_small.
  destruct (len (e :: l) mod 2 =? 0); lia.
Qed.

(** ** The zip of fields and values *)


Lemma EXPA_write_loop_zip s : forall entries st,
  EXPA.write_loop s entries st
  = EXPA.write_loop
      (firstn (Nat.min (List.length s) (List.length entries)) s)
      (firstn (Nat.min (List.length s) (List.length entries)) entries) st.
Proof.
  induction s as [|e s IH]; intros [|v entries] st; try reflexivity.
  cbn [List.length Nat.min firstn EXPA.write_loop].
  destruct (EXPA.write_step st e v); cbn [bind]; auto.
Qed.




(** ** The size of a row and the write cursor *)

(** C2 (as stated) fails: for the structure [INT32] the write cursor
    ends at 4 and [getEXPASize] of EXPA.cpp is 8; for [INT8, INT8]
    the cursor of EXPANew.cpp ends at 2 and its [getEXPASize] is 8. *)
Lemma C2_counterexample :
  ~ (forall (s : Structure) (row : list EntryValue) (st : WriteState),
       row_matches (structure s) row = true ->
       EXPA.writeEXPA_run s row = Ok st ->
       EXPA.getEXPASize s = ws_offset st) /\
  ~ (forall (s : Structure) (row : list EntryValue) (st : WriteState),
       row_matches (structure s) row = true ->
       EXPANew.writeEXPA_run s 0 (repeat Byte.xcc 8) row = Ok st ->
       EXPANew.getEXPASize s = ws_offset st).
Proof.
  split; intros H.
  - pose (s := {| structure := [ {| name := "a"; type := INT32 |} ] |}).
    assert (E : exists st, EXPA.writeEXPA_run s [VInt32 1] = Ok st
                           /\ ws_offset st = 4)
      by (vm_compute; eexists; split; reflexivity).
    destruct E as (st & E1 & E2).
    specialize (H s [VInt32 1] st eq_refl E1). rewrite E2 in H.
    vm_compute in H. discriminate H.
  - pose (s := {| structure := [ {| name := "a"; type := INT8 |};
                                 {| name := "b"; type := INT8 |} ] |}).
    assert (E : exists st,
               EXPANew.writeEXPA_run s 0 (repeat Byte.xcc 8) [VInt8 1; VInt8 2]
                 = Ok st /\ ws_offset st = 2)
      by (vm_compute; eexists; split; reflexivity).
    destruct E as (st & E1 & E2).
    specialize (H s [VInt8 1; VInt8 2] st eq_refl E1). rewrite E2 in H.
    vm_compute in H. discriminate H.
Qed.

(** C2 (amended): for a structure of fewer than [2^26] fields and a row
    that matches it, [writeEXPA] of EXPA.cpp returns, its cursor ends at
    or below [getEXPASize], which is a multiple of 8, and [getEXPASize]
    is the final cursor rounded up to 8 when every run of BOOL fields
    starts on a multiple of 4; the cursor of [writeEXPA] of EXPANew.cpp
    ends at or below the unrounded size of its [getEXPASize], and on it
    when no two BOOL fields are adjacent. *)
Theorem C2_size_covers_write_cursor :
  forall (s : Structure) (row : list EntryValue),
    len (structure s) < 2 ^ 26 ->
    row_matches (structure s) row = true ->
    (exists st, EXPA.writeEXPA_run s row = Ok st /\
       ws_offset st <= EXPA.getEXPASize s /\
       EXPA.getEXPASize s mod 8 = 0 /\
       (EXPA_bool_runs_aligned (0, 0) (structure s) = true ->
        EXPA.getEXPASize s = ceilInteger (ws_offset st) 8)) /\
    (forall base data st,
       EXPANew.writeEXPA_run s base data row = Ok st ->
       ws_offset st <= EXPANew.layout_size (structure s) /\
       EXPANew.layout_size (structure s) <= EXPANew.getEXPASize s /\
       (no_adjacent_BOOL (structure s) = true ->
        ws_offset st = EXPANew.layout_size (structure s))).
Proof.
  intros s row Hlen Hm. apply row_matches_zip in Hm. destruct Hm as [Hm Hl].
  split.
  - destruct (EXPA_writeEXPA_run_ok s row Hlen Hm) as [st H].
    exists st. split; [exact H|].
    apply EXPA_writeEXPA_run_inv in H. destruct H as (Ho & Hpos & _).
    rewrite Hl, firstn_all in Ho.
    pose proof (EXPA_cursor_le_size (structure s) 0 0 0 ltac:(lia) ltac:(lia)
                  ltac:(cbn; lia)) as Hle.
    fold (EXPA.layout_size (structure s)) in Hle. rewrite <- Ho in Hle.
    rewrite (EXPA_getEXPASize_small s Hlen).
    pose proof (ceilInteger_ge (EXPA.layout_size (structure s)) 8 ltac:(lia)).
    split; [lia|]. split; [apply ceilInteger_multiple; lia|].
    intros Hal.
    pose proof (EXPA_cursor_eq_size (structure s) 0 0 0 ltac:(lia) ltac:(lia)
                  eq_refl Hal) as Heq.
    fold (EXPA.layout_size (structure s)) in Heq. rewrite <- Ho in Heq.
    rewrite Heq. reflexivity.
  - intros base data st H.
    apply EXPANew_writeEXPA_run_inv in H. destruct H as (Ho & Hpos & _).
    rewrite Hl, firstn_all in Ho.
    pose proof (EXPANew_cursor_le_size (structure s) 0 0 0 ltac:(lia) ltac:(lia)
                  ltac:(cbn; lia)) as Hle.
    change (if 0 <? 0 then 1 else 0) with 0 in Hle.
    fold (EXPANew.layout_size (structure s)) in Hle. rewrite <- Ho in Hle.
    split; [exact Hle|]. split.
    + rewrite (EXPANew_getEXPASize_small s Hlen).
      pose proof (ceilInteger_ge (EXPANew.layout_size (structure s)) 8 ltac:(lia)).
      destruct (len (structure s) mod 2 =? 0); lia.
    + intros Hna.
      pose proof (EXPANew_cursor_eq_size (structure s) 0 0 0 ltac:(lia)
                    ltac:(lia) eq_refl Hna ltac:(apply andb_false_r)) as Heq.
      change (if 0 <? 0 then 1 else 0) with 0 in Heq.
      fold (EXPANew.layout_size (structure s)) in Heq. rewrite <- Ho in Heq.
      exact Heq.
Qed.

Lemma C2_size_covers_write_cursor_witness :
  exists st, EXPA.writeEXPA_run scalar_row_structure
               [VInt32 42; VInt16 (-1); VInt8 7] = Ok st /\
    ws_offset st <= EXPA.getEXPASize scalar_row_structure /\
    EXPA.getEXPASize scalar_row_structure mod 8 = 0 /\
    (EXPA_bool_runs_aligned (0, 0) (structure scalar_row_structure) = true ->
     EXPA.getEXPASize scalar_row_structure = ceilInteger (ws_offset st) 8).
Proof.
  apply (C2_size_covers_write_cursor scalar_row_structure
           [VInt32 42; VInt16 (-1); VInt8 7]);
    vm_compute; reflexivity.
Defined.

(** ** Output streams *)

Lemma length_padded bs size :
  len bs <= size -> len (padded bs size) = size.
Proof. intros H. unfold padded. rewrite length_app, repeat_length. lia. Qed.

Lemma padded_full bs size : size <= len bs -> padded bs size = bs.
Proof.
  intros H. unfold padded.
  replace (Z.to_nat size - List.length bs)%nat with 0%nat by lia.
  apply app_nil_r.
Qed.

Lemma length_contents os : at_end os -> len (contents os) = os_pos os.
Proof. intros H. apply length_padded. exact H. Qed.

Lemma os_write_contents os bs :
  at_end os ->
  contents (os_write os bs) = contents os ++ bs /\
  os_bytes (os_write os bs) = contents os ++ bs /\
  os_pos (os_write os bs) = os_pos os + len bs /\
  at_end (os_write os bs).
Proof.
  intros H. pose proof (length_contents os H) as Hl.
  assert (Hb : os_bytes (os_write os bs) = contents os ++ bs).
  { unfold os_write. cbn [os_bytes]. fold (contents os).
    rewrite firstn_all2 by lia. rewrite skipn_all2 by lia.
    rewrite app_nil_r. reflexivity. }
  assert (Hp : os_pos (os_write os bs) = os_pos os + len bs) by reflexivity.
  split; [|split; [exact Hb|split; [exact Hp|]]].
  - unfold contents at 1. rewrite Hb, Hp. apply padded_full.
    rewrite length_app. lia.
  - unfold at_end. rewrite Hb, Hp, length_app. lia.
Qed.

Lemma os_seekp_contents os pos :
  at_end os -> os_pos os <= pos ->
  contents (os_seekp os pos)
    = contents os ++ repeat Byte.x00 (Z.to_nat (pos - os_pos os)) /\
  at_end (os_seekp os pos).
Proof.
  intros H Hle. unfold at_end in *. split; [|cbn; lia].
  unfold contents, os_seekp, padded. cbn [os_bytes os_pos].
  rewrite <- app_assoc, <- repeat_app. do 2 f_equal. lia.
Qed.

Lemma write_uint32_contents os v :
  at_end os ->
  contents (write_uint32 os v) = contents os ++ le_split 4 v /\
  os_pos (write_uint32 os v) = os_pos os + 4 /\
  at_end (write_uint32 os v).
Proof.
  intros H. unfold write_uint32.
  destruct (os_write_contents os (le_split 4 v) H) as (H1 & _ & H3 & H4).
  rewrite length_le_split in H3. auto.
Qed.

(** ** Alignment of the CHNK header *)

Lemma EXPANew_writeEXPA_length s base data entry data' chunks :
  EXPANew.writeEXPA s base data entry = Ok (data', chunks) ->
  List.length data' = List.length data.
Proof.
  unfold EXPANew.writeEXPA. intros H. invb H as st Hr. injection H as <- <-.
  apply EXPANew_writeEXPA_run_inv in Hr. destruct Hr as (_ & _ & [L _]).
  exact L.
Qed.

Lemma EXPANew_write_rows_pos s actual : forall entries os chnk os' chnk',
  EXPANew.write_rows s actual entries os chnk = Ok (os', chnk') ->
  at_end os -> 0 <= actual ->
  at_end os' /\ os_pos os' = os_pos os + len entries * actual.
Proof.
  induction entries as [|entry rest IH]; intros os chnk os' chnk' H Hw Ha.
  - simpl in H. injection H as <- <-. split; [exact Hw|simpl; lia].
  - cbn [EXPANew.write_rows] in H. invb H as [data' chunks] Hrow.
    apply EXPANew_writeEXPA_length in Hrow. rewrite repeat_length in Hrow.
    destruct (os_write_contents os data' Hw) as (_ & _ & Hp & Hw').
    apply IH in H; auto. destruct H as [Hw'' Hp'']. split; [exact Hw''|].
    rewrite Hp'', Hp. change (List.length (entry :: rest)) with (S (List.length rest)).
    lia.
Qed.

Lemma fold_write_uint32_pos {A} (f : A -> Z) (l : list A) : forall os,
  at_end os ->
  at_end (fold_left (fun os x => write_uint32 os (f x)) l os) /\
  os_pos (fold_left (fun os x => write_uint32 os (f x)) l os)
    = os_pos os + 4 * len l.
Proof.
  induction l as [|x l IH]; intros os Hw; [simpl; split; [auto|lia]|].
  cbn [fold_left]. destruct (write_uint32_contents os (f x) Hw) as (_ & Hp & Hw').
  destruct (IH _ Hw') as [H1 H2]. split; [exact H1|].
  rewrite H2, Hp. change (List.length (x :: l)) with (S (List.length l)). lia.
Qed.

Lemma to_uint32_range z : 0 <= to_uint32 z < 2 ^ 32.
Proof. unfold to_uint32. apply Z.mod_pos_bound. lia. Qed.

Lemma fold_write_uint32_contents {A} (f : A -> Z) (l : list A) : forall os,
  at_end os ->
  contents (fold_left (fun os x => write_uint32 os (f x)) l os)
    = contents os ++ flat_map (fun x => le_split 4 (f x)) l /\
  at_end (fold_left (fun os x => write_uint32 os (f x)) l os).
Proof.
  induction l as [|x l IH]; intros os Hw.
  - simpl. rewrite app_nil_r. auto.
  - cbn [fold_left flat_map].
    destruct (write_uint32_contents os (f x) Hw) as (Hc & _ & Hw').
    destruct (IH _ Hw') as [H1 H2]. split; [|exact H2].
    rewrite H1, Hc, <- app_assoc. reflexivity.
Qed.

Lemma EXPANew_write_table_header_contents expa table os :
  at_end os ->
  contents (EXPANew.write_table_header expa table os)
    = contents os ++ table_header expa table /\
  at_end (EXPANew.write_table_header expa table os).
Proof.
  intros Hw. unfold EXPANew.write_table_header, table_header.
  set (nameSize := ceilInteger
         (len (list_byte_of_string (EXPANew.ft_name table)) + 1) 4).
  destruct (write_uint32_contents os nameSize Hw) as (C1 & _ & W1).
  set (os1 := write_uint32 os nameSize) in *.
  destruct (os_write_contents os1
              (padded (list_byte_of_string (EXPANew.ft_name table)) nameSize) W1)
    as (C2 & _ & _ & W2).
  fold (write_string os1 (EXPANew.ft_name table) nameSize) in C2, W2.
  set (os2 := write_string os1 (EXPANew.ft_name table) nameSize) in *.
  destruct (EXPANew.HAS_STRUCTURE_SECTION expa).
  - destruct (write_uint32_contents os2
                (to_uint32 (EXPANew.getEntryCount (EXPANew.ft_structure table))) W2)
      as (C3 & _ & W3).
    destruct (fold_write_uint32_contents (fun e => EntryType_code (type e))
                (structure (EXPANew.ft_structure table)) _ W3) as (C4 & W4).
    match goal with
    | |- context [write_uint32 (write_uint32 ?o ?a) ?b] =>
        destruct (write_uint32_contents o a W4) as (C5 & _ & W5);
        destruct (write_uint32_contents _ b W5) as (C6 & _ & W6)
    end.
    split; [|exact W6].
    rewrite C6, C5, C4, C3, C2, C1. rewrite <- !app_assoc. reflexivity.
  - match goal with
    | |- context [write_uint32 (write_uint32 ?o ?a) ?b] =>
        destruct (write_uint32_contents o a W2) as (C5 & _ & W5);
        destruct (write_uint32_contents _ b W5) as (C6 & _ & W6)
    end.
    split; [|exact W6].
    rewrite C6, C5, C2, C1. rewrite <- !app_assoc. reflexivity.
Qed.

Lemma EXPANew_write_table_pos expa table os chnk os' chnk' :
  EXPANew.write_table expa table os chnk = Ok (os', chnk') ->
  at_end os -> 0 <= os_pos os ->
  at_end os' /\ 0 <= os_pos os' /\ os_pos os' mod 8 = 0.
Proof.
  unfold EXPANew.write_table. intros H Hw Hpos.
  destruct (EXPANew_write_table_header_contents expa table os Hw) as [Hc Hw1].
  set (os1 := EXPANew.write_table_header expa table os) in *.
  assert (Hp1 : os_pos os <= os_pos os1).
  { rewrite <- (length_contents os1 Hw1), Hc, length_app, Nat2Z.inj_add.
    rewrite (length_contents os Hw). lia. }
  pose proof (ceilInteger_ge (os_pos os1) 8 ltac:(lia)) as Hge.
  destruct (os_seekp_contents os1 (ceilInteger (os_pos os1) 8) Hw1 Hge)
    as [_ Hw2].
  apply EXPANew_write_rows_pos in H; [|exact Hw2|apply to_uint32_range].
  destruct H as [Hw' Hp]. split; [exact Hw'|].
  rewrite Hp. cbn [os_seekp os_pos].
  pose proof (ceilInteger_multiple (os_pos os1) 8 ltac:(lia)) as Hm.
  set (a := to_uint32 (ceilInteger (EXPANew.getEXPASize
                                      (EXPANew.ft_structure table)) 8)).
  assert (Ha : a mod 8 = 0)
    by (apply to_uint32_multiple_of_8; apply ceilInteger_multiple; lia).
  pose proof (to_uint32_range (ceilInteger (EXPANew.getEXPASize
                (EXPANew.ft_structure table)) 8)) as Hr. fold a in Hr.
  split; [nia|].
  rewrite Z.add_mod, Hm by lia. rewrite Z.mul_mod, Ha by lia.
  rewrite Z.mul_0_r. reflexivity.
Qed.

Lemma EXPANew_write_tables_pos expa : forall tbls os chnk os' chnk',
  EXPANew.write_tables expa tbls os chnk = Ok (os', chnk') ->
  at_end os -> 0 <= os_pos os -> os_pos os mod 8 = 0 ->
  at_end os' /\ 0 <= os_pos os' /\ os_pos os' mod 8 = 0.
Proof.
  induction tbls as [|table rest IH]; intros os chnk os' chnk' H Hw Hpos Hm.
  - simpl in H. injection H as <- <-. auto.
  - cbn [EXPANew.write_tables] in H. invb H as [os1 chnk1] H1.
    apply EXPANew_write_table_pos in H1; auto. destruct H1 as (W1 & P1 & M1).
    eapply IH; eauto.
Qed.

Lemma os_write_tight os bs :
  at_end os -> len (os_bytes (os_write os bs)) = os_pos (os_write os bs).
Proof.
  intros H. destruct (os_write_contents os bs H) as (_ & Hb & Hp & _).
  rewrite Hb, Hp, length_app, Nat2Z.inj_add, (length_contents os H). reflexivity.
Qed.

Lemma contents_tight os :
  len (os_bytes os) = os_pos os -> contents os = os_bytes os.
Proof. intros H. apply padded_full. lia. Qed.

Lemma write_chnk_entry_contents os entry :
  at_end os ->
  contents (EXPANew.write_chnk_entry os entry)
    = contents os ++ chnk_bytes [entry] /\
  at_end (EXPANew.write_chnk_entry os entry) /\
  len (os_bytes (EXPANew.write_chnk_entry os entry))
    = os_pos (EXPANew.write_chnk_entry os entry).
Proof.
  intros Hw. unfold EXPANew.write_chnk_entry, chnk_bytes. cbn [flat_map].
  destruct (write_uint32_contents os (offset entry) Hw) as (C1 & _ & W1).
  destruct (write_uint32_contents _ (to_uint32 (len (value entry))) W1)
    as (C2 & _ & W2).
  destruct (os_write_contents _ (value entry) W2) as (C3 & _ & _ & W3).
  split; [|split; [exact W3|apply os_write_tight; exact W2]].
  rewrite C3, C2, C1, app_nil_r, <- !app_assoc. reflexivity.
Qed.

Lemma fold_write_chnk_entry_contents chnk : forall os,
  at_end os -> len (os_bytes os) = os_pos os ->
  os_bytes (fold_left EXPANew.write_chnk_entry chnk os)
    = os_bytes os ++ chnk_bytes chnk.
Proof.
  induction chnk as [|entry rest IH]; intros os Hw Ht.
  - simpl. rewrite app_nil_r. reflexivity.
  - cbn [fold_left].
    destruct (write_chnk_entry_contents os entry Hw) as (C & W & T).
    rewrite IH by assumption. rewrite <- (contents_tight _ T), C.
    rewrite (contents_tight _ Ht). unfold chnk_bytes. cbn [flat_map].
    rewrite app_nil_r, <- !app_assoc. reflexivity.
Qed.

(** The file is what the table loop left, the CHNK header and the
    entries. *)
Lemma EXPANew_writeEXPA_file_bytes expa file os chnk :
  EXPANew.writeEXPA_tables expa file = Ok (os, chnk) -> at_end os ->
  EXPANew.writeEXPA_file expa file
  = Ok (contents os ++ le_split 4 CHNK_MAGIC
          ++ le_split 4 (to_uint32 (len chnk)) ++ chnk_bytes chnk).
Proof.
  intros H Hw. unfold EXPANew.writeEXPA_file. rewrite H. cbn [bind].
  destruct (write_uint32_contents os CHNK_MAGIC Hw) as (C1 & _ & W1).
  destruct (write_uint32_contents _ (to_uint32 (len chnk)) W1) as (C2 & _ & W2).
  rewrite fold_write_chnk_entry_contents;
    [|exact W2|apply os_write_tight; exact W1].
  rewrite <- (contents_tight (write_uint32 (write_uint32 os CHNK_MAGIC) _))
    by (apply os_write_tight; exact W1).
  rewrite C2, C1, <- !app_assoc. reflexivity.
Qed.

Lemma EXPANew_writeEXPA_tables_pos expa file os chnk :
  EXPANew.writeEXPA_tables expa file = Ok (os, chnk) ->
  at_end os /\ 0 <= os_pos os /\ os_pos os mod 8 = 0.
Proof.
  unfold EXPANew.writeEXPA_tables. intros H.
  assert (W0 : at_end {| os_bytes := []; os_pos := 0 |}) by (cbv; discriminate).
  destruct (write_uint32_contents _ EXPA_MAGIC W0) as (_ & P1 & W1).
  destruct (write_uint32_contents _ (to_uint32 (len (EXPANew.tables file))) W1)
    as (_ & P2 & W2).
  eapply EXPANew_write_tables_pos in H; eauto; rewrite P2, P1; cbn; lia.
Qed.

(** C8: in a file that [writeEXPA<expa>] of EXPAnew.h produces, for the
    32-bit and for the 64-bit dialect, the put position at the end of the
    table loop, where the CHNK header is written, is a multiple of 8 and
    so of the dialect's ALIGN_STEP, and the four bytes of the file at that
    offset are the CHNK magic; a file without tables, or whose tables have
    no rows, is always produced. *)
Theorem C8_CHNK_header_aligned :
  forall (expa : EXPANew.Dialect) (file : EXPANew.FinalFile),
    In expa [EXPANew.EXPA32; EXPANew.EXPA64] ->
    (forall os chnk,
       EXPANew.writeEXPA_tables expa file = Ok (os, chnk) ->
       os_pos os mod EXPANew.ALIGN_STEP expa = 0 /\
       exists bytes,
         EXPANew.writeEXPA_file expa file = Ok bytes /\
         os_pos os + 8 <= len bytes /\
         slice bytes (os_pos os) 4 = le_split 4 CHNK_MAGIC) /\
    ((forall table, In table (EXPANew.tables file) ->
                    EXPANew.ft_entries table = []) ->
     exists os chnk, EXPANew.writeEXPA_tables expa file = Ok (os, chnk)).
Proof.
  intros expa file Hd. split.
  - intros os chnk H.
    pose proof (EXPANew_writeEXPA_tables_pos _ _ _ _ H) as (Hw & Hpos & Hm).
    split.
    + destruct Hd as [<-|[<-|[]]]; cbn [EXPANew.ALIGN_STEP EXPANew.EXPA32
        EXPANew.EXPA64]; [|exact Hm].
      apply Z.mod_divide in Hm; [|lia]. destruct Hm as [k ->].
      replace (k * 8) with (2 * k * 4) by lia. apply Z.mod_mul. lia.
    + eexists. split; [apply EXPANew_writeEXPA_file_bytes; eauto|].
      rewrite <- (length_contents os Hw). split.
      * rewrite !length_app, !length_le_split. lia.
      * apply (slice_app_mid (contents os) (le_split 4 CHNK_MAGIC)).
  - intros Hrows. unfold EXPANew.writeEXPA_tables.
    generalize (write_uint32 (write_uint32 {| os_bytes := []; os_pos := 0 |}
                  EXPA_MAGIC) (to_uint32 (len (EXPANew.tables file)))).
    generalize (@nil CHNKEntry).
    induction (EXPANew.tables file) as [|table rest IH]; intros chnk os.
    + simpl. eauto.
    + cbn [EXPANew.write_tables]. unfold EXPANew.write_table.
      rewrite (Hrows table (or_introl eq_refl)). cbn [EXPANew.write_rows bind].
      apply IH. intros t Ht. apply Hrows. right. exact Ht.
Qed.

Lemma C8_CHNK_header_aligned_witness :
  (exists os chnk,
     EXPANew.writeEXPA_tables EXPANew.EXPA64 {| EXPANew.tables := [] |}
       = Ok (os, chnk)) /\
  match EXPANew.writeEXPA_tables EXPANew.EXPA32 one_cell_file with
  | Ok (os, _) => os_pos os mod EXPANew.ALIGN_STEP EXPANew.EXPA32 = 0
  | _ => False
  end.
Proof.
  split.
  - destruct (C8_CHNK_header_aligned EXPANew.EXPA64 {| EXPANew.tables := [] |})
      as [_ H].
    + right. left. reflexivity.
    + apply H. intros table [].
  - destruct (EXPANew.writeEXPA_tables EXPANew.EXPA32 one_cell_file)
      as [[os chnk]|e|] eqn:E.
    + destruct (C8_CHNK_header_aligned EXPANew.EXPA32 one_cell_file) as [H _].
      * left. reflexivity.
      * apply (H os chnk E).
    + vm_compute in E. discriminate E.
    + vm_compute in E. discriminate E.
Defined.

(** ** The structure resolver *)

Section ResolverFacts.

Variable regex_search : string -> string -> bool.
Variable wrapRegex : string -> string.
Variable convertEntryType : string -> EntryType.

Let resolve := getStructureFromFile regex_search wrapRegex convertEntryType.

Lemma getStructureFromFile_unparseable fs filePath tableName :
  schema_unparseable regex_search fs filePath ->
  resolve fs filePath tableName = Throw json_parser_error.
Proof.
  intros (Hd & He & Hj). unfold resolve, getStructureFromFile.
  rewrite Hd, He. cbn [negb]. unfold read_json at 1.
  destruct Hj as [Hj|(index & var & Hj & Hf & Hn & Hs)]; rewrite Hj.
  - reflexivity.
  - cbn [bind]. rewrite Hf, Hn. unfold read_json. rewrite Hs. reflexivity.
Qed.

Lemma getStructureFromFile_no_folder fs filePath tableName :
  is_directory fs STRUCTURE_FOLDER = false \/ exists_ fs STRUCTURE_FILE = false ->
  resolve fs filePath tableName = Ok [].
Proof.
  intros [H|H]; unfold resolve, getStructureFromFile; rewrite H; cbn [negb].
  - reflexivity.
  - destruct (negb (is_directory fs STRUCTURE_FOLDER)); reflexivity.
Qed.

End ResolverFacts.

Lemma stream_read_no_throw file pos n e : stream_read file pos n <> Throw e.
Proof.
  unfold stream_read, load.
  destruct ((0 <=? _) && _); cbn [bind]; discriminate.
Qed.

Lemma read_uint32_no_throw file pos e : read_uint32 file pos <> Throw e.
Proof.
  unfold read_uint32.
  destruct (stream_read file pos 4) as [[bs pos']| |] eqn:E; cbn [bind];
    try discriminate.
  intros H. injection H as ->. eapply stream_read_no_throw; eauto.
Qed.

Lemma read_preamble_no_throw file e : forall count pos j,
  EXPANew.read_preamble file pos count j <> Throw e.
Proof.
  induction count as [|k IH]; intros pos j; cbn [EXPANew.read_preamble];
    [discriminate|].
  destruct (read_uint32 file pos) as [[code pos1]| |] eqn:E1; cbn [bind];
    try discriminate.
  - destruct (EXPANew.read_preamble file pos1 k (j + 1)) as [[rest pos2]| |] eqn:E2;
      cbn [bind]; try discriminate.
    intros H. injection H as ->. eapply IH; eauto.
  - intros H. injection H as ->. eapply read_uint32_no_throw; eauto.
Qed.

(** A resolver that throws leaves no table to read. *)
Lemma EXPANew_read_table_throws expa fromFile file pos e :
  In expa [EXPANew.EXPA32; EXPANew.EXPA64] ->
  (forall tableName, fromFile tableName = Throw e) ->
  EXPANew.read_table expa fromFile file pos = Throw e \/
  EXPANew.read_table expa fromFile file pos = Undefined.
Proof.
  intros Hd Hthrow. unfold EXPANew.read_table.
  match goal with
  | |- context [read_uint32 file ?p] =>
      destruct (read_uint32 file p) as [[nameLength pos1]|e1|] eqn:E1
  end; cbn [bind]; auto;
    [|exfalso; eapply read_uint32_no_throw; eauto].
  match goal with
  | |- context [stream_read file ?p ?n] =>
      destruct (stream_read file p n) as [[nameData pos2]|e2|] eqn:E2
  end; cbn [bind]; auto;
    [|exfalso; eapply stream_read_no_throw; eauto].
  destruct (until_NUL nameData) as [nameBytes|]; auto.
  destruct Hd as [<-|[<-|[]]];
    cbn [EXPANew.getStructure EXPANew.EXPA32 EXPANew.EXPA64].
  - unfold EXPANew.EXPA32_getStructure. rewrite Hthrow. cbn [bind]. auto.
  - unfold EXPANew.EXPA64_getStructure.
    destruct (read_uint32 file pos2) as [[count pos3]|e3|] eqn:E3;
      cbn [bind]; auto; [|exfalso; eapply read_uint32_no_throw; eauto].
    destruct (EXPANew.read_preamble file pos3 _ 0) as [[inBand pos4]|e4|] eqn:E4;
      cbn [bind]; auto; [|exfalso; eapply read_preamble_no_throw; eauto].
    rewrite Hthrow. cbn [bind]. auto.
Qed.

Lemma EXPANew_readEXPA_file_throws expa fromFile file base e f :
  In expa [EXPANew.EXPA32; EXPANew.EXPA64] ->
  (forall tableName, fromFile tableName = Throw e) ->
  EXPANew.readEXPA_file expa fromFile file base = Ok (Value f) ->
  EXPANew.tables f = [].
Proof.
  intros Hd Hthrow H. unfold EXPANew.readEXPA_file in H.
  invb H as [magic pos] H1. invb H as [tableCount pos'] H2.
  destruct (negb (magic =? EXPA_MAGIC)); [discriminate|].
  invb H as r Hr. destruct (Z.to_nat (to_int32 tableCount)) as [|k].
  - cbn [EXPANew.read_tables] in Hr. injection Hr as <-.
    invb H as [magic2 pos2] H3. invb H as [numEntry pos3] H4.
    destruct (negb (magic2 =? CHNK_MAGIC)); [discriminate|].
    invb H as content Hc. invb H as finalTable Hdec.
    cbn [EXPANew.decode_tables] in Hdec. injection Hdec as <-.
    injection H as <-. reflexivity.
  - cbn [EXPANew.read_tables] in Hr.
    destruct (EXPANew_read_table_throws expa fromFile file pos' e Hd Hthrow)
      as [E|E]; rewrite E in Hr; discriminate.
Qed.

(** C7 (as stated) fails: with an index file that is not JSON the
    resolver throws instead of returning the empty structure, and the
    read of a file that reads back with no schema folder is left by the
    exception. *)
Lemma C7_counterexample :
  getStructureFromFile literal_search literal_wrap EXPANew.convertEntryType
    broken_index "data/t.mbe" "t" = Throw json_parser_error /\
  getStructureFromFile literal_search literal_wrap EXPA.convertEntryType
    broken_index "data/t.mbe" "t" = Throw json_parser_error /\
  EXPANew_write_then_read EXPANew.EXPA64
    (getStructureFromFile literal_search literal_wrap EXPANew.convertEntryType
       no_schema "data/t.mbe") one_cell_file 4096
    = Ok (Value one_cell_file) /\
  EXPANew_write_then_read EXPANew.EXPA64
    (getStructureFromFile literal_search literal_wrap EXPANew.convertEntryType
       broken_index "data/t.mbe") one_cell_file 4096
    = Throw json_parser_error.
Proof. repeat split; reflexivity. Qed.

(** C7 (amended): when the schema folder and index exist and the index,
    or the schema file it selects, is not JSON, [getStructureFromFile]
    (of either revision) is left by [json_parser_error] for every table
    name, and [readEXPA<expa>] returns no file that has a table; the empty
    structure is what the resolver returns when the folder or the index
    file is absent. *)
Theorem C7_unparseable_schema_throws :
  forall (regex_search : string -> string -> bool)
         (wrapRegex : string -> string)
         (fs : FileSystem) (filePath : string),
    (schema_unparseable regex_search fs filePath ->
     (forall tableName,
        getStructureFromFile regex_search wrapRegex EXPANew.convertEntryType
          fs filePath tableName = Throw json_parser_error /\
        getStructureFromFile regex_search wrapRegex EXPA.convertEntryType
          fs filePath tableName = Throw json_parser_error) /\
     (forall expa file base f,
        In expa [EXPANew.EXPA32; EXPANew.EXPA64] ->
        EXPANew.readEXPA_file expa
          (getStructureFromFile regex_search wrapRegex
             EXPANew.convertEntryType fs filePath) file base = Ok (Value f) ->
        EXPANew.tables f = [])) /\
    (is_directory fs STRUCTURE_FOLDER = false \/
     exists_ fs STRUCTURE_FILE = false ->
     forall tableName,
       getStructureFromFile regex_search wrapRegex EXPANew.convertEntryType
         fs filePath tableName = Ok [] /\
       getStructureFromFile regex_search wrapRegex EXPA.convertEntryType
         fs filePath tableName = Ok []).
Proof.
  intros regex_search wrapRegex fs filePath. split.
  - intros Hu. split.
    + intros tableName.
      split; apply getStructureFromFile_unparseable; exact Hu.
    + intros expa file base f Hd H.
      eapply EXPANew_readEXPA_file_throws; eauto.
      intros tableName. apply getStructureFromFile_unparseable. exact Hu.
  - intros Hn tableName.
    split; apply getStructureFromFile_no_folder; exact Hn.
Qed.

Lemma C7_unparseable_schema_throws_witness :
  getStructureFromFile literal_search literal_wrap EXPANew.convertEntryType
    broken_index "data/t.mbe" "t" = Throw json_parser_error /\
  getStructureFromFile literal_search literal_wrap EXPA.convertEntryType
    no_schema "data/t.mbe" "t" = Ok [].
Proof.
  split.
  - apply (C7_unparseable_schema_throws literal_search literal_wrap
             broken_index "data/t.mbe").
    repeat split. left. reflexivity.
  - apply (C7_unparseable_schema_throws literal_search literal_wrap
             no_schema "data/t.mbe").
    left. reflexivity.
Defined.

(** ** Runs of BOOL fields (EXPA.cpp) *)

Lemma EXPA_cursor_bool_run run : forall off bc,
  all_BOOL run = true -> off mod 4 = 0 -> 1 <= bc <= 32 ->
  fold_left EXPA_cursor_step run (off, bc)
  = (off + 4 * ((bc + len run - 1) / 32),
     bc + len run - 32 * ((bc + len run - 1) / 32)).
Proof.
  induction run as [|e run IH]; intros off bc Hb Hoff Hbc.
  - cbn [fold_left List.length]. rewrite Z.add_0_r.
    rewrite Z.div_small by lia. f_equal; lia.
  - cbn [all_BOOL forallb] in Hb. apply andb_prop in Hb. destruct Hb as [He Hb].
    cbn [fold_left]. unfold EXPA_cursor_step at 2. rewrite He.
    cbn [negb orb getAlignment]. apply is_BOOL_true in He. rewrite He.
    cbn [getAlignment].
    change (List.length (e :: run)) with (S (List.length run)).
    destruct (Z.leb_spec 32 bc).
    + assert (bc = 32) by lia. subst bc.
      destruct (Z.ltb_spec 0 32); [|lia].
      rewrite ceilInteger_fixed by (try lia; rewrite Z.add_mod, Hoff by lia;
                                    reflexivity).
      rewrite IH; auto; [|rewrite Z.add_mod, Hoff by lia; reflexivity|lia].
      replace (32 + Z.of_nat (S (List.length run)) - 1)
        with (len run + 1 * 32) by lia.
      rewrite Z.div_add by lia.
      replace (0 + 1 + len run - 1) with (len run) by lia.
      f_equal; lia.
    + rewrite IH; auto; [|lia].
      replace (bc + 1 + len run - 1) with (bc + Z.of_nat (S (List.length run)) - 1)
        by lia.
      f_equal; lia.
Qed.

Lemma EXPA_size_bool_run run : forall sz bc,
  all_BOOL run = true -> sz mod 4 = 0 -> 1 <= bc <= 32 ->
  fold_left EXPA.size_step run (sz, bc)
  = (sz + 4 * ((bc + len run - 1) / 32),
     bc + len run - 32 * ((bc + len run - 1) / 32)).
Proof.
  induction run as [|e run IH]; intros sz bc Hb Hsz Hbc.
  - cbn [fold_left List.length]. rewrite Z.add_0_r.
    rewrite Z.div_small by lia. f_equal; lia.
  - cbn [all_BOOL forallb] in Hb. apply andb_prop in Hb. destruct Hb as [He Hb].
    cbn [fold_left]. unfold EXPA.size_step at 2. rewrite He.
    cbn [negb orb]. apply is_BOOL_true in He. rewrite He.
    cbn [getAlignment getSize]. rewrite orb_false_r.
    change (List.length (e :: run)) with (S (List.length run)).
    destruct (Z.eqb_spec bc 0); [lia|]. cbn [orb].
    destruct (Z.leb_spec 32 bc).
    + assert (bc = 32) by lia. subst bc. cbn [Z.eqb].
      rewrite ceilInteger_fixed by lia.
      rewrite IH; auto; [|rewrite Z.add_mod, Hsz by lia; reflexivity|lia].
      replace (32 + Z.of_nat (S (List.length run)) - 1)
        with (len run + 1 * 32) by lia.
      rewrite Z.div_add by lia.
      replace (0 + 1 + len run - 1) with (len run) by lia.
      f_equal; lia.
    + destruct (Z.eqb_spec bc 0); [lia|].
      rewrite IH; auto; [|lia].
      replace (bc + 1 + len run - 1) with (bc + Z.of_nat (S (List.length run)) - 1)
        by lia.
      f_equal; lia.
Qed.

(** A run of [N >= 1] BOOL fields met with no bool word pending. *)
Lemma EXPA_bool_run_footprint run off sz :
  all_BOOL run = true -> run <> [] -> 0 <= off -> 0 <= sz ->
  (off mod 4 = 0 ->
   flushed (fold_left EXPA_cursor_step run (off, 0))
   = off + 4 * ((len run + 31) / 32)) /\
  fst (fold_left EXPA.size_step run (sz, 0))
  = ceilInteger sz 4 + 4 * ((len run + 31) / 32).
Proof.
  intros Hb Hne Hoff Hsz. destruct run as [|e run]; [congruence|].
  cbn [all_BOOL forallb] in Hb. apply andb_prop in Hb. destruct Hb as [He Hb].
  change (List.length (e :: run)) with (S (List.length run)).
  replace (Z.of_nat (S (List.length run)) + 31) with (len run + 1 * 32) by lia.
  rewrite Z.div_add by lia.
  cbn [fold_left]. split.
  - intros Hal. unfold EXPA_cursor_step at 2. rewrite He. cbn [negb orb].
    change (32 <=? 0) with false. cbv iota.
    rewrite EXPA_cursor_bool_run by (auto; lia).
    unfold flushed. cbn [fst snd].
    replace (0 + 1 + len run - 1) with (len run) by lia.
    pose proof (Z.mul_div_le (len run) 32 ltac:(lia)).
    destruct (Z.ltb_spec 0 (0 + 1 + len run - 32 * (len run / 32))); lia.
  - unfold EXPA.size_step at 2. rewrite He. cbn [negb orb Z.eqb].
    apply is_BOOL_true in He. rewrite He. cbn [getAlignment getSize].
    rewrite EXPA_size_bool_run; auto; [|
      rewrite Z.add_mod, ceilInteger_multiple by lia; reflexivity|lia].
    cbn [fst]. replace (0 + 1 + len run - 1) with (len run) by lia. lia.
Qed.

Lemma EXPA_cursor_after_non_BOOL pre c :
  snd c = 0 -> ends_in_BOOL pre = false ->
  snd (fold_left EXPA_cursor_step pre c) = 0.
Proof.
  unfold ends_in_BOOL. intros Hc He.
  destruct (rev pre) as [|e r] eqn:Hr.
  - apply (f_equal (@rev _)) in Hr. rewrite rev_involutive in Hr. subst pre.
    exact Hc.
  - apply (f_equal (@rev _)) in Hr. rewrite rev_involutive in Hr. subst pre.
    cbn [rev]. rewrite fold_left_app. cbn [fold_left starts_with_BOOL] in *.
    destruct (fold_left EXPA_cursor_step (rev r) c) as [off bc].
    unfold EXPA_cursor_step. rewrite He. cbn [negb orb]. reflexivity.
Qed.

Lemma EXPA_size_after_non_BOOL pre z :
  snd z = 0 -> ends_in_BOOL pre = false ->
  snd (fold_left EXPA.size_step pre z) = 0.
Proof.
  unfold ends_in_BOOL. intros Hc He.
  destruct (rev pre) as [|e r] eqn:Hr.
  - apply (f_equal (@rev _)) in Hr. rewrite rev_involutive in Hr. subst pre.
    exact Hc.
  - apply (f_equal (@rev _)) in Hr. rewrite rev_involutive in Hr. subst pre.
    cbn [rev]. rewrite fold_left_app. cbn [fold_left starts_with_BOOL] in *.
    destruct (fold_left EXPA.size_step (rev r) z) as [sz bc].
    unfold EXPA.size_step. rewrite He. cbn [negb]. rewrite !orb_true_r.
    reflexivity.
Qed.

(** C3: in EXPA.cpp a run of [N >= 1] BOOL fields that follows a
    non-BOOL field (or starts the structure) moves the write cursor, the
    trailing flush included, by [4 * ceil(N / 32)] bytes when it starts on
    a multiple of 4, and adds the same to the size computation after the
    alignment to 4; a flush leaves an empty bool word and counter, so no
    bit is carried to the next run. The code breaks the claim in three
    places: [writeEXPA] of EXPANew.cpp throws on the 33rd consecutive
    BOOL, [getEXPASize] of EXPANew.cpp counts 4 bytes for every BOOL, and
    in EXPA.cpp a run of 33 BOOL fields that starts at offset 1 takes 11
    bytes. *)
Theorem C3_bool_run_footprint :
  (forall (pre run : list StructureEntry) (prow brow : list EntryValue)
          (st0 st : WriteState),
     all_BOOL run = true -> run <> [] -> ends_in_BOOL pre = false ->
     List.length prow = List.length pre ->
     List.length brow = List.length run ->
     EXPA.writeEXPA_run {| structure := pre |} prow = Ok st0 ->
     EXPA.writeEXPA_run {| structure := pre ++ run |} (prow ++ brow) = Ok st ->
     (ws_offset st0 mod 4 = 0 ->
      ws_offset st = ws_offset st0 + 4 * ((len run + 31) / 32)) /\
     EXPA.layout_size (pre ++ run)
     = ceilInteger (EXPA.layout_size pre) 4 + 4 * ((len run + 31) / 32)) /\
  (forall st st' : WriteState,
     flush st = Ok st' -> ws_currentBool st' = 0 /\ ws_bitCounter st' = 0) /\
  EXPANew.writeEXPA {| structure := fields_of BOOL 33 |} 0
    (repeat Byte.xcc 136) (repeat (VBool true) 33) = Throw out_of_range /\
  EXPANew.layout_size (fields_of BOOL 3) = 12 /\
  (exists st0 st,
     EXPA.writeEXPA_run {| structure := fields_of INT8 1 |} [VInt8 1] = Ok st0 /\
     EXPA.writeEXPA_run {| structure := fields_of INT8 1 ++ fields_of BOOL 33 |}
       ([VInt8 1] ++ repeat (VBool true) 33) = Ok st /\
     ws_offset st0 = 1 /\ ws_offset st = 12).
Proof.
  split; [|split; [|split; [|split]]].
  - intros pre run prow brow st0 st Hb Hne Hpre Hlp Hlb H0 H.
    apply EXPA_writeEXPA_run_inv in H0, H. cbn [structure] in H0, H.
    destruct H0 as (Ho0 & Hpos0 & _). destruct H as (Ho & _ & _).
    rewrite Hlp, firstn_all in Ho0.
    rewrite length_app, Hlp, Hlb, <- length_app, firstn_all, fold_left_app in Ho.
    pose proof (EXPA_cursor_after_non_BOOL pre (0, 0) eq_refl Hpre) as Hc.
    pose proof (EXPA_size_after_non_BOOL pre (0, 0) eq_refl Hpre) as Hz.
    pose proof (EXPA_size_fold_grows pre 0 0 ltac:(lia)) as Hg.
    unfold EXPA.layout_size. rewrite fold_left_app.
    destruct (fold_left EXPA_cursor_step pre (0, 0)) as [off bc].
    destruct (fold_left EXPA.size_step pre (0, 0)) as [sz sbc].
    cbn [fst snd] in *. subst bc sbc. unfold flushed in Ho0.
    cbn [fst snd] in Ho0. change (0 <? 0) with false in Ho0. cbv iota in Ho0.
    subst off.
    destruct (EXPA_bool_run_footprint run (ws_offset st0) sz Hb Hne Hpos0
                ltac:(lia)) as [F1 F2].
    split; [|exact F2]. intros Hal. rewrite Ho. apply F1. exact Hal.
  - intros st st' H. apply flush_inv in H. tauto.
  - vm_compute. reflexivity.
  - vm_compute. reflexivity.
  - vm_compute. do 2 eexists. repeat split.
Qed.

Lemma C3_bool_run_footprint_witness :
  EXPA.layout_size (fields_of INT32 1 ++ fields_of BOOL 33)
  = ceilInteger (EXPA.layout_size (fields_of INT32 1)) 4 + 4 * ((33 + 31) / 32).
Proof.
  destruct C3_bool_run_footprint as [H _].
  destruct (EXPA_writeEXPA_run_ok {| structure := fields_of INT32 1 |}
              [VInt32 5] ltac:(vm_compute; reflexivity) eq_refl) as [st0 H0].
  destruct (EXPA_writeEXPA_run_ok
              {| structure := fields_of INT32 1 ++ fields_of BOOL 33 |}
              ([VInt32 5] ++ repeat (VBool true) 33)
              ltac:(vm_compute; reflexivity) eq_refl) as [st H1].
  apply (H (fields_of INT32 1) (fields_of BOOL 33) [VInt32 5]
           (repeat (VBool true) 33) st0 st); try reflexivity.
  - discriminate.
  - exact H0.
  - exact H1.
Defined.

(** * The round trip through the container (EXPAnew.h) *)

(** ** Little-endian words and C strings *)

Lemma le_combine_split_small n z :
  0 <= z < 2 ^ (Z.of_nat n * 8) -> le_combine (le_split n z) = z.
Proof. intros H. rewrite le_combine_split. apply Z.mod_small. exact H. Qed.

Lemma to_signed_split n z :
  (0 < n)%nat ->
  - 2 ^ (Z.of_nat n * 8 - 1) <= z < 2 ^ (Z.of_nat n * 8 - 1) ->
  to_signed (Z.of_nat n * 8) (le_combine (le_split n z)) = z.
Proof.
  intros Hn H. rewrite le_combine_split. unfold to_signed.
  set (w := Z.of_nat n * 8) in *.
  assert (Hw : 2 ^ w = 2 * 2 ^ (w - 1)).
  { replace w with (1 + (w - 1)) at 1 by lia.
    rewrite Z.pow_add_r by lia. reflexivity. }
  assert (0 < 2 ^ (w - 1)) by (apply Z.pow_pos_nonneg; lia).
  rewrite Zplus_mod_idemp_l.
  rewrite Z.mod_small by lia. lia.
Qed.

Lemma until_NUL_terminated bs rest :
  no_NUL bs = true -> until_NUL (bs ++ Byte.x00 :: rest) = Some bs.
Proof.
  induction bs as [|b bs IH]; intros H; [reflexivity|].
  cbn [no_NUL forallb] in H. apply andb_prop in H. destruct H as [Hb H].
  cbn [app until_NUL]. apply negb_true_iff in Hb. rewrite Hb.
  fold (no_NUL bs) in H. rewrite (IH H). reflexivity.
Qed.

Lemma load_at base content off n :
  0 <= off -> off + Z.of_nat n <= len content ->
  load {| mem_base := base; mem_bytes := content |} (base + off) n
  = Ok (slice content off n).
Proof.
  intros H1 H2. unfold load. cbn [mem_base mem_bytes].
  replace (base + off - base) with off by lia.
  apply Z.leb_le in H1, H2. rewrite H1, H2. reflexivity.
Qed.

(** The string behind a pointer to [bs], NUL and padding. *)
Lemma load_cstring_at base content pos bs k :
  0 <= pos -> no_NUL bs = true ->
  slice content pos (List.length bs + S k) = bs ++ repeat Byte.x00 (S k) ->
  load_cstring {| mem_base := base; mem_bytes := content |} (base + pos)
  = Ok (string_of_list_byte bs).
Proof.
  intros Hpos Hn Hs. unfold load_cstring. cbn [mem_base mem_bytes].
  replace (base + pos - base) with pos by lia.
  assert (Hlen : (List.length bs + S k <= List.length (skipn (Z.to_nat pos) content))%nat).
  { apply (f_equal (@List.length _)) in Hs. unfold slice in Hs.
    rewrite length_firstn, length_app, repeat_length in Hs. lia. }
  rewrite length_skipn in Hlen.
  destruct (Z.leb_spec 0 pos); [|lia].
  destruct (Z.leb_spec pos (len content)); [|lia]. cbn [andb].
  rewrite <- (firstn_skipn (List.length bs + S k) (skipn (Z.to_nat pos) content)).
  unfold slice in Hs. rewrite Hs. cbn [repeat]. rewrite <- app_assoc.
  cbn [app]. rewrite until_NUL_terminated by exact Hn. reflexivity.
Qed.

(** ** One cell *)

Lemma to_uint32_small z : 0 <= z < 2 ^ 32 -> to_uint32 z = z.
Proof. intros H. apply Z.mod_small. exact H. Qed.

Lemma string_empty_true s : string_empty s = true -> s = EmptyString.
Proof. destruct s; simpl; congruence. Qed.

Lemma slice_store_word_same buf off k x buf' :
  store buf off (le_split k x) = Ok buf' -> slice buf' off k = le_split k x.
Proof.
  intros H. apply slice_store_same in H. rewrite length_le_split in H. exact H.
Qed.

Lemma padded_split bs size :
  len bs + 1 <= size ->
  exists k, padded bs size = bs ++ repeat Byte.x00 (S k) /\
            List.length (padded bs size) = (List.length bs + S k)%nat.
Proof.
  intros H. unfold padded.
  destruct (Z.to_nat size - List.length bs)%nat as [|k] eqn:E; [lia|].
  exists k. split; [reflexivity|].
  rewrite length_app, repeat_length. reflexivity.
Qed.

Lemma string_cell_round_trip base content P p s buf b buf' c :
  no_NUL (list_byte_of_string s) = true ->
  store buf p (le_split 8 0) = Ok b ->
  (if negb (string_empty s)
   then Ok (b, Some (EXPANew.CHNKEntry_of_string (to_uint32 (P + p)) s))
   else Ok (b, None)) = Ok (buf', c) ->
  0 < base -> base + len content < 2 ^ 64 ->
  0 <= P -> 0 <= p -> P + p + 8 <= len content ->
  P + p + 8 <= 2 ^ 32 ->
  (forall a n, p <= a -> a + Z.of_nat n <= p + 8 ->
     match c with
     | Some e => offset e + 8 <= P + a \/ P + a + Z.of_nat n <= offset e
     | None => True
     end ->
     slice content (P + a) n = slice buf' a n) ->
  match c with
  | Some e => chunk_resolved content base e
  | None => True
  end ->
  (ptr <- load_uint {| mem_base := base; mem_bytes := content |}
            (base + (P + p)) 8 ;;
   if ptr =? 0 then Ok (VString "")
   else str <- load_cstring {| mem_base := base; mem_bytes := content |} ptr ;;
        Ok (VString str)) = Ok (VString s).
Proof.
  intros Hpl Hs Hw Hbase Hlim HP Hp Hin H32 Himg Hres.
  destruct (string_empty s) eqn:Hem; cbn [negb] in Hw; injection Hw as <- <-.
  - apply string_empty_true in Hem. subst s.
    unfold load_uint. rewrite load_at by (simpl; lia). cbn [bind].
    rewrite (Himg p 8%nat) by (simpl; auto; lia).
    rewrite (slice_store_word_same _ _ _ _ _ Hs).
    rewrite le_combine_split_small
      by (change (2 ^ (Z.of_nat 8 * 8)) with (2 ^ 64); lia).
    reflexivity.
  - destruct Hres as (pos & Hpos & Hplen & Ho0 & Holen & Hslot & Hpay).
    cbn [EXPANew.CHNKEntry_of_string offset value] in *.
    rewrite !to_uint32_small in Hslot by (rewrite ?to_uint32_small; lia).
    unfold load_uint. rewrite load_at by (simpl; lia). cbn [bind].
    rewrite Hslot.
    rewrite le_combine_split_small
      by (change (2 ^ (Z.of_nat 8 * 8)) with (2 ^ 64); lia).
    destruct (Z.eqb_spec (base + pos) 0); [lia|].
    destruct (padded_split (list_byte_of_string s)
                (ceilInteger (len (list_byte_of_string s) + 1) 4))
      as (k & Hk & Hl).
    { pose proof (ceilInteger_ge (len (list_byte_of_string s) + 1) 4
                    ltac:(lia)). lia. }
    rewrite Hl, Hk in Hpay.
    rewrite (load_cstring_at _ _ _ _ k Hpos Hpl Hpay).
    cbn [bind]. rewrite string_of_list_byte_of_string. reflexivity.
Qed.

Lemma cell_round_trip base content P p t v buf buf' c :
  is_BOOL t = false ->
  value_matches t v = true -> plain_value v = true ->
  EXPANew.writeEXPAEntry (to_uint32 (P + p)) buf p t v = Ok (buf', c) ->
  0 < base -> base + len content < 2 ^ 64 ->
  0 <= P -> 0 <= p -> P + p + getSize t <= len content ->
  P + p + getSize t <= 2 ^ 32 ->
  (forall a n, p <= a -> a + Z.of_nat n <= p + getSize t ->
     match c with
     | Some e => offset e + 8 <= P + a \/ P + a + Z.of_nat n <= offset e
     | None => True
     end ->
     slice content (P + a) n = slice buf' a n) ->
  match c with
  | Some e => chunk_resolved content base e
  | None => True
  end ->
  EXPANew.readEXPAEntry {| mem_base := base; mem_bytes := content |} t
    (base + P + p) 0 = Ok v.
Proof.
  intros Hnb Hm Hpl Hw Hbase Hlim HP Hp Hin H32 Himg Hres.
  rewrite <- Z.add_assoc.
  destruct t, v; simpl in Hm; try discriminate; clear Hnb;
    unfold EXPANew.writeEXPAEntry in Hw;
    cbn [get_int32 get_int16 get_int8 get_float get_string get_int_array bind]
      in Hw;
    cbn [getSize] in *; unfold EXPANew.readEXPAEntry;
    try (injection Hw as <- <-; reflexivity).
  - (* INT32 *)
    invb Hw as b Hs. injection Hw as <- <-.
    apply andb_prop in Hm. destruct Hm as [Hlo Hhi].
    apply Z.leb_le in Hlo. apply Z.ltb_lt in Hhi.
    unfold load_int. rewrite load_at by (simpl; lia). cbn [bind].
    rewrite (Himg p 4%nat) by (simpl; auto; lia).
    rewrite (slice_store_word_same _ _ _ _ _ Hs).
    rewrite to_signed_split by (try lia; change (Z.of_nat 4 * 8 - 1) with 31; lia).
    reflexivity.
  - (* INT16 *)
    invb Hw as b Hs. injection Hw as <- <-.
    apply andb_prop in Hm. destruct Hm as [Hlo Hhi].
    apply Z.leb_le in Hlo. apply Z.ltb_lt in Hhi.
    unfold load_int. rewrite load_at by (simpl; lia). cbn [bind].
    rewrite (Himg p 2%nat) by (simpl; auto; lia).
    rewrite (slice_store_word_same _ _ _ _ _ Hs).
    rewrite to_signed_split by (try lia; change (Z.of_nat 2 * 8 - 1) with 15; lia).
    reflexivity.
  - (* INT8 *)
    invb Hw as b Hs. injection Hw as <- <-.
    apply andb_prop in Hm. destruct Hm as [Hlo Hhi].
    apply Z.leb_le in Hlo. apply Z.ltb_lt in Hhi.
    unfold load_int. rewrite load_at by (simpl; lia). cbn [bind].
    rewrite (Himg p 1%nat) by (simpl; auto; lia).
    rewrite (slice_store_word_same _ _ _ _ _ Hs).
    rewrite to_signed_split by (try lia; change (Z.of_nat 1 * 8 - 1) with 7; lia).
    reflexivity.
  - (* FLOAT *)
    invb Hw as b Hs. injection Hw as <- <-.
    apply andb_prop in Hm. destruct Hm as [Hlo Hhi].
    apply Z.leb_le in Hlo. apply Z.ltb_lt in Hhi.
    unfold load_uint. rewrite load_at by (simpl; lia). cbn [bind].
    rewrite (Himg p 4%nat) by (simpl; auto; lia).
    rewrite (slice_store_word_same _ _ _ _ _ Hs).
    rewrite le_combine_split_small by (change (2 ^ (Z.of_nat 4 * 8)) with (2 ^ 32); lia).
    reflexivity.
  - invb Hw as b Hs. eapply string_cell_round_trip; eauto.
  - invb Hw as b Hs. eapply string_cell_round_trip; eauto.
  - invb Hw as b Hs. eapply string_cell_round_trip; eauto.
  - (* INT_ARRAY *)
    destruct a as [|x a]; [|discriminate Hpl].
    invb Hw as b1 Hs1. invb Hw as b2 Hs2. injection Hw as <- <-.
    destruct Hres as (pos & Hpos & Hplen & Ho0 & Holen & Hslot & Hpay).
    cbn [EXPANew.CHNKEntry_of_int_array offset value List.length] in *.
    rewrite (to_uint32_small (P + p)) in Hslot, Himg by lia.
    rewrite (to_uint32_small (P + p + 8)) in Hslot, Himg by lia.
    unfold load_int, load_uint. rewrite load_at by (simpl; lia). cbn [bind].
    rewrite (Himg p 4%nat) by (simpl; lia).
    rewrite (slice_store_word_other _ _ _ _ _ p 4%nat Hs2) by (simpl; lia).
    rewrite (slice_store_word_same _ _ _ _ _ Hs1).
    change (to_int32 (Z.of_nat 0)) with 0.
    rewrite le_combine_split. change (0 mod 2 ^ (Z.of_nat 4 * 8)) with 0.
    change (to_signed (Z.of_nat 4 * 8) 0) with 0.
    replace (base + (P + p) + 8) with (base + (P + p + 8)) by lia.
    rewrite load_at by (simpl; lia). cbn [bind]. reflexivity.
Qed.

(** ** The slots of a row *)

Lemma slots_sorted_le lo chnk : forall hi,
  slots_sorted lo chnk hi -> lo <= hi.
Proof.
  revert lo. induction chnk as [|e rest IH]; intros lo hi H; [exact H|].
  destruct H as [H1 H2]. apply IH in H2. lia.
Qed.

Lemma slots_sorted_weaken chnk : forall lo hi lo' hi',
  slots_sorted lo chnk hi -> lo' <= lo -> hi <= hi' ->
  slots_sorted lo' chnk hi'.
Proof.
  induction chnk as [|e rest IH]; intros lo hi lo' hi' H Hlo Hhi.
  - simpl in *. lia.
  - destruct H as [H1 H2]. split; [lia|]. eapply IH; eauto. lia.
Qed.

Lemma slots_sorted_app a : forall lo mid b hi,
  slots_sorted lo a mid -> slots_sorted mid b hi ->
  slots_sorted lo (a ++ b) hi.
Proof.
  induction a as [|e rest IH]; intros lo mid b hi Ha Hb.
  - simpl in *. eapply slots_sorted_weaken; eauto. lia.
  - destruct Ha as [H1 H2]. split; [exact H1|]. eapply IH; eauto.
Qed.

Lemma slots_sorted_In chnk : forall lo hi e,
  slots_sorted lo chnk hi -> In e chnk -> lo <= offset e /\ offset e + 8 <= hi.
Proof.
  induction chnk as [|x rest IH]; intros lo hi e H Hin; [destruct Hin|].
  destruct H as [H1 H2]. destruct Hin as [<-|Hin].
  - apply slots_sorted_le in H2. lia.
  - destruct (IH _ _ _ H2 Hin). lia.
Qed.

(** The slot of the entry of a cell lies in the cell. *)
Lemma EXPANew_writeEXPAEntry_slot P p buf t v buf' e :
  EXPANew.writeEXPAEntry (to_uint32 (P + p)) buf p t v = Ok (buf', Some e) ->
  0 <= P + p -> P + p + getSize t <= 2 ^ 32 ->
  P + p <= offset e /\ offset e + 8 <= P + p + getSize t.
Proof.
  intros H H0 H32. unfold EXPANew.writeEXPAEntry in H.
  destruct t; cbn [getSize] in *;
    try (invb H as x Hx; invb H as b Hs; discriminate H);
    try discriminate H.
  1-3: invb H as b Hs; invb H as str Hstr;
    destruct (negb (string_empty str)); [|discriminate H];
    injection H as <- <-; cbn [EXPANew.CHNKEntry_of_string offset];
    rewrite !(to_uint32_small (P + p)) by (rewrite ?to_uint32_small; lia); lia.
  invb H as a Ha. invb H as b1 Hs1. invb H as b2 Hs2.
  injection H as <- <-. cbn [EXPANew.CHNKEntry_of_int_array offset].
  rewrite (to_uint32_small (P + p)) by lia.
  rewrite (to_uint32_small (P + p + 8)) by lia. lia.
Qed.

(** ** The steps of the row write (EXPANew.cpp) *)

Lemma EXPANew_write_step_BOOL bo st e v st1 :
  type e = BOOL -> EXPANew.write_step bo st e v = Ok st1 ->
  exists b bits,
    v = VBool b /\
    bitset_set (ws_currentBool st) (ws_bitCounter st) b = Ok bits /\
    st1 = {| ws_data := ws_data st; ws_offset := ws_offset st;
             ws_bitCounter := ws_bitCounter st + 1;
             ws_currentBool := bits;
             ws_chunkEntries := ws_chunkEntries st |}.
Proof.
  intros He H. unfold EXPANew.write_step in H. rewrite He in H.
  cbn [is_BOOL negb bind EXPANew.writeEXPAEntry] in H.
  destruct v; cbn [get_bool bind] in H; try discriminate.
  invb H as bits Hb. injection H as <-. eauto.
Qed.

Lemma EXPANew_write_step_cell bo st e v st1 :
  is_BOOL (type e) = false -> EXPANew.write_step bo st e v = Ok st1 ->
  0 <= ws_bitCounter st ->
  (ws_bitCounter st = 0 -> ws_currentBool st = 0) ->
  exists buf0 data' c,
    (if 0 <? ws_bitCounter st
     then store (ws_data st) (ws_offset st) (le_split 4 (ws_currentBool st))
          = Ok buf0
     else buf0 = ws_data st) /\
    let p := ceilInteger (flushed (ws_offset st, ws_bitCounter st))
               (getAlignment (type e)) in
    EXPANew.writeEXPAEntry (to_uint32 (bo + p)) buf0 p (type e) v
      = Ok (data', c) /\
    st1 = {| ws_data := data'; ws_offset := p + getSize (type e);
             ws_bitCounter := 0; ws_currentBool := 0;
             ws_chunkEntries := ws_chunkEntries st
                                ++ match c with Some x => [x] | None => [] end |}.
Proof.
  intros He H Hbc Hcb. unfold EXPANew.write_step in H. rewrite He in H.
  cbn [negb] in H. unfold flushed. cbn [fst snd].
  invb H as st2 H2. invb H2 as st0 H0. injection H2 as <-.
  cbn [ws_data ws_offset ws_bitCounter ws_currentBool ws_chunkEntries] in H.
  invb H as [data' c] Hw. injection H as <-.
  destruct (0 <? ws_bitCounter st) eqn:Hb.
  - apply flush_inv in H0. destruct H0 as (Hs & Ho & Hz & Hc & Hch).
    exists (ws_data st0), data', c. rewrite Ho, Hz, Hc, Hch in *.
    split; [exact Hs|]. split; [exact Hw|].
    f_equal. destruct c; [reflexivity|]. symmetry. apply app_nil_r.
  - injection H0 as <-. apply Z.ltb_ge in Hb.
    assert (ws_bitCounter st = 0) as Hz by lia.
    pose proof (Hcb Hz) as Hc0. clear Hcb.
    exists (ws_data st), data', c. rewrite Hz, Hc0 in *.
    split; [reflexivity|]. split; [exact Hw|].
    f_equal. destruct c; [reflexivity|]. symmetry. apply app_nil_r.
Qed.

Lemma EXPANew_cursor_step_grows off bc e :
  0 <= off -> 0 <= bc ->
  flushed (off, bc) <= flushed (EXPANew_cursor_step (off, bc) e) /\
  0 <= fst (EXPANew_cursor_step (off, bc) e) /\
  0 <= snd (EXPANew_cursor_step (off, bc) e).
Proof.
  intros Hoff Hbc.
  pose proof (EXPANew_cursor_le_size_step off bc (flushed (off, bc)) e Hoff Hbc
                ltac:(lia)) as Hs.
  cbv zeta in Hs. destruct Hs as (H1 & H2 & _).
  split; [|auto].
  unfold EXPANew_cursor_step, flushed. cbn [fst snd].
  pose proof (getAlignment_range (type e)) as Hal.
  pose proof (getSize_range (type e)) as Hsz.
  pose proof (ceilInteger_ge off (getAlignment (type e)) ltac:(lia)).
  pose proof (ceilInteger_ge (off + 4) (getAlignment (type e)) ltac:(lia)).
  destruct (is_BOOL (type e)); zbool; lia.
Qed.

Lemma EXPANew_cursor_fold_grows s : forall off bc,
  0 <= off -> 0 <= bc ->
  flushed (off, bc) <= flushed (fold_left EXPANew_cursor_step s (off, bc)).
Proof.
  induction s as [|e s IH]; intros off bc Hoff Hbc; [simpl; lia|].
  cbn [fold_left].
  pose proof (EXPANew_cursor_step_grows off bc e Hoff Hbc) as (Hg & H1 & H2).
  destruct (EXPANew_cursor_step (off, bc) e) as [off' bc'].
  cbn [fst snd] in H1, H2. specialize (IH off' bc' H1 H2). lia.
Qed.

Lemma EXPANew_write_loop_grows P s row st st' :
  EXPANew.write_loop P s row st = Ok st' ->
  0 <= ws_offset st -> 0 <= ws_bitCounter st ->
  flushed (ws_offset st, ws_bitCounter st)
    <= flushed (ws_offset st', ws_bitCounter st') /\
  0 <= ws_offset st' /\ 0 <= ws_bitCounter st' /\
  List.length (ws_data st') = List.length (ws_data st).
Proof.
  intros H Hoff Hbc.
  apply EXPANew_write_loop_inv in H; auto.
  destruct H as (Hc & Hle & Hbc' & [Hl _]). rewrite Hc.
  split; [apply EXPANew_cursor_fold_grows; auto|]. split; [lia|]. auto.
Qed.

Lemma EXPANew_write_loop_chunks P s : forall row st st',
  EXPANew.write_loop P s row st = Ok st' ->
  0 <= P -> 0 <= ws_offset st -> 0 <= ws_bitCounter st ->
  (ws_bitCounter st = 0 -> ws_currentBool st = 0) ->
  P + flushed (ws_offset st', ws_bitCounter st') <= 2 ^ 32 ->
  exists new,
    ws_chunkEntries st' = ws_chunkEntries st ++ new /\
    slots_sorted (P + flushed (ws_offset st, ws_bitCounter st)) new
      (P + flushed (ws_offset st', ws_bitCounter st')).
Proof.
  induction s as [|e s IH]; intros row st st' H HP Hoff Hbc Hcb H32.
  - simpl in H. injection H as <-. exists []. rewrite app_nil_r.
    split; [reflexivity|]. simpl. lia.
  - destruct row as [|v row].
    { simpl in H. injection H as <-. exists []. rewrite app_nil_r.
      split; [reflexivity|]. simpl. lia. }
    cbn [EXPANew.write_loop] in H. invb H as st1 H1.
    pose proof (EXPANew_write_step_inv _ _ _ _ _ H1 Hoff Hbc)
      as (Hc1 & Hle1 & Hbc1 & _).
    pose proof (EXPANew_cursor_step_grows (ws_offset st) (ws_bitCounter st) e
                  Hoff Hbc) as (Hg1 & _ & _).
    rewrite <- Hc1 in Hg1.
    pose proof (EXPANew_write_loop_grows _ _ _ _ _ H ltac:(lia) Hbc1)
      as (Hg2 & _ & _ & _).
    destruct (is_BOOL (type e)) eqn:He.
    + apply is_BOOL_true in He.
      destruct (EXPANew_write_step_BOOL _ _ _ _ _ He H1) as (b & bits & -> & Hs & ->).
      cbn [ws_offset ws_bitCounter ws_chunkEntries ws_currentBool] in *.
      destruct (IH _ _ _ H HP Hoff ltac:(cbn; lia) ltac:(cbn; lia) H32)
        as (new & Hn & Hso).
      cbn [ws_offset ws_bitCounter ws_chunkEntries] in Hn, Hso.
      exists new. split; [exact Hn|].
      eapply slots_sorted_weaken; eauto; lia.
    + destruct (EXPANew_write_step_cell _ _ _ _ _ He H1 Hbc Hcb)
        as (buf0 & data' & c & Hf & Hw & ->).
      cbn [ws_offset ws_bitCounter ws_chunkEntries ws_currentBool] in *.
      set (p := ceilInteger (flushed (ws_offset st, ws_bitCounter st))
                  (getAlignment (type e))) in *.
      assert (Hp : flushed (ws_offset st, ws_bitCounter st) <= p).
      { apply ceilInteger_ge. apply getAlignment_range. }
      assert (Hf0 : 0 <= flushed (ws_offset st, ws_bitCounter st)).
      { unfold flushed. cbn [fst snd]. destruct (0 <? ws_bitCounter st); lia. }
      assert (Hfl : flushed (p + getSize (type e), 0) = p + getSize (type e))
        by reflexivity.
      rewrite Hfl in *.
      destruct (IH _ _ _ H HP ltac:(cbn; lia) ltac:(cbn; lia) ltac:(auto) H32)
        as (new & Hn & Hso).
      cbn [ws_offset ws_bitCounter ws_chunkEntries] in Hn, Hso.
      rewrite Hfl in Hso.
      exists (match c with Some x => [x] | None => [] end ++ new).
      split; [rewrite Hn, app_assoc; reflexivity|].
      eapply slots_sorted_app; [|exact Hso].
      destruct c as [x|].
      * apply EXPANew_writeEXPAEntry_slot in Hw; [|lia|lia].
        cbn [slots_sorted]. lia.
      * cbn [slots_sorted]. pose proof (getSize_range (type e)). lia.
Qed.

(** ** One row *)

Lemma finalised_frame P s row st st_end D :
  EXPANew.write_loop P s row st = Ok st_end -> finalised st_end D ->
  0 <= ws_offset st -> 0 <= ws_bitCounter st ->
  List.length D = List.length (ws_data st) /\
  forall a n, 0 <= a -> a + Z.of_nat n <= ws_offset st ->
              slice D a n = slice (ws_data st) a n.
Proof.
  intros H Hf Hoff Hbc. apply EXPANew_write_loop_inv in H; auto.
  destruct H as (_ & Hle & _ & [Hl Hfr]). unfold finalised in Hf.
  destruct (0 <? ws_bitCounter st_end).
  - pose proof (store_length _ _ _ _ Hf) as Hl2. split; [congruence|].
    intros a n Ha Han.
    rewrite (slice_store_word_other _ _ _ _ _ a n Hf) by lia.
    apply Hfr; lia.
  - subst D. split; [exact Hl|]. intros a n Ha Han. apply Hfr; lia.
Qed.

Lemma flushed_0 off : flushed (off, 0) = off.
Proof. reflexivity. Qed.

Lemma flushed_1 off : flushed (off, 1) = off + 4.
Proof. reflexivity. Qed.

Lemma read_bool_word b bits :
  bitset_set 0 0 b = Ok bits ->
  (Z.land (Z.shiftr (to_signed (Z.of_nat 4 * 8) (le_combine (le_split 4 bits))) 0) 1
   =? 1) = b.
Proof.
  unfold bitset_set. cbn [Z.leb Z.ltb Z.compare andb].
  intros H. injection H as <-. destruct b; vm_compute; reflexivity.
Qed.

Section RowRoundTrip.

Variables (base : Z) (content : list byte) (P : Z) (D : list byte).
Variable rc : list CHNKEntry.

Hypothesis Hbase : 0 < base.
Hypothesis Hlim : base + len content < 2 ^ 64.
Hypothesis HP : 0 <= P.
Hypothesis HP32 : P + len D <= 2 ^ 32.
Hypothesis Hin : P + len D <= len content.
(** The image of the row is [D] but for the slots of its entries. *)
Hypothesis Himage :
  forall a n, 0 <= a -> a + Z.of_nat n <= len D ->
    (forall e, In e rc ->
               offset e + 8 <= P + a \/ P + a + Z.of_nat n <= offset e) ->
    slice content (P + a) n = slice D a n.
Hypothesis Hresolved : forall e, In e rc -> chunk_resolved content base e.

Lemma cells_round_trip s : forall row st st_end vals,
  EXPANew.write_loop P s row st = Ok st_end ->
  finalised st_end D ->
  flushed (ws_offset st_end, ws_bitCounter st_end) <= len D ->
  rc = ws_chunkEntries st_end ->
  0 <= ws_offset st -> 0 <= ws_bitCounter st <= 1 ->
  (ws_bitCounter st = 0 -> ws_currentBool st = 0) ->
  (forall e, In e (ws_chunkEntries st) -> offset e + 8 <= P + ws_offset st) ->
  no_adjacent_BOOL s = true ->
  (starts_with_BOOL s && (0 <? ws_bitCounter st)) = false ->
  row_matches s row = true -> forallb plain_value row = true ->
  ((0 <? ws_bitCounter st) = true ->
   slice D (ws_offset st) 4 = le_split 4 (ws_currentBool st)) /\
  exists off' bc',
    EXPANew.read_loop {| mem_base := base; mem_bytes := content |} (base + P) s
      (vals, flushed (ws_offset st, ws_bitCounter st), ws_bitCounter st)
    = Ok (vals ++ row, off', bc').
Proof.
  induction s as [|e s IH];
    intros row st st_end vals Hw Hfin Hfit Hrc Hoff Hbc Hcb Hch Hna Hst Hm Hpl.
  - destruct row; [|discriminate Hm]. cbn [EXPANew.write_loop] in Hw.
    injection Hw as <-. split.
    + intros Hb. unfold finalised in Hfin. rewrite Hb in Hfin.
      eapply slice_store_word_same; eauto.
    + cbn [EXPANew.read_loop]. rewrite app_nil_r. eauto.
  - destruct row as [|v row]; [discriminate Hm|].
    cbn [row_matches] in Hm. apply andb_prop in Hm. destruct Hm as [Hv Hm].
    cbn [forallb] in Hpl. apply andb_prop in Hpl. destruct Hpl as [Hpv Hpl].
    cbn [no_adjacent_BOOL] in Hna. apply andb_prop in Hna.
    destruct Hna as [Hna1 Hna].
    cbn [EXPANew.write_loop] in Hw. invb Hw as st1 H1.
    pose proof (EXPANew_write_step_inv _ _ _ _ _ H1 Hoff ltac:(lia))
      as (Hc1 & Hle1 & Hbc1 & _).
    pose proof (EXPANew_write_loop_grows _ _ _ _ _ Hw ltac:(lia) Hbc1)
      as (Hg2 & _ & _ & _).
    pose proof (finalised_frame _ _ _ _ _ _ Hw Hfin ltac:(lia) Hbc1)
      as (HlD & HfrD).
    destruct (is_BOOL (type e)) eqn:He.
    + (* a BOOL: the word is flushed later *)
      pose proof He as He'. apply is_BOOL_true in He'.
      cbn [starts_with_BOOL] in Hst. rewrite He in Hst. cbn [andb] in Hst.
      apply Z.ltb_ge in Hst. assert (Hz : ws_bitCounter st = 0) by lia.
      destruct (EXPANew_write_step_BOOL _ _ _ _ _ He' H1)
        as (b & bits & -> & Hs & ->).
      cbn [ws_offset ws_bitCounter ws_chunkEntries ws_currentBool ws_data] in *.
      pose proof (Hcb Hz) as Hc0. clear Hcb. rewrite Hz, Hc0 in *.
      change (0 + 1) with 1 in *. rewrite ?flushed_0, ?flushed_1 in *.
      cbn [andb negb] in Hna1. apply negb_true_iff in Hna1.
      destruct (EXPANew_write_loop_chunks _ _ _ _ _ Hw HP Hoff ltac:(cbn; lia)
                  ltac:(cbn; lia) ltac:(lia)) as (new & Hn & Hso).
      cbn [ws_offset ws_bitCounter ws_chunkEntries] in Hn, Hso.
      rewrite flushed_1 in Hso.
      destruct (IH row _ st_end (vals ++ [VBool b]) Hw Hfin Hfit Hrc)
        as (Hi & off' & bc' & Hr);
        cbn [ws_offset ws_bitCounter ws_chunkEntries ws_currentBool]; auto;
        try lia.
      { rewrite Hna1. reflexivity. }
      cbn [ws_offset ws_bitCounter ws_currentBool] in Hi, Hr.
      rewrite flushed_1 in Hr.
      split; [discriminate|]. exists off', bc'.
      cbn [EXPANew.read_loop]. unfold EXPANew.read_step.
      rewrite He'. cbn [Z.eqb negb orb is_BOOL getSize EXPANew.readEXPAEntry].
      unfold load_int. rewrite <- Z.add_assoc.
      rewrite load_at by (simpl; lia). cbn [bind].
      rewrite Himage; [|lia|simpl; lia|].
      * rewrite (Hi eq_refl). rewrite (read_bool_word _ _ Hs).
        rewrite <- app_assoc in Hr. cbn [app] in Hr. exact Hr.
      * intros x Hx. rewrite Hrc, Hn in Hx. apply in_app_or in Hx.
        destruct Hx as [Hx|Hx].
        -- left. apply Hch in Hx. lia.
        -- right. destruct (slots_sorted_In _ _ _ _ Hso Hx). simpl. lia.
    + (* a cell with storage, or none *)
      destruct (EXPANew_write_step_cell _ _ _ _ _ He H1 ltac:(lia) Hcb)
        as (buf0 & data' & c & Hf & Hwe & ->).
      cbn [ws_offset ws_bitCounter ws_chunkEntries ws_currentBool ws_data] in *.
      set (p := ceilInteger (flushed (ws_offset st, ws_bitCounter st))
                  (getAlignment (type e))) in *.
      rewrite ?flushed_0 in *.
      assert (Hf0 : ws_offset st <= flushed (ws_offset st, ws_bitCounter st)).
      { unfold flushed. cbn [fst snd]. destruct (0 <? ws_bitCounter st); lia. }
      assert (Hp : flushed (ws_offset st, ws_bitCounter st) <= p).
      { apply ceilInteger_ge. apply getAlignment_range. }
      pose proof (getSize_range (type e)) as Hsz.
      destruct (EXPANew_write_loop_chunks _ _ _ _ _ Hw HP ltac:(cbn; lia)
                  ltac:(cbn; lia) ltac:(auto) ltac:(lia)) as (new & Hn & Hso).
      cbn [ws_offset ws_bitCounter ws_chunkEntries] in Hn, Hso.
      rewrite flushed_0 in Hso.
      assert (Hown : forall x, c = Some x ->
                P + p <= offset x /\ offset x + 8 <= P + p + getSize (type e)).
      { intros x ->. eapply EXPANew_writeEXPAEntry_slot; eauto; lia. }
      destruct (IH row _ st_end (vals ++ [v]) Hw Hfin Hfit Hrc)
        as (_ & off' & bc' & Hr);
        cbn [ws_offset ws_bitCounter ws_chunkEntries ws_currentBool]; auto;
        try lia.
      { intros x Hx. apply in_app_or in Hx. destruct Hx as [Hx|Hx].
        - apply Hch in Hx. lia.
        - destruct c as [y|]; [|destruct Hx].
          destruct Hx as [<-|[]]. destruct (Hown _ eq_refl). lia. }
      cbn [ws_offset ws_bitCounter] in Hr. rewrite flushed_0 in Hr.
      split.
      * (* the pending word went to the buffer before the cell *)
        intros Hb. rewrite Hb in Hf.
        assert (Hfl : flushed (ws_offset st, ws_bitCounter st) = ws_offset st + 4).
        { unfold flushed. cbn [fst snd]. rewrite Hb. reflexivity. }
        rewrite HfrD by lia.
        apply EXPANew_writeEXPAEntry_frame in Hwe. destruct Hwe as [_ Hfr].
        rewrite Hfr by (try lia; left; simpl; lia).
        eapply slice_store_word_same; eauto.
      * exists off', bc'. cbn [EXPANew.read_loop]. unfold EXPANew.read_step.
        rewrite He. cbn [negb]. rewrite orb_true_r. fold p.
        rewrite (cell_round_trip base content P p (type e) v buf0 data' c);
          auto; try lia.
        -- cbn [bind Z.eqb]. rewrite <- app_assoc in Hr. cbn [app] in Hr.
           exact Hr.
        -- intros a n Ha Han Hdis. rewrite Himage; [|lia|lia|].
           ++ apply HfrD; lia.
           ++ intros x Hx. rewrite Hrc, Hn in Hx. apply in_app_or in Hx.
              destruct Hx as [Hx|Hx]; [|right].
              ** apply in_app_or in Hx. destruct Hx as [Hx|Hx].
                 --- left. apply Hch in Hx. lia.
                 --- destruct c as [y|]; [|destruct Hx].
                     destruct Hx as [<-|[]]. exact Hdis.
              ** destruct (slots_sorted_In _ _ _ _ Hso Hx). lia.
        -- destruct c as [y|]; [|exact I]. apply Hresolved.
           rewrite Hrc, Hn. apply in_or_app. left. apply in_or_app. right.
           left. reflexivity.
Qed.

End RowRoundTrip.

(** ** A matching row is written without error (EXPANew.cpp) *)

Lemma EXPANew_write_step_ok bo st e v :
  value_matches (type e) v = true ->
  0 <= ws_offset st -> 0 <= ws_bitCounter st < 32 ->
  flushed (EXPANew_cursor_step (ws_offset st, ws_bitCounter st) e)
    <= len (ws_data st) ->
  exists st', EXPANew.write_step bo st e v = Ok st'.
Proof.
  intros Hm Hoff Hbc Hfit. unfold EXPANew.write_step.
  unfold EXPANew_cursor_step, flushed in Hfit. cbn [fst snd] in Hfit.
  pose proof (getAlignment_range (type e)) as Hal.
  pose proof (getSize_range (type e)) as Hsz.
  pose proof (ceilInteger_ge (ws_offset st) (getAlignment (type e)) ltac:(lia)).
  pose proof (ceilInteger_ge (ws_offset st + 4) (getAlignment (type e)) ltac:(lia)).
  destruct (is_BOOL (type e)) eqn:Hb.
  - apply is_BOOL_true in Hb. rewrite Hb in *.
    destruct v; simpl in Hm; try discriminate.
    cbn [negb bind EXPANew.writeEXPAEntry get_bool is_BOOL]. unfold bitset_set.
    destruct (Z.leb_spec 0 (ws_bitCounter st)); [|lia].
    destruct (Z.ltb_spec (ws_bitCounter st) 32); [|lia].
    cbn. eauto.
  - cbn [negb].
    destruct (Z.ltb_spec 0 (ws_bitCounter st)).
    + revert Hfit. zbool; intros; try lia.
      unfold flush. do_store.
      cbn [ws_data ws_offset ws_bitCounter ws_currentBool ws_chunkEntries].
      destruct (EXPANew_writeEXPAEntry_ok
                  (to_uint32 (bo + ceilInteger (ws_offset st + 4)
                                     (getAlignment (type e)))) b
                  (ceilInteger (ws_offset st + 4) (getAlignment (type e)))
                  (type e) v Hm ltac:(lia) ltac:(lia)) as (buf' & c & ->).
      cbn [bind]. eauto.
    + cbn [bind ws_data ws_offset ws_bitCounter ws_currentBool ws_chunkEntries].
      revert Hfit. zbool; intros; try lia.
      all: destruct (EXPANew_writeEXPAEntry_ok
                  (to_uint32 (bo + ceilInteger (ws_offset st)
                                     (getAlignment (type e)))) (ws_data st)
                  (ceilInteger (ws_offset st) (getAlignment (type e)))
                  (type e) v Hm ltac:(lia) ltac:(lia)) as (buf' & c & ->);
        cbn [bind]; eauto.
Qed.

Lemma EXPANew_write_loop_ok bo s : forall row st,
  row_matches s row = true -> no_adjacent_BOOL s = true ->
  (starts_with_BOOL s && (0 <? ws_bitCounter st)) = false ->
  0 <= ws_offset st -> 0 <= ws_bitCounter st <= 1 ->
  flushed (fold_left EXPANew_cursor_step s (ws_offset st, ws_bitCounter st))
    <= len (ws_data st) ->
  exists st', EXPANew.write_loop bo s row st = Ok st'.
Proof.
  induction s as [|e s IH]; intros row st Hm Hna Hst Hoff Hbc Hfit.
  - simpl. eauto.
  - destruct row as [|v row]; [discriminate Hm|].
    cbn [row_matches] in Hm. apply andb_prop in Hm. destruct Hm as [Hv Hm].
    cbn [no_adjacent_BOOL] in Hna. apply andb_prop in Hna.
    destruct Hna as [Hna1 Hna]. cbn [fold_left] in Hfit.
    pose proof (EXPANew_cursor_step_grows (ws_offset st) (ws_bitCounter st) e
                  Hoff ltac:(lia)) as (Hg & Hs1 & Hs2).
    destruct (EXPANew_write_step_ok bo st e v Hv Hoff ltac:(lia)) as [st1 H1].
    { destruct (EXPANew_cursor_step (ws_offset st, ws_bitCounter st) e)
        as [off' bc'] eqn:Hc. cbn [fst snd] in Hs1, Hs2.
      pose proof (EXPANew_cursor_fold_grows s off' bc' Hs1 Hs2). lia. }
    cbn [EXPANew.write_loop]. rewrite H1. cbn [bind].
    pose proof (EXPANew_write_step_inv _ _ _ _ _ H1 Hoff ltac:(lia))
      as (Hc & Hle & Hbc1 & [Hlen _]).
    assert (Hbc' : ws_bitCounter st1
                   = if is_BOOL (type e) then ws_bitCounter st + 1 else 0).
    { apply (f_equal snd) in Hc. cbn [snd] in Hc. rewrite Hc.
      unfold EXPANew_cursor_step. destruct (is_BOOL (type e)); reflexivity. }
    cbn [starts_with_BOOL] in Hst.
    apply IH; auto.
    + rewrite Hbc'. destruct (is_BOOL (type e)); cbn [andb negb] in *.
      * apply negb_true_iff in Hna1. rewrite Hna1. reflexivity.
      * apply andb_false_r.
    + lia.
    + rewrite Hbc'. destruct (is_BOOL (type e)); cbn [andb] in *; [|lia].
      apply Z.ltb_ge in Hst. lia.
    + rewrite Hc, Hlen. exact Hfit.
Qed.

(** [writeEXPA] of EXPANew.cpp on a buffer that holds the row: the loop,
    then the buffer of the trailing flush. *)
Lemma EXPANew_writeEXPA_ok s P data row :
  row_matches (structure s) row = true ->
  no_adjacent_BOOL (structure s) = true ->
  EXPANew.layout_size (structure s) <= len data ->
  exists st_end D,
    EXPANew.write_loop P (structure s) row
      {| ws_data := data; ws_offset := 0; ws_bitCounter := 0;
         ws_currentBool := 0; ws_chunkEntries := [] |} = Ok st_end /\
    finalised st_end D /\
    flushed (ws_offset st_end, ws_bitCounter st_end) <= len D /\
    List.length D = List.length data /\
    EXPANew.writeEXPA s P data row = Ok (D, ws_chunkEntries st_end).
Proof.
  intros Hm Hna Hfit.
  pose proof (EXPANew_cursor_eq_size (structure s) 0 0 0 ltac:(lia) ltac:(lia)
                eq_refl Hna ltac:(apply andb_false_r)) as Heq.
  change (if 0 <? 0 then 1 else 0) with 0 in Heq.
  fold (EXPANew.layout_size (structure s)) in Heq.
  set (st0 := {| ws_data := data; ws_offset := 0; ws_bitCounter := 0;
                 ws_currentBool := 0; ws_chunkEntries := [] |}).
  destruct (EXPANew_write_loop_ok P (structure s) row st0 Hm Hna
              ltac:(apply andb_false_r) ltac:(cbn; lia) ltac:(cbn; lia))
    as [st_end Hw].
  { cbn [st0 ws_offset ws_bitCounter ws_data]. lia. }
  pose proof (EXPANew_write_loop_inv _ _ _ _ _ Hw ltac:(cbn; lia) ltac:(cbn; lia))
    as (Hc & Hle & Hbc & [Hl _]).
  destruct (row_matches_zip _ _ Hm) as [_ Hlen].
  rewrite Hlen, firstn_all in Hc. cbn [st0 ws_offset ws_bitCounter ws_data] in *.
  assert (Hfl : flushed (ws_offset st_end, ws_bitCounter st_end) <= len data).
  { rewrite Hc. lia. }
  unfold EXPANew.writeEXPA, EXPANew.writeEXPA_run. fold st0. rewrite Hw.
  cbn [bind]. unfold flush.
  unfold flushed in Hfl. cbn [fst snd] in Hfl.
  destruct (0 <? ws_bitCounter st_end) eqn:Hb.
  - destruct (store_word_ok (ws_data st_end) (ws_offset st_end) 4
                (ws_currentBool st_end) ltac:(lia) ltac:(lia)) as [D HD].
    exists st_end, D. split; [reflexivity|].
    split; [unfold finalised; rewrite Hb; exact HD|].
    pose proof (store_length _ _ _ _ HD) as HlD.
    split; [unfold flushed; cbn [fst snd]; rewrite Hb; lia|].
    split; [congruence|]. rewrite HD. reflexivity.
  - exists st_end, (ws_data st_end). split; [reflexivity|].
    split; [unfold finalised; rewrite Hb; reflexivity|].
    split; [unfold flushed; cbn [fst snd]; rewrite Hb; lia|].
    split; [exact Hl|]. reflexivity.
Qed.

Lemma row_round_trip base content P s data row D rc :
  0 < base -> base + len content < 2 ^ 64 ->
  0 <= P -> P + len D <= 2 ^ 32 -> P + len D <= len content ->
  (forall a n, 0 <= a -> a + Z.of_nat n <= len D ->
     (forall e, In e rc ->
                offset e + 8 <= P + a \/ P + a + Z.of_nat n <= offset e) ->
     slice content (P + a) n = slice D a n) ->
  (forall e, In e rc -> chunk_resolved content base e) ->
  row_matches (structure s) row = true ->
  forallb plain_value row = true ->
  no_adjacent_BOOL (structure s) = true ->
  EXPANew.layout_size (structure s) <= len data ->
  EXPANew.writeEXPA s P data row = Ok (D, rc) ->
  EXPANew.readEXPA s {| mem_base := base; mem_bytes := content |} (base + P)
  = Ok row.
Proof.
  intros Hbase Hlim HP HP32 Hin Himage Hres Hm Hpl Hna Hfit Hw.
  destruct (EXPANew_writeEXPA_ok s P data row Hm Hna Hfit)
    as (st_end & D' & Hloop & Hfin & Hfl & HlD & Hw').
  rewrite Hw' in Hw. injection Hw as HD1 Hrc. subst D' rc.
  unfold EXPANew.readEXPA.
  destruct (structure s) as [|e l] eqn:Hs.
  - destruct row; [reflexivity|discriminate Hm].
  - destruct (cells_round_trip base content P D (ws_chunkEntries st_end)
                Hbase Hlim HP HP32 Hin Himage Hres (e :: l) row _ st_end []
                Hloop Hfin Hfl eq_refl)
      as (_ & off' & bc' & Hr); cbn [ws_offset ws_bitCounter ws_currentBool
                                      ws_chunkEntries]; auto; try lia.
    all: try solve [intros x []]; try solve [apply andb_false_r].
    cbn [ws_offset ws_bitCounter] in Hr. rewrite flushed_0 in Hr.
    rewrite Hr. reflexivity.
Qed.

(** ** Bytes at a position of the file *)

Lemma slice_app_l (l1 l2 : list byte) a n :
  0 <= a -> a + Z.of_nat n <= len l1 -> slice (l1 ++ l2) a n = slice l1 a n.
Proof.
  intros Ha Hn. unfold slice. rewrite skipn_app, firstn_app, length_skipn.
  replace (n - (List.length l1 - Z.to_nat a))%nat with 0%nat by lia.
  rewrite firstn_O, app_nil_r. reflexivity.
Qed.

Lemma slice_all (l : list byte) : slice l 0 (List.length l) = l.
Proof. unfold slice. simpl. apply firstn_all. Qed.

Lemma has_at_mid pre bs post : has_at (pre ++ bs ++ post) (len pre) bs.
Proof.
  split; [lia|]. split; [|apply slice_app_mid].
  rewrite !length_app. lia.
Qed.

Lemma has_at_app file pos a b :
  has_at file pos (a ++ b) -> has_at file pos a /\ has_at file (pos + len a) b.
Proof.
  intros (Hp & Hl & Hs). rewrite length_app in Hl, Hs.
  rewrite Nat2Z.inj_add in Hl.
  assert (Ha : slice (a ++ b) 0 (List.length a) = a).
  { rewrite slice_app_l by lia. apply slice_all. }
  assert (Hb : slice (a ++ b) (len a) (List.length b) = b).
  { pose proof (slice_app_mid a b []) as H. rewrite app_nil_r in H. exact H. }
  rewrite <- Hs in Ha at 1. rewrite <- Hs in Hb at 1.
  rewrite slice_slice in Ha, Hb by lia.
  rewrite Z.add_0_r in Ha.
  repeat split; auto; lia.
Qed.

Lemma has_at_app_file file tail pos bs :
  has_at file pos bs -> has_at (file ++ tail) pos bs.
Proof.
  intros (Hp & Hl & Hs). split; [exact Hp|]. split.
  - rewrite length_app. lia.
  - rewrite slice_app_l by lia. exact Hs.
Qed.

Lemma stream_read_at file pos bs :
  has_at file pos bs ->
  stream_read file pos (List.length bs) = Ok (bs, pos + len bs).
Proof.
  intros (Hp & Hl & Hs). unfold stream_read.
  pose proof (load_at 0 file pos (List.length bs) Hp Hl) as H.
  rewrite Z.add_0_l in H. rewrite H, Hs. reflexivity.
Qed.

Lemma read_uint32_at file pos v :
  has_at file pos (le_split 4 v) -> 0 <= v < 2 ^ 32 ->
  read_uint32 file pos = Ok (v, pos + 4).
Proof.
  intros H Hv. unfold read_uint32.
  pose proof (stream_read_at _ _ _ H) as Hr.
  rewrite length_le_split in Hr. rewrite Hr. cbn [bind].
  rewrite le_combine_split_small by (simpl; lia). reflexivity.
Qed.

(** ** Streams that continue a stream *)

Lemma extends_refl os chnk : at_end os -> extends os chnk os chnk.
Proof.
  intros H. split; [exact H|]. split.
  - exists []. rewrite app_nil_r. reflexivity.
  - exists []. rewrite app_nil_r. split; [reflexivity|]. simpl. lia.
Qed.

Lemma extends_trans os1 c1 os2 c2 os3 c3 :
  extends os1 c1 os2 c2 -> extends os2 c2 os3 c3 -> extends os1 c1 os3 c3.
Proof.
  intros (_ & [t1 Ht1] & n1 & Hc1 & Hs1) (He & [t2 Ht2] & n2 & Hc2 & Hs2).
  split; [exact He|]. split.
  - exists (t1 ++ t2). rewrite Ht2, Ht1, app_assoc. reflexivity.
  - exists (n1 ++ n2). split.
    + rewrite Hc2, Hc1, app_assoc. reflexivity.
    + eapply slots_sorted_app; eauto.
Qed.

Lemma extends_write os chnk bs new :
  at_end os -> slots_sorted (os_pos os) new (os_pos os + len bs) ->
  extends os chnk (os_write os bs) (chnk ++ new).
Proof.
  intros H Hs. destruct (os_write_contents os bs H) as (Hc & _ & Hp & He).
  split; [exact He|]. split.
  - exists bs. exact Hc.
  - exists new. rewrite Hp. auto.
Qed.

Lemma extends_seekp os chnk pos :
  at_end os -> os_pos os <= pos -> extends os chnk (os_seekp os pos) chnk.
Proof.
  intros H Hp. destruct (os_seekp_contents os pos H Hp) as (Hc & He).
  split; [exact He|]. split.
  - eexists. exact Hc.
  - exists []. rewrite app_nil_r. split; [reflexivity|]. simpl. exact Hp.
Qed.

Lemma extends_pos os chnk os' chnk' :
  extends os chnk os' chnk' -> os_pos os <= os_pos os'.
Proof.
  intros (_ & _ & new & _ & Hs). eapply slots_sorted_le. exact Hs.
Qed.

(** ** The rows of a table in the stream *)

Lemma EXPANew_writeEXPA_slots s P data row D rc :
  row_matches (structure s) row = true ->
  no_adjacent_BOOL (structure s) = true ->
  EXPANew.layout_size (structure s) <= len data ->
  0 <= P -> P + len data <= 2 ^ 32 ->
  EXPANew.writeEXPA s P data row = Ok (D, rc) ->
  List.length D = List.length data /\ slots_sorted P rc (P + len D).
Proof.
  intros Hm Hna Hfit HP H32 Hw.
  destruct (EXPANew_writeEXPA_ok s P data row Hm Hna Hfit)
    as (st_end & D' & Hloop & Hfin & Hfl & HlD & Hw').
  rewrite Hw' in Hw. injection Hw as HD1 Hrc. subst D' rc.
  split; [exact HlD|].
  destruct (EXPANew_write_loop_chunks P (structure s) row _ st_end Hloop HP)
    as (new & Hnew & Hs); cbn [ws_offset ws_bitCounter ws_currentBool]; try lia.
  cbn [ws_offset ws_bitCounter ws_chunkEntries app] in Hnew, Hs.
  rewrite flushed_0, Z.add_0_r in Hs. rewrite Hnew.
  eapply slots_sorted_weaken; [exact Hs| |]; lia.
Qed.

Lemma EXPANew_write_rows_ok s actual : forall entries os chnk,
  at_end os -> 0 <= os_pos os ->
  forallb (fun row => row_matches (structure s) row && forallb plain_value row)
    entries = true ->
  no_adjacent_BOOL (structure s) = true ->
  EXPANew.layout_size (structure s) <= actual ->
  exists os' chnk',
    EXPANew.write_rows s actual entries os chnk = Ok (os', chnk') /\
    (os_pos os' < 2 ^ 32 -> extends os chnk os' chnk').
Proof.
  induction entries as [|row rest IH]; intros os chnk He Hp Hrows Hna Hfit.
  - exists os, chnk. split; [reflexivity|]. intros _. apply extends_refl, He.
  - cbn [forallb] in Hrows. apply andb_prop in Hrows.
    destruct Hrows as [Hrow Hrest]. apply andb_prop in Hrow.
    destruct Hrow as [Hm Hpl].
    assert (Hact : 0 <= actual).
    { pose proof (EXPANew_size_fold_grows (structure s) 0 0 ltac:(lia)) as H.
      fold (EXPANew.layout_size (structure s)) in H. lia. }
    set (data := repeat Byte.xcc (Z.to_nat actual)).
    assert (Hld : len data = actual).
    { unfold data. rewrite repeat_length. lia. }
    destruct (EXPANew_writeEXPA_ok s (to_uint32 (os_pos os)) data row Hm Hna
                ltac:(lia)) as (st_end & D & _ & _ & _ & HlD & Hw).
    destruct (os_write_contents os D He) as (_ & _ & Hp1 & He1).
    destruct (IH (os_write os D) (chnk ++ ws_chunkEntries st_end) He1
                ltac:(lia) Hrest Hna Hfit) as (os' & chnk' & Hr & Hext).
    exists os', chnk'. cbn [EXPANew.write_rows]. fold data.
    rewrite Hw. cbn [bind]. split; [exact Hr|]. intros H32.
    pose proof (EXPANew_write_rows_pos _ _ _ _ _ _ _ Hr He1 Hact) as [_ Hp'].
    assert (0 <= len rest * actual) by nia.
    eapply extends_trans; [|apply Hext, H32].
    apply extends_write; [exact He|].
    rewrite to_uint32_small in Hw by lia.
    eapply EXPANew_writeEXPA_slots in Hw; eauto; try lia.
    apply Hw.
Qed.

(** ** The structure of a table in the file *)

Lemma EntryType_code_round_trip t :
  wf_type t = true ->
  EntryType_of_code (EntryType_code t) = t /\ 0 <= EntryType_code t < 2 ^ 32.
Proof.
  destruct t; cbn [wf_type EntryType_code]; intros H;
    try (split; [reflexivity|lia]).
  apply andb_prop in H. destruct H as [H Hi]. apply andb_prop in H.
  destruct H as [H0 H1]. apply Z.leb_le in H0. apply Z.ltb_lt in H1.
  split; [|lia].
  destruct (EntryType_of_code code) eqn:E; try discriminate.
  unfold EntryType_of_code in E.
  repeat match type of E with
         | context [match ?x with _ => _ end] => destruct x; try discriminate
         end; congruence.
Qed.

Lemma in_band_named s : forall j, in_band_names j s = true -> in_band j s = s.
Proof.
  induction s as [|e s IH]; intros j H; [reflexivity|].
  cbn [in_band_names] in H. apply andb_prop in H. destruct H as [Hn Hs].
  apply String.eqb_eq in Hn. cbn [in_band]. rewrite (IH _ Hs), <- Hn.
  destruct e; reflexivity.
Qed.

Lemma any_mismatch_in_band s : forall j,
  EXPANew.any_mismatch (in_band j s) s = false.
Proof.
  induction s as [|e s IH]; intros j; [reflexivity|].
  cbn [in_band EXPANew.any_mismatch type]. rewrite IH.
  unfold EntryType_eqb. rewrite Z.eqb_refl. reflexivity.
Qed.

Lemma length_in_band s : forall j, List.length (in_band j s) = List.length s.
Proof. induction s; intros j; simpl; auto. Qed.

Lemma read_preamble_at file s : forall pos j,
  has_at file pos
    (flat_map (fun e => le_split 4 (EntryType_code (type e))) s) ->
  forallb (fun e => wf_type (type e)) s = true ->
  EXPANew.read_preamble file pos (List.length s) j
  = Ok (in_band j s, pos + 4 * len s).
Proof.
  induction s as [|e s IH]; intros pos j Hat Hwf.
  - cbn. rewrite Z.add_0_r. reflexivity.
  - cbn [flat_map] in Hat. apply has_at_app in Hat. destruct Hat as [H1 H2].
    cbn [forallb] in Hwf. apply andb_prop in Hwf. destruct Hwf as [Hw Hwf].
    destruct (EntryType_code_round_trip _ Hw) as [Hrt Hrange].
    cbn [List.length EXPANew.read_preamble].
    rewrite (read_uint32_at _ _ _ H1 Hrange). cbn [bind].
    rewrite length_le_split_Z in H2. change (Z.of_nat 4) with 4 in H2.
    rewrite (IH _ (j + 1) H2 Hwf). cbn [bind in_band]. rewrite Hrt.
    do 2 f_equal. lia.
Qed.

Lemma getStructure_at expa fromFile table file pos :
  In expa [EXPANew.EXPA32; EXPANew.EXPA64] ->
  resolver_ok expa fromFile table ->
  forallb (fun e => wf_type (type e))
    (structure (EXPANew.ft_structure table)) = true ->
  len (structure (EXPANew.ft_structure table)) < 2 ^ 26 ->
  has_at file pos (structure_section expa (EXPANew.ft_structure table)) ->
  EXPANew.getStructure expa fromFile file pos (EXPANew.ft_name table)
  = Ok (EXPANew.ft_structure table,
        pos + len (structure_section expa (EXPANew.ft_structure table))).
Proof.
  intros Hexpa Hres Hwf Hlen Hat. unfold resolver_ok in Hres.
  destruct (EXPANew.ft_structure table) as [s] eqn:Hs. cbn [structure] in *.
  destruct Hexpa as [<-|[<-|[]]].
  - cbn [EXPANew.getStructure EXPANew.EXPA32]. unfold EXPANew.EXPA32_getStructure.
    destruct Hres as [Hr|(Hh & _)]; [|discriminate Hh].
    rewrite Hr. cbn. rewrite Z.add_0_r. reflexivity.
  - cbn [EXPANew.getStructure EXPANew.EXPA64]. unfold EXPANew.EXPA64_getStructure.
    unfold structure_section in *.
    cbn [EXPANew.HAS_STRUCTURE_SECTION EXPANew.EXPA64] in *.
    unfold EXPANew.getEntryCount in *. cbn [structure] in *.
    apply has_at_app in Hat. destruct Hat as [H1 H2].
    rewrite to_uint32_small in H1, H2 |- * by lia.
    rewrite (read_uint32_at _ _ _ H1) by lia. cbn [bind].
    rewrite Nat2Z.id. rewrite length_le_split_Z in H2.
    change (Z.of_nat 4) with 4 in H2.
    rewrite (read_preamble_at _ _ _ 0 H2 Hwf). cbn [bind].
    assert (Hpos : pos + 4 + 4 * len s
                   = pos + len (le_split 4 (len s)
                                ++ flat_map (fun e => le_split 4
                                               (EntryType_code (type e))) s)).
    { rewrite length_app, Nat2Z.inj_add, length_le_split_Z.
      assert (len (flat_map (fun e => le_split 4 (EntryType_code (type e))) s)
              = 4 * len s).
      { clear. induction s as [|e s IH]; [reflexivity|].
        cbn [flat_map]. rewrite length_app, Nat2Z.inj_add, IH,
          length_le_split_Z. cbn [List.length]. lia. }
      lia. }
    rewrite Hpos.
    destruct Hres as [Hr|(_ & Hr & Hn)]; rewrite Hr; cbn [bind].
    + destruct s as [|e s']; [reflexivity|].
      rewrite Z.eqb_refl. cbn [negb].
      rewrite any_mismatch_in_band. reflexivity.
    + rewrite (in_band_named _ _ Hn). reflexivity.
Qed.

(** ** The tables in the stream *)

Lemma EXPANew_getEXPASize_range s : 0 <= EXPANew.getEXPASize s < 2 ^ 32.
Proof.
  unfold EXPANew.getEXPASize. destruct (structure s); [lia|].
  apply to_uint32_range.
Qed.

Lemma EXPANew_actual_size s :
  len (structure s) < 2 ^ 26 ->
  EXPANew.layout_size (structure s)
    <= to_uint32 (ceilInteger (EXPANew.getEXPASize s) 8).
Proof.
  intros Hl. rewrite (EXPANew_getEXPASize_small s Hl).
  pose proof (EXPANew_size_fold_grows (structure s) 0 0 ltac:(lia)) as H.
  fold (EXPANew.layout_size (structure s)) in H.
  set (L := EXPANew.layout_size (structure s)) in *.
  pose proof (ceilInteger_ge L 8 ltac:(lia)).
  pose proof (ceilInteger_lt L 8 ltac:(lia)).
  destruct (len (structure s) mod 2 =? 0).
  - rewrite (ceilInteger_fixed (ceilInteger L 8) 8)
      by (try apply ceilInteger_multiple; lia).
    rewrite to_uint32_small by lia. lia.
  - pose proof (ceilInteger_ge L 8 ltac:(lia)).
    rewrite to_uint32_small by lia. lia.
Qed.

Lemma EXPANew_write_table_header_pos expa table os :
  at_end os ->
  os_pos (EXPANew.write_table_header expa table os)
  = os_pos os + len (table_header expa table).
Proof.
  intros Hw.
  destruct (EXPANew_write_table_header_contents expa table os Hw) as [Hc Hw1].
  rewrite <- (length_contents _ Hw1), Hc, length_app, Nat2Z.inj_add.
  rewrite (length_contents os Hw). reflexivity.
Qed.

Lemma EXPANew_write_table_mono expa table os chnk os' chnk' :
  EXPANew.write_table expa table os chnk = Ok (os', chnk') ->
  at_end os -> os_pos os <= os_pos os'.
Proof.
  unfold EXPANew.write_table. intros H Hw.
  destruct (EXPANew_write_table_header_contents expa table os Hw) as [Hc Hw1].
  pose proof (EXPANew_write_table_header_pos expa table os Hw) as Hp1.
  set (os1 := EXPANew.write_table_header expa table os) in *.
  pose proof (ceilInteger_ge (os_pos os1) 8 ltac:(lia)) as Hge.
  destruct (os_seekp_contents os1 (ceilInteger (os_pos os1) 8) Hw1 Hge)
    as [_ Hw2].
  apply EXPANew_write_rows_pos in H; [|exact Hw2|apply to_uint32_range].
  destruct H as [_ Hp]. rewrite Hp. cbn [os_seekp os_pos].
  pose proof (to_uint32_range (ceilInteger (EXPANew.getEXPASize
                (EXPANew.ft_structure table)) 8)) as Hr.
  nia.
Qed.

Lemma EXPANew_write_tables_mono expa : forall tbls os chnk os' chnk',
  EXPANew.write_tables expa tbls os chnk = Ok (os', chnk') ->
  at_end os -> 0 <= os_pos os -> os_pos os <= os_pos os'.
Proof.
  induction tbls as [|table rest IH]; intros os chnk os' chnk' H Hw Hpos.
  - simpl in H. injection H as <- <-. lia.
  - cbn [EXPANew.write_tables] in H. invb H as [os1 chnk1] H1.
    pose proof (EXPANew_write_table_mono _ _ _ _ _ _ H1 Hw).
    apply EXPANew_write_table_pos in H1; auto. destruct H1 as (W1 & P1 & _).
    pose proof (IH _ _ _ _ H W1 P1). lia.
Qed.

Lemma table_ok_inv table :
  table_ok table = true ->
  no_NUL (list_byte_of_string (EXPANew.ft_name table)) = true /\
  len (structure (EXPANew.ft_structure table)) < 2 ^ 26 /\
  len (EXPANew.ft_entries table) < 2 ^ 32 /\
  forallb (fun e => wf_type (type e))
    (structure (EXPANew.ft_structure table)) = true /\
  no_adjacent_BOOL (structure (EXPANew.ft_structure table)) = true /\
  forallb (fun row => row_matches (structure (EXPANew.ft_structure table)) row
                      && forallb plain_value row)
    (EXPANew.ft_entries table) = true.
Proof.
  unfold table_ok. intros H.
  repeat (apply andb_prop in H; destruct H as [H ?]).
  repeat split; auto; apply Z.ltb_lt; assumption.
Qed.

Lemma EXPANew_write_table_ok expa table os chnk :
  at_end os -> 0 <= os_pos os -> table_ok table = true ->
  exists os' chnk',
    EXPANew.write_table expa table os chnk = Ok (os', chnk') /\
    (os_pos os' < 2 ^ 32 -> extends os chnk os' chnk').
Proof.
  intros Hw Hpos Hok.
  destruct (table_ok_inv _ Hok) as (_ & Hlen & _ & _ & Hna & Hrows).
  unfold EXPANew.write_table.
  destruct (EXPANew_write_table_header_contents expa table os Hw) as [Hc Hw1].
  pose proof (EXPANew_write_table_header_pos expa table os Hw) as Hp1.
  set (os1 := EXPANew.write_table_header expa table os) in *.
  pose proof (ceilInteger_ge (os_pos os1) 8 ltac:(lia)) as Hge.
  destruct (os_seekp_contents os1 (ceilInteger (os_pos os1) 8) Hw1 Hge)
    as [_ Hw2].
  destruct (EXPANew_write_rows_ok (EXPANew.ft_structure table)
              (to_uint32 (ceilInteger (EXPANew.getEXPASize
                                         (EXPANew.ft_structure table)) 8))
              (EXPANew.ft_entries table)
              (os_seekp os1 (ceilInteger (os_pos os1) 8)) chnk Hw2
              ltac:(cbn [os_seekp os_pos]; lia) Hrows Hna
              (EXPANew_actual_size _ Hlen)) as (os' & chnk' & Hr & Hext).
  exists os', chnk'. split; [exact Hr|]. intros H32.
  eapply extends_trans; [|apply Hext, H32].
  eapply extends_trans; [|apply extends_seekp; auto].
  split; [exact Hw1|]. split; [eexists; exact Hc|].
  exists []. rewrite app_nil_r. split; [reflexivity|].
  cbn [slots_sorted]. lia.
Qed.

Lemma EXPANew_write_tables_ok expa : forall tbls os chnk,
  at_end os -> 0 <= os_pos os -> forallb table_ok tbls = true ->
  exists os' chnk',
    EXPANew.write_tables expa tbls os chnk = Ok (os', chnk') /\
    (os_pos os' < 2 ^ 32 -> extends os chnk os' chnk').
Proof.
  induction tbls as [|table rest IH]; intros os chnk Hw Hpos Hok.
  - exists os, chnk. split; [reflexivity|]. intros _. apply extends_refl, Hw.
  - cbn [forallb] in Hok. apply andb_prop in Hok. destruct Hok as [Ht Hrest].
    destruct (EXPANew_write_table_ok expa table os chnk Hw Hpos Ht)
      as (os1 & chnk1 & H1 & Hext1).
    destruct (EXPANew_write_table_pos _ _ _ _ _ _ H1 Hw Hpos) as (W1 & P1 & _).
    destruct (IH os1 chnk1 W1 P1 Hrest) as (os' & chnk' & Hr & Hext).
    exists os', chnk'. cbn [EXPANew.write_tables]. rewrite H1. cbn [bind].
    split; [exact Hr|]. intros H32.
    pose proof (EXPANew_write_tables_mono _ _ _ _ _ _ Hr W1 P1).
    eapply extends_trans; [apply Hext1; lia|apply Hext, H32].
Qed.

(** ** Reading what was written

    [file] holds what the stream [osF] wrote, [chnkF] are the entries
    collected by then, and [content] is the image of the file in which
    the slots of the entries are resolved. *)

Section Decode.

Variables (base : Z) (file content : list byte).
Variables (osF : ostream) (chnkF : list CHNKEntry).
Hypothesis Hbase : 0 < base.
Hypothesis Hlim : base + len content < 2 ^ 64.
Hypothesis Hlen : len content = len file.
Hypothesis Hpos : os_pos osF < 2 ^ 32.
Hypothesis Hfile : exists tail, file = contents osF ++ tail.
Hypothesis Hframe : forall a n, 0 <= a ->
  (forall e, In e chnkF -> offset e + 8 <= a \/ a + Z.of_nat n <= offset e) ->
  slice content a n = slice file a n.
Hypothesis Hres : forall e, In e chnkF -> chunk_resolved content base e.

Lemma file_has_at os os1 chnk1 bs :
  at_end os -> 0 <= os_pos os -> contents os1 = contents os ++ bs ->
  extends os1 chnk1 osF chnkF -> has_at file (os_pos os) bs.
Proof.
  intros He Hp Hc (_ & [t Ht] & _). destruct Hfile as [tail Hf].
  rewrite Hf, Ht, Hc, <- !app_assoc, <- (length_contents os He).
  apply has_at_mid.
Qed.

Lemma later_slots os1 chnk1 e :
  extends os1 chnk1 osF chnkF -> In e chnkF ->
  In e chnk1 \/ os_pos os1 <= offset e.
Proof.
  intros (_ & _ & new & Hc & Hs) Hin. rewrite Hc in Hin.
  apply in_app_or in Hin. destruct Hin as [Hin|Hin]; [left; exact Hin|].
  right. eapply slots_sorted_In in Hs; eauto. lia.
Qed.

Lemma file_covers os1 chnk1 :
  extends os1 chnk1 osF chnkF -> os_pos os1 <= os_pos osF <= len content.
Proof.
  intros Hext. pose proof (extends_pos _ _ _ _ Hext).
  destruct Hext as (He & _). destruct Hfile as [tail Hf].
  rewrite Hlen, Hf, length_app, Nat2Z.inj_add, (length_contents _ He). lia.
Qed.

Lemma row_in_file s os chnk data row D rc :
  at_end os -> 0 <= os_pos os ->
  (forall e, In e chnk -> offset e + 8 <= os_pos os) ->
  EXPANew.writeEXPA s (os_pos os) data row = Ok (D, rc) ->
  extends (os_write os D) (chnk ++ rc) osF chnkF ->
  row_matches (structure s) row = true ->
  forallb plain_value row = true ->
  no_adjacent_BOOL (structure s) = true ->
  EXPANew.layout_size (structure s) <= len data ->
  EXPANew.readEXPA s {| mem_base := base; mem_bytes := content |}
    (base + os_pos os) = Ok row.
Proof.
  intros He Hp Hold Hw Hext Hm Hpl Hna Hfit.
  destruct (os_write_contents os D He) as (Hc & _ & Hp1 & He1).
  pose proof (file_covers _ _ Hext) as Hcov. rewrite Hp1 in Hcov.
  pose proof (file_has_at os _ _ D He Hp Hc Hext) as (_ & HlD & HsD).
  eapply row_round_trip with (data := data) (D := D) (rc := rc); eauto; try lia.
  - intros a n Ha Hn Hdis.
    rewrite Hframe; [|lia|].
    + rewrite <- HsD at 1. rewrite slice_slice by lia. reflexivity.
    + intros e Hin.
      destruct (later_slots _ _ e Hext Hin) as [Hin'|Hlater].
      * apply in_app_or in Hin'. destruct Hin' as [Hin'|Hin'].
        -- left. specialize (Hold e Hin'). lia.
        -- apply Hdis, Hin'.
      * right. lia.
  - intros e Hin. apply Hres.
    destruct Hext as (_ & _ & new & -> & _).
    apply in_or_app. left. apply in_or_app. right. exact Hin.
Qed.

Lemma rows_in_file s actual : forall entries os chnk os' chnk',
  EXPANew.write_rows s actual entries os chnk = Ok (os', chnk') ->
  at_end os -> 0 <= os_pos os ->
  (forall e, In e chnk -> offset e + 8 <= os_pos os) ->
  extends os' chnk' osF chnkF ->
  forallb (fun row => row_matches (structure s) row && forallb plain_value row)
    entries = true ->
  no_adjacent_BOOL (structure s) = true ->
  EXPANew.layout_size (structure s) <= actual ->
  EXPANew.read_rows {| mem_base := base; mem_bytes := content |} s actual
    (List.length entries) (os_pos os) = Ok entries.
Proof.
  induction entries as [|row rest IH];
    intros os chnk os' chnk' H He Hp Hold Hext Hrows Hna Hfit.
  - reflexivity.
  - cbn [forallb] in Hrows. apply andb_prop in Hrows.
    destruct Hrows as [Hrow Hrest]. apply andb_prop in Hrow.
    destruct Hrow as [Hm Hpl].
    assert (Hact : 0 <= actual).
    { pose proof (EXPANew_size_fold_grows (structure s) 0 0 ltac:(lia)) as H0.
      fold (EXPANew.layout_size (structure s)) in H0. lia. }
    cbn [EXPANew.write_rows] in H.
    set (data := repeat Byte.xcc (Z.to_nat actual)) in H.
    assert (Hld : len data = actual).
    { unfold data. rewrite repeat_length. lia. }
    invb H as [D rc] Hw.
    destruct (os_write_contents os D He) as (_ & _ & Hp1 & He1).
    pose proof (file_covers _ _ Hext) as Hcov.
    pose proof (EXPANew_write_rows_pos _ _ _ _ _ _ _ H He1 Hact) as [_ Hp'].
    assert (0 <= len rest * actual) by nia.
    pose proof (EXPANew_writeEXPA_length _ _ _ _ _ _ Hw) as HlD.
    rewrite to_uint32_small in Hw by lia.
    destruct (EXPANew_writeEXPA_slots s (os_pos os) data row D rc Hm Hna
                ltac:(lia) Hp ltac:(lia) Hw) as [_ Hslots].
    destruct (EXPANew_write_rows_ok s actual rest (os_write os D) (chnk ++ rc)
                He1 ltac:(lia) Hrest Hna Hfit) as (os2 & chnk2 & Hr2 & Hext2).
    rewrite H in Hr2. injection Hr2 as <- <-.
    assert (Hext1 : extends (os_write os D) (chnk ++ rc) osF chnkF).
    { eapply extends_trans; [apply Hext2; lia|exact Hext]. }
    cbn [List.length EXPANew.read_rows mem_base].
    rewrite (row_in_file s os chnk data row D rc He Hp Hold Hw Hext1 Hm Hpl Hna)
      by lia.
    cbn [bind].
    replace (os_pos os + actual) with (os_pos (os_write os D)) by lia.
    rewrite (IH (os_write os D) (chnk ++ rc) os' chnk' H He1 ltac:(lia));
      auto.
    intros e Hin. apply in_app_or in Hin. destruct Hin as [Hin|Hin].
    + specialize (Hold e Hin). lia.
    + eapply slots_sorted_In in Hslots; eauto. lia.
Qed.

Lemma table_in_file expa fromFile table os chnk os' chnk' :
  In expa [EXPANew.EXPA32; EXPANew.EXPA64] ->
  table_ok table = true -> resolver_ok expa fromFile table ->
  EXPANew.write_table expa table os chnk = Ok (os', chnk') ->
  at_end os -> 0 <= os_pos os -> os_pos os mod 8 = 0 ->
  (forall e, In e chnk -> offset e + 8 <= os_pos os) ->
  extends os' chnk' osF chnkF ->
  exists ent,
    EXPANew.read_table expa fromFile file (os_pos os)
      = Ok (inl (ent, os_pos os')) /\
    EXPANew.te_name ent = EXPANew.ft_name table /\
    EXPANew.te_structure ent = EXPANew.ft_structure table /\
    EXPANew.read_rows {| mem_base := base; mem_bytes := content |}
      (EXPANew.te_structure ent)
      (to_uint32 (ceilInteger (EXPANew.te_entrySize ent) 8))
      (Z.to_nat (EXPANew.te_entryCount ent)) (EXPANew.te_dataOffset ent)
      = Ok (EXPANew.ft_entries table).
Proof.
  intros Hexpa Hok Hresolver H He Hp Hm8 Hold Hext.
  destruct (table_ok_inv _ Hok) as (Hnul & Hls & Hcount & Hwf & Hna & Hrows).
  unfold EXPANew.write_table in H.
  destruct (EXPANew_write_table_header_contents expa table os He) as [Hc He1].
  pose proof (EXPANew_write_table_header_pos expa table os He) as Hp1.
  set (os1 := EXPANew.write_table_header expa table os) in *.
  pose proof (ceilInteger_ge (os_pos os1) 8 ltac:(lia)) as Hge.
  destruct (os_seekp_contents os1 (ceilInteger (os_pos os1) 8) He1 Hge)
    as [_ He2].
  set (os2 := os_seekp os1 (ceilInteger (os_pos os1) 8)) in *.
  set (s := EXPANew.ft_structure table) in *.
  set (actual := to_uint32 (ceilInteger (EXPANew.getEXPASize s) 8)) in *.
  pose proof (EXPANew_actual_size s Hls) as Hfit. fold actual in Hfit.
  pose proof (file_covers _ _ Hext) as Hcov.
  assert (Hp2 : os_pos os2 = ceilInteger (os_pos os1) 8) by reflexivity.
  assert (Hact : 0 <= actual) by apply to_uint32_range.
  pose proof (EXPANew_write_rows_pos _ _ _ _ _ _ _ H He2 Hact) as [_ Hp'].
  assert (0 <= len (EXPANew.ft_entries table) * actual) by nia.
  destruct (EXPANew_write_rows_ok s actual (EXPANew.ft_entries table) os2 chnk
              He2 ltac:(lia) Hrows Hna Hfit) as (os3 & chnk3 & Hr3 & Hext3).
  rewrite H in Hr3. injection Hr3 as <- <-.
  assert (Hext2 : extends os2 chnk osF chnkF).
  { eapply extends_trans; [apply Hext3; lia|exact Hext]. }
  assert (Hext1 : extends os1 chnk osF chnkF).
  { apply (extends_trans os1 chnk os2 chnk); [|exact Hext2].
    apply extends_seekp; [exact He1|exact Hge]. }
  pose proof (file_has_at os os1 chnk _ He Hp Hc Hext1) as Hat.
  set (nameBytes := list_byte_of_string (EXPANew.ft_name table)) in *.
  set (nameSize := ceilInteger (len nameBytes + 1) 4) in *.
  pose proof (ceilInteger_ge (len nameBytes + 1) 4 ltac:(lia)) as Hns.
  assert (Hth : table_header expa table
                = le_split 4 nameSize ++ padded nameBytes nameSize
                  ++ structure_section expa s
                  ++ le_split 4 (EXPANew.getEXPASize s)
                  ++ le_split 4 (to_uint32 (len (EXPANew.ft_entries table))))
    by reflexivity.
  rewrite Hth in Hat, Hp1. clear Hth.
  pose proof Hat as (_ & Hthl & _).
  rewrite !length_app, !Nat2Z.inj_add, !length_le_split_Z in Hthl, Hp1.
  rewrite (length_padded nameBytes nameSize) in Hthl, Hp1 by lia.
  apply has_at_app in Hat. destruct Hat as [Hat1 Hat].
  apply has_at_app in Hat. destruct Hat as [Hat2 Hat].
  apply has_at_app in Hat. destruct Hat as [Hat3 Hat].
  apply has_at_app in Hat. destruct Hat as [Hat4 Hat5].
  rewrite !length_le_split_Z in *.
  rewrite (length_padded nameBytes nameSize) in * by lia.
  change (Z.of_nat 4) with 4 in *.
  assert (Halign : alignStream (EXPANew.ALIGN_STEP expa) (os_pos os) = os_pos os).
  { unfold alignStream.
    destruct Hexpa as [<-|[<-|[]]]; cbn [EXPANew.ALIGN_STEP EXPANew.EXPA32
                                         EXPANew.EXPA64];
      apply ceilInteger_fixed; try lia.
    Z.to_euclidean_division_equations. lia. }
  assert (Hrd : EXPANew.read_table expa fromFile file (os_pos os)
                = Ok (inl ({| EXPANew.te_name := EXPANew.ft_name table;
                              EXPANew.te_dataOffset := os_pos os2;
                              EXPANew.te_entryCount :=
                                len (EXPANew.ft_entries table);
                              EXPANew.te_entrySize := EXPANew.getEXPASize s;
                              EXPANew.te_structure := s |}, os_pos os'))).
  { unfold EXPANew.read_table. rewrite Halign.
    rewrite (read_uint32_at _ _ _ Hat1) by lia. cbn [bind].
    assert (Hnl : Z.to_nat nameSize = List.length (padded nameBytes nameSize)).
    { pose proof (length_padded nameBytes nameSize ltac:(lia)). lia. }
    rewrite Hnl, (stream_read_at _ _ _ Hat2). cbn [bind].
    rewrite (length_padded nameBytes nameSize) by lia.
    destruct (padded_split nameBytes nameSize ltac:(lia)) as (k & Hpad & _).
    rewrite Hpad. cbn [repeat].
    rewrite (until_NUL_terminated _ _ Hnul).
    unfold nameBytes. rewrite string_of_list_byte_of_string.
    rewrite (getStructure_at expa fromFile table file _ Hexpa Hresolver Hwf Hls
               Hat3).
    cbn [bind]. fold s.
    rewrite (read_uint32_at _ _ _ Hat4) by apply EXPANew_getEXPASize_range.
    cbn [bind].
    rewrite (read_uint32_at _ _ _ Hat5) by apply to_uint32_range.
    cbn [bind]. rewrite Z.eqb_refl. cbn [negb].
    rewrite (to_uint32_small (len (EXPANew.ft_entries table))) by lia.
    fold actual.
    assert (Hd : alignStream 8
                   (os_pos os + 4 + nameSize + len (structure_section expa s)
                    + 4 + 4) = os_pos os2).
    { rewrite Hp2, Hp1. unfold alignStream. f_equal. lia. }
    rewrite Hd.
    rewrite (to_uint32_small (len (EXPANew.ft_entries table) * actual)) by lia.
    rewrite Hp'. reflexivity. }
  eexists. split; [exact Hrd|].
  cbn [EXPANew.te_name EXPANew.te_structure EXPANew.te_entrySize
       EXPANew.te_entryCount EXPANew.te_dataOffset].
  split; [reflexivity|]. split; [reflexivity|].
  fold actual. rewrite Nat2Z.id.
  eapply rows_in_file; eauto; try lia.
  intros e Hin. specialize (Hold e Hin). lia.
Qed.

Lemma tables_in_file expa fromFile : forall tbls os chnk os' chnk' acc,
  In expa [EXPANew.EXPA32; EXPANew.EXPA64] ->
  forallb table_ok tbls = true ->
  (forall t, In t tbls -> resolver_ok expa fromFile t) ->
  EXPANew.write_tables expa tbls os chnk = Ok (os', chnk') ->
  at_end os -> 0 <= os_pos os -> os_pos os mod 8 = 0 ->
  (forall e, In e chnk -> offset e + 8 <= os_pos os) ->
  extends os' chnk' osF chnkF ->
  exists ents,
    EXPANew.read_tables expa fromFile file (List.length tbls) (os_pos os) acc
      = Ok (inl (acc ++ ents, os_pos os')) /\
    EXPANew.decode_tables {| mem_base := base; mem_bytes := content |} ents
      = Ok tbls.
Proof.
  induction tbls as [|table rest IH];
    intros os chnk os' chnk' acc Hexpa Hok Hresolver H He Hp Hm8 Hold Hext.
  - cbn in H. injection H as <- <-. exists []. rewrite app_nil_r.
    split; reflexivity.
  - cbn [forallb] in Hok. apply andb_prop in Hok. destruct Hok as [Ht Hrest].
    cbn [EXPANew.write_tables] in H. invb H as [os1 chnk1] H1.
    destruct (EXPANew_write_table_pos _ _ _ _ _ _ H1 He Hp) as (He1 & Hp1 & Hm1).
    pose proof (file_covers _ _ Hext) as Hcov.
    pose proof (EXPANew_write_tables_mono _ _ _ _ _ _ H He1 Hp1) as Hmono.
    destruct (EXPANew_write_tables_ok expa rest os1 chnk1 He1 Hp1 Hrest)
      as (os2 & chnk2 & Hr2 & Hext2).
    rewrite H in Hr2. injection Hr2 as <- <-.
    assert (Hext1 : extends os1 chnk1 osF chnkF).
    { eapply extends_trans; [apply Hext2; lia|exact Hext]. }
    destruct (EXPANew_write_table_ok expa table os chnk He Hp Ht)
      as (os3 & chnk3 & Hr3 & Hext3).
    rewrite H1 in Hr3. injection Hr3 as <- <-.
    destruct (Hext3 ltac:(lia)) as (_ & _ & new & Hnew & Hsorted).
    destruct (table_in_file expa fromFile table os chnk os1 chnk1 Hexpa Ht
                (Hresolver table (or_introl eq_refl)) H1 He Hp Hm8 Hold Hext1)
      as (ent & Hrd & Hname & Hstr & Hrows).
    destruct (IH os1 chnk1 os' chnk' (acc ++ [ent]) Hexpa Hrest
                (fun t Hin => Hresolver t (or_intror Hin)) H He1 Hp1 Hm1)
      as (ents & Hrds & Hdec); auto.
    { intros e Hin. rewrite Hnew in Hin. apply in_app_or in Hin.
      destruct Hin as [Hin|Hin].
      - specialize (Hold e Hin).
        pose proof (slots_sorted_le _ _ _ Hsorted). lia.
      - eapply slots_sorted_In in Hsorted; eauto. lia. }
    exists (ent :: ents). split.
    + cbn [List.length EXPANew.read_tables]. rewrite Hrd. cbn [bind].
      rewrite Hrds, <- app_assoc. reflexivity.
    + cbn [EXPANew.decode_tables]. rewrite Hrows. cbn [bind].
      rewrite Hdec. cbn [bind]. rewrite Hname, Hstr.
      destruct table; reflexivity.
Qed.

End Decode.

(** ** The CHNK loop of the reader *)

Lemma patch_chunks_resolved base file hi : forall chnk lo pos content,
  0 < base -> base + len file < 2 ^ 64 -> len file < 2 ^ 32 ->
  slots_sorted lo chnk hi -> 0 <= lo -> hi <= pos ->
  has_at file pos (chnk_bytes chnk) ->
  len content = len file ->
  (forall a n, hi <= a -> slice content a n = slice file a n) ->
  exists content',
    EXPANew.patch_chunks file base (List.length chnk) pos content
      = Ok content' /\
    len content' = len file /\
    (forall a n, 0 <= a ->
       (forall e, In e chnk ->
                  offset e + 8 <= a \/ a + Z.of_nat n <= offset e) ->
       slice content' a n = slice content a n) /\
    (forall e, In e chnk -> chunk_resolved content' base e).
Proof.
  induction chnk as [|e rest IH];
    intros lo pos content Hbase Hlim H32 Hs Hlo Hhi Hat Hlc Habove.
  - exists content. cbn. repeat split; auto. intros e [].
  - cbn [slots_sorted] in Hs. destruct Hs as [Hle Hs].
    pose proof (slots_sorted_le _ _ _ Hs) as Hhi'.
    change (chnk_bytes (e :: rest))
      with ((le_split 4 (offset e)
             ++ le_split 4 (to_uint32 (len (value e))) ++ value e)
            ++ chnk_bytes rest) in Hat.
    rewrite <- !app_assoc in Hat.
    apply has_at_app in Hat. destruct Hat as [H1 Hat].
    apply has_at_app in Hat. destruct Hat as [H2 Hat].
    apply has_at_app in Hat. destruct Hat as [H3 H4].
    rewrite !length_le_split_Z in *. change (Z.of_nat 4) with 4 in *.
    pose proof H3 as (_ & H3l & H3s).
    rewrite (to_uint32_small (len (value e))) in H2 by lia.
    cbn [List.length EXPANew.patch_chunks].
    rewrite (read_uint32_at _ _ _ H1) by lia. cbn [bind].
    rewrite (read_uint32_at _ _ _ H2) by lia. cbn [bind].
    assert (Hptr : to_uint64 (base + (pos + 4 + 4)) = base + (pos + 8)).
    { unfold to_uint64. rewrite Z.mod_small by lia. lia. }
    rewrite Hptr.
    destruct (store_word_ok content (offset e) 8 (base + (pos + 8))
                ltac:(lia) ltac:(lia)) as [c1 Hc1].
    rewrite Hc1. cbn [bind].
    pose proof (store_length _ _ _ _ Hc1) as Hl1.
    destruct (IH (offset e + 8) (pos + 4 + 4 + len (value e)) c1 Hbase Hlim H32
                Hs ltac:(lia) ltac:(lia) H4 ltac:(lia))
      as (content' & Hp & Hl' & Hfr & Hrs).
    { intros a n Ha.
      rewrite (slice_store_word_other _ _ _ _ _ a n Hc1) by lia.
      apply Habove, Ha. }
    exists content'. split; [exact Hp|]. split; [exact Hl'|]. split.
    + intros a n Ha Hdis. rewrite Hfr; auto.
      * apply (slice_store_word_other _ _ _ _ _ a n Hc1); [lia|].
        destruct (Hdis e (or_introl eq_refl)); [right|left]; lia.
      * intros e' Hin. apply Hdis. right. exact Hin.
    + intros e' [<-|Hin]; [|apply Hrs, Hin].
      exists (pos + 8). repeat split; try lia.
      * rewrite Hfr; [apply (slice_store_word_same _ _ _ _ _ Hc1)|lia|].
        intros e' Hin. eapply slots_sorted_In in Hs; eauto. right. lia.
      * rewrite Hfr; [|lia|].
        -- rewrite (slice_store_word_other _ _ _ _ _ _ _ Hc1) by lia.
           rewrite Habove by lia.
           replace (pos + 8) with (pos + 4 + 4) by lia. exact H3s.
        -- intros e' Hin. eapply slots_sorted_In in Hs; eauto. left. lia.
Qed.

(** ** A file, written and read again *)

Lemma slots_sorted_count chnk : forall lo hi,
  slots_sorted lo chnk hi -> lo + 8 * len chnk <= hi.
Proof.
  induction chnk as [|e rest IH]; intros lo hi H; cbn [slots_sorted] in H.
  - cbn. lia.
  - destruct H as [Hle H]. apply IH in H. cbn [List.length]. lia.
Qed.

Lemma to_int32_small z : 0 <= z < 2 ^ 31 -> to_int32 z = z.
Proof.
  intros H. unfold to_int32, to_signed. rewrite Z.mod_small; lia.
Qed.

Lemma EXPANew_file_round_trip expa fromFile tf base :
  In expa [EXPANew.EXPA32; EXPANew.EXPA64] ->
  file_ok tf = true ->
  (forall t, In t (EXPANew.tables tf) -> resolver_ok expa fromFile t) ->
  exists os chnk,
    EXPANew.writeEXPA_tables expa tf = Ok (os, chnk) /\
    EXPANew.writeEXPA_file expa tf = Ok (file_bytes os chnk) /\
    (len (file_bytes os chnk) < 2 ^ 32 ->
     slots_sorted 8 chnk (os_pos os) /\
     (0 < base -> base + len (file_bytes os chnk) < 2 ^ 64 ->
      EXPANew.readEXPA_file expa fromFile (file_bytes os chnk) base
      = Ok (Value tf))).
Proof.
  intros Hexpa Hok Hresolver. unfold file_ok in Hok.
  apply andb_prop in Hok. destruct Hok as [Htables Hcount].
  apply Z.ltb_lt in Hcount.
  set (n := len (EXPANew.tables tf)) in *.
  set (os00 := {| os_bytes := []; os_pos := 0 |}).
  assert (He00 : at_end os00) by (unfold at_end; cbn; lia).
  destruct (write_uint32_contents os00 EXPA_MAGIC He00) as (C1 & P1 & E1).
  destruct (write_uint32_contents _ (to_uint32 n) E1) as (C2 & P2 & E2).
  set (os0 := write_uint32 (write_uint32 os00 EXPA_MAGIC) (to_uint32 n)) in *.
  assert (Hp0 : os_pos os0 = 8) by (rewrite P2, P1; reflexivity).
  assert (Hc0 : contents os0 = le_split 4 EXPA_MAGIC ++ le_split 4 (to_uint32 n)).
  { rewrite C2, C1. reflexivity. }
  destruct (EXPANew_write_tables_ok expa (EXPANew.tables tf) os0 [] E2
              ltac:(lia) Htables) as (osF & chnkF & Hw & Hext).
  assert (Hwt : EXPANew.writeEXPA_tables expa tf = Ok (osF, chnkF)) by exact Hw.
  destruct (EXPANew_write_tables_pos _ _ _ _ _ _ Hw E2 ltac:(lia)
              ltac:(rewrite Hp0; reflexivity)) as (EF & PF & MF).
  exists osF, chnkF. split; [exact Hwt|].
  split; [exact (EXPANew_writeEXPA_file_bytes expa tf osF chnkF Hwt EF)|].
  unfold file_bytes.
  set (bytes := contents osF ++ le_split 4 CHNK_MAGIC
                ++ le_split 4 (to_uint32 (len chnkF)) ++ chnk_bytes chnkF).
  intros H32.
  assert (Hlb : len bytes = os_pos osF + 4 + 4 + len (chnk_bytes chnkF)).
  { unfold bytes. rewrite !length_app, !Nat2Z.inj_add, !length_le_split_Z.
    rewrite (length_contents _ EF). lia. }
  specialize (Hext ltac:(lia)).
  pose proof Hext as (_ & [tail Htail] & new & Hnew & Hsorted).
  cbn [app] in Hnew. subst new. rewrite Hp0 in Hsorted.
  split; [exact Hsorted|]. intros Hbase Hlim.
  pose proof (slots_sorted_count _ _ _ Hsorted) as Hcnt.
  (* the CHNK section *)
  assert (HatC : has_at bytes (os_pos osF)
                   (le_split 4 CHNK_MAGIC
                    ++ le_split 4 (to_uint32 (len chnkF)) ++ chnk_bytes chnkF)).
  { rewrite <- (length_contents _ EF).
    pose proof (has_at_mid (contents osF)
                  (le_split 4 CHNK_MAGIC
                   ++ le_split 4 (to_uint32 (len chnkF)) ++ chnk_bytes chnkF)
                  []) as H.
    rewrite app_nil_r in H. exact H. }
  apply has_at_app in HatC. destruct HatC as [HC1 HatC].
  apply has_at_app in HatC. destruct HatC as [HC2 HC3].
  rewrite !length_le_split_Z in *. change (Z.of_nat 4) with 4 in *.
  rewrite (to_uint32_small (len chnkF)) in HC2 by lia.
  destruct (patch_chunks_resolved base bytes (os_pos osF) chnkF 8
              (os_pos osF + 4 + 4) bytes Hbase Hlim H32 Hsorted ltac:(lia)
              ltac:(lia) HC3 eq_refl (fun a n _ => eq_refl))
    as (content & Hpatch & Hlc & Hframe & Hres).
  (* the header and the tables *)
  assert (Hat0 : has_at bytes 0
                   (le_split 4 EXPA_MAGIC ++ le_split 4 (to_uint32 n))).
  { unfold bytes. rewrite Htail, Hc0.
    rewrite <- (app_assoc (le_split 4 EXPA_MAGIC ++ le_split 4 (to_uint32 n))
                  tail).
    exact (has_at_mid [] _ _). }
  apply has_at_app in Hat0. destruct Hat0 as [Hm1 Hm2].
  rewrite !length_le_split_Z in *. change (0 + Z.of_nat 4) with 4 in *.
  rewrite (to_uint32_small n) in Hm2 by lia.
  destruct (tables_in_file base bytes content osF chnkF Hbase
              ltac:(lia) Hlc ltac:(lia) ltac:(eexists; reflexivity) Hframe Hres
              expa fromFile (EXPANew.tables tf) os0 [] osF chnkF [] Hexpa
              Htables Hresolver Hw E2 ltac:(lia)
              ltac:(rewrite Hp0; reflexivity) ltac:(intros e [])
              (extends_refl _ _ EF)) as (ents & Hrd & Hdec).
  rewrite Hp0 in Hrd. cbn [app] in Hrd.
  assert (Halign : alignStream (EXPANew.ALIGN_STEP expa) (os_pos osF)
                   = os_pos osF).
  { unfold alignStream.
    destruct Hexpa as [<-|[<-|[]]]; cbn [EXPANew.ALIGN_STEP EXPANew.EXPA32
                                         EXPANew.EXPA64];
      apply ceilInteger_fixed; try lia.
    Z.to_euclidean_division_equations. lia. }
  unfold EXPANew.readEXPA_file.
  rewrite (read_uint32_at _ _ _ Hm1) by (unfold EXPA_MAGIC; lia). cbn [bind].
  change (0 + 4) with 4.
  rewrite (read_uint32_at _ _ _ Hm2) by lia. cbn [bind].
  rewrite Z.eqb_refl. cbn [negb].
  rewrite (to_int32_small n) by lia. unfold n at 1. rewrite Nat2Z.id.
  change (4 + 4) with 8. rewrite Hrd. cbn [bind]. rewrite Halign.
  rewrite (read_uint32_at _ _ _ HC1) by (unfold CHNK_MAGIC; lia). cbn [bind].
  rewrite (read_uint32_at _ _ _ HC2) by lia. cbn [bind].
  rewrite Z.eqb_refl. cbn [negb]. rewrite Nat2Z.id, Hpatch. cbn [bind].
  rewrite Hdec. cbn [bind]. destruct tf; reflexivity.
Qed.

(** ** A cell with a payload, written and read again (EXPA.cpp) *)

Lemma load_int32s_at base content : forall a pos,
  has_at content pos (flat_map (le_split 4) a) ->
  forallb (fun z => (- 2 ^ 31 <=? z) && (z <? 2 ^ 31)) a = true ->
  load_int32s {| mem_base := base; mem_bytes := content |} (base + pos)
    (List.length a) = Ok a.
Proof.
  induction a as [|x a IH]; intros pos Hat Hr; [reflexivity|].
  cbn [flat_map] in Hat. apply has_at_app in Hat. destruct Hat as [H1 H2].
  cbn [forallb] in Hr. apply andb_prop in Hr. destruct Hr as [Hx Hr].
  apply andb_prop in Hx. destruct Hx as [Hx1 Hx2].
  apply Z.leb_le in Hx1. apply Z.ltb_lt in Hx2.
  destruct H1 as (Hp & Hl & Hs). rewrite length_le_split in Hl, Hs.
  cbn [List.length load_int32s]. unfold load_int.
  rewrite load_at by lia. cbn [bind]. rewrite Hs.
  rewrite to_signed_split by (simpl; lia). rewrite length_le_split_Z in H2.
  replace (base + pos + 4) with (base + (pos + Z.of_nat 4)) by lia.
  rewrite (IH _ H2 Hr). reflexivity.
Qed.

Lemma to_int32_range z : - 2 ^ 31 <= to_int32 z < 2 ^ 31.
Proof.
  unfold to_int32, to_signed.
  pose proof (Z.mod_pos_bound (z + 2 ^ (32 - 1)) (2 ^ 32) ltac:(lia)). lia.
Qed.

Lemma length_flat_map_le_split (a : list Z) :
  len (flat_map (le_split 4) a) = 4 * len a.
Proof.
  induction a as [|x a IH]; [reflexivity|].
  cbn [flat_map]. rewrite length_app, Nat2Z.inj_add, IH, length_le_split_Z.
  cbn [List.length]. lia.
Qed.

Lemma string_cell base off buf s e k :
  no_NUL (list_byte_of_string s) = true ->
  0 <= off -> off + 8 <= len buf -> len buf < 2 ^ 32 -> 1 <= k ->
  offset e = to_uint32 off ->
  value e = padded (list_byte_of_string s)
              (ceilInteger (len (list_byte_of_string s) + k) 4) ->
  exists buf' c content,
    (buf1 <- store buf off (le_split 8 0) ;;
     if negb (string_empty s) then Ok (buf1, Some e) else Ok (buf1, None))
    = Ok (buf', c) /\
    c = (if has_payload (VString s) then Some e else None) /\
    resolve_cell base buf' c = Ok content /\
    len content
      = len buf + (if has_payload (VString s) then len (value e) else 0) /\
    (0 < base -> base + len content < 2 ^ 64 ->
     (ptr <- load_uint {| mem_base := base; mem_bytes := content |}
               (base + off) 8 ;;
      if ptr =? 0 then Ok (VString "")
      else str <- load_cstring {| mem_base := base; mem_bytes := content |} ptr ;;
           Ok (VString str)) = Ok (VString s)).
Proof.
  intros Hnul Hoff Hfit H32 Hk Hoe Hve.
  destruct (store_word_ok buf off 8 0 Hoff ltac:(lia)) as [buf1 H1].
  pose proof (store_length _ _ _ _ H1) as Hl1.
  rewrite H1. cbn [bind has_payload].
  destruct (string_empty s) eqn:He; cbn [negb].
  - exists buf1, None, buf1. repeat (split; [reflexivity|]).
    split; [lia|].
    intros Hbase Hlim. unfold load_uint. rewrite load_at by lia.
    cbn [bind]. rewrite (slice_store_word_same _ _ _ _ _ H1).
    rewrite le_combine_split_small by (simpl; lia). cbn.
    apply string_empty_true in He. rewrite He. reflexivity.
  - set (bs := list_byte_of_string s) in *.
    pose proof (ceilInteger_ge (len bs + k) 4 ltac:(lia)) as Hge.
    destruct (padded_split bs (ceilInteger (len bs + k) 4) ltac:(lia))
      as (j & Hpad & Hlp).
    rewrite <- Hve in Hpad, Hlp.
    destruct (store_word_ok buf1 off 8 (to_uint64 (base + len buf1)) Hoff
                ltac:(lia)) as [buf2 H2].
    pose proof (store_length _ _ _ _ H2) as Hl2.
    exists buf1, (Some e), (buf2 ++ value e).
    repeat (split; [reflexivity|]). split; [|split].
    + unfold resolve_cell. rewrite Hoe, to_uint32_small by lia.
      rewrite H2. reflexivity.
    + rewrite length_app. lia.
    + intros Hbase Hlim. rewrite length_app, Nat2Z.inj_add in Hlim.
      unfold load_uint. rewrite load_at by (rewrite ?length_app; lia).
      cbn [bind]. rewrite slice_app_l by lia.
      rewrite (slice_store_word_same _ _ _ _ _ H2).
      unfold to_uint64. rewrite Z.mod_small by lia.
      rewrite le_combine_split_small by (simpl; lia).
      destruct (Z.eqb_spec (base + len buf1) 0) as [E|_]; [lia|].
      replace (len buf1) with (len buf2) by lia.
      rewrite (load_cstring_at base (buf2 ++ value e) (len buf2) bs j);
        [unfold bs; rewrite string_of_list_byte_of_string; reflexivity
        |lia|exact Hnul|].
      rewrite <- Hlp, <- Hpad.
      pose proof (slice_app_mid buf2 (value e) []) as Hm.
      rewrite app_nil_r in Hm. exact Hm.
Qed.

Lemma EXPA_int_array_cell base off buf a :
  forallb (fun z => (- 2 ^ 31 <=? z) && (z <? 2 ^ 31)) a = true ->
  0 <= off -> off + 16 <= len buf -> len buf < 2 ^ 32 ->
  exists buf' c content,
    EXPA.writeEXPAEntry off buf off INT_ARRAY (VIntArray a) = Ok (buf', c) /\
    c = (if has_payload (VIntArray a)
         then Some (EXPA.CHNKEntry_of_int_array (off + 8) a) else None) /\
    resolve_cell base buf' c = Ok content /\
    len content = len buf + len (EXPA_payload (VIntArray a)) /\
    (0 < base -> len content < 2 ^ 32 -> base + len content < 2 ^ 64 ->
     EXPA.readEXPAEntry {| mem_base := base; mem_bytes := content |} INT_ARRAY
       (base + off) 0 = Ok (VIntArray a)).
Proof.
  intros Hr Hoff Hfit H32.
  cbn [EXPA.writeEXPAEntry get_int_array bind].
  destruct (store_word_ok buf off 4 (to_int32 (len a)) Hoff ltac:(lia))
    as [buf1 H1].
  pose proof (store_length _ _ _ _ H1) as Hl1.
  destruct (store_word_ok buf1 (off + 8) 8 0 ltac:(lia) ltac:(lia))
    as [buf2 H2].
  pose proof (store_length _ _ _ _ H2) as Hl2.
  rewrite H1. cbn [bind]. rewrite H2. cbn [bind].
  assert (Hcount : slice buf2 off 4 = le_split 4 (to_int32 (len a))).
  { rewrite (slice_store_word_other _ _ _ _ _ off 4 H2) by lia.
    apply (slice_store_word_same _ _ _ _ _ H1). }
  destruct a as [|x a'].
  - exists buf2, None, buf2. repeat (split; [reflexivity|]).
    split; [cbn; lia|].
    intros Hbase _ Hlim. cbn [EXPA.readEXPAEntry]. unfold load_int, load_uint.
    rewrite load_at by lia. cbn [bind]. rewrite Hcount.
    rewrite to_signed_split by (try apply to_int32_range; lia).
    replace (base + off + 8) with (base + (off + 8)) by lia.
    rewrite load_at by lia. cbn [bind]. reflexivity.
  - set (a := x :: a') in *.
    set (payload := flat_map (le_split 4) a).
    pose proof (length_flat_map_le_split a) as Hlp. fold payload in Hlp.
    destruct (store_word_ok buf2 (off + 8) 8 (to_uint64 (base + len buf2))
                ltac:(lia) ltac:(lia)) as [buf3 H3].
    pose proof (store_length _ _ _ _ H3) as Hl3.
    exists buf2, (Some (EXPA.CHNKEntry_of_int_array (off + 8) a)),
      (buf3 ++ payload).
    repeat (split; [reflexivity|]). split; [|split].
    + unfold resolve_cell, EXPA.CHNKEntry_of_int_array.
      cbn [offset value]. fold payload.
      rewrite to_uint32_small by lia. rewrite H3. reflexivity.
    + rewrite length_app. cbn [EXPA_payload EXPA.CHNKEntry_of_int_array value].
      fold payload. lia.
    + intros Hbase Hc32 Hlim. rewrite length_app, Nat2Z.inj_add in Hlim, Hc32.
      cbn [EXPA.readEXPAEntry]. unfold load_int, load_uint.
      rewrite load_at by (rewrite ?length_app; lia). cbn [bind].
      rewrite slice_app_l by lia.
      rewrite (slice_store_word_other _ _ _ _ _ off 4 H3) by lia.
      rewrite Hcount.
      rewrite to_signed_split by (try apply to_int32_range; lia).
      rewrite to_int32_small by lia. rewrite Nat2Z.id.
      replace (base + off + 8) with (base + (off + 8)) by lia.
      rewrite load_at by (rewrite ?length_app; lia). cbn [bind].
      rewrite slice_app_l by lia.
      rewrite (slice_store_word_same _ _ _ _ _ H3).
      unfold to_uint64. rewrite Z.mod_small by lia.
      rewrite le_combine_split_small by (simpl; lia).
      replace (len buf2) with (len buf3) by lia.
      rewrite (load_int32s_at base (buf3 ++ payload) a (len buf3)); auto.
      pose proof (has_at_mid buf3 payload []) as Hm.
      rewrite app_nil_r in Hm. exact Hm.
Qed.

(** ** Cells with a payload in the CHNK section *)

(** A cell of a string or int-array type whose value matches the type, a
    string being free of NUL bytes: what [writeEXPAEntry] returns for it
    and what [readEXPAEntry] returns once the slot is resolved. *)
Lemma chunk_cells_resolved :
  forall (base off : Z) (buf : list byte) (t : EntryType) (v : EntryValue),
    In t [STRING3; STRING; STRING2; INT_ARRAY] ->
    value_matches t v = true -> nul_free v = true ->
    0 <= off -> off + getSize t <= len buf ->
    len buf + len (EXPA_payload v) < 2 ^ 32 ->
    0 < base -> base + 2 ^ 32 <= 2 ^ 64 ->
    (exists buf',
       EXPA.writeEXPAEntry off buf off t v
       = Ok (buf',
             if has_payload v
             then Some {| offset := match t with
                                    | INT_ARRAY => off + 8
                                    | _ => off
                                    end;
                          value := EXPA_payload v |}
             else None)) /\
    cell_write_then_read EXPA.writeEXPAEntry EXPA.readEXPAEntry base buf off t v
    = Ok v /\
    (t <> INT_ARRAY ->
     (exists buf' c,
        EXPANew.writeEXPAEntry off buf off t v = Ok (buf', c) /\
        (c = None <-> has_payload v = false)) /\
     cell_write_then_read EXPANew.writeEXPAEntry EXPANew.readEXPAEntry base buf
       off t v = Ok v).
Proof.
  intros base off buf t v Ht Hm Hnul Hoff Hfit H32 Hbase Hlim.
  pose proof (Zle_0_nat (List.length (EXPA_payload v))) as Hpl.
  assert (Hstr : forall s, v = VString s ->
            In t [STRING3; STRING; STRING2] ->
            (exists buf',
               EXPA.writeEXPAEntry off buf off t v
               = Ok (buf',
                     if has_payload v
                     then Some {| offset := off; value := EXPA_payload v |}
                     else None)) /\
            cell_write_then_read EXPA.writeEXPAEntry EXPA.readEXPAEntry base
              buf off t v = Ok v /\
            (exists buf' c,
               EXPANew.writeEXPAEntry off buf off t v = Ok (buf', c) /\
               (c = None <-> has_payload v = false)) /\
            cell_write_then_read EXPANew.writeEXPAEntry EXPANew.readEXPAEntry
              base buf off t v = Ok v).
  { intros s -> Hts. cbn [nul_free] in Hnul.
    assert (Hsz : getSize t = 8)
      by (destruct Hts as [<-|[<-|[<-|[]]]]; reflexivity).
    rewrite Hsz in Hfit.
    set (bs := list_byte_of_string s) in *.
    pose proof (ceilInteger_ge (len bs + 1) 4 ltac:(lia)) as Hge1.
    pose proof (ceilInteger_ge (len bs + 2) 4 ltac:(lia)) as Hge2.
    pose proof (ceilInteger_mono (len bs + 1) (len bs + 2) 4 ltac:(lia)
                  ltac:(lia)) as Hmono.
    assert (Hpay : has_payload (VString s) = true ->
                   len (EXPA_payload (VString s))
                   = ceilInteger (len bs + 2) 4).
    { cbn [has_payload EXPA_payload]. intros E.
      apply negb_true_iff in E. rewrite E.
      cbn [EXPA.CHNKEntry_of_string value]. fold bs.
      apply length_padded. lia. }
    destruct (string_cell base off buf s (EXPA.CHNKEntry_of_string off s) 2
                Hnul Hoff Hfit ltac:(lia) ltac:(lia) eq_refl eq_refl)
      as (b2 & c2 & content2 & Hw2 & Hc2 & Hr2 & Hl2 & Hrd2).
    destruct (string_cell base off buf s (EXPANew.CHNKEntry_of_string off s) 1
                Hnul Hoff Hfit ltac:(lia) ltac:(lia) eq_refl eq_refl)
      as (b1 & c1 & content1 & Hw1 & Hc1 & Hr1 & Hl1 & Hrd1).
    assert (Hw2' : EXPA.writeEXPAEntry off buf off t (VString s) = Ok (b2, c2))
      by (destruct Hts as [<-|[<-|[<-|[]]]]; exact Hw2).
    assert (Hw1' : EXPANew.writeEXPAEntry off buf off t (VString s)
                   = Ok (b1, c1))
      by (destruct Hts as [<-|[<-|[<-|[]]]]; exact Hw1).
    assert (Hcontent2 : base + len content2 < 2 ^ 64).
    { rewrite Hl2. destruct (has_payload (VString s)) eqn:E; [|lia].
      rewrite <- Hpay in Hge2 by reflexivity.
      cbn [EXPA.CHNKEntry_of_string value]. fold bs.
      rewrite length_padded by lia. rewrite Hpay in * by reflexivity. lia. }
    assert (Hcontent1 : base + len content1 < 2 ^ 64).
    { rewrite Hl1. destruct (has_payload (VString s)) eqn:E; [|lia].
      cbn [EXPANew.CHNKEntry_of_string value]. fold bs.
      rewrite length_padded by lia. rewrite Hpay in * by reflexivity. lia. }
    split; [|split; [|split]].
    - exists b2. rewrite Hw2', Hc2.
      destruct (has_payload (VString s)) eqn:E; [|reflexivity].
      cbn [has_payload] in E. apply negb_true_iff in E.
      unfold EXPA.CHNKEntry_of_string, EXPA_payload. rewrite E.
      cbn [EXPA.CHNKEntry_of_string value].
      rewrite to_uint32_small by lia. reflexivity.
    - unfold cell_write_then_read. rewrite Hw2'. cbn [bind]. rewrite Hr2.
      cbn [bind]. specialize (Hrd2 Hbase Hcontent2).
      destruct Hts as [<-|[<-|[<-|[]]]]; exact Hrd2.
    - exists b1, c1. split; [exact Hw1'|]. rewrite Hc1.
      destruct (has_payload (VString s)); split; congruence.
    - unfold cell_write_then_read. rewrite Hw1'. cbn [bind]. rewrite Hr1.
      cbn [bind]. specialize (Hrd1 Hbase Hcontent1).
      destruct Hts as [<-|[<-|[<-|[]]]]; exact Hrd1. }
  destruct Ht as [<-|[<-|[<-|[<-|[]]]]].
  1-3: destruct v; try discriminate Hm;
       destruct (Hstr _ eq_refl ltac:(simpl; auto)) as (H1 & H2 & H3 & H4);
       split; [exact H1|]; split; [exact H2|]; intros _; split; assumption.
  destruct v as [| | | | | |a|]; try discriminate Hm.
  cbn [value_matches] in Hm. cbn [getSize] in Hfit.
  destruct (EXPA_int_array_cell base off buf a Hm Hoff Hfit ltac:(lia))
    as (b & c & content & Hw & Hc & Hr & Hl & Hrd).
  split; [|split; [|intros E; congruence]].
  - exists b. rewrite Hw, Hc.
    destruct (has_payload (VIntArray a)) eqn:E; [|reflexivity].
    unfold EXPA.CHNKEntry_of_int_array, EXPA_payload.
    cbn [EXPA.CHNKEntry_of_int_array value].
    rewrite to_uint32_small by lia. reflexivity.
  - unfold cell_write_then_read. rewrite Hw. cbn [bind]. rewrite Hr.
    cbn [bind]. apply Hrd; lia.
Qed.

(** ** C1: a table file, written and read again *)

(** C1 (as stated) fails, the value tags of the rows matching the types.
    A string with a NUL byte is read back cut at that byte. The names of
    the fields are not in the file: without a schema the 64-bit dialect
    names them after type and index, and the 32-bit dialect, which has no
    structure section, does not read the file. In EXPANew.cpp the
    elements of an int array are written as one byte each, and two BOOL
    fields in a row are written to one word and read from two. *)
Lemma C1_counterexample :
  rows_match (single_cell_file "string 0" STRING (VString nul_string)) = true /\
  EXPANew_write_then_read EXPANew.EXPA64 no_schema_resolver
    (single_cell_file "string 0" STRING (VString nul_string)) 4096
  = Ok (Value (single_cell_file "string 0" STRING (VString "a"))) /\
  single_cell_file "string 0" STRING (VString "a")
  <> single_cell_file "string 0" STRING (VString nul_string) /\
  rows_match (single_cell_file "id" INT32 (VInt32 42)) = true /\
  EXPANew_write_then_read EXPANew.EXPA64 no_schema_resolver
    (single_cell_file "id" INT32 (VInt32 42)) 4096
  = Ok (Value (single_cell_file "int32 0" INT32 (VInt32 42))) /\
  EXPANew_write_then_read EXPANew.EXPA32 no_schema_resolver
    (single_cell_file "id" INT32 (VInt32 42)) 4096
  = Ok (Unexpected "Structure size doesn't match entry size.") /\
  rows_match (single_cell_file "int array 0" INT_ARRAY (VIntArray [1; 2; 3]))
  = true /\
  EXPANew_write_then_read EXPANew.EXPA64 no_schema_resolver
    (single_cell_file "int array 0" INT_ARRAY (VIntArray [1; 2; 3])) 4096
  = Ok (Value (single_cell_file "int array 0" INT_ARRAY
                 (VIntArray [197121; 0; 0]))) /\
  rows_match (bool_pair_file false true) = true /\
  EXPANew_write_then_read EXPANew.EXPA64 no_schema_resolver
    (bool_pair_file false true) 4096
  = Ok (Value (bool_pair_file false false)).
Proof.
  repeat split; try reflexivity. discriminate.
Qed.

(** C1 (amended): let the tables of a TableFile have names and strings
    without NUL bytes, no int array with elements, no BOOL field directly
    after a BOOL field, types that are enumerators or codes of no
    enumerator, rows whose values match the types, fewer than 2^26 fields
    and 2^32 rows, and let there be fewer than 2^31 tables; let the
    resolver return the structure of every table, or, in the 64-bit
    dialect, nothing while the fields are named after type and index. Then
    [writeEXPA<expa>] writes a file, the CHNK entries in it in the order of
    their slots, and if the file is shorter than 2^32 bytes, [readEXPA<expa>]
    of the image of that file, loaded at an address [base] that leaves
    room for it below 2^64, returns the TableFile. *)
Theorem C1_round_trip :
  forall (expa : EXPANew.Dialect)
         (fromFile : string -> result (list StructureEntry))
         (tf : EXPANew.FinalFile) (base : Z),
    In expa [EXPANew.EXPA32; EXPANew.EXPA64] ->
    file_ok tf = true ->
    (forall t, In t (EXPANew.tables tf) -> resolver_ok expa fromFile t) ->
    exists os chnk,
      EXPANew.writeEXPA_tables expa tf = Ok (os, chnk) /\
      EXPANew.writeEXPA_file expa tf = Ok (file_bytes os chnk) /\
      (len (file_bytes os chnk) < 2 ^ 32 ->
       slots_sorted 8 chnk (os_pos os) /\
       (0 < base -> base + len (file_bytes os chnk) < 2 ^ 64 ->
        EXPANew_write_then_read expa fromFile tf base = Ok (Value tf))).
Proof.
  intros expa fromFile tf base Hexpa Hok Hresolver.
  destruct (EXPANew_file_round_trip expa fromFile tf base Hexpa Hok Hresolver)
    as (os & chnk & Hw & Hf & H).
  exists os, chnk. split; [exact Hw|]. split; [exact Hf|].
  intros H32. destruct (H H32) as [Hs Hr]. split; [exact Hs|].
  intros Hbase Hlim. unfold EXPANew_write_then_read. rewrite Hf. cbn [bind].
  apply Hr; assumption.
Qed.

Lemma C1_round_trip_witness :
  file_ok sample_file = true /\
  EXPANew_write_then_read EXPANew.EXPA64 no_schema_resolver sample_file 4096
  = Ok (Value sample_file).
Proof.
  split; [reflexivity|].
  destruct (C1_round_trip EXPANew.EXPA64 no_schema_resolver sample_file 4096)
    as (os & chnk & Hw & _ & H).
  - right. left. reflexivity.
  - reflexivity.
  - intros t [<-|[]]. right. repeat split; reflexivity.
  - vm_compute in Hw. injection Hw as <- <-.
    apply H; reflexivity.
Defined.

(** * The CSV side (EXPA.cpp) *)

(** ** Numbers as text *)

Lemma read_digits_uint_acc rest :
  starts_with_digit rest = false ->
  forall d acc,
    read_digits (NilEmpty.string_of_uint d ++ rest) (Z.pos acc)
    = Z.pos (Pos.of_uint_acc d acc).
Proof.
  intros Hr. induction d; intros acc; cbn [NilEmpty.string_of_uint Pos.of_uint_acc append];
    try (cbn [read_digits];
         match goal with
         | |- context [digit_value ?c] =>
             let v := eval vm_compute in (digit_value c) in
             change (digit_value c) with v
         end;
         rewrite <- IHd; f_equal; lia).
  destruct rest as [|c r]; [reflexivity|].
  cbn [read_digits]. cbn [starts_with_digit] in Hr.
  destruct (digit_value c); [discriminate|reflexivity].
Qed.

Lemma read_digits_uint rest :
  starts_with_digit rest = false ->
  forall d,
    read_digits (NilEmpty.string_of_uint d ++ rest) 0
    = Z.of_N (Pos.of_uint d).
Proof.
  intros Hr. induction d; cbn [NilEmpty.string_of_uint Pos.of_uint append];
    try (cbn [read_digits];
         match goal with
         | |- context [digit_value ?c] =>
             let v := eval vm_compute in (digit_value c) in
             change (digit_value c) with v
         end;
         cbn [Z.of_N];
         match goal with
         | |- context [Pos.of_uint_acc _ ?k] =>
             rewrite <- (read_digits_uint_acc rest Hr d k); reflexivity
         | _ => rewrite <- IHd; reflexivity
         end).
  destruct rest as [|c r]; [reflexivity|].
  cbn [read_digits]. cbn [starts_with_digit] in Hr.
  destruct (digit_value c); [discriminate|reflexivity].
Qed.

Lemma uint_starts_with_digit d rest :
  d <> Decimal.Nil ->
  exists c r, (NilEmpty.string_of_uint d ++ rest)%string = String c r /\
              digit_value c <> None /\ isspace c = false /\
              c <> "-"%char /\ c <> "+"%char.
Proof.
  intros Hd. destruct d; [congruence| ..];
    cbn [NilEmpty.string_of_uint append]; do 2 eexists;
    (split; [reflexivity|]); repeat split; try discriminate; reflexivity.
Qed.

Lemma stoi_digits c r :
  digit_value c <> None -> isspace c = false ->
  c <> "-"%char -> c <> "+"%char ->
  stoi (String c r)
  = if (- 2 ^ 31 <=? read_digits (String c r) 0)
       && (read_digits (String c r) 0 <? 2 ^ 31)
    then inr (read_digits (String c r) 0) else inl conv_out_of_range.
Proof.
  intros Hd Hs Hm Hp. unfold stoi. cbn [skip_spaces]. rewrite Hs.
  apply Ascii.eqb_neq in Hm, Hp. rewrite Hm, Hp.
  destruct (digit_value c) eqn:E; [reflexivity|congruence].
Qed.

Lemma stoi_minus_digits c r :
  digit_value c <> None ->
  stoi (String "-" (String c r))
  = if (- 2 ^ 31 <=? - read_digits (String c r) 0)
       && (- read_digits (String c r) 0 <? 2 ^ 31)
    then inr (- read_digits (String c r) 0) else inl conv_out_of_range.
Proof.
  intros Hd. unfold stoi. cbn [skip_spaces].
  change (isspace "-") with false. cbv iota.
  change (Ascii.eqb "-" "-") with true. cbv iota.
  destruct (digit_value c) eqn:E; [reflexivity|congruence].
Qed.

Lemma string_of_uint_nonnil d :
  d <> Decimal.Nil ->
  NilZero.string_of_uint d = NilEmpty.string_of_uint d.
Proof. destruct d; [congruence|reflexivity..]. Qed.

Lemma stoi_format_int z rest :
  - 2 ^ 31 <= z < 2 ^ 31 -> starts_with_digit rest = false ->
  stoi (format_int z ++ rest) = inr z.
Proof.
  intros Hz Hr. unfold format_int.
  destruct z as [|p|p]; cbn [Z.to_int NilZero.string_of_int].
  - pose proof (read_digits_uint rest Hr (Decimal.D0 Decimal.Nil)) as Hrd.
    cbn [NilZero.string_of_uint NilEmpty.string_of_uint append] in *.
    rewrite stoi_digits by (try discriminate; reflexivity).
    rewrite Hrd. reflexivity.
  - pose proof (Unsigned.to_uint_nonnil p) as Hn.
    pose proof (read_digits_uint rest Hr (Pos.to_uint p)) as Hrd.
    rewrite DecimalPos.Unsigned.of_to in Hrd.
    rewrite (string_of_uint_nonnil _ Hn).
    destruct (uint_starts_with_digit (Pos.to_uint p) rest Hn)
      as (c & r & He & Hd & Hs & Hm & Hp).
    rewrite He in *. rewrite stoi_digits by assumption. rewrite Hrd.
    cbn [Z.of_N].
    destruct (Z.leb_spec (- 2 ^ 31) (Z.pos p)); [|lia].
    destruct (Z.ltb_spec (Z.pos p) (2 ^ 31)); [|lia]. reflexivity.
  - pose proof (Unsigned.to_uint_nonnil p) as Hn.
    pose proof (read_digits_uint rest Hr (Pos.to_uint p)) as Hrd.
    rewrite DecimalPos.Unsigned.of_to in Hrd.
    rewrite (string_of_uint_nonnil _ Hn).
    destruct (uint_starts_with_digit (Pos.to_uint p) rest Hn)
      as (c & r & He & Hd & Hs & Hm & Hp).
    cbn [append]. rewrite He in *. rewrite stoi_minus_digits by assumption.
    rewrite Hrd. cbn [Z.of_N].
    change (- Z.pos p) with (Z.neg p).
    destruct (Z.leb_spec (- 2 ^ 31) (Z.neg p)); [|lia].
    destruct (Z.ltb_spec (Z.neg p) (2 ^ 31)); [|lia]. reflexivity.
Qed.

Lemma uint_no_char c d :
  digit_value c = None -> has_char c (NilEmpty.string_of_uint d) = false.
Proof.
  intros Hc. induction d; cbn [NilEmpty.string_of_uint has_char];
    [reflexivity|..]; rewrite IHd, orb_false_r; apply Ascii.eqb_neq;
    intros E; rewrite <- E in Hc; discriminate Hc.
Qed.

Lemma format_int_no_char c z :
  digit_value c = None -> c <> "-"%char -> has_char c (format_int z) = false.
Proof.
  intros Hc Hm. unfold format_int.
  assert (Hu : forall d, has_char c (NilZero.string_of_uint d) = false).
  { intros d. destruct d; try apply (uint_no_char c _ Hc).
    cbn [NilZero.string_of_uint has_char]. rewrite orb_false_r.
    apply Ascii.eqb_neq. intros E. rewrite <- E in Hc. discriminate Hc. }
  destruct (Z.to_int z); cbn [NilZero.string_of_int has_char]; [apply Hu|].
  rewrite Hu, orb_false_r. apply Ascii.eqb_neq. congruence.
Qed.

Lemma format_int_nonempty z : format_int z <> EmptyString.
Proof.
  unfold format_int. destruct (Z.to_int z) as [d|d]; cbn; [|discriminate].
  destruct d; discriminate.
Qed.

Lemma split_pieces_no_sep sep s :
  has_char sep s = false -> split_pieces sep s = [s].
Proof.
  induction s as [|c r IH]; intros H; [reflexivity|].
  cbn [has_char] in H. apply orb_false_iff in H. destruct H as [Hc Hr].
  cbn [split_pieces]. rewrite Hc, (IH Hr). reflexivity.
Qed.

Lemma split_pieces_app sep a b :
  has_char sep a = false ->
  split_pieces sep (a ++ String sep b) = a :: split_pieces sep b.
Proof.
  induction a as [|c r IH]; intros H.
  - cbn. rewrite Ascii.eqb_refl. reflexivity.
  - cbn [has_char] in H. apply orb_false_iff in H. destruct H as [Hc Hr].
    cbn [append split_pieces]. rewrite Hc, (IH Hr). reflexivity.
Qed.

Lemma split_pieces_join sep l :
  l <> [] -> Forall (fun x => has_char sep x = false) l ->
  split_pieces sep (join_with sep l) = l.
Proof.
  induction l as [|x r IH]; intros Hne Hl; [congruence|].
  inversion Hl as [|? ? Hx Hr]; subst.
  destruct r as [|y r'].
  - cbn [join_with]. apply split_pieces_no_sep, Hx.
  - change (join_with sep (x :: y :: r'))
      with (x ++ String sep (join_with sep (y :: r')))%string.
    rewrite split_pieces_app by exact Hx. rewrite IH; [reflexivity|discriminate|exact Hr].
Qed.

Lemma split_join sep l :
  Forall (fun x => has_char sep x = false /\ x <> EmptyString) l ->
  split sep (join_with sep l) = l.
Proof.
  intros Hl. destruct l as [|x r]; [reflexivity|].
  assert (Hj : join_with sep (x :: r) <> EmptyString).
  { inversion Hl as [|? ? [_ Hx] _]; subst.
    destruct r; cbn [join_with]; destruct x; try congruence; discriminate. }
  unfold split. destruct (join_with sep (x :: r)) eqn:E; [congruence|].
  rewrite <- E. apply split_pieces_join; [discriminate|].
  eapply Forall_impl; [|exact Hl]. intros a0 [H _]. exact H.
Qed.

Lemma append_empty_r (s : string) : (s ++ "")%string = s.
Proof. induction s as [|c r IH]; cbn; [reflexivity|]. rewrite IH. reflexivity. Qed.

Lemma append_assoc_string (a b c : string) :
  ((a ++ b) ++ c)%string = (a ++ b ++ c)%string.
Proof. induction a as [|x r IH]; cbn; [reflexivity|]. rewrite IH. reflexivity. Qed.

Lemma length_append (a b : string) :
  String.length (a ++ b) = (String.length a + String.length b)%nat.
Proof. induction a as [|x r IH]; cbn; [reflexivity|]. rewrite IH. reflexivity. Qed.

Lemma substring_0_append (a b : string) :
  String.substring 0 (String.length a) (a ++ b) = a.
Proof. induction a as [|x r IH]; cbn; [destruct b; reflexivity|]. rewrite IH. reflexivity. Qed.

Lemma substring_all (s : string) :
  String.substring 0 (String.length s) s = s.
Proof. induction s as [|x r IH]; cbn; [reflexivity|]. rewrite IH. reflexivity. Qed.

Lemma substring_skip (a b : string) n :
  String.substring (String.length a) n (a ++ b) = String.substring 0 n b.
Proof. induction a as [|x r IH]; cbn; [reflexivity|]. exact IH. Qed.

Lemma stoi_all_format a :
  forallb (fun z => (- 2 ^ 31 <=? z) && (z <? 2 ^ 31)) a = true ->
  stoi_all (map format_int a) = inr a.
Proof.
  induction a as [|z a IH]; intros H; [reflexivity|].
  cbn [forallb] in H. apply andb_prop in H. destruct H as [Hz Ha].
  apply andb_prop in Hz. destruct Hz as [H1 H2].
  apply Z.leb_le in H1. apply Z.ltb_lt in H2.
  cbn [map stoi_all].
  pose proof (stoi_format_int z EmptyString ltac:(lia) eq_refl) as Hs.
  rewrite append_empty_r in Hs.
  rewrite Hs, (IH Ha). reflexivity.
Qed.

Lemma to_signed_small w z :
  0 < w -> - 2 ^ (w - 1) <= z < 2 ^ (w - 1) -> to_signed w z = z.
Proof.
  intros Hw Hz. unfold to_signed.
  replace (2 ^ w) with (2 * 2 ^ (w - 1))
    by (rewrite <- Z.pow_succ_r by lia; f_equal; lia).
  rewrite Z.mod_small; lia.
Qed.

Section CSVFacts.
Variable format_float : Z -> string.
Variable stof : string -> conv_exn + Z.

Lemma cell_round_trip_csv t v :
  csv_exact t = true -> value_matches t v = true ->
  exists cell,
    getCSVString format_float t v = Ok cell /\
    getCSVValue stof t cell = inr v.
Proof.
  intros Ht Hm.
  destruct t; try discriminate Ht; destruct v; try discriminate Hm;
    cbn [value_matches] in Hm;
    cbn [getCSVString get_int32 get_int16 get_int8 get_bool get_int_array bind];
    eexists; (split; [reflexivity|]); cbn [getCSVValue]; try reflexivity.
  all: try (apply andb_prop in Hm; destruct Hm as [H1 H2];
            apply Z.leb_le in H1; apply Z.ltb_lt in H2;
            pose proof (stoi_format_int v EmptyString ltac:(lia) eq_refl) as Hs;
            rewrite append_empty_r in Hs; rewrite Hs;
            rewrite ?to_signed_small by lia; reflexivity).
  - destruct b; reflexivity.
  - rewrite split_join.
    + rewrite (stoi_all_format _ Hm). reflexivity.
    + apply Forall_forall. intros x Hx. apply in_map_iff in Hx.
      destruct Hx as (z & <- & _). split.
      * apply format_int_no_char; [reflexivity|discriminate].
      * apply format_int_nonempty.
Qed.
Lemma cells_round_trip_csv s : forall row,
  forallb (fun e => csv_exact (type e)) s = true ->
  row_matches s row = true ->
  exists cells,
    write_cells format_float s row = Ok cells /\
    read_cells stof s cells = inr row.
Proof.
  induction s as [|e s IH]; intros row Ht Hm.
  - destruct row; [|discriminate]. exists []. split; reflexivity.
  - destruct row as [|v row]; [discriminate|].
    cbn [forallb] in Ht. apply andb_prop in Ht. destruct Ht as [He Ht].
    cbn [row_matches] in Hm. apply andb_prop in Hm. destruct Hm as [Hv Hm].
    destruct (cell_round_trip_csv _ _ He Hv)
      as (cell & Hw & Hr).
    destruct (IH row Ht Hm) as (cells & Hws & Hrs).
    exists (cell :: cells). cbn [write_cells read_cells].
    rewrite Hw, Hr. cbn [bind]. rewrite Hws, Hrs. split; reflexivity.
Qed.

Lemma skip_spaces_app ws s :
  all_space ws = true -> skip_spaces (ws ++ s) = skip_spaces s.
Proof.
  induction ws as [|c r IH]; intros H; [reflexivity|].
  cbn [all_space] in H. apply andb_prop in H. destruct H as [Hc Hr].
  cbn [append skip_spaces]. rewrite Hc. apply IH, Hr.
Qed.

Lemma stoi_skip ws s : all_space ws = true -> stoi (ws ++ s) = stoi s.
Proof.
  intros H. unfold stoi. rewrite (skip_spaces_app _ _ H). reflexivity.
Qed.

Lemma stoi_format_int_any z rest :
  starts_with_digit rest = false ->
  stoi (format_int z ++ rest)
  = if (- 2 ^ 31 <=? z) && (z <? 2 ^ 31) then inr z
    else inl conv_out_of_range.
Proof.
  intros Hr. unfold format_int.
  destruct z as [|p|p]; cbn [Z.to_int NilZero.string_of_int].
  - pose proof (read_digits_uint rest Hr (Decimal.D0 Decimal.Nil)) as Hrd.
    cbn [NilZero.string_of_uint NilEmpty.string_of_uint append] in *.
    rewrite stoi_digits by (try discriminate; reflexivity).
    rewrite Hrd. reflexivity.
  - pose proof (Unsigned.to_uint_nonnil p) as Hn.
    pose proof (read_digits_uint rest Hr (Pos.to_uint p)) as Hrd.
    rewrite DecimalPos.Unsigned.of_to in Hrd.
    rewrite (string_of_uint_nonnil _ Hn).
    destruct (uint_starts_with_digit (Pos.to_uint p) rest Hn)
      as (c & r & He & Hd & Hs & Hm & Hp).
    rewrite He in *. rewrite stoi_digits by assumption. rewrite Hrd.
    reflexivity.
  - pose proof (Unsigned.to_uint_nonnil p) as Hn.
    pose proof (read_digits_uint rest Hr (Pos.to_uint p)) as Hrd.
    rewrite DecimalPos.Unsigned.of_to in Hrd.
    rewrite (string_of_uint_nonnil _ Hn).
    destruct (uint_starts_with_digit (Pos.to_uint p) rest Hn)
      as (c & r & He & Hd & Hs & Hm & Hp).
    cbn [append]. rewrite He in *. rewrite stoi_minus_digits by assumption.
    rewrite Hrd. reflexivity.
Qed.

Lemma quoted_body_inj d e : forall s1 s2,
  quoted_body d e s1 = quoted_body d e s2 -> s1 = s2.
Proof.
  induction s1 as [|c1 r1 IH]; intros s2 H; destruct s2 as [|c2 r2];
    cbn [quoted_body] in H.
  - reflexivity.
  - destruct (Ascii.eqb c2 d || Ascii.eqb c2 e) eqn:E2.
    + injection H as _ H. discriminate H.
    + injection H as Hc _. subst c2. rewrite Ascii.eqb_refl in E2.
      discriminate E2.
  - destruct (Ascii.eqb c1 d || Ascii.eqb c1 e) eqn:E1.
    + injection H as _ H. discriminate H.
    + injection H as Hc _. subst c1. rewrite Ascii.eqb_refl in E1.
      discriminate E1.
  - destruct (Ascii.eqb c1 d || Ascii.eqb c1 e) eqn:E1;
      destruct (Ascii.eqb c2 d || Ascii.eqb c2 e) eqn:E2.
    + injection H as Hc H. subst c2. f_equal. apply IH, H.
    + injection H as Hc _. subst c2. rewrite Ascii.eqb_refl, orb_true_r in E2.
      discriminate E2.
    + injection H as Hc _. subst c1. rewrite Ascii.eqb_refl, orb_true_r in E1.
      discriminate E1.
    + injection H as Hc H. subst c2. f_equal. apply IH, H.
Qed.

End CSVFacts.

Lemma find_last_of_none c s : has_char c s = false -> find_last_of c s = None.
Proof.
  induction s as [|a r IH]; intros H; [reflexivity|].
  cbn [has_char] in H. apply orb_false_iff in H. destruct H as [Ha Hr].
  cbn [find_last_of]. rewrite (IH Hr), Ha. reflexivity.
Qed.

Lemma find_last_of_app c a b :
  has_char c b = false ->
  find_last_of c (a ++ String c b) = Some (String.length a).
Proof.
  intros Hb. induction a as [|x r IH].
  - cbn [append find_last_of]. rewrite (find_last_of_none _ _ Hb).
    rewrite Ascii.eqb_refl. reflexivity.
  - cbn [append find_last_of String.length]. rewrite IH. reflexivity.
Qed.

Lemma toString_eq t : named_type t = true -> EXPANew.toString t = EXPA.toString t.
Proof. destruct t; try reflexivity; discriminate. Qed.

Lemma getCSVStructure_in_band s : forall j,
  forallb (fun e => named_type (type e)) s = true ->
  in_band_names j s = true ->
  map (fun val =>
         {| name := val;
            type := EXPA.convertEntryType (substr0 val (find_last_of " " val)) |})
    (map name s) = s.
Proof.
  induction s as [|e s IH]; intros j Hn Hb; [reflexivity|].
  cbn [forallb] in Hn. apply andb_prop in Hn. destruct Hn as [He Hn].
  cbn [in_band_names] in Hb. apply andb_prop in Hb. destruct Hb as [Hname Hb].
  apply String.eqb_eq in Hname. cbn [map]. rewrite (IH _ Hn Hb). f_equal.
  destruct e as [n t]. cbn [name type] in *. f_equal.
  rewrite Hname.
  change (EXPANew.toString t ++ " " ++ format_int (to_int32 j))%string
    with (EXPANew.toString t ++ String " " (format_int (to_int32 j)))%string.
  rewrite find_last_of_app
    by (apply format_int_no_char; [reflexivity|discriminate]).
  cbn [substr0]. rewrite substring_0_append, (toString_eq _ He).
  destruct t; try reflexivity; try discriminate He.
Qed.

(** ** Rows and cells as text *)

Lemma split_pieces_nonempty sep s : split_pieces sep s <> [].
Proof.
  induction s as [|c r IH]; cbn [split_pieces]; [discriminate|].
  destruct (Ascii.eqb c sep); [discriminate|].
  destruct (split_pieces sep r); discriminate.
Qed.

Lemma split_pieces_sep sep a b :
  split_pieces sep (a ++ String sep b)
  = split_pieces sep a ++ split_pieces sep b.
Proof.
  induction a as [|c r IH]; cbn [append split_pieces].
  - rewrite Ascii.eqb_refl. reflexivity.
  - rewrite IH. destruct (Ascii.eqb c sep); [reflexivity|].
    pose proof (split_pieces_nonempty sep r) as Hn.
    destruct (split_pieces sep r); [congruence|reflexivity].
Qed.

Lemma stoi_empty : stoi EmptyString = inl invalid_argument.
Proof. reflexivity. Qed.

Lemma stoi_all_blank l :
  In EmptyString l -> exists e, stoi_all l = inl e.
Proof.
  induction l as [|x r IH]; intros H; [destruct H|].
  cbn [stoi_all]. destruct H as [->|H].
  - rewrite stoi_empty. eauto.
  - destruct (stoi x); [eauto|]. destruct (IH H) as [e ->]. eauto.
Qed.

Lemma stoi_no_number ws s :
  all_space ws = true -> no_number s = true ->
  stoi (ws ++ s) = inl invalid_argument.
Proof.
  intros Hw Hn. rewrite (stoi_skip _ _ Hw). unfold stoi.
  destruct s as [|c r]; [reflexivity|].
  cbn [no_number] in Hn. apply andb_prop in Hn. destruct Hn as [Hs Hd].
  apply negb_true_iff in Hs, Hd. cbn [skip_spaces]. rewrite Hs.
  destruct (Ascii.eqb c "-") eqn:Em; cbn [orb] in Hd.
  - destruct r as [|d r']; [reflexivity|]. cbn [starts_with_digit] in Hd.
    destruct (digit_value d); [discriminate|reflexivity].
  - destruct (Ascii.eqb c "+") eqn:Ep.
    + destruct r as [|d r']; [reflexivity|]. cbn [starts_with_digit] in Hd.
      destruct (digit_value d); [discriminate|reflexivity].
    + cbn [starts_with_digit] in Hd.
      destruct (digit_value c); [discriminate|reflexivity].
Qed.

(** X5: a row of the types whose cells are text of the program's own
    (all but FLOAT and the strings), its values matching the types, is
    turned into cells by [Structure::writeCSV], which returns them joined by
    commas and without the header, and [Structure::readCSV] turns these
    cells into the row again. *)
Theorem csv_row_round_trip :
  forall (format_float : Z -> string) (stof : string -> conv_exn + Z)
         (s : Structure) (row : list EntryValue),
    forallb (fun e => csv_exact (type e)) (structure s) = true ->
    row_matches (structure s) row = true ->
    exists cells,
      write_cells format_float (structure s) row = Ok cells /\
      writeCSV format_float s row = Ok (join_with "," cells) /\
      readCSV stof s cells = inr row.
Proof.
  intros format_float stof s row Ht Hm.
  destruct (cells_round_trip_csv format_float stof _ _ Ht Hm)
    as (cells & Hw & Hr).
  exists cells. split; [exact Hw|]. split; [|exact Hr].
  unfold writeCSV. rewrite Hw. reflexivity.
Qed.

Lemma csv_row_round_trip_witness :
  readCSV no_stof
    {| structure := [ {| name := "id"; type := INT32 |};
                      {| name := "flag"; type := BOOL |};
                      {| name := "list"; type := INT_ARRAY |};
                      {| name := "small"; type := INT8 |} ] |}
    [ "-5"; "true"; "1 -2 30"; "7" ]%string
  = inr [VInt32 (-5); VBool true; VIntArray [1; -2; 30]; VInt8 7].
Proof.
  destruct (csv_row_round_trip no_float_text no_stof
              {| structure := [ {| name := "id"; type := INT32 |};
                                {| name := "flag"; type := BOOL |};
                                {| name := "list"; type := INT_ARRAY |};
                                {| name := "small"; type := INT8 |} ] |}
              [VInt32 (-5); VBool true; VIntArray [1; -2; 30]; VInt8 7]
              eq_refl eq_refl) as (cells & Hw & _ & Hr).
  vm_compute in Hw. injection Hw as <-. exact Hr.
Defined.

(** X6: [getCSVValue] reads an integer cell with [std::stoi] and checks
    nothing else: white space before the number and any text after its
    digits are ignored, and a value of [int] that is no value of the
    field's type is cut to 16 or 8 bits for INT16 and INT8. *)
Theorem getCSVValue_lenient :
  forall (stof : string -> conv_exn + Z) (ws rest : string) (z : Z),
    all_space ws = true -> starts_with_digit rest = false ->
    - 2 ^ 31 <= z < 2 ^ 31 ->
    getCSVValue stof INT32 (ws ++ format_int z ++ rest) = inr (VInt32 z) /\
    getCSVValue stof INT16 (ws ++ format_int z ++ rest)
    = inr (VInt16 (to_signed 16 z)) /\
    getCSVValue stof INT8 (ws ++ format_int z ++ rest)
    = inr (VInt8 (to_signed 8 z)).
Proof.
  intros stof ws rest z Hw Hr Hz. unfold getCSVValue.
  rewrite (stoi_skip _ _ Hw), (stoi_format_int _ _ Hz Hr).
  repeat split.
Qed.

Lemma getCSVValue_lenient_witness :
  getCSVValue no_stof INT16 " 70000 units" = inr (VInt16 4464).
Proof.
  apply (getCSVValue_lenient no_stof " " " units" 70000); try reflexivity.
  lia.
Defined.

(** X7: the two ways in which [getCSVValue] fails on an integer cell. A
    number that is no value of [int] leaves it by [std::out_of_range],
    also for INT16 and INT8; a cell without a number at its start, the
    empty cell among them, leaves it by [std::invalid_argument]. *)
Theorem getCSVValue_errors :
  forall (stof : string -> conv_exn + Z) (t : EntryType) (ws : string),
    In t [INT32; INT16; INT8] -> all_space ws = true ->
    (forall z rest,
       starts_with_digit rest = false -> z < - 2 ^ 31 \/ 2 ^ 31 <= z ->
       getCSVValue stof t (ws ++ format_int z ++ rest)
       = inl conv_out_of_range) /\
    (forall s, no_number s = true ->
               getCSVValue stof t (ws ++ s) = inl invalid_argument).
Proof.
  intros stof t ws Ht Hw. split.
  - intros z rest Hr Hz.
    assert (Hs : stoi (ws ++ format_int z ++ rest) = inl conv_out_of_range).
    { rewrite (stoi_skip _ _ Hw), (stoi_format_int_any _ _ Hr).
      destruct (Z.leb_spec (- 2 ^ 31) z); [|reflexivity].
      destruct (Z.ltb_spec z (2 ^ 31)); [lia|reflexivity]. }
    destruct Ht as [<-|[<-|[<-|[]]]]; unfold getCSVValue; rewrite Hs;
      reflexivity.
  - intros s Hn. pose proof (stoi_no_number ws s Hw Hn) as Hs.
    destruct Ht as [<-|[<-|[<-|[]]]]; unfold getCSVValue; rewrite Hs;
      reflexivity.
Qed.

Lemma getCSVValue_errors_witness :
  getCSVValue no_stof INT8 "2147483648" = inl conv_out_of_range /\
  getCSVValue no_stof INT32 "" = inl invalid_argument /\
  getCSVValue no_stof INT32 "-x1" = inl invalid_argument.
Proof.
  destruct (getCSVValue_errors no_stof INT8 "" ltac:(simpl; auto) eq_refl)
    as [H8 _].
  destruct (getCSVValue_errors no_stof INT32 "" ltac:(simpl; auto) eq_refl)
    as [_ H32].
  split; [|split].
  - apply (H8 2147483648 ""%string eq_refl). right. lia.
  - apply (H32 ""%string eq_refl).
  - apply (H32 "-x1"%string eq_refl).
Defined.

(** X8: an int-array cell is split at every single space. The empty cell
    is the empty array; a cell with a space at its start, at its end or
    after another space has an empty piece, at which [std::stoi] throws,
    unless an earlier piece has made it throw. *)
Theorem getCSVValue_int_array_blanks :
  forall (stof : string -> conv_exn + Z),
    getCSVValue stof INT_ARRAY "" = inr (VIntArray []) /\
    forall a b : string,
      a = EmptyString \/ b = EmptyString \/ (exists r, b = String " " r) ->
      exists e, getCSVValue stof INT_ARRAY (a ++ String " " b) = inl e.
Proof.
  intros stof. split; [reflexivity|]. intros a b H.
  assert (Hin : In EmptyString (split " " (a ++ String " " b))).
  { assert (Hsp : split " " (a ++ String " " b)
                  = split_pieces " " (a ++ String " " b))
      by (destruct a; reflexivity).
    rewrite Hsp, split_pieces_sep. apply in_or_app.
    destruct H as [->|[->|[r ->]]].
    - left. left. reflexivity.
    - right. left. reflexivity.
    - right. left. reflexivity. }
  unfold getCSVValue. destruct (stoi_all_blank _ Hin) as [e ->]. eauto.
Qed.

Lemma getCSVValue_int_array_blanks_witness :
  exists e, getCSVValue no_stof INT_ARRAY "1  2" = inl e.
Proof.
  destruct (getCSVValue_int_array_blanks no_stof) as [_ H].
  apply (H "1"%string " 2"%string). right. right. eexists. reflexivity.
Defined.

(** X9: [getCSVString] writes a string cell with [std::quoted]: between
    two double quotes, every double quote of the string doubled. A string
    without a double quote is only wrapped, and no two strings have the
    same cell. *)
Theorem getCSVString_quoted :
  forall (format_float : Z -> string) (t : EntryType) (s1 s2 : string),
    In t [STRING3; STRING; STRING2] ->
    getCSVString format_float t (VString s1)
    = Ok (quoted s1 dquote dquote) /\
    (has_char dquote s1 = false ->
     quoted s1 dquote dquote = String dquote (s1 ++ String dquote "")) /\
    (getCSVString format_float t (VString s1)
     = getCSVString format_float t (VString s2) -> s1 = s2).
Proof.
  intros format_float t s1 s2 Ht.
  assert (Hq : forall s, getCSVString format_float t (VString s)
                         = Ok (quoted s dquote dquote))
    by (intros s; destruct Ht as [<-|[<-|[<-|[]]]]; reflexivity).
  split; [apply Hq|]. split.
  - intros Hn. unfold quoted. f_equal.
    induction s1 as [|c r IH]; [reflexivity|].
    cbn [has_char] in Hn. apply orb_false_iff in Hn. destruct Hn as [Hc Hr].
    cbn [quoted_body append]. rewrite Hc. cbn [orb]. rewrite (IH Hr).
    reflexivity.
  - rewrite !Hq. intros H. injection H as H.
    eapply quoted_body_inj. exact H.
Qed.

Lemma getCSVString_quoted_witness :
  getCSVString no_float_text STRING (VString "sword")
  = Ok (String dquote ("sword" ++ String dquote "")).
Proof.
  destruct (getCSVString_quoted no_float_text STRING "sword" "sword")
    as (H1 & H2 & _).
  - simpl. auto.
  - rewrite H1, H2; reflexivity.
Defined.

(** ** CSV files: header, structure, names *)

(** X10: the header that a structure with the in-band names has in a
    CSV file gives the structure back: [getCSVStructure] takes the text
    before the last space of a name as the type string, also for
    [int array], whose type string has a space of its own. *)
Theorem getCSVStructure_in_band_names :
  forall (s : list StructureEntry) (rows : list (list string)),
    forallb (fun e => named_type (type e)) s = true ->
    in_band_names 0 s = true ->
    getCSVStructure {| csv_header := map name s; csv_rows := rows |} = s.
Proof.
  intros s rows Hn Hb. unfold getCSVStructure. cbn [csv_header].
  exact (getCSVStructure_in_band s 0 Hn Hb).
Qed.

Lemma getCSVStructure_in_band_names_witness :
  getCSVStructure {| csv_header := [ "int32 0"; "int array 1"; "string 2" ]%string;
                     csv_rows := [] |}
  = [ {| name := "int32 0"; type := INT32 |};
      {| name := "int array 1"; type := INT_ARRAY |};
      {| name := "string 2"; type := STRING |} ].
Proof.
  apply (getCSVStructure_in_band_names
           [ {| name := "int32 0"; type := INT32 |};
             {| name := "int array 1"; type := INT_ARRAY |};
             {| name := "string 2"; type := STRING |} ] []); reflexivity.
Defined.

(** X11: [getStructureCSV] returns one field for every column of the
    header, whatever the schema files hold: the fields of the schema
    replace those of the header only where they are as many, and then
    without a look at their types. *)
Theorem getStructureCSV_fields :
  forall (fromFile : string -> result (list StructureEntry))
         (csv : CSVFile) (tableName : string) (entries : list StructureEntry),
    fromFile tableName = Ok entries ->
    exists s,
      getStructureCSV fromFile csv tableName = Ok s /\
      List.length (structure s) = List.length (csv_header csv) /\
      (entries <> [] ->
       List.length entries = List.length (csv_header csv) ->
       structure s = entries) /\
      (entries = [] \/
       List.length entries <> List.length (csv_header csv) ->
       structure s = getCSVStructure csv).
Proof.
  intros fromFile csv tableName entries Hf. unfold getStructureCSV.
  rewrite Hf. cbn [bind].
  assert (Hl : List.length (getCSVStructure csv) = List.length (csv_header csv))
    by (unfold getCSVStructure; apply length_map).
  destruct entries as [|e r].
  - eexists. split; [reflexivity|]. cbn [structure].
    split; [exact Hl|]. split; [congruence|reflexivity].
  - destruct (Z.eqb_spec (len (e :: r)) (len (getCSVStructure csv))) as [E|E];
      cbn [negb]; eexists; (split; [reflexivity|]); cbn [structure].
    + split; [lia|]. split; [reflexivity|]. intros [H|H]; [discriminate|lia].
    + split; [exact Hl|]. split; [lia|reflexivity].
Qed.

Lemma getStructureCSV_fields_witness :
  getStructureCSV
    (fun _ => Ok [ {| name := "id"; type := INT32 |};
                   {| name := "hp"; type := INT16 |} ])
    {| csv_header := [ "int8 0"; "bool 1" ]%string; csv_rows := [] |} "t"
  = Ok {| structure := [ {| name := "id"; type := INT32 |};
                         {| name := "hp"; type := INT16 |} ] |}.
Proof.
  destruct (getStructureCSV_fields
              (fun _ => Ok [ {| name := "id"; type := INT32 |};
                             {| name := "hp"; type := INT16 |} ])
              {| csv_header := [ "int8 0"; "bool 1" ]%string; csv_rows := [] |}
              "t" _ eq_refl) as (s & Hs & _ & H & _).
  rewrite Hs. destruct s as [l]. cbn [structure] in H.
  rewrite H; [reflexivity|discriminate|reflexivity].
Defined.

Lemma CSVFile_load_rows h : forall rs acc,
  h <> [] ->
  fold_left
    (fun csv data =>
       match csv_header csv with
       | [] => {| csv_header := data; csv_rows := csv_rows csv |}
       | _ => {| csv_header := csv_header csv;
                 csv_rows := csv_rows csv ++ [data] |}
       end)
    rs {| csv_header := h; csv_rows := acc |}
  = {| csv_header := h; csv_rows := acc ++ rs |}.
Proof.
  induction rs as [|r rs IH]; intros acc Hh; cbn [fold_left].
  - rewrite app_nil_r. reflexivity.
  - cbn [csv_header csv_rows]. destruct h as [|x h']; [congruence|].
    rewrite IH by exact Hh. rewrite <- app_assoc. reflexivity.
Qed.

(** X12: the constructor of [CSVFile] takes the first row that has a
    field as the header and every row after it, in order, as a row of the
    table; rows without a field before the header are dropped. *)
Theorem CSVFile_load_header :
  forall (blanks : list (list string)) (h : list string)
         (rs : list (list string)),
    Forall (fun r => r = []) blanks -> h <> [] ->
    CSVFile_load (blanks ++ h :: rs) = {| csv_header := h; csv_rows := rs |} /\
    CSVFile_load blanks = {| csv_header := []; csv_rows := [] |}.
Proof.
  intros blanks h rs Hb Hh. unfold CSVFile_load.
  assert (Hblank : fold_left
            (fun csv data =>
               match csv_header csv with
               | [] => {| csv_header := data; csv_rows := csv_rows csv |}
               | _ => {| csv_header := csv_header csv;
                         csv_rows := csv_rows csv ++ [data] |}
               end)
            blanks {| csv_header := []; csv_rows := [] |}
          = {| csv_header := []; csv_rows := [] |}).
  { induction Hb as [|r blanks -> _ IH]; [reflexivity|]. exact IH. }
  split; [|exact Hblank].
  rewrite fold_left_app, Hblank. cbn [fold_left csv_header csv_rows].
  rewrite (CSVFile_load_rows h rs [] Hh). reflexivity.
Qed.

Lemma CSVFile_load_header_witness :
  CSVFile_load [ []; [ "int32 0"; "bool 1" ]; [ "5"; "true" ]; [] ]%string
  = {| csv_header := [ "int32 0"; "bool 1" ]%string;
       csv_rows := [ [ "5"; "true" ]%string; [] ] |}.
Proof.
  apply (CSVFile_load_header [ [] ] [ "int32 0"; "bool 1" ]%string
           [ [ "5"; "true" ]%string; [] ]).
  - repeat constructor.
  - discriminate.
Defined.

(** ** The names of the CSV files *)

Lemma has_char_app c a b :
  has_char c (a ++ b) = has_char c a || has_char c b.
Proof.
  induction a as [|x r IH]; cbn [append has_char]; [reflexivity|].
  rewrite IH, orb_assoc. reflexivity.
Qed.

Lemma is_digit_no_char c d :
  is_digit d = true -> is_digit c = false -> Ascii.eqb d c = false.
Proof.
  intros Hd Hc. apply Ascii.eqb_neq. intros ->. congruence.
Qed.

Lemma format_03_three id : 0 <= id < 1000 -> three_digits (format_03 id) = true.
Proof.
  intros H.
  assert (Hall : forallb (fun n => three_digits (format_03 (Z.of_nat n)))
                   (seq 0 (Z.to_nat 1000)) = true) by (vm_compute; reflexivity).
  rewrite forallb_forall in Hall.
  specialize (Hall (Z.to_nat id) ltac:(apply in_seq; lia)).
  rewrite Z2Nat.id in Hall by lia. exact Hall.
Qed.

Lemma format_03_four id :
  1000 <= id < 10000 -> four_digits (format_03 id) = true.
Proof.
  intros H.
  assert (Hall : forallb (fun n => four_digits (format_03 (Z.of_nat n)))
                   (seq (Z.to_nat 1000) (Z.to_nat 9000)) = true)
    by (vm_compute; reflexivity).
  rewrite forallb_forall in Hall.
  specialize (Hall (Z.to_nat id) ltac:(apply in_seq; lia)).
  rewrite Z2Nat.id in Hall by lia. exact Hall.
Qed.

Lemma substring_after dir f n :
  String.substring (S (String.length dir)) n (dir ++ String "/" f)
  = String.substring 0 n f.
Proof. induction dir as [|x r IH]; cbn; [reflexivity|exact IH]. Qed.

Lemma path_filename_app dir f :
  has_char "/" f = false -> path_filename (dir ++ String "/" f) = f.
Proof.
  intros H. unfold path_filename. rewrite (find_last_of_app _ _ _ H).
  rewrite substring_after, length_append. cbn [String.length].
  replace (String.length dir + S (String.length f) - S (String.length dir))%nat
    with (String.length f) by lia.
  apply substring_all.
Qed.

Lemma path_stem_csv dir d r :
  is_digit d = true -> has_char "/" (String d r) = false ->
  path_stem (dir ++ String "/" (String d r ++ ".csv")) = String d r.
Proof.
  intros Hd Hs. unfold path_stem.
  rewrite path_filename_app
    by (rewrite has_char_app, Hs; reflexivity).
  assert (Hne : Ascii.eqb d "." = false)
    by (apply is_digit_no_char; [exact Hd|reflexivity]).
  cbn [append String.eqb]. rewrite Hne. cbn [orb].
  change (String d (r ++ ".csv"))
    with (String d r ++ String "." "csv")%string.
  rewrite find_last_of_app by reflexivity.
  cbn [String.length]. apply (substring_0_append (String d r)).
Qed.

Lemma substr_from_app a b :
  String.length a = 4%nat -> substr_from 4 (a ++ b) = Ok b.
Proof.
  intros H.
  destruct a as [|a1 [|a2 [|a3 [|a4 [|? ?]]]]]; try discriminate H.
  unfold substr_from. cbn [append String.length Nat.leb String.substring].
  replace (S (S (S (S (String.length b)))) - 4)%nat
    with (String.length b) by lia.
  rewrite substring_all. reflexivity.
Qed.

(** X13: [exportCSV] names the file of a table by its number, filled up
    to three digits, an underscore and the table name, and [importCSV]
    takes the name of a table from the file name without its extension and
    its first four characters. A table name without [/] comes back for the
    first thousand tables; from table 1000 on the number has a fourth
    digit and the name comes back with the underscore before it. *)
Theorem csv_file_name_round_trip :
  forall (target table_name : string) (table_id : Z),
    has_char "/" table_name = false ->
    (0 <= table_id < 1000 ->
     csv_table_name (target ++ "/" ++ csv_file_name table_id table_name)
     = Ok table_name) /\
    (1000 <= table_id < 10000 ->
     csv_table_name (target ++ "/" ++ csv_file_name table_id table_name)
     = Ok (String "_" table_name)).
Proof.
  intros target table_name table_id Hn. unfold csv_table_name, csv_file_name.
  split; intros Hid.
  - pose proof (format_03_three _ Hid) as H3.
    destruct (format_03 table_id) as [|a [|b [|c [|? ?]]]]; try discriminate H3.
    cbn [three_digits] in H3. apply andb_prop in H3. destruct H3 as [H3 Hc].
    apply andb_prop in H3. destruct H3 as [Ha Hb].
    change (target ++ "/" ++ String a (String b (String c ""))
              ++ "_" ++ table_name ++ ".csv")%string
      with (target ++ String "/"
              (String a (String b (String c (String "_" table_name)))
               ++ ".csv"))%string.
    rewrite path_stem_csv; [|exact Ha|].
    + apply (substr_from_app (String a (String b (String c "_"))) table_name).
      reflexivity.
    + cbn [has_char]. rewrite Hn.
      rewrite !(is_digit_no_char "/") by (assumption || reflexivity).
      reflexivity.
  - pose proof (format_03_four _ Hid) as H4.
    destruct (format_03 table_id) as [|a [|b [|c [|d [|? ?]]]]];
      try discriminate H4.
    cbn [four_digits] in H4. apply andb_prop in H4. destruct H4 as [H4 Hd].
    apply andb_prop in H4. destruct H4 as [H4 Hc].
    apply andb_prop in H4. destruct H4 as [Ha Hb].
    change (target ++ "/" ++ String a (String b (String c (String d "")))
              ++ "_" ++ table_name ++ ".csv")%string
      with (target ++ String "/"
              (String a (String b (String c (String d (String "_" table_name))))
               ++ ".csv"))%string.
    rewrite path_stem_csv; [|exact Ha|].
    + apply (substr_from_app (String a (String b (String c (String d ""))))
               (String "_" table_name)).
      reflexivity.
    + cbn [has_char]. rewrite Hn.
      rewrite !(is_digit_no_char "/") by (assumption || reflexivity).
      reflexivity.
Qed.

Lemma csv_file_name_round_trip_witness :
  csv_file_name 7 "item.list" = "007_item.list.csv"%string /\
  csv_table_name "out/007_item.list.csv" = Ok "item.list"%string /\
  csv_table_name "out/1000_items.csv" = Ok "_items"%string.
Proof.
  split; [reflexivity|]. split.
  - apply (csv_file_name_round_trip "out" "item.list" 7); [reflexivity|lia].
  - apply (csv_file_name_round_trip "out" "items" 1000); [reflexivity|lia].
Defined.

(** * Names of archive members (MDB1new) *)

Lemma MDB1_trim_cons c r :
  MDB1.trim (String c r)
  = if Ascii.eqb c NUL || Ascii.eqb c " " then EmptyString
    else String c (MDB1.trim r).
Proof.
  unfold MDB1.trim. cbn [find_first_of]. fold NUL.
  destruct (Ascii.eqb c NUL); cbn [orb].
  - destruct (Ascii.eqb c " "); [reflexivity|].
    destruct (find_first_of " " r); reflexivity.
  - destruct (Ascii.eqb c " ").
    + destruct (find_first_of NUL r); reflexivity.
    + destruct (find_first_of NUL r), (find_first_of " " r); reflexivity.
Qed.

Lemma MDB1_trim_app a p :
  no_blank a = true -> is_padding p = true -> MDB1.trim (a ++ p) = a.
Proof.
  intros Ha Hp. induction a as [|c r IH].
  - destruct p as [|c r]; [reflexivity|]. cbn [append].
    rewrite MDB1_trim_cons. cbn [is_padding] in Hp. rewrite Hp. reflexivity.
  - unfold no_blank in Ha. cbn [has_char] in Ha.
    apply andb_prop in Ha. destruct Ha as [H0 H1].
    apply negb_true_iff in H0, H1. apply orb_false_iff in H0, H1.
    destruct H0 as [Hc0 Hr0]. destruct H1 as [Hc1 Hr1].
    cbn [append]. rewrite MDB1_trim_cons, Hc0, Hc1. cbn [orb].
    rewrite IH; [reflexivity|]. unfold no_blank. rewrite Hr0, Hr1. reflexivity.
Qed.

(** X14: [trim] returns the longest start of the view that has no NUL
    and no space: the view is the result and a rest that is empty or
    starts with one of the two. *)
Theorem MDB1_trim_spec :
  forall view : string,
    no_blank (MDB1.trim view) = true /\
    exists rest, view = (MDB1.trim view ++ rest)%string /\
                 is_padding rest = true.
Proof.
  induction view as [|c r (Hb & rest & Hv & Hp)].
  - split; [reflexivity|]. exists EmptyString. split; reflexivity.
  - rewrite MDB1_trim_cons.
    destruct (Ascii.eqb c NUL || Ascii.eqb c " ") eqn:E.
    + split; [reflexivity|]. exists (String c r). split; [reflexivity|].
      exact E.
    + apply orb_false_iff in E. destruct E as [E0 E1]. split.
      * unfold no_blank in *. cbn [has_char]. rewrite E0, E1. exact Hb.
      * exists rest. split; [|exact Hp]. cbn [append]. rewrite <- Hv.
        reflexivity.
Qed.

(** X15: [FileNameEntry::toString] gives [name.extension] for a name
    and an extension without NUL and space that are filled up to the
    width of their fields with NUL or space; [trim] leaves such text as it
    is. *)
Theorem MDB1_toString_padded :
  forall name extension fill1 fill2 : string,
    no_blank name = true -> no_blank extension = true ->
    is_padding fill1 = true -> is_padding fill2 = true ->
    MDB1.toString {| MDB1.fn_extension := extension ++ fill2;
                     MDB1.fn_name := name ++ fill1 |}
    = (name ++ "." ++ extension)%string /\
    MDB1.trim name = name.
Proof.
  intros name extension fill1 fill2 Hn He H1 H2. split.
  - unfold MDB1.toString. cbn [MDB1.fn_name MDB1.fn_extension].
    rewrite !MDB1_trim_app by assumption. reflexivity.
  - pose proof (MDB1_trim_app name EmptyString Hn eq_refl) as H.
    rewrite append_empty_r in H. exact H.
Qed.

Lemma MDB1_toString_padded_witness :
  MDB1.toString
    {| MDB1.fn_extension := String "m" (String "b" (String "e" (String NUL "")));
       MDB1.fn_name := "data\item" ++ String NUL (String NUL "") |}
  = "data\item.mbe"%string.
Proof.
  apply (MDB1_toString_padded "data\item" "mbe" (String NUL (String NUL ""))
           (String NUL "")); reflexivity.
Defined.

(** * The row codec of EXPA.cpp *)

(** ** A row without payloads, written and read again *)

Lemma read_bit w k :
  0 <= k < 32 ->
  (Z.land (Z.shiftr (le_combine (le_split 4 w)) k) 1 =? 1) = Z.testbit w k.
Proof.
  intros Hk. rewrite le_combine_split.
  change (Z.of_nat 4 * 8) with 32.
  rewrite <- (Z.mod_pow2_bits_low w 32 k) by lia.
  set (x := w mod 2 ^ 32).
  replace (Z.testbit x k) with (Z.testbit (Z.shiftr x k) 0)
    by (rewrite Z.shiftr_spec by lia; f_equal; lia).
  change 1 with (Z.ones 1) at 1. rewrite Z.land_ones by lia.
  change (2 ^ 1) with 2. rewrite <- Z.bit0_mod.
  destruct (Z.testbit (Z.shiftr x k) 0); reflexivity.
Qed.

Lemma bitset_set_bits cur pos b bits :
  bitset_set cur pos b = Ok bits ->
  0 <= pos < 32 /\ Z.testbit bits pos = b /\
  forall k, 0 <= k -> k <> pos -> Z.testbit bits k = Z.testbit cur k.
Proof.
  unfold bitset_set. intros H.
  destruct (Z.leb_spec 0 pos); [|discriminate H].
  destruct (Z.ltb_spec pos 32); [|discriminate H].
  cbn [andb] in H. injection H as <-. split; [lia|].
  destruct b.
  - split; [apply Z.setbit_eq; lia|]. intros k Hk Hne.
    apply Z.setbit_neq; lia.
  - split; [apply Z.clearbit_eq|]. intros k Hk Hne.
    apply Z.clearbit_neq. lia.
Qed.

Lemma EXPA_finalised_frame s row st st_end D :
  EXPA.write_loop s row st = Ok st_end -> finalised st_end D ->
  0 <= ws_offset st -> 0 <= ws_bitCounter st ->
  List.length D = List.length (ws_data st) /\
  forall a n, 0 <= a -> a + Z.of_nat n <= ws_offset st ->
              slice D a n = slice (ws_data st) a n.
Proof.
  intros H Hf Hoff Hbc. apply EXPA_write_loop_inv in H; auto.
  destruct H as (_ & Hle & _ & [Hl Hfr]). unfold finalised in Hf.
  destruct (0 <? ws_bitCounter st_end).
  - pose proof (store_length _ _ _ _ Hf) as Hl2. split; [congruence|].
    intros a n Ha Han.
    rewrite (slice_store_word_other _ _ _ _ _ a n Hf) by lia.
    apply Hfr; lia.
  - subst D. split; [exact Hl|]. intros a n Ha Han. apply Hfr; lia.
Qed.

Lemma EXPA_plain_cell base D p t v buf buf' c :
  is_BOOL t = false ->
  value_matches t v = true -> has_payload v = false ->
  EXPA.writeEXPAEntry p buf p t v = Ok (buf', c) ->
  0 <= p -> List.length D = List.length buf' ->
  (forall a n, p <= a -> a + Z.of_nat n <= p + getSize t ->
               slice D a n = slice buf' a n) ->
  c = None /\
  EXPA.readEXPAEntry {| mem_base := base; mem_bytes := D |} t (base + p) 0
  = Ok v.
Proof.
  intros Hnb Hm Hpl Hw Hp Hl Himg.
  destruct t, v; simpl in Hm; try discriminate; clear Hnb;
    unfold EXPA.writeEXPAEntry in Hw;
    cbn [get_int32 get_int16 get_int8 get_float get_string get_int_array bind]
      in Hw;
    cbn [getSize] in *; unfold EXPA.readEXPAEntry;
    try (injection Hw as <- <-; split; reflexivity).
  1-4: invb Hw as b Hs; injection Hw as <- <-;
       apply andb_prop in Hm; destruct Hm as [Hlo Hhi];
       apply Z.leb_le in Hlo; apply Z.ltb_lt in Hhi;
       pose proof (store_inv _ _ _ _ Hs) as (_ & Hfit & _);
       pose proof (store_length _ _ _ _ Hs) as Hlb;
       rewrite length_le_split_Z in Hfit;
       split; [reflexivity|]; unfold load_int, load_uint;
       rewrite load_at by (simpl in *; lia); cbn [bind].
  1: { rewrite (Himg p 4%nat) by (simpl; lia).
       rewrite (slice_store_word_same _ _ _ _ _ Hs).
       rewrite to_signed_split
         by (try lia; change (Z.of_nat 4 * 8 - 1) with 31; lia).
       reflexivity. }
  1: { rewrite (Himg p 2%nat) by (simpl; lia).
       rewrite (slice_store_word_same _ _ _ _ _ Hs).
       rewrite to_signed_split
         by (try lia; change (Z.of_nat 2 * 8 - 1) with 15; lia).
       reflexivity. }
  1: { rewrite (Himg p 1%nat) by (simpl; lia).
       rewrite (slice_store_word_same _ _ _ _ _ Hs).
       rewrite to_signed_split
         by (try lia; change (Z.of_nat 1 * 8 - 1) with 7; lia).
       reflexivity. }
  1: { rewrite (Himg p 4%nat) by (simpl; lia).
       rewrite (slice_store_word_same _ _ _ _ _ Hs).
       rewrite le_combine_split_small
         by (change (2 ^ (Z.of_nat 4 * 8)) with (2 ^ 32); lia).
       reflexivity. }
  1-3: invb Hw as b Hs; cbn [has_payload] in Hpl;
       apply negb_false_iff in Hpl; rewrite Hpl in Hw; cbn [negb] in Hw;
       injection Hw as <- <-;
       pose proof (store_inv _ _ _ _ Hs) as (_ & Hfit & _);
       pose proof (store_length _ _ _ _ Hs) as Hlb;
       rewrite length_le_split_Z in Hfit;
       split; [reflexivity|]; unfold load_uint;
       rewrite load_at by (simpl in *; lia); cbn [bind];
       rewrite (Himg p 8%nat) by (simpl; lia);
       rewrite (slice_store_word_same _ _ _ _ _ Hs);
       rewrite le_combine_split_small by (simpl; lia);
       apply string_empty_true in Hpl; subst s; reflexivity.
  destruct a as [|x a]; [|discriminate Hpl].
  invb Hw as b1 Hs1. invb Hw as b2 Hs2. injection Hw as <- <-.
  pose proof (store_inv _ _ _ _ Hs2) as (_ & Hfit & _).
  pose proof (store_length _ _ _ _ Hs1) as Hl1.
  pose proof (store_length _ _ _ _ Hs2) as Hl2.
  rewrite length_le_split_Z in Hfit.
  split; [reflexivity|]. unfold load_int, load_uint.
  rewrite load_at by (simpl in *; lia). cbn [bind].
  rewrite (Himg p 4%nat) by (simpl; lia).
  rewrite (slice_store_word_other _ _ _ _ _ p 4 Hs2) by lia.
  rewrite (slice_store_word_same _ _ _ _ _ Hs1).
  replace (base + p + 8) with (base + (p + 8)) by lia.
  rewrite load_at by (simpl in *; lia). cbn [bind].
  reflexivity.
Qed.

Lemma EXPA_write_step_cases st e v st1 :
  EXPA.write_step st e v = Ok st1 ->
  if negb (is_BOOL (type e)) || (32 <=? ws_bitCounter st)
  then
    exists buf0,
      (if 0 <? ws_bitCounter st
       then store (ws_data st) (ws_offset st) (le_split 4 (ws_currentBool st))
            = Ok buf0
       else buf0 = ws_data st) /\
      let p := ceilInteger (if 0 <? ws_bitCounter st then ws_offset st + 4
                            else ws_offset st) (getAlignment (type e)) in
      let cur0 := if 0 <? ws_bitCounter st then 0 else ws_currentBool st in
      let bc0 := if 0 <? ws_bitCounter st then 0 else ws_bitCounter st in
      if is_BOOL (type e)
      then exists b bits,
             v = VBool b /\ bitset_set cur0 bc0 b = Ok bits /\
             st1 = {| ws_data := buf0; ws_offset := p; ws_bitCounter := bc0 + 1;
                      ws_currentBool := bits;
                      ws_chunkEntries := ws_chunkEntries st |}
      else exists data' c,
             EXPA.writeEXPAEntry p buf0 p (type e) v = Ok (data', c) /\
             st1 = {| ws_data := data'; ws_offset := p + getSize (type e);
                      ws_bitCounter := bc0; ws_currentBool := cur0;
                      ws_chunkEntries :=
                        match c with
                        | Some x => ws_chunkEntries st ++ [x]
                        | None => ws_chunkEntries st
                        end |}
  else
    exists b bits,
      v = VBool b /\
      bitset_set (ws_currentBool st) (ws_bitCounter st) b = Ok bits /\
      st1 = {| ws_data := ws_data st; ws_offset := ws_offset st;
               ws_bitCounter := ws_bitCounter st + 1;
               ws_currentBool := bits;
               ws_chunkEntries := ws_chunkEntries st |}.
Proof.
  unfold EXPA.write_step. intros H.
  destruct (negb (is_BOOL (type e)) || (32 <=? ws_bitCounter st)) eqn:Hg.
  - destruct (0 <? ws_bitCounter st) eqn:Hb.
    + invb H as st0 H0. invb H0 as stf Hf. injection H0 as <-.
      unfold flush in Hf. invb Hf as buf0 Hs. injection Hf as <-.
      cbn [ws_data ws_offset ws_bitCounter ws_currentBool ws_chunkEntries] in H.
      exists buf0. split; [exact Hs|]. cbv zeta.
      destruct (is_BOOL (type e)) eqn:Ht.
      * apply is_BOOL_true in Ht. rewrite Ht in *.
        cbn [EXPA.writeEXPAEntry bind] in H.
        destruct v; cbn [get_bool bind] in H; try discriminate H.
        invb H as bits Hbits. injection H as <-. eauto.
      * invb H as [data' c] Hw. injection H as <-.
        exists data', c. split; [exact Hw|]. destruct c; reflexivity.
    + cbn [bind] in H.
      cbn [ws_data ws_offset ws_bitCounter ws_currentBool ws_chunkEntries] in H.
      exists (ws_data st). split; [reflexivity|]. cbv zeta.
      destruct (is_BOOL (type e)) eqn:Ht.
      * apply is_BOOL_true in Ht. rewrite Ht in *.
        cbn [EXPA.writeEXPAEntry bind] in H.
        destruct v; cbn [get_bool bind] in H; try discriminate H.
        apply Z.ltb_ge in Hb. cbn [negb orb] in Hg. apply Z.leb_le in Hg. lia.
      * invb H as [data' c] Hw. injection H as <-.
        exists data', c. split; [exact Hw|]. destruct c; reflexivity.
  - apply orb_false_iff in Hg. destruct Hg as [Ht _].
    apply negb_false_iff in Ht. rewrite Ht in H.
    apply is_BOOL_true in Ht. rewrite Ht in *.
    cbn [bind EXPA.writeEXPAEntry] in H.
    destruct v; cbn [get_bool bind] in H; try discriminate H.
    invb H as bits Hbits. injection H as <-. eauto.
Qed.

Lemma EXPA_cells_round_trip base D : forall s row st st_end vals,
  EXPA.write_loop s row st = Ok st_end -> finalised st_end D ->
  0 <= ws_offset st -> 0 <= ws_bitCounter st <= 32 ->
  row_matches s row = true ->
  forallb (fun v => negb (has_payload v)) row = true ->
  ws_chunkEntries st_end = ws_chunkEntries st /\
  ((0 <? ws_bitCounter st) = true ->
   exists w, slice D (ws_offset st) 4 = le_split 4 w /\
             ws_offset st + 4 <= len D /\
             forall k, 0 <= k < ws_bitCounter st ->
                       Z.testbit w k = Z.testbit (ws_currentBool st) k) /\
  exists off' bc',
    EXPA.read_loop {| mem_base := base; mem_bytes := D |} base s
      (vals, ws_offset st, ws_bitCounter st)
    = Ok (vals ++ row, off', bc').
Proof.
  induction s as [|e s IH]; intros row st st_end vals H Hfin Hoff Hbc Hm Hpl.
  - destruct row; [|discriminate Hm]. cbn [EXPA.write_loop] in H.
    injection H as <-. split; [reflexivity|]. split.
    + intros Hb. unfold finalised in Hfin. rewrite Hb in Hfin.
      exists (ws_currentBool st).
      pose proof (store_inv _ _ _ _ Hfin) as (_ & Hfit & _).
      pose proof (store_length _ _ _ _ Hfin) as Hl.
      rewrite length_le_split_Z in Hfit.
      split; [apply (slice_store_word_same _ _ _ _ _ Hfin)|].
      split; [change (Z.of_nat 4) with 4 in Hfit; lia|]. reflexivity.
    + cbn [EXPA.read_loop]. rewrite app_nil_r. eauto.
  - destruct row as [|v row]; [discriminate Hm|].
    cbn [row_matches] in Hm. apply andb_prop in Hm. destruct Hm as [Hmv Hm].
    cbn [forallb] in Hpl. apply andb_prop in Hpl. destruct Hpl as [Hpv Hpl].
    apply negb_true_iff in Hpv.
    cbn [EXPA.write_loop] in H. invb H as st1 H1.
    pose proof (EXPA_write_step_inv _ _ _ _ H1 Hoff ltac:(lia))
      as (Hcur & Hle & Hbc1 & Hfr1).
    pose proof (EXPA_finalised_frame _ _ _ _ _ H Hfin ltac:(lia) Hbc1)
      as (HlD & HfrD).
    pose proof (getAlignment_range (type e)) as Hal.
    pose proof (getSize_range (type e)) as Hsz.
    apply EXPA_write_step_cases in H1.
    destruct st as [data off bc cur chunks].
    cbn [ws_data ws_offset ws_bitCounter ws_currentBool ws_chunkEntries] in *.
    cbn [EXPA.read_loop]. unfold EXPA.read_step.
    destruct (negb (is_BOOL (type e)) || (32 <=? bc)) eqn:Hg.
    + destruct H1 as (buf0 & Hbuf0 & H1). cbv zeta in H1.
      destruct (is_BOOL (type e)) eqn:Ht.
      * (* a BOOL that starts the next word *)
        destruct H1 as (b & bits & -> & Hbits & ->).
        apply is_BOOL_true in Ht. rewrite Ht in *.
        cbn [negb orb] in Hg. apply Z.leb_le in Hg.
        assert (Hb : (0 <? bc) = true) by (apply Z.ltb_lt; lia).
        rewrite Hb in *.
        cbn [ws_data ws_offset ws_bitCounter ws_currentBool ws_chunkEntries] in *.
        pose proof (IH row _ st_end (vals ++ [VBool b]) H Hfin) as IH1.
        cbn [ws_data ws_offset ws_bitCounter ws_currentBool ws_chunkEntries] in IH1.
        destruct (IH1 ltac:(lia) ltac:(lia) Hm Hpl)
          as (Hch & Hw1 & off' & bc' & Hr).
        cbn [ws_data ws_offset ws_bitCounter ws_currentBool ws_chunkEntries] in *.
        destruct (Hw1 eq_refl) as (w1 & Hs1 & Hfit1 & Hbits1).
        pose proof (store_inv _ _ _ _ Hbuf0) as (_ & Hfit0 & _).
        pose proof (store_length _ _ _ _ Hbuf0) as Hl0.
        rewrite length_le_split_Z in Hfit0.
        change (Z.of_nat 4) with 4 in Hfit0.
        pose proof (ceilInteger_ge (off + 4) 4 ltac:(lia)) as Hp.
        cbn [getAlignment getSize] in *.
        split; [exact Hch|]. split.
        { intros _. exists cur. split.
          - rewrite (HfrD off 4%nat) by (simpl; lia).
            apply (slice_store_word_same _ _ _ _ _ Hbuf0).
          - split; [lia|]. reflexivity. }
        unfold EXPA.readEXPAEntry, load_uint.
        rewrite load_at by (simpl; lia). cbn [bind].
        rewrite Hs1, read_bit by lia.
        rewrite (Hbits1 0) by lia.
        apply bitset_set_bits in Hbits. destruct Hbits as (_ & -> & _).
        cbn [is_BOOL]. rewrite Hr. rewrite <- app_assoc. eauto.
      * (* a field that is no BOOL *)
        destruct H1 as (data' & c & Hw & ->).
        cbn [negb orb] in *.
        cbn [ws_data ws_offset ws_bitCounter ws_currentBool ws_chunkEntries] in *.
        set (p := ceilInteger (if 0 <? bc then off + 4 else off)
                    (getAlignment (type e))) in *.
        assert (Hp : (if 0 <? bc then off + 4 else off) <= p)
          by (apply ceilInteger_ge; lia).
        assert (Hbc0 : (if 0 <? bc then 0 else bc) = 0)
          by (destruct (Z.ltb_spec 0 bc); lia).
        rewrite Hbc0 in *.
        pose proof (IH row _ st_end (vals ++ [v]) H Hfin) as IH1.
        cbn [ws_data ws_offset ws_bitCounter ws_currentBool ws_chunkEntries] in IH1.
        destruct (IH1 ltac:(destruct (0 <? bc); lia) ltac:(lia) Hm Hpl)
          as (Hch & _ & off' & bc' & Hr).
        cbn [ws_data ws_offset ws_bitCounter ws_currentBool ws_chunkEntries] in *.
        pose proof (EXPA_writeEXPAEntry_frame _ _ _ _ _ _ _ Hw) as [Hlw Hfw].
        destruct (EXPA_plain_cell base D p (type e) v buf0 data' c Ht Hmv Hpv
                    Hw ltac:(destruct (0 <? bc); lia) HlD) as (-> & Hread).
        { intros a n Ha Han. apply HfrD; destruct (0 <? bc); lia. }
        split; [exact Hch|]. split.
        { intros Hb. rewrite Hb in *. exists cur.
          pose proof (store_inv _ _ _ _ Hbuf0) as (_ & Hfit0 & _).
          pose proof (store_length _ _ _ _ Hbuf0) as Hl0.
          rewrite length_le_split_Z in Hfit0.
          change (Z.of_nat 4) with 4 in Hfit0.
          split.
          - rewrite (HfrD off 4%nat) by (simpl; lia).
            rewrite (Hfw off 4%nat) by (simpl; lia).
            apply (slice_store_word_same _ _ _ _ _ Hbuf0).
          - split; [lia|]. reflexivity. }
        change (getSize BOOL) with 4. fold p.
        rewrite Hread. cbn [bind]. rewrite Hr. rewrite <- app_assoc. eauto.
    + (* a BOOL in the current word *)
      destruct H1 as (b & bits & -> & Hbits & ->).
      apply orb_false_iff in Hg. destruct Hg as [Ht Hg].
      apply negb_false_iff in Ht. rewrite Ht.
      apply is_BOOL_true in Ht. rewrite Ht in *.
      apply Z.leb_gt in Hg.
      cbn [ws_data ws_offset ws_bitCounter ws_currentBool ws_chunkEntries] in *.
      pose proof (IH row _ st_end (vals ++ [VBool b]) H Hfin) as IH1.
      cbn [ws_data ws_offset ws_bitCounter ws_currentBool ws_chunkEntries] in IH1.
      destruct (IH1 ltac:(lia) ltac:(lia) Hm Hpl)
        as (Hch & Hw1 & off' & bc' & Hr).
      cbn [ws_data ws_offset ws_bitCounter ws_currentBool ws_chunkEntries] in *.
      destruct (Hw1 ltac:(apply Z.ltb_lt; lia)) as (w1 & Hs1 & Hfit1 & Hbits1).
      apply bitset_set_bits in Hbits. destruct Hbits as (_ & Hset & Hkeep).
      split; [exact Hch|]. split.
      { intros _. exists w1. split; [exact Hs1|]. split; [exact Hfit1|].
        intros k Hk. rewrite Hbits1 by lia. apply Hkeep; lia. }
      unfold EXPA.readEXPAEntry, load_uint.
      rewrite load_at by (simpl; lia). cbn [bind].
      rewrite Hs1, read_bit by lia.
      rewrite (Hbits1 bc) by lia. rewrite Hset.
      rewrite Hr. rewrite <- app_assoc. eauto.
Qed.

(** X1: [Structure::writeEXPA] and [Structure::readEXPA] of EXPA.cpp are
    inverse on rows without payload: a row that fits the structure and
    whose cells are numbers, booleans, empty strings and empty arrays is
    written without any CHNK entry, and reading the bytes written gives
    the row back, wherever the runs of BOOL fields start and however
    long they are. *)
Theorem EXPA_row_round_trip s row base :
  len (structure s) < 2 ^ 26 ->
  row_matches (structure s) row = true ->
  forallb (fun v => negb (has_payload v)) row = true ->
  exists e,
    EXPA.writeEXPA s row = Ok e /\ EXPA.chunk e = [] /\
    EXPA.readEXPA s {| mem_base := base; mem_bytes := EXPA.data e |} base
    = Ok row.
Proof.
  intros Hlen Hm Hpl.
  destruct (EXPA_writeEXPA_run_ok s row Hlen
              (proj1 (row_matches_zip _ _ Hm))) as [st Hrun].
  unfold EXPA.writeEXPA. rewrite Hrun. cbn [bind].
  eexists. split; [reflexivity|]. cbn [EXPA.chunk EXPA.data].
  unfold EXPA.writeEXPA_run in Hrun. invb Hrun as st1 H1.
  assert (Hfin : finalised st1 (ws_data st) /\
                 ws_chunkEntries st = ws_chunkEntries st1).
  { unfold finalised. destruct (0 <? ws_bitCounter st1).
    - apply flush_inv in Hrun. destruct Hrun as (Hs & _ & _ & _ & Hc). auto.
    - injection Hrun as <-. auto. }
  destruct Hfin as [Hfin Hc].
  destruct (EXPA_cells_round_trip base (ws_data st) (structure s) row _ st1 []
              H1 Hfin ltac:(cbn; lia) ltac:(cbn; lia) Hm Hpl)
    as (Hch & _ & off' & bc' & Hr).
  cbn [ws_offset ws_bitCounter ws_chunkEntries] in *.
  split; [congruence|]. unfold EXPA.readEXPA.
  destruct (structure s) as [|e0 s0] eqn:Hs.
  - destruct row; [reflexivity|discriminate Hm].
  - rewrite Hr. reflexivity.
Qed.

Lemma EXPA_row_round_trip_witness :
  exists e,
    EXPA.writeEXPA
      {| structure := {| name := "id"; type := INT8 |}
                      :: repeat {| name := "flag"; type := BOOL |} 33
                      ++ [{| name := "hp"; type := INT16 |};
                          {| name := "text"; type := STRING |}] |}
      (VInt8 (-3) :: repeat (VBool true) 32
       ++ [VBool false; VInt16 300; VString ""]) = Ok e /\
    EXPA.chunk e = [] /\
    EXPA.readEXPA
      {| structure := {| name := "id"; type := INT8 |}
                      :: repeat {| name := "flag"; type := BOOL |} 33
                      ++ [{| name := "hp"; type := INT16 |};
                          {| name := "text"; type := STRING |}] |}
      {| mem_base := 4096; mem_bytes := EXPA.data e |} 4096
    = Ok (VInt8 (-3) :: repeat (VBool true) 32
          ++ [VBool false; VInt16 300; VString ""]).
Proof.
  apply (EXPA_row_round_trip
           {| structure := {| name := "id"; type := INT8 |}
                           :: repeat {| name := "flag"; type := BOOL |} 33
                           ++ [{| name := "hp"; type := INT16 |};
                               {| name := "text"; type := STRING |}] |}
           (VInt8 (-3) :: repeat (VBool true) 32
            ++ [VBool false; VInt16 300; VString ""]) 4096).
  - vm_compute. reflexivity.
  - vm_compute. reflexivity.
  - vm_compute. reflexivity.
Defined.

(** ** A value of the wrong alternative *)

Lemma EXPA_writeEXPAEntry_throw base buf off t v :
  holds_alternative t v = false -> is_BOOL t = false ->
  0 <= off -> off + getSize t <= len buf ->
  EXPA.writeEXPAEntry base buf off t v = Throw bad_variant_access.
Proof.
  intros Hm Hb Hoff Hlen.
  destruct t, v; simpl in Hm; try discriminate; simpl in Hlen;
    unfold EXPA.writeEXPAEntry; cbn [get_int32 get_int16 get_int8 get_float
      get_string get_int_array bind]; try reflexivity;
    do_store; reflexivity.
Qed.

Lemma EXPA_write_step_throw st e v :
  holds_alternative (type e) v = false ->
  0 <= ws_offset st -> 0 <= ws_bitCounter st <= 32 ->
  flushed (EXPA_cursor_step (ws_offset st, ws_bitCounter st) e)
    <= len (ws_data st) ->
  EXPA.write_step st e v = Throw bad_variant_access.
Proof.
  intros Hm Hoff Hbc Hfit. unfold EXPA.write_step.
  unfold EXPA_cursor_step, flushed in Hfit. cbn [fst snd] in Hfit.
  pose proof (getAlignment_range (type e)) as Hal.
  pose proof (getSize_range (type e)) as Hsz.
  pose proof (ceilInteger_ge (ws_offset st) (getAlignment (type e)) ltac:(lia)).
  pose proof (ceilInteger_ge (ws_offset st + 4) (getAlignment (type e)) ltac:(lia)).
  destruct (is_BOOL (type e)) eqn:Hb.
  - apply is_BOOL_true in Hb. rewrite Hb in *.
    destruct v; simpl in Hm; try discriminate;
      cbn [negb orb getSize getAlignment is_BOOL] in *;
      (destruct (Z.leb_spec 32 (ws_bitCounter st));
       [destruct (Z.ltb_spec 0 (ws_bitCounter st)); [|lia];
        revert Hfit; zbool; intros; try lia;
        unfold flush; do_store; reflexivity
       |reflexivity]).
  - cbn [negb orb].
    destruct (Z.ltb_spec 0 (ws_bitCounter st)).
    + revert Hfit. zbool; intros; try lia.
      unfold flush. do_store.
      cbn [ws_data ws_offset ws_bitCounter ws_currentBool ws_chunkEntries].
      rewrite EXPA_writeEXPAEntry_throw by (auto; lia). reflexivity.
    + cbn [bind ws_data ws_offset ws_bitCounter ws_currentBool ws_chunkEntries].
      revert Hfit. zbool; intros; try lia.
      all: rewrite EXPA_writeEXPAEntry_throw by (auto; lia); reflexivity.
Qed.

Lemma EXPA_write_loop_throw spre : forall pre st e spost v post,
  row_matches spre pre = true ->
  holds_alternative (type e) v = false ->
  0 <= ws_offset st -> 0 <= ws_bitCounter st <= 32 ->
  flushed (fold_left EXPA_cursor_step (spre ++ [e])
             (ws_offset st, ws_bitCounter st)) <= len (ws_data st) ->
  EXPA.write_loop (spre ++ e :: spost) (pre ++ v :: post) st
  = Throw bad_variant_access.
Proof.
  induction spre as [|e0 spre IH]; intros pre st e spost v post Hm Hv Hoff Hbc
    Hfit.
  - destruct pre; [|discriminate Hm]. cbn [app EXPA.write_loop].
    rewrite EXPA_write_step_throw; auto.
  - destruct pre as [|v0 pre]; [discriminate Hm|].
    cbn [row_matches] in Hm. apply andb_prop in Hm. destruct Hm as [Hv0 Hm].
    cbn [app fold_left] in Hfit.
    pose proof (EXPA_cursor_le_size_step (ws_offset st) (ws_bitCounter st)
                  (flushed (ws_offset st, ws_bitCounter st)) e0 Hoff Hbc
                  ltac:(lia)) as Hs.
    cbv zeta in Hs. destruct Hs as (Hs1 & Hs2 & _).
    destruct (EXPA_write_step_ok st e0 v0 Hv0 Hoff Hbc) as [st1 H1].
    { destruct (EXPA_cursor_step (ws_offset st, ws_bitCounter st) e0)
        as [off' bc'] eqn:Hc. cbn [fst snd] in Hs1, Hs2.
      pose proof (EXPA_cursor_fold_grows (spre ++ [e]) off' bc' Hs1 Hs2). lia. }
    cbn [app EXPA.write_loop]. rewrite H1. cbn [bind].
    pose proof (EXPA_write_step_inv _ _ _ _ H1 Hoff ltac:(lia))
      as (Hc & Hle & Hbc1 & [Hlen _]).
    pose proof (f_equal snd Hc) as Hc2. cbn [snd] in Hc2.
    apply IH; auto.
    + lia.
    + rewrite Hc2. exact Hs2.
    + rewrite Hc. rewrite Hlen. exact Hfit.
Qed.

(** X2: [Structure::writeEXPA] of EXPA.cpp takes each value out of its
    variant with [std::get]: when the cells before it fit their fields
    and a cell holds another alternative than the type of its field asks
    for, the call throws [std::bad_variant_access] and returns nothing,
    whatever follows in the row. *)
Theorem EXPA_writeEXPA_bad_variant s spre e spost pre v post :
  len (structure s) < 2 ^ 26 ->
  structure s = spre ++ e :: spost ->
  row_matches spre pre = true ->
  holds_alternative (type e) v = false ->
  EXPA.writeEXPA s (pre ++ v :: post) = Throw bad_variant_access.
Proof.
  intros Hlen Hs Hm Hv. unfold EXPA.writeEXPA, EXPA.writeEXPA_run.
  rewrite Hs.
  rewrite EXPA_write_loop_throw; auto;
    cbn [ws_offset ws_bitCounter ws_data]; try lia.
  rewrite repeat_length.
  pose proof (EXPA_cursor_le_size (spre ++ [e])
                0 0 0 ltac:(lia) ltac:(lia) ltac:(cbn; lia)) as H1.
  fold (EXPA.layout_size (spre ++ [e])) in H1.
  pose proof (EXPA_layout_size_prefix (structure s) (S (List.length spre)))
    as H2.
  replace (firstn (S (List.length spre)) (structure s)) with (spre ++ [e])
    in H2.
  2: { rewrite Hs. change (e :: spost) with ([e] ++ spost).
       rewrite app_assoc. rewrite firstn_app.
       replace (S (List.length spre) - List.length (spre ++ [e]))%nat
         with 0%nat by (rewrite length_app; cbn [List.length]; lia).
       rewrite firstn_all2 by (rewrite length_app; cbn [List.length]; lia).
       cbn [firstn]. rewrite app_nil_r. reflexivity. }
  rewrite (EXPA_getEXPASize_small s Hlen).
  pose proof (ceilInteger_ge (EXPA.layout_size (structure s)) 8 ltac:(lia)).
  lia.
Qed.

Lemma EXPA_writeEXPA_bad_variant_witness :
  EXPA.writeEXPA
    {| structure := [{| name := "id"; type := INT32 |};
                     {| name := "hp"; type := INT16 |};
                     {| name := "flag"; type := BOOL |}] |}
    ([VInt32 7] ++ VInt32 300 :: [VBool true])
  = Throw bad_variant_access.
Proof.
  apply (EXPA_writeEXPA_bad_variant
           {| structure := [{| name := "id"; type := INT32 |};
                            {| name := "hp"; type := INT16 |};
                            {| name := "flag"; type := BOOL |}] |}
           [{| name := "id"; type := INT32 |}]
           {| name := "hp"; type := INT16 |}
           [{| name := "flag"; type := BOOL |}]
           [VInt32 7] (VInt32 300) [VBool true]).
  - vm_compute. reflexivity.
  - reflexivity.
  - reflexivity.
  - reflexivity.
Defined.

(** * The structure of a table in the 64-bit container *)

Lemma read_uint32_inv file pos v pos' :
  read_uint32 file pos = Ok (v, pos') -> pos' = pos + 4 /\ 0 <= v.
Proof.
  unfold read_uint32, stream_read. intros H.
  invb H as [bs p] H1. invb H1 as bs1 H2. injection H1 as <- <-.
  injection H as <- <-. split; [reflexivity|].
  apply le_combine_bound.
Qed.

Lemma read_preamble_inv file : forall count pos j l pos',
  EXPANew.read_preamble file pos count j = Ok (l, pos') ->
  List.length l = count /\ pos' = pos + 4 * Z.of_nat count.
Proof.
  induction count as [|k IH]; intros pos j l pos' H;
    cbn [EXPANew.read_preamble] in H.
  - injection H as <- <-. split; [reflexivity|]. cbn. lia.
  - invb H as [code pos1] H1. invb H as [rest pos2] H2.
    injection H as <- <-.
    apply read_uint32_inv in H1. destruct H1 as [-> _].
    apply IH in H2. destruct H2 as [Hl ->].
    split; [cbn [List.length]; congruence|]. lia.
Qed.

Lemma any_mismatch_false a : forall b,
  List.length a = List.length b ->
  EXPANew.any_mismatch a b = false ->
  map (fun e => EntryType_code (type e)) b
  = map (fun e => EntryType_code (type e)) a.
Proof.
  induction a as [|x a IH]; intros [|y b] Hl Hm; try discriminate Hl.
  - reflexivity.
  - cbn [EXPANew.any_mismatch] in Hm. apply orb_false_iff in Hm.
    destruct Hm as [Hxy Hm]. apply negb_false_iff in Hxy.
    unfold EntryType_eqb in Hxy. apply Z.eqb_eq in Hxy.
    cbn [map]. rewrite Hxy. f_equal. apply IH; auto.
Qed.

(** X4: [EXPA64::getStructure] takes the number of fields and their
    types from the structure section of the file, whatever the schema
    says: it reads the count and as many type codes, four bytes each, and
    the structure it returns has that many fields with those type codes
    in that order. A schema can only give the fields other names. *)
Theorem EXPA64_getStructure_types fromFile file pos tableName s pos' :
  EXPANew.EXPA64_getStructure fromFile file pos tableName = Ok (s, pos') ->
  exists count inBand,
    read_uint32 file pos = Ok (count, pos + 4) /\
    EXPANew.read_preamble file (pos + 4) (Z.to_nat count) 0
    = Ok (inBand, pos') /\
    pos' = pos + 4 + 4 * count /\
    len (structure s) = count /\
    map (fun e => EntryType_code (type e)) (structure s)
    = map (fun e => EntryType_code (type e)) inBand.
Proof.
  unfold EXPANew.EXPA64_getStructure. intros H.
  invb H as [count pos1] H1. invb H as [inBand pos2] H2.
  invb H as entries H3.
  pose proof (read_uint32_inv _ _ _ _ H1) as [-> Hc].
  pose proof (read_preamble_inv _ _ _ _ _ _ H2) as [Hl Hp].
  rewrite Z2Nat.id in Hp by lia.
  assert (Hin : len inBand = count) by (rewrite Hl; lia).
  exists count, inBand. split; [exact H1|].
  assert (Hres : pos2 = pos' /\ len (structure s) = count /\
                 map (fun e => EntryType_code (type e)) (structure s)
                 = map (fun e => EntryType_code (type e)) inBand).
  { destruct entries as [|x entries].
    - injection H as <- <-. auto.
    - destruct (len (x :: entries) =? count) eqn:Hn; cbn [negb] in H.
      + apply Z.eqb_eq in Hn.
        destruct (EXPANew.any_mismatch inBand (x :: entries)) eqn:Hm.
        * injection H as <- <-. auto.
        * injection H as <- <-. cbn [structure]. split; [reflexivity|].
          split; [exact Hn|]. apply any_mismatch_false; [lia|exact Hm].
      + injection H as <- <-. auto. }
  destruct Hres as (<- & Hn & Hmap).
  split; [exact H2|]. split; [lia|]. split; [exact Hn|exact Hmap].
Qed.

Lemma EXPA64_getStructure_types_witness :
  exists count inBand,
    read_uint32 (le_split 4 2 ++ le_split 4 2 ++ le_split 4 9) 0
    = Ok (count, 0 + 4) /\
    EXPANew.read_preamble (le_split 4 2 ++ le_split 4 2 ++ le_split 4 9)
      (0 + 4) (Z.to_nat count) 0 = Ok (inBand, 12) /\
    12 = 0 + 4 + 4 * count /\
    len (structure {| structure := [{| name := "id"; type := INT32 |};
                                    {| name := "seen"; type := BOOL |}] |})
    = count /\
    map (fun e => EntryType_code (type e))
      (structure {| structure := [{| name := "id"; type := INT32 |};
                                  {| name := "seen"; type := BOOL |}] |})
    = map (fun e => EntryType_code (type e)) inBand.
Proof.
  apply (EXPA64_getStructure_types
           (fun _ => Ok [{| name := "id"; type := INT32 |};
                         {| name := "seen"; type := BOOL |}])
           (le_split 4 2 ++ le_split 4 2 ++ le_split 4 9) 0 "items").
  vm_compute. reflexivity.
Defined.

(** * The index of an archive (MDB1new) *)

Lemma find_entry_put_same (entries : MDB1.Entries) key a :
  find_entry (Map.Interface.map.put entries key a) key = Some a.
Proof.
  unfold find_entry.
  apply (@Map.Interface.map.get_put_same _ _ _
           (Map.SortedListString.ok MDB1.ArchiveEntry)).
Qed.

Lemma find_entry_put_diff (entries : MDB1.Entries) key key' a :
  key <> key' ->
  find_entry (Map.Interface.map.put entries key' a) key
  = find_entry entries key.
Proof.
  unfold find_entry.
  apply (@Map.Interface.map.get_put_diff _ _ _
           (Map.SortedListString.ok MDB1.ArchiveEntry)).
Qed.

Lemma find_entry_none key : find_entry no_entries key = None.
Proof.
  unfold find_entry, no_entries.
  apply (@Map.Interface.map.get_empty _ _ _
           (Map.SortedListString.ok MDB1.ArchiveEntry)).
Qed.

Lemma MDB1_at_inv data id d :
  MDB1.at_ data id = Ok d ->
  0 <= id < len data /\ nth_error data (Z.to_nat id) = Some d.
Proof.
  unfold MDB1.at_. intros H.
  destruct (Z.leb_spec 0 id); [|discriminate H].
  destruct (Z.ltb_spec id (len data)); [|discriminate H].
  cbn [andb] in H.
  destruct (nth_error data (Z.to_nat id)) as [d'|]; [|discriminate H].
  injection H as ->. split; [lia|reflexivity].
Qed.

Lemma MDB1_at_ok data id :
  0 <= id < len data -> exists d, MDB1.at_ data id = Ok d.
Proof.
  intros H. unfold MDB1.at_.
  destruct (Z.leb_spec 0 id); [|lia].
  destruct (Z.ltb_spec id (len data)); [|lia]. cbn [andb].
  destruct (nth_error data (Z.to_nat id)) as [d|] eqn:E; [eauto|].
  apply nth_error_None in E. lia.
Qed.

Lemma MDB1_at_throw data id :
  (0 <=? id) && (id <? len data) = false ->
  MDB1.at_ data id = Throw out_of_range.
Proof. intros H. unfold MDB1.at_. rewrite H. reflexivity. Qed.

Lemma index_entries_keeps MDB data key : forall tree names entries entries',
  MDB1.index_entries MDB tree names data entries = Ok entries' ->
  forallb (another_file MDB key) (combine tree names) = true ->
  find_entry entries' key = find_entry entries key.
Proof.
  induction tree as [|t tree IH]; intros names entries entries' H Ha;
    cbn [MDB1.index_entries] in H.
  - injection H as <-. reflexivity.
  - destruct (MDB1.te_dataId t =? MDB1.dataId_max MDB) eqn:Hs.
    + destruct names as [|n names]; cbn [tl] in H.
      * apply (IH [] _ _ H). destruct tree; reflexivity.
      * cbn [combine forallb] in Ha. apply andb_prop in Ha.
        apply (IH names _ _ H). apply Ha.
    + invb H as d Hd. destruct names as [|n names]; [discriminate H|].
      cbn [combine forallb] in Ha. apply andb_prop in Ha.
      destruct Ha as [Hn Ha]. unfold another_file, is_sentinel in Hn.
      cbn [fst snd] in Hn. rewrite Hs in Hn. cbn [orb] in Hn.
      apply negb_true_iff in Hn. apply String.eqb_neq in Hn.
      rewrite (IH names _ _ H Ha).
      apply find_entry_put_diff. congruence.
Qed.

Lemma index_entries_app MDB data : forall tpre npre rest nrest entries,
  List.length tpre = List.length npre ->
  MDB1.index_entries MDB (tpre ++ rest) (npre ++ nrest) data entries
  = (e1 <- MDB1.index_entries MDB tpre npre data entries ;;
     MDB1.index_entries MDB rest nrest data e1).
Proof.
  induction tpre as [|t tpre IH]; intros [|n npre] rest nrest entries Hl;
    try discriminate Hl.
  - reflexivity.
  - injection Hl as Hl. cbn [app MDB1.index_entries tl].
    destruct (MDB1.te_dataId t =? MDB1.dataId_max MDB).
    + apply IH. exact Hl.
    + destruct (MDB1.at_ data (MDB1.te_dataId t)); cbn [bind];
        try reflexivity.
      apply IH. exact Hl.
Qed.

(** X16: the constructor of [ArchiveInfo] fills the index or throws:
    with a name entry for every tree entry, it throws [std::out_of_range]
    when some tree entry that is no sentinel has a [dataId] that is not
    the index of a data entry, and returns an index otherwise. *)
Theorem ArchiveInfo_index_or_throw MDB tree names data entries :
  (List.length tree <= List.length names)%nat ->
  if forallb (in_data MDB data) tree
  then exists entries',
         MDB1.index_entries MDB tree names data entries = Ok entries'
  else MDB1.index_entries MDB tree names data entries = Throw out_of_range.
Proof.
  revert names entries.
  induction tree as [|t tree IH]; intros names entries Hl.
  - cbn. eauto.
  - destruct names as [|n names]; [cbn in Hl; lia|].
    cbn [List.length] in Hl.
    cbn [forallb MDB1.index_entries tl]. unfold in_data at 1, is_sentinel.
    destruct (MDB1.te_dataId t =? MDB1.dataId_max MDB); cbn [orb andb].
    + apply IH. lia.
    + destruct ((0 <=? MDB1.te_dataId t)
                && (MDB1.te_dataId t <? len data)) eqn:Hr; cbn [andb].
      * apply andb_prop in Hr. destruct Hr as [H0 H1].
        apply Z.leb_le in H0. apply Z.ltb_lt in H1.
        destruct (MDB1_at_ok data (MDB1.te_dataId t) ltac:(lia)) as [d ->].
        cbn [bind]. apply IH. lia.
      * rewrite MDB1_at_throw by exact Hr. reflexivity.
Qed.

Lemma ArchiveInfo_index_or_throw_witness :
  MDB1.index_entries MDB1.DSCS
    [{| MDB1.te_compareBit := 0; MDB1.te_dataId := 65535;
        MDB1.te_left := 0; MDB1.te_right := 1 |};
     {| MDB1.te_compareBit := 3; MDB1.te_dataId := 2;
        MDB1.te_left := 0; MDB1.te_right := 1 |}]
    [{| MDB1.fn_extension := "    "; MDB1.fn_name := "" |};
     {| MDB1.fn_extension := "mbe "; MDB1.fn_name := "data" |}]
    [{| MDB1.de_offset := 0; MDB1.de_fullSize := 16;
        MDB1.de_compressedSize := 16 |}]
    no_entries
  = Throw out_of_range.
Proof.
  apply (ArchiveInfo_index_or_throw MDB1.DSCS
           [{| MDB1.te_compareBit := 0; MDB1.te_dataId := 65535;
               MDB1.te_left := 0; MDB1.te_right := 1 |};
            {| MDB1.te_compareBit := 3; MDB1.te_dataId := 2;
               MDB1.te_left := 0; MDB1.te_right := 1 |}]
           [{| MDB1.fn_extension := "    "; MDB1.fn_name := "" |};
            {| MDB1.fn_extension := "mbe "; MDB1.fn_name := "data" |}]
           [{| MDB1.de_offset := 0; MDB1.de_fullSize := 16;
               MDB1.de_compressedSize := 16 |}]
           no_entries).
  cbn [List.length]. lia.
Defined.

(** X17: in the index that the constructor of [ArchiveInfo] builds, a
    name stands for the data entry of the last tree entry with that name
    that is no sentinel: the tree entries after it that are sentinels or
    have other names leave it as it is. *)
Theorem ArchiveInfo_last_entry_wins MDB tpre t tpost npre n npost data
    entries entries' :
  List.length tpre = List.length npre ->
  MDB1.index_entries MDB (tpre ++ t :: tpost) (npre ++ n :: npost) data
    entries = Ok entries' ->
  is_sentinel MDB t = false ->
  forallb (another_file MDB (MDB1.toString n)) (combine tpost npost) = true ->
  exists d,
    nth_error data (Z.to_nat (MDB1.te_dataId t)) = Some d /\
    find_entry entries' (MDB1.toString n) = Some (ArchiveEntry_of d).
Proof.
  intros Hl H Hs Ha. rewrite index_entries_app in H by exact Hl.
  invb H as e1 H1. cbn [MDB1.index_entries] in H.
  unfold is_sentinel in Hs. rewrite Hs in H.
  invb H as d Hd. apply MDB1_at_inv in Hd. destruct Hd as [_ Hd].
  exists d. split; [exact Hd|].
  rewrite (index_entries_keeps _ _ _ _ _ _ _ H Ha).
  apply find_entry_put_same.
Qed.

Lemma ArchiveInfo_last_entry_wins_witness :
  exists d,
    nth_error [{| MDB1.de_offset := 0; MDB1.de_fullSize := 16;
                  MDB1.de_compressedSize := 16 |};
               {| MDB1.de_offset := 16; MDB1.de_fullSize := 40;
                  MDB1.de_compressedSize := 24 |}]
      (Z.to_nat 1) = Some d /\
    find_entry
      (Map.Interface.map.put
         (Map.Interface.map.put no_entries "data.mbe"%string
            {| MDB1.ae_offset := 0; MDB1.ae_fullSize := 16;
               MDB1.ae_compressedSize := 16 |})
         "data.mbe"%string
         {| MDB1.ae_offset := 16; MDB1.ae_fullSize := 40;
            MDB1.ae_compressedSize := 24 |})
      (MDB1.toString {| MDB1.fn_extension := "mbe "; MDB1.fn_name := "data" |})
    = Some (ArchiveEntry_of d).
Proof.
  apply (ArchiveInfo_last_entry_wins MDB1.DSCS
           [{| MDB1.te_compareBit := 3; MDB1.te_dataId := 0;
               MDB1.te_left := 0; MDB1.te_right := 1 |}]
           {| MDB1.te_compareBit := 3; MDB1.te_dataId := 1;
              MDB1.te_left := 0; MDB1.te_right := 1 |}
           [{| MDB1.te_compareBit := 0; MDB1.te_dataId := 65535;
               MDB1.te_left := 0; MDB1.te_right := 1 |}]
           [{| MDB1.fn_extension := "mbe "; MDB1.fn_name := "data" |}]
           {| MDB1.fn_extension := "mbe "; MDB1.fn_name := "data" |}
           [{| MDB1.fn_extension := "mbe "; MDB1.fn_name := "data" |}]
           [{| MDB1.de_offset := 0; MDB1.de_fullSize := 16;
               MDB1.de_compressedSize := 16 |};
            {| MDB1.de_offset := 16; MDB1.de_fullSize := 40;
               MDB1.de_compressedSize := 24 |}]
           no_entries).
  - reflexivity.
  - vm_compute. reflexivity.
  - reflexivity.
  - reflexivity.
Defined.

(** X18: the constructor of [ArchiveInfo] skips every tree entry whose
    [dataId] is the greatest value of its type: a name that only such
    sentinels carry, the other tree entries having other names, is not
    in the index. *)
Theorem ArchiveInfo_sentinel_skipped MDB tree names data entries' key :
  MDB1.index_entries MDB tree names data no_entries = Ok entries' ->
  forallb (another_file MDB key) (combine tree names) = true ->
  find_entry entries' key = None.
Proof.
  intros H Ha. rewrite (index_entries_keeps _ _ _ _ _ _ _ H Ha).
  apply find_entry_none.
Qed.

Lemma ArchiveInfo_sentinel_skipped_witness :
  find_entry
    (Map.Interface.map.put no_entries "data.mbe"%string
       {| MDB1.ae_offset := 0; MDB1.ae_fullSize := 16;
          MDB1.ae_compressedSize := 16 |})
    "root."%string = None.
Proof.
  apply (ArchiveInfo_sentinel_skipped MDB1.DSCS
           [{| MDB1.te_compareBit := 0; MDB1.te_dataId := 65535;
               MDB1.te_left := 0; MDB1.te_right := 1 |};
            {| MDB1.te_compareBit := 3; MDB1.te_dataId := 0;
               MDB1.te_left := 0; MDB1.te_right := 1 |}]
           [{| MDB1.fn_extension := "    "; MDB1.fn_name := "root" |};
            {| MDB1.fn_extension := "mbe "; MDB1.fn_name := "data" |}]
           [{| MDB1.de_offset := 0; MDB1.de_fullSize := 16;
               MDB1.de_compressedSize := 16 |}]).
  - vm_compute. reflexivity.
  - vm_compute. reflexivity.
Defined.

(** * Reading a row of cells without pointers *)

Lemma to_signed_range w z :
  0 < w -> - 2 ^ (w - 1) <= to_signed w z < 2 ^ (w - 1).
Proof.
  intros Hw. unfold to_signed.
  assert (H2 : 2 ^ w = 2 * 2 ^ (w - 1))
    by (rewrite <- Z.pow_succ_r by lia; f_equal; lia).
  pose proof (Z.pow_pos_nonneg 2 (w - 1) ltac:(lia) ltac:(lia)).
  pose proof (Z.mod_pos_bound (z + 2 ^ (w - 1)) (2 ^ w) ltac:(lia)).
  lia.
Qed.

Lemma EXPA_readEXPAEntry_scalar base D t p bc :
  pointer_free t = true -> 0 <= p -> p + getSize t <= len D ->
  exists v,
    EXPA.readEXPAEntry {| mem_base := base; mem_bytes := D |} t (base + p) bc
    = Ok v /\ value_matches t v = true.
Proof.
  intros Hpf Hp Hfit.
  destruct t; try discriminate Hpf; cbn [getSize] in Hfit;
    unfold EXPA.readEXPAEntry, load_int, load_uint;
    try (eexists; split; reflexivity);
    rewrite load_at by (cbn; lia); cbn [bind]; eexists;
    (split; [reflexivity|]); cbn [value_matches]; try reflexivity.
  - pose proof (to_signed_range (Z.of_nat 4 * 8)
                  (le_combine (slice D p 4)) ltac:(lia)) as H.
    change (Z.of_nat 4 * 8 - 1) with 31 in H.
    apply andb_true_intro. split; [apply Z.leb_le|apply Z.ltb_lt]; lia.
  - pose proof (to_signed_range (Z.of_nat 2 * 8)
                  (le_combine (slice D p 2)) ltac:(lia)) as H.
    change (Z.of_nat 2 * 8 - 1) with 15 in H.
    apply andb_true_intro. split; [apply Z.leb_le|apply Z.ltb_lt]; lia.
  - pose proof (to_signed_range (Z.of_nat 1 * 8)
                  (le_combine (slice D p 1)) ltac:(lia)) as H.
    change (Z.of_nat 1 * 8 - 1) with 7 in H.
    apply andb_true_intro. split; [apply Z.leb_le|apply Z.ltb_lt]; lia.
  - pose proof (le_combine_bound (slice D p 4)) as H.
    rewrite length_slice in H by (cbn; lia).
    change (2 ^ (8 * Z.of_nat 4)) with (2 ^ 32) in H.
    apply andb_true_intro. split; [apply Z.leb_le|apply Z.ltb_lt]; lia.
Qed.

Lemma EXPA_read_loop_scalar base D s : forall vals off bc,
  forallb (fun e => pointer_free (type e)) s = true ->
  0 <= off -> 0 <= bc <= 32 ->
  flushed (fold_left EXPA_cursor_step s (off, bc)) <= len D ->
  exists row off' bc',
    EXPA.read_loop {| mem_base := base; mem_bytes := D |} base s
      (vals, off, bc) = Ok (vals ++ row, off', bc') /\
    row_matches s row = true.
Proof.
  induction s as [|e s IH]; intros vals off bc Hpf Hoff Hbc Hfit.
  - exists [], off, bc. cbn [EXPA.read_loop]. rewrite app_nil_r. auto.
  - cbn [forallb] in Hpf. apply andb_prop in Hpf. destruct Hpf as [Hp Hpf].
    cbn [fold_left] in Hfit.
    pose proof (EXPA_cursor_le_size_step off bc (flushed (off, bc)) e Hoff Hbc
                  ltac:(lia)) as Hs.
    cbv zeta in Hs. destruct Hs as (Hs1 & Hs2 & _).
    destruct (EXPA_cursor_step (off, bc) e) as [off1 bc1] eqn:Hc.
    cbn [fst snd] in Hs1, Hs2.
    pose proof (EXPA_cursor_fold_grows s off1 bc1 Hs1 Hs2) as Hg.
    cbn [EXPA.read_loop]. unfold EXPA.read_step.
    assert (Hgf : flushed (off1, bc1) <= len D) by lia.
    unfold EXPA_cursor_step in Hc. unfold flushed in Hgf.
    cbn [fst snd] in Hgf.
    change (getSize BOOL) with 4.
    pose proof (getAlignment_range (type e)) as Hal.
    pose proof (getSize_range (type e)) as Hsz.
    destruct (negb (is_BOOL (type e)) || (32 <=? bc)) eqn:Hgate.
    + set (p := ceilInteger (if 0 <? bc then off + 4 else off)
                  (getAlignment (type e))) in *.
      assert (Hp0 : 0 <= p).
      { pose proof (ceilInteger_ge (if 0 <? bc then off + 4 else off)
                      (getAlignment (type e)) ltac:(lia)).
        fold p in H. destruct (0 <? bc); lia. }
      destruct (is_BOOL (type e)) eqn:Ht.
      * injection Hc as <- <-.
        destruct (EXPA_readEXPAEntry_scalar base D (type e) p 0 Hp Hp0)
          as (v & -> & Hv).
        { apply is_BOOL_true in Ht. rewrite Ht. cbn [getSize].
          revert Hgf. zbool; intros; lia. }
        cbn [bind].
        destruct (IH (vals ++ [v]) p (0 + 1) Hpf Hs1 Hs2 Hfit)
          as (row & off' & bc' & -> & Hm).
        exists (v :: row), off', bc'. rewrite <- app_assoc.
        split; [reflexivity|]. cbn [row_matches]. rewrite Hv, Hm. reflexivity.
      * injection Hc as <- <-.
        destruct (EXPA_readEXPAEntry_scalar base D (type e) p 0 Hp Hp0)
          as (v & -> & Hv).
        { revert Hgf. zbool; intros; lia. }
        cbn [bind].
        destruct (IH (vals ++ [v]) (p + getSize (type e)) 0 Hpf Hs1 Hs2 Hfit)
          as (row & off' & bc' & -> & Hm).
        exists (v :: row), off', bc'. rewrite <- app_assoc.
        split; [reflexivity|]. cbn [row_matches]. rewrite Hv, Hm. reflexivity.
    + apply orb_false_iff in Hgate. destruct Hgate as [Ht Hgate].
      apply negb_false_iff in Ht. rewrite Ht in *.
      injection Hc as <- <-. apply Z.leb_gt in Hgate.
      destruct (EXPA_readEXPAEntry_scalar base D (type e) off bc Hp Hoff)
        as (v & -> & Hv).
      { apply is_BOOL_true in Ht. rewrite Ht. cbn [getSize].
        revert Hgf. zbool; intros; lia. }
      cbn [bind].
      destruct (IH (vals ++ [v]) off (bc + 1) Hpf Hs1 Hs2 Hfit)
        as (row & off' & bc' & -> & Hm).
      exists (v :: row), off', bc'. rewrite <- app_assoc.
      split; [reflexivity|]. cbn [row_matches]. rewrite Hv, Hm. reflexivity.
Qed.

(** X3: [Structure::readEXPA] of EXPA.cpp stays inside the row: for a
    structure whose fields are numbers, booleans and fields without cell,
    on any buffer of at least [getEXPASize()] bytes it reads no byte
    outside the buffer and returns one value per field, each of the
    alternative and the range of its field. *)
Theorem EXPA_readEXPA_in_bounds s base D :
  len (structure s) < 2 ^ 26 ->
  forallb (fun e => pointer_free (type e)) (structure s) = true ->
  EXPA.getEXPASize s <= len D ->
  exists row,
    EXPA.readEXPA s {| mem_base := base; mem_bytes := D |} base = Ok row /\
    row_matches (structure s) row = true.
Proof.
  intros Hlen Hpf Hsize. unfold EXPA.readEXPA.
  destruct (EXPA_read_loop_scalar base D (structure s) [] 0 0 Hpf
              ltac:(lia) ltac:(lia)) as (row & off' & bc' & Hr & Hm).
  { pose proof (EXPA_cursor_le_size (structure s)
                  0 0 0 ltac:(lia) ltac:(lia) ltac:(cbn; lia)) as H1.
    fold (EXPA.layout_size (structure s)) in H1.
    rewrite (EXPA_getEXPASize_small s Hlen) in Hsize.
    pose proof (ceilInteger_ge (EXPA.layout_size (structure s)) 8 ltac:(lia)).
    lia. }
  destruct (structure s) as [|e0 s0] eqn:Hs.
  - exists []. auto.
  - rewrite Hr. cbn [bind app]. eauto.
Qed.

Lemma EXPA_readEXPA_in_bounds_witness :
  exists row,
    EXPA.readEXPA
      {| structure := [{| name := "id"; type := INT8 |};
                       {| name := "seen"; type := BOOL |};
                       {| name := "hp"; type := INT32 |}] |}
      {| mem_base := 4096; mem_bytes := repeat Byte.xcc 16 |} 4096 = Ok row /\
    row_matches [{| name := "id"; type := INT8 |};
                 {| name := "seen"; type := BOOL |};
                 {| name := "hp"; type := INT32 |}] row = true.
Proof.
  apply (EXPA_readEXPA_in_bounds
           {| structure := [{| name := "id"; type := INT8 |};
                            {| name := "seen"; type := BOOL |};
                            {| name := "hp"; type := INT32 |}] |}
           4096 (repeat Byte.xcc 16)).
  - vm_compute. reflexivity.
  - reflexivity.
  - vm_compute. intros H. discriminate H.
Defined.

(** * Rows with payloads *)

(** ** The entries of a row (EXPA.cpp) *)

Lemma EXPA_writeEXPAEntry_entry p buf t v buf' c :
  EXPA.writeEXPAEntry p buf p t v = Ok (buf', c) ->
  value_matches t v = true -> 0 <= p -> p + getSize t <= 2 ^ 32 ->
  c = if has_payload v
      then Some {| offset := match t with INT_ARRAY => p + 8 | _ => p end;
                   value := EXPA_payload v |}
      else None.
Proof.
  intros Hw Hm Hp H32.
  destruct t, v; simpl in Hm; try discriminate;
    unfold EXPA.writeEXPAEntry in Hw;
    cbn [get_int32 get_int16 get_int8 get_float get_string get_int_array bind]
      in Hw;
    cbn [getSize] in H32; cbn [has_payload];
    try (injection Hw as <- <-; reflexivity);
    try (invb Hw as b Hs; injection Hw as <- <-; reflexivity).
  1-3: invb Hw as b Hs; unfold EXPA_payload;
       destruct (string_empty s); cbn [negb] in *; injection Hw as <- <-;
       [reflexivity|];
       unfold EXPA.CHNKEntry_of_string; cbn [value];
       rewrite to_uint32_small by lia; reflexivity.
  invb Hw as b1 Hs1. invb Hw as b2 Hs2.
  destruct a as [|x a]; injection Hw as <- <-; [reflexivity|].
  unfold EXPA_payload, EXPA.CHNKEntry_of_int_array. cbn [value].
  rewrite to_uint32_small by lia. reflexivity.
Qed.

Lemma payload_only v : has_payload v = false -> EXPA_payload v = [].
Proof.
  destruct v as [| | | | |s|a|]; cbn [has_payload EXPA_payload]; auto.
  - intros H. apply negb_false_iff in H. rewrite H. reflexivity.
  - destruct a; [reflexivity|discriminate].
Qed.

Lemma payload_slot t v p :
  value_matches t v = true -> has_payload v = true ->
  p <= match t with INT_ARRAY => p + 8 | _ => p end /\
  match t with INT_ARRAY => p + 8 | _ => p end + 8 <= p + getSize t.
Proof.
  intros Hm Hp.
  destruct t, v; simpl in Hm; try discriminate; try discriminate Hp;
    cbn [getSize]; lia.
Qed.

Lemma EXPA_write_loop_chunks s : forall row st st',
  EXPA.write_loop s row st = Ok st' ->
  zip_matches s row = true ->
  0 <= ws_offset st -> 0 <= ws_bitCounter st <= 32 ->
  flushed (ws_offset st', ws_bitCounter st') <= 2 ^ 32 ->
  exists new,
    ws_chunkEntries st' = ws_chunkEntries st ++ new /\
    slots_sorted (flushed (ws_offset st, ws_bitCounter st)) new
      (flushed (ws_offset st', ws_bitCounter st')) /\
    map value new
    = map EXPA_payload (filter has_payload (firstn (List.length s) row)).
Proof.
  induction s as [|e s IH]; intros row st st' H Hm Hoff Hbc H32.
  - cbn [EXPA.write_loop] in H. injection H as <-. exists [].
    rewrite app_nil_r. cbn. split; [reflexivity|]. split; [lia|reflexivity].
  - destruct row as [|v row].
    { cbn [EXPA.write_loop] in H. injection H as <-. exists [].
      rewrite app_nil_r. cbn. split; [reflexivity|]. split; [lia|reflexivity]. }
    cbn [zip_matches] in Hm. apply andb_prop in Hm. destruct Hm as [Hmv Hm].
    cbn [EXPA.write_loop] in H. invb H as st1 H1.
    pose proof (EXPA_write_step_inv _ _ _ _ H1 Hoff ltac:(lia))
      as (Hc1 & Hle1 & Hbc1 & _).
    pose proof (EXPA_cursor_le_size_step (ws_offset st) (ws_bitCounter st)
                  (flushed (ws_offset st, ws_bitCounter st)) e Hoff Hbc
                  ltac:(lia)) as Hs.
    cbv zeta in Hs. rewrite <- Hc1 in Hs. cbn [fst snd] in Hs.
    destruct Hs as (_ & Hbc1' & _).
    pose proof (EXPA_cursor_step_grows (ws_offset st) (ws_bitCounter st) e
                  Hoff Hbc) as Hg1.
    rewrite <- Hc1 in Hg1.
    pose proof (EXPA_write_loop_inv _ _ _ _ H ltac:(lia) Hbc1)
      as (Hc2 & _ & _ & _).
    pose proof (EXPA_cursor_fold_grows (firstn (List.length row) s)
                  (ws_offset st1) (ws_bitCounter st1) ltac:(lia) Hbc1') as Hg2.
    rewrite <- Hc2 in Hg2.
    destruct (IH _ _ _ H Hm ltac:(lia) Hbc1' H32) as (new & Hn & Hso & Hv).
    pose proof (getAlignment_range (type e)) as Hal.
    pose proof (getSize_range (type e)) as Hsz.
    apply EXPA_write_step_cases in H1.
    cbn [List.length firstn filter].
    destruct (negb (is_BOOL (type e)) || (32 <=? ws_bitCounter st)) eqn:Hg.
    + destruct H1 as (buf0 & Hbuf0 & H1). cbv zeta in H1.
      destruct (is_BOOL (type e)) eqn:Ht.
      * destruct H1 as (b & bits & -> & Hbits & ->).
        cbn [ws_offset ws_bitCounter ws_chunkEntries has_payload] in *.
        exists new. split; [exact Hn|]. split; [|exact Hv].
        eapply slots_sorted_weaken; eauto; lia.
      * destruct H1 as (data' & c & Hw & ->).
        cbn [ws_offset ws_bitCounter ws_chunkEntries] in *.
        set (p := ceilInteger (if 0 <? ws_bitCounter st then ws_offset st + 4
                               else ws_offset st) (getAlignment (type e))) in *.
        assert (Hp : flushed (ws_offset st, ws_bitCounter st) <= p).
        { apply ceilInteger_ge. lia. }
        assert (Hf0 : 0 <= flushed (ws_offset st, ws_bitCounter st)).
        { unfold flushed. cbn [fst snd]. destruct (0 <? ws_bitCounter st); lia. }
        assert (Hz : (if 0 <? ws_bitCounter st then 0 else ws_bitCounter st) = 0)
          by (destruct (Z.ltb_spec 0 (ws_bitCounter st)); lia).
        rewrite Hz in *. rewrite flushed_0 in *.
        pose proof (EXPA_writeEXPAEntry_entry _ _ _ _ _ _ Hw Hmv ltac:(lia)
                      ltac:(lia)) as Hc.
        exists (match c with Some x => [x] | None => [] end ++ new).
        split; [rewrite Hn; destruct c; rewrite <- ?app_assoc; reflexivity|].
        split.
        -- eapply slots_sorted_app; [|exact Hso].
           destruct (has_payload v) eqn:Hpv; subst c;
             cbn [slots_sorted offset]; [|lia].
           pose proof (payload_slot _ _ p Hmv Hpv). lia.
        -- destruct (has_payload v) eqn:Hpv; subst c; cbn [app map value];
             rewrite Hv; reflexivity.
    + destruct H1 as (b & bits & -> & Hbits & ->).
      cbn [ws_offset ws_bitCounter ws_chunkEntries has_payload] in *.
      exists new. split; [exact Hn|]. split; [|exact Hv].
      eapply slots_sorted_weaken; eauto; lia.
Qed.

(** ** The image of a row *)

Lemma resolve_row_spec base : forall rc buf lo hi,
  slots_sorted lo rc hi -> 0 <= lo -> hi <= len buf ->
  exists content,
    resolve_row base buf rc = Ok content /\
    len content = len buf + len (flat_map value rc) /\
    (forall a n, 0 <= a -> a + Z.of_nat n <= len buf ->
       (forall e, In e rc -> offset e + 8 <= a \/ a + Z.of_nat n <= offset e) ->
       slice content a n = slice buf a n) /\
    (0 <= base -> base + len content < 2 ^ 64 ->
     forall e, In e rc -> chunk_resolved content base e).
Proof.
  induction rc as [|e rest IH]; intros buf lo hi Hs Hlo Hhi.
  - exists buf. cbn [resolve_row flat_map List.length In].
    split; [reflexivity|]. split; [lia|]. split; [auto|]. intros _ _ e [].
  - destruct Hs as [Hle Hs]. pose proof (slots_sorted_le _ _ _ Hs) as Hle2.
    destruct (store_word_ok buf (offset e) 8 (to_uint64 (base + len buf))
                ltac:(lia) ltac:(lia)) as [b1 H1].
    pose proof (store_length _ _ _ _ H1) as Hl1.
    destruct (IH (b1 ++ value e) (offset e + 8) hi Hs ltac:(lia))
      as (content & Hr & Hlen & Hag & Hres).
    { rewrite length_app. lia. }
    rewrite length_app, Nat2Z.inj_add in Hlen.
    exists content. cbn [resolve_row resolve_cell]. rewrite H1. cbn [bind].
    split; [exact Hr|]. cbn [flat_map]. rewrite (length_app (value e)).
    split; [lia|]. split.
    + intros a n Ha Han Hd. rewrite Hag.
      * rewrite slice_app_l by lia.
        apply (slice_store_word_other _ _ _ _ _ a n H1 Ha).
        destruct (Hd e (or_introl eq_refl)); [right|left]; simpl; lia.
      * exact Ha.
      * rewrite length_app. lia.
      * intros e' He'. apply Hd. right. exact He'.
    + intros Hb Hlim e' [<-|He']; [|apply Hres; auto].
      exists (len buf). split; [lia|]. split; [lia|]. split; [lia|].
      split; [lia|]. split.
      * rewrite (Hag (offset e) 8%nat).
        -- rewrite slice_app_l by (simpl; lia).
           rewrite (slice_store_word_same _ _ _ _ _ H1).
           unfold to_uint64. rewrite Z.mod_small by lia. reflexivity.
        -- lia.
        -- rewrite length_app. simpl. lia.
        -- intros e' He'. pose proof (slots_sorted_In _ _ _ _ Hs He').
           right. simpl. lia.
      * rewrite (Hag (len buf) (List.length (value e))).
        -- replace (len buf) with (len b1) by lia.
           pose proof (slice_app_mid b1 (value e) []) as Hm.
           rewrite app_nil_r in Hm. exact Hm.
        -- lia.
        -- rewrite length_app. lia.
        -- intros e' He'. pose proof (slots_sorted_In _ _ _ _ Hs He').
           left. lia.
Qed.

(** ** One cell in the image (EXPA.cpp) *)

Lemma string_read_resolved base content p s e k :
  no_NUL (list_byte_of_string s) = true -> 1 <= k ->
  0 < base -> base + len content < 2 ^ 64 -> 0 <= p ->
  chunk_resolved content base e -> offset e = p ->
  value e = padded (list_byte_of_string s)
              (ceilInteger (len (list_byte_of_string s) + k) 4) ->
  (ptr <- load_uint {| mem_base := base; mem_bytes := content |} (base + p) 8 ;;
   if ptr =? 0 then Ok (VString "")
   else str <- load_cstring {| mem_base := base; mem_bytes := content |} ptr ;;
        Ok (VString str)) = Ok (VString s).
Proof.
  intros Hnul Hk Hbase Hlim Hp Hres Ho Hv.
  destruct Hres as (pos & Hpos & Hplen & Ho0 & Holen & Hslot & Hpay).
  rewrite Ho in *.
  unfold load_uint. rewrite load_at by (simpl; lia). cbn [bind].
  rewrite Hslot.
  rewrite le_combine_split_small
    by (change (2 ^ (Z.of_nat 8 * 8)) with (2 ^ 64); lia).
  destruct (Z.eqb_spec (base + pos) 0); [lia|].
  destruct (padded_split (list_byte_of_string s)
              (ceilInteger (len (list_byte_of_string s) + k) 4))
    as (j & Hj & Hl).
  { pose proof (ceilInteger_ge (len (list_byte_of_string s) + k) 4
                  ltac:(lia)). lia. }
  rewrite Hv in Hpay. rewrite Hl, Hj in Hpay.
  rewrite (load_cstring_at _ _ _ _ j Hpos Hnul Hpay).
  cbn [bind]. rewrite string_of_list_byte_of_string. reflexivity.
Qed.

Lemma EXPA_cell_resolved base content p t v buf buf' c :
  is_BOOL t = false ->
  value_matches t v = true -> nul_free v = true ->
  EXPA.writeEXPAEntry p buf p t v = Ok (buf', c) ->
  0 < base -> base + len content < 2 ^ 64 -> len content < 2 ^ 32 ->
  0 <= p -> p + getSize t <= len content ->
  (forall a n, p <= a -> a + Z.of_nat n <= p + getSize t ->
     match c with
     | Some e => offset e + 8 <= a \/ a + Z.of_nat n <= offset e
     | None => True
     end ->
     slice content a n = slice buf' a n) ->
  match c with
  | Some e => chunk_resolved content base e
  | None => True
  end ->
  EXPA.readEXPAEntry {| mem_base := base; mem_bytes := content |} t
    (base + p) 0 = Ok v.
Proof.
  intros Hnb Hm Hnul Hw Hbase Hlim H32 Hp Hin Himg Hres.
  destruct t, v; simpl in Hm; try discriminate; clear Hnb;
    unfold EXPA.writeEXPAEntry in Hw;
    cbn [get_int32 get_int16 get_int8 get_float get_string get_int_array bind]
      in Hw;
    cbn [getSize] in *; unfold EXPA.readEXPAEntry;
    try (injection Hw as <- <-; reflexivity).
  1-4: invb Hw as b Hs; injection Hw as <- <-;
       apply andb_prop in Hm; destruct Hm as [Hlo Hhi];
       apply Z.leb_le in Hlo; apply Z.ltb_lt in Hhi;
       unfold load_int, load_uint;
       rewrite load_at by (simpl in *; lia); cbn [bind].
  1: { rewrite (Himg p 4%nat) by (simpl; auto; lia).
       rewrite (slice_store_word_same _ _ _ _ _ Hs).
       rewrite to_signed_split
         by (try lia; change (Z.of_nat 4 * 8 - 1) with 31; lia).
       reflexivity. }
  1: { rewrite (Himg p 2%nat) by (simpl; auto; lia).
       rewrite (slice_store_word_same _ _ _ _ _ Hs).
       rewrite to_signed_split
         by (try lia; change (Z.of_nat 2 * 8 - 1) with 15; lia).
       reflexivity. }
  1: { rewrite (Himg p 1%nat) by (simpl; auto; lia).
       rewrite (slice_store_word_same _ _ _ _ _ Hs).
       rewrite to_signed_split
         by (try lia; change (Z.of_nat 1 * 8 - 1) with 7; lia).
       reflexivity. }
  1: { rewrite (Himg p 4%nat) by (simpl; auto; lia).
       rewrite (slice_store_word_same _ _ _ _ _ Hs).
       rewrite le_combine_split_small
         by (change (2 ^ (Z.of_nat 4 * 8)) with (2 ^ 32); lia).
       reflexivity. }
  1-3: invb Hw as b Hs; cbn [nul_free] in Hnul;
       destruct (string_empty s) eqn:Hem; cbn [negb] in Hw;
       injection Hw as <- <-;
       [ apply string_empty_true in Hem; subst s;
         unfold load_uint; rewrite load_at by (simpl; lia); cbn [bind];
         rewrite (Himg p 8%nat) by (simpl; auto; lia);
         rewrite (slice_store_word_same _ _ _ _ _ Hs);
         rewrite le_combine_split_small
           by (change (2 ^ (Z.of_nat 8 * 8)) with (2 ^ 64); lia);
         reflexivity
       | apply (string_read_resolved base content p s _ 2 Hnul ltac:(lia)
                  Hbase Hlim Hp Hres);
         [ cbn [EXPA.CHNKEntry_of_string offset];
           apply to_uint32_small; lia
         | reflexivity ] ].
  (* INT_ARRAY *)
  invb Hw as b1 Hs1. invb Hw as b2 Hs2.
  assert (Hcount : slice b2 p 4 = le_split 4 (to_int32 (len a))).
  { rewrite (slice_store_word_other _ _ _ _ _ p 4 Hs2) by lia.
    apply (slice_store_word_same _ _ _ _ _ Hs1). }
  unfold load_int, load_uint. rewrite load_at by (simpl; lia). cbn [bind].
  replace (base + p + 8) with (base + (p + 8)) by lia.
  rewrite load_at by (simpl; lia). cbn [bind].
  destruct a as [|x a']; injection Hw as <- <-.
  - rewrite (Himg p 4%nat) by (simpl; auto; lia). rewrite Hcount.
    reflexivity.
  - set (a := x :: a') in *.
    destruct Hres as (pos & Hpos & Hplen & Ho0 & Holen & Hslot & Hpay).
    cbn [EXPA.CHNKEntry_of_int_array offset value] in *.
    rewrite (to_uint32_small (p + 8)) in * by lia.
    pose proof (length_flat_map_le_split a) as Hlp.
    rewrite (Himg p 4%nat) by (simpl; lia). rewrite Hcount.
    rewrite to_signed_split by (try apply to_int32_range; lia).
    rewrite to_int32_small by lia. rewrite Nat2Z.id.
    rewrite Hslot.
    rewrite le_combine_split_small
      by (change (2 ^ (Z.of_nat 8 * 8)) with (2 ^ 64); lia).
    rewrite (load_int32s_at base content a pos); auto.
    split; [lia|]. split; [lia|exact Hpay].
Qed.

(** ** One row in the image (EXPA.cpp) *)

Section EXPAImage.

Variables (base : Z) (content D : list byte) (rc : list CHNKEntry).

Hypothesis Hbase : 0 < base.
Hypothesis Hlim : base + len content < 2 ^ 64.
Hypothesis H32 : len content < 2 ^ 32.
Hypothesis Hin : len D <= len content.
(** The image of the row is [D] but for the slots of its entries. *)
Hypothesis Himage :
  forall a n, 0 <= a -> a + Z.of_nat n <= len D ->
    (forall e, In e rc -> offset e + 8 <= a \/ a + Z.of_nat n <= offset e) ->
    slice content a n = slice D a n.
Hypothesis Hresolved : forall e, In e rc -> chunk_resolved content base e.

Lemma EXPA_cells_resolved s : forall row st st_end vals,
  EXPA.write_loop s row st = Ok st_end -> finalised st_end D ->
  flushed (ws_offset st_end, ws_bitCounter st_end) <= len D ->
  rc = ws_chunkEntries st_end ->
  0 <= ws_offset st -> 0 <= ws_bitCounter st <= 32 ->
  (forall e, In e (ws_chunkEntries st) -> offset e + 8 <= ws_offset st) ->
  row_matches s row = true -> forallb nul_free row = true ->
  ((0 <? ws_bitCounter st) = true ->
   exists w, slice D (ws_offset st) 4 = le_split 4 w /\
             ws_offset st + 4 <= len D /\
             forall k, 0 <= k < ws_bitCounter st ->
                       Z.testbit w k = Z.testbit (ws_currentBool st) k) /\
  exists off' bc',
    EXPA.read_loop {| mem_base := base; mem_bytes := content |} base s
      (vals, ws_offset st, ws_bitCounter st)
    = Ok (vals ++ row, off', bc').
Proof.
  induction s as [|e s IH];
    intros row st st_end vals H Hfin Hfl Hrc Hoff Hbc Hold Hm Hnul.
  - destruct row; [|discriminate Hm]. cbn [EXPA.write_loop] in H.
    injection H as <-. split.
    + intros Hb. unfold finalised in Hfin. rewrite Hb in Hfin.
      exists (ws_currentBool st).
      pose proof (store_inv _ _ _ _ Hfin) as (_ & Hfit & _).
      pose proof (store_length _ _ _ _ Hfin) as Hl.
      rewrite length_le_split_Z in Hfit.
      split; [apply (slice_store_word_same _ _ _ _ _ Hfin)|].
      split; [change (Z.of_nat 4) with 4 in Hfit; lia|]. reflexivity.
    + cbn [EXPA.read_loop]. rewrite app_nil_r. eauto.
  - destruct row as [|v row]; [discriminate Hm|].
    cbn [row_matches] in Hm. apply andb_prop in Hm. destruct Hm as [Hmv Hm].
    cbn [forallb] in Hnul. apply andb_prop in Hnul.
    destruct Hnul as [Hnv Hnul].
    cbn [EXPA.write_loop] in H. invb H as st1 H1.
    pose proof (EXPA_write_step_inv _ _ _ _ H1 Hoff ltac:(lia))
      as (Hcur & Hle & Hbc1 & Hfr1).
    pose proof (EXPA_cursor_le_size_step (ws_offset st) (ws_bitCounter st)
                  (flushed (ws_offset st, ws_bitCounter st)) e Hoff Hbc
                  ltac:(lia)) as Hs.
    cbv zeta in Hs. rewrite <- Hcur in Hs. cbn [fst snd] in Hs.
    destruct Hs as (_ & Hbc1' & _).
    pose proof (EXPA_finalised_frame _ _ _ _ _ H Hfin ltac:(lia) Hbc1)
      as (HlD & HfrD).
    pose proof (EXPA_write_loop_inv _ _ _ _ H ltac:(lia) Hbc1)
      as (Hc2 & _ & _ & _).
    pose proof (EXPA_cursor_fold_grows (firstn (List.length row) s)
                  (ws_offset st1) (ws_bitCounter st1) ltac:(lia) Hbc1') as Hg2.
    rewrite <- Hc2 in Hg2.
    destruct (EXPA_write_loop_chunks _ _ _ _ H
                (proj1 (row_matches_zip _ _ Hm)) ltac:(lia) Hbc1' ltac:(lia))
      as (new1 & Hn1 & Hso1 & _).
    rewrite <- Hrc in Hn1.
    assert (Hlater : forall x, In x new1 ->
              flushed (ws_offset st1, ws_bitCounter st1) <= offset x).
    { intros x Hx. apply (slots_sorted_In _ _ _ _ Hso1 Hx). }
    pose proof (getAlignment_range (type e)) as Hal.
    pose proof (getSize_range (type e)) as Hsz.
    apply EXPA_write_step_cases in H1.
    destruct st as [data off bc cur chunks].
    cbn [ws_data ws_offset ws_bitCounter ws_currentBool ws_chunkEntries] in *.
    cbn [EXPA.read_loop]. unfold EXPA.read_step.
    destruct (negb (is_BOOL (type e)) || (32 <=? bc)) eqn:Hg.
    + destruct H1 as (buf0 & Hbuf0 & H1). cbv zeta in H1.
      destruct (is_BOOL (type e)) eqn:Ht.
      * (* a BOOL that starts the next word *)
        destruct H1 as (b & bits & -> & Hbits & ->).
        apply is_BOOL_true in Ht. rewrite Ht in *.
        cbn [negb orb] in Hg. apply Z.leb_le in Hg.
        assert (Hb : (0 <? bc) = true) by (apply Z.ltb_lt; lia).
        rewrite Hb in *.
        cbn [ws_data ws_offset ws_bitCounter ws_currentBool ws_chunkEntries]
          in *.
        pose proof (ceilInteger_ge (off + 4) 4 ltac:(lia)) as Hp.
        cbn [getAlignment getSize] in *.
        pose proof (IH row _ st_end (vals ++ [VBool b]) H Hfin Hfl Hrc) as IH1.
        cbn [ws_data ws_offset ws_bitCounter ws_currentBool ws_chunkEntries]
          in IH1.
        destruct (IH1 ltac:(lia) ltac:(lia)) as (Hw1 & off' & bc' & Hr);
          [intros x Hx; specialize (Hold x Hx); lia|exact Hm|exact Hnul|].
        destruct (Hw1 eq_refl) as (w1 & Hs1 & Hfit1 & Hbits1).
        pose proof (store_inv _ _ _ _ Hbuf0) as (_ & Hfit0 & _).
        pose proof (store_length _ _ _ _ Hbuf0) as Hl0.
        rewrite length_le_split_Z in Hfit0.
        change (Z.of_nat 4) with 4 in Hfit0.
        split.
        { intros _. exists cur. split.
          - rewrite (HfrD off 4%nat) by (simpl; lia).
            apply (slice_store_word_same _ _ _ _ _ Hbuf0).
          - split; [lia|]. reflexivity. }
        unfold EXPA.readEXPAEntry, load_uint.
        rewrite load_at by (simpl; lia). cbn [bind].
        rewrite Himage.
        2: lia.
        2: simpl; lia.
        2: { intros x Hx. rewrite Hn1 in Hx. apply in_app_or in Hx.
             destruct Hx as [Hx|Hx].
             - specialize (Hold x Hx). left. lia.
             - specialize (Hlater x Hx). rewrite flushed_1 in Hlater.
               right. simpl. lia. }
        rewrite Hs1, read_bit by lia.
        rewrite (Hbits1 0) by lia.
        apply bitset_set_bits in Hbits. destruct Hbits as (_ & -> & _).
        cbn [is_BOOL]. rewrite Hr. rewrite <- app_assoc. eauto.
      * (* a field that is no BOOL *)
        destruct H1 as (data' & c & Hw & ->).
        cbn [negb orb] in *.
        cbn [ws_data ws_offset ws_bitCounter ws_currentBool ws_chunkEntries]
          in *.
        set (p := ceilInteger (if 0 <? bc then off + 4 else off)
                    (getAlignment (type e))) in *.
        assert (Hp : (if 0 <? bc then off + 4 else off) <= p)
          by (apply ceilInteger_ge; lia).
        assert (Hp0 : off <= p) by (destruct (0 <? bc); lia).
        assert (Hbc0 : (if 0 <? bc then 0 else bc) = 0)
          by (destruct (Z.ltb_spec 0 bc); lia).
        rewrite Hbc0 in *. rewrite flushed_0 in *.
        pose proof (EXPA_writeEXPAEntry_entry _ _ _ _ _ _ Hw Hmv ltac:(lia)
                      ltac:(lia)) as Hc.
        assert (Hslot : match c with
                        | Some x => p <= offset x /\
                                    offset x + 8 <= p + getSize (type e)
                        | None => True
                        end).
        { destruct (has_payload v) eqn:Hpv; subst c; [|exact I].
          cbn [offset]. apply (payload_slot _ _ p Hmv Hpv). }
        clear Hc.
        pose proof (IH row _ st_end (vals ++ [v]) H Hfin Hfl Hrc) as IH1.
        cbn [ws_data ws_offset ws_bitCounter ws_currentBool ws_chunkEntries]
          in IH1.
        destruct (IH1 ltac:(lia) ltac:(lia)) as (_ & off' & bc' & Hr);
          [|exact Hm|exact Hnul|].
        { intros x Hx.
          assert (Hx' : In x chunks \/ c = Some x).
          { destruct c as [y|]; [|left; exact Hx].
            apply in_app_or in Hx. destruct Hx as [Hx|[<-|[]]]; auto. }
          destruct Hx' as [Hx'|Hx'].
          - specialize (Hold x Hx'). lia.
          - subst c. cbv beta iota in Hslot. lia. }
        assert (Hread : EXPA.readEXPAEntry
                          {| mem_base := base; mem_bytes := content |}
                          (type e) (base + p) 0 = Ok v).
        { apply (EXPA_cell_resolved base content p (type e) v buf0 data' c
                   Ht Hmv Hnv Hw Hbase Hlim H32 ltac:(lia) ltac:(lia)).
          - intros a n Ha Han Hown. rewrite Himage.
            + apply HfrD; lia.
            + lia.
            + lia.
            + intros x Hx. rewrite Hn1 in Hx. apply in_app_or in Hx.
              destruct Hx as [Hx|Hx].
              * assert (Hx' : In x chunks \/ c = Some x).
                { destruct c as [y|]; [|left; exact Hx].
                  apply in_app_or in Hx. destruct Hx as [Hx|[<-|[]]]; auto. }
                destruct Hx' as [Hx'|Hx'].
                -- specialize (Hold x Hx'). left. lia.
                -- subst c. exact Hown.
              * specialize (Hlater x Hx). right. lia.
          - destruct c as [y|]; [|exact I]. apply Hresolved.
            rewrite Hn1. apply in_or_app. left. apply in_or_app. right.
            left. reflexivity. }
        split.
        { intros Hb. rewrite Hb in *. exists cur.
          pose proof (store_inv _ _ _ _ Hbuf0) as (_ & Hfit0 & _).
          pose proof (store_length _ _ _ _ Hbuf0) as Hl0.
          rewrite length_le_split_Z in Hfit0.
          change (Z.of_nat 4) with 4 in Hfit0.
          pose proof (EXPA_writeEXPAEntry_frame _ _ _ _ _ _ _ Hw)
            as [Hlw Hfw].
          split.
          - rewrite (HfrD off 4%nat) by (simpl; lia).
            rewrite (Hfw off 4%nat) by (simpl; lia).
            apply (slice_store_word_same _ _ _ _ _ Hbuf0).
          - split; [lia|]. reflexivity. }
        change (getSize BOOL) with 4. fold p.
        rewrite Hread. cbn [bind]. rewrite Hr. rewrite <- app_assoc. eauto.
    + (* a BOOL in the current word *)
      destruct H1 as (b & bits & -> & Hbits & ->).
      apply orb_false_iff in Hg. destruct Hg as [Ht Hg].
      apply negb_false_iff in Ht. rewrite Ht.
      apply is_BOOL_true in Ht. rewrite Ht in *.
      apply Z.leb_gt in Hg.
      cbn [ws_data ws_offset ws_bitCounter ws_currentBool ws_chunkEntries] in *.
      pose proof (IH row _ st_end (vals ++ [VBool b]) H Hfin Hfl Hrc) as IH1.
      cbn [ws_data ws_offset ws_bitCounter ws_currentBool ws_chunkEntries]
        in IH1.
      destruct (IH1 ltac:(lia) ltac:(lia) Hold Hm Hnul)
        as (Hw1 & off' & bc' & Hr).
      destruct (Hw1 ltac:(apply Z.ltb_lt; lia)) as (w1 & Hs1 & Hfit1 & Hbits1).
      apply bitset_set_bits in Hbits. destruct Hbits as (_ & Hset & Hkeep).
      split.
      { intros _. exists w1. split; [exact Hs1|]. split; [exact Hfit1|].
        intros k Hk. rewrite Hbits1 by lia. apply Hkeep; lia. }
      unfold EXPA.readEXPAEntry, load_uint.
      rewrite load_at by (simpl; lia). cbn [bind].
      rewrite Himage.
      2: lia.
      2: simpl; lia.
      2: { intros x Hx. rewrite Hn1 in Hx. apply in_app_or in Hx.
           destruct Hx as [Hx|Hx].
           - specialize (Hold x Hx). left. lia.
           - specialize (Hlater x Hx). unfold flushed in Hlater.
             cbn [fst snd] in Hlater.
             destruct (Z.ltb_spec 0 (bc + 1)); [|lia]. right. simpl. lia. }
      rewrite Hs1, read_bit by lia.
      rewrite (Hbits1 bc) by lia. rewrite Hset.
      rewrite Hr. rewrite <- app_assoc. eauto.
Qed.

End EXPAImage.

(** ** A row written, resolved and read again *)

Lemma zip_matches_row s : forall row,
  zip_matches s row = true ->
  row_matches
    (firstn (Nat.min (List.length s) (List.length row)) s)
    (firstn (Nat.min (List.length s) (List.length row)) row) = true.
Proof.
  induction s as [|e s IH]; intros [|v row] H; try reflexivity.
  cbn [zip_matches] in H. apply andb_prop in H. destruct H as [Hv H].
  cbn [List.length Nat.min firstn row_matches]. rewrite Hv. cbn [andb].
  apply IH. exact H.
Qed.

Lemma firstn_min_length_r {A B} (s : list A) (l : list B) :
  firstn (Nat.min (List.length s) (List.length l)) l
  = firstn (List.length s) l.
Proof.
  destruct (Nat.le_ge_cases (List.length s) (List.length l)).
  - rewrite Nat.min_l by lia. reflexivity.
  - rewrite Nat.min_r by lia. rewrite !firstn_all2 by lia. reflexivity.
Qed.

Lemma length_payloads row :
  len (List.concat (map EXPA_payload (filter has_payload row)))
  = len (flat_map EXPA_payload row).
Proof.
  induction row as [|v row IH]; [reflexivity|].
  cbn [filter flat_map]. rewrite length_app, Nat2Z.inj_add.
  destruct (has_payload v) eqn:Hp.
  - cbn [map List.concat]. rewrite length_app, Nat2Z.inj_add. lia.
  - rewrite (payload_only _ Hp). cbn [List.length]. lia.
Qed.

Lemma EXPA_row_resolved s entries base :
  let m := Nat.min (List.length (structure s)) (List.length entries) in
  let s' := {| structure := firstn m (structure s) |} in
  let entries' := firstn m entries in
  len (structure s) < 2 ^ 26 ->
  zip_matches (structure s) entries = true ->
  exists r,
    EXPA.writeEXPA s entries = Ok r /\
    len (EXPA.data r) = EXPA.getEXPASize s /\
    map value (EXPA.chunk r)
    = map EXPA_payload (filter has_payload entries') /\
    slots_sorted 0 (EXPA.chunk r) (len (EXPA.data r)) /\
    (forallb nul_free entries' = true ->
     0 < base -> base + 2 ^ 32 <= 2 ^ 64 ->
     EXPA.getEXPASize s + len (flat_map EXPA_payload entries') < 2 ^ 32 ->
     EXPA_row_write_then_read s s' entries base = Ok entries').
Proof.
  intros m s' entries' Hlen Hm. subst s' entries'.
  destruct (EXPA_writeEXPA_run_ok s entries Hlen Hm) as [st Hrun].
  pose proof (EXPA_writeEXPA_run_inv _ _ _ Hrun) as (Ho & Hpos & [HlD Hfr]).
  rewrite repeat_length in HlD.
  assert (Hsize0 : 0 <= EXPA.getEXPASize s).
  { rewrite EXPA_getEXPASize_eq. unfold to_uint32.
    apply Z.mod_pos_bound. lia. }
  assert (HlenD : len (ws_data st) = EXPA.getEXPASize s) by lia.
  assert (Hfit : ws_offset st <= len (ws_data st)).
  { rewrite Ho, HlenD.
    pose proof (EXPA_cursor_le_size (firstn (List.length entries) (structure s))
                  0 0 0 ltac:(lia) ltac:(lia) ltac:(cbn; lia)) as H1.
    fold (EXPA.layout_size (firstn (List.length entries) (structure s))) in H1.
    pose proof (EXPA_layout_size_prefix (structure s) (List.length entries)).
    rewrite (EXPA_getEXPASize_small s Hlen).
    pose proof (ceilInteger_ge (EXPA.layout_size (structure s)) 8 ltac:(lia)).
    lia. }
  unfold EXPA_row_write_then_read, EXPA.writeEXPA. rewrite Hrun. cbn [bind].
  exists {| EXPA.data := ws_data st; EXPA.chunk := ws_chunkEntries st |}.
  cbn [EXPA.data EXPA.chunk]. split; [reflexivity|]. split; [exact HlenD|].
  unfold EXPA.writeEXPA_run in Hrun. invb Hrun as st1 H1.
  assert (Hfin : finalised st1 (ws_data st) /\
                 ws_chunkEntries st = ws_chunkEntries st1 /\
                 ws_offset st = flushed (ws_offset st1, ws_bitCounter st1)).
  { unfold finalised, flushed. cbn [fst snd].
    destruct (0 <? ws_bitCounter st1).
    - apply flush_inv in Hrun. destruct Hrun as (Hs & Hof & _ & _ & Hc). auto.
    - injection Hrun as <-. auto. }
  destruct Hfin as (Hfin & Hch & Hofl).
  pose proof (EXPA_write_loop_inv _ _ _ _ H1 ltac:(cbn; lia) ltac:(cbn; lia))
    as (_ & _ & Hbc1 & _).
  destruct (EXPA_write_loop_chunks _ _ _ _ H1 Hm ltac:(cbn; lia)
              ltac:(cbn; lia)) as (new & Hnew & Hso & Hval).
  { rewrite <- Hofl. rewrite HlenD in Hfit.
    rewrite EXPA_getEXPASize_eq in Hfit. unfold to_uint32 in Hfit.
    pose proof (Z.mod_pos_bound
                  (ceilInteger (EXPA.layout_size (structure s)) 8) (2 ^ 32)
                  ltac:(lia)). lia. }
  cbn [ws_offset ws_bitCounter ws_chunkEntries app] in Hnew, Hso.
  rewrite flushed_0, <- Hofl in Hso. rewrite <- Hch in Hnew. subst new.
  rewrite <- (firstn_min_length_r (structure s) entries) in Hval. fold m in Hval.
  split; [exact Hval|]. split.
  { eapply slots_sorted_weaken; [exact Hso|lia|lia]. }
  intros Hnul Hbase Hlim Hsz.
  destruct (resolve_row_spec base (ws_chunkEntries st) (ws_data st) 0
              (ws_offset st) Hso ltac:(lia) Hfit)
    as (content & Hres & Hlc & Hag & Hcr).
  rewrite Hres. cbn [bind].
  assert (Hlp : len (flat_map value (ws_chunkEntries st))
                = len (flat_map EXPA_payload (firstn m entries))).
  { rewrite flat_map_concat_map, Hval. apply length_payloads. }
  rewrite EXPA_write_loop_zip in H1. fold m in H1.
  pose proof (zip_matches_row _ _ Hm) as Hrm. fold m in Hrm.
  unfold EXPA.readEXPA. cbn [structure].
  destruct (firstn m (structure s)) as [|e0 s0] eqn:Hs.
  - destruct (firstn m entries); [reflexivity|discriminate Hrm].
  - rewrite <- Hs in *.
    destruct (EXPA_cells_resolved base content (ws_data st)
                (ws_chunkEntries st) Hbase ltac:(lia) ltac:(lia) ltac:(lia)
                Hag (Hcr ltac:(lia) ltac:(lia))
                (firstn m (structure s)) (firstn m entries) _ st1 []
                H1 Hfin ltac:(lia) Hch ltac:(cbn; lia) ltac:(cbn; lia))
      as (_ & off' & bc' & Hr); [intros x []|exact Hrm|exact Hnul|].
    cbn [ws_offset ws_bitCounter] in Hr. rewrite Hr. reflexivity.
Qed.

(** ** A row of EXPANew.cpp written, resolved and read again *)





Lemma EXPANew_writeEXPAEntry_string off buf t s :
  In t [STRING3; STRING; STRING2] ->
  0 <= off -> off + 8 <= len buf -> len buf <= 2 ^ 32 ->
  exists buf',
    EXPANew.writeEXPAEntry off buf off t (VString s)
    = Ok (buf',
          if has_payload (VString s)
          then Some {| offset := off; value := EXPANew_payload (VString s) |}
          else None).
Proof.
  intros Ht Hoff Hfit H32.
  destruct (store_word_ok buf off 8 0 Hoff ltac:(lia)) as [b Hs].
  exists b.
  assert (Hw : EXPANew.writeEXPAEntry off buf off t (VString s)
               = (buf' <- store buf off (le_split 8 0) ;;
                  if negb (string_empty s)
                  then Ok (buf', Some (EXPANew.CHNKEntry_of_string off s))
                  else Ok (buf', None)))
    by (destruct Ht as [<-|[<-|[<-|[]]]]; reflexivity).
  rewrite Hw, Hs. cbn [bind has_payload EXPANew_payload].
  destruct (string_empty s); cbn [negb]; [reflexivity|].
  unfold EXPANew.CHNKEntry_of_string. cbn [value].
  rewrite to_uint32_small by lia. reflexivity.
Qed.

(** ** C4: cells with a payload in the CHNK section *)

(** C4 (as stated) fails. A string with a NUL byte has a payload and is
    cut at that byte when it is read. In EXPANew.cpp an empty int array
    emits an entry, and the payload of an array holds one byte for each
    element, so that [1, 2, 3] is read as [197121, 0, 0]. *)
Lemma C4_counterexample :
  value_matches STRING (VString nul_string) = true /\
  has_payload (VString nul_string) = true /\
  cell_write_then_read EXPA.writeEXPAEntry EXPA.readEXPAEntry 4096
    (repeat Byte.xcc 8) 0 STRING (VString nul_string) = Ok (VString "a") /\
  cell_write_then_read EXPANew.writeEXPAEntry EXPANew.readEXPAEntry 4096
    (repeat Byte.xcc 8) 0 STRING (VString nul_string) = Ok (VString "a") /\
  VString "a" <> VString nul_string /\
  has_payload (VIntArray []) = false /\
  option_map value
    (match EXPANew.writeEXPAEntry 0 (repeat Byte.xcc 16) 0 INT_ARRAY
             (VIntArray []) with
     | Ok (_, c) => c
     | _ => None
     end) = Some [] /\
  cell_write_then_read EXPANew.writeEXPAEntry EXPANew.readEXPAEntry 4096
    (repeat Byte.xcc 16) 0 INT_ARRAY (VIntArray [1; 2; 3])
  = Ok (VIntArray [197121; 0; 0]).
Proof.
  repeat split; try reflexivity. discriminate.
Qed.

(** C4 (amended): in a buffer of at most [2^32] bytes that holds the
    cell, [writeEXPAEntry] of EXPA.cpp writes a cell of a string or
    int-array type whose value matches the type with one CHNK entry when
    the string or the array is not empty, the entry holding the slot of
    the cell (for an array, eight bytes into the cell) and the payload,
    and with none when it is empty; for the string types
    [writeEXPAEntry] of EXPANew.cpp does the same, with its own padding
    of the payload. When the string has no NUL byte, buffer and payload
    take less than [2^32] bytes and the image lies at an address that is
    not null and leaves [2^32] bytes below [2^64], [readEXPAEntry]
    returns the value once the slot is resolved. In the rows of
    [Structure::writeEXPA] of EXPA.cpp the entries are those of the
    cells with a payload, one for each in the order of the fields, their
    slots in increasing order inside the row, and [Structure::readEXPA]
    returns the row once the slots are resolved. *)
Theorem C4_chunk_cells :
  (forall (base off : Z) (buf : list byte) (t : EntryType) (v : EntryValue),
     In t [STRING3; STRING; STRING2; INT_ARRAY] ->
     value_matches t v = true ->
     0 <= off -> off + getSize t <= len buf -> len buf <= 2 ^ 32 ->
     (exists buf',
        EXPA.writeEXPAEntry off buf off t v
        = Ok (buf',
              if has_payload v
              then Some {| offset := match t with
                                     | INT_ARRAY => off + 8
                                     | _ => off
                                     end;
                           value := EXPA_payload v |}
              else None)) /\
     (t <> INT_ARRAY ->
      exists buf',
        EXPANew.writeEXPAEntry off buf off t v
        = Ok (buf',
              if has_payload v
              then Some {| offset := off; value := EXPANew_payload v |}
              else None)) /\
     (nul_free v = true ->
      0 < base -> base + 2 ^ 32 <= 2 ^ 64 ->
      len buf + len (EXPA_payload v) < 2 ^ 32 ->
      cell_write_then_read EXPA.writeEXPAEntry EXPA.readEXPAEntry base buf
        off t v = Ok v /\
      (t <> INT_ARRAY ->
       cell_write_then_read EXPANew.writeEXPAEntry EXPANew.readEXPAEntry
         base buf off t v = Ok v))) /\
  (forall (s : Structure) (row : list EntryValue) (base : Z),
     len (structure s) < 2 ^ 26 ->
     row_matches (structure s) row = true ->
     exists r,
       EXPA.writeEXPA s row = Ok r /\
       map value (EXPA.chunk r) = map EXPA_payload (filter has_payload row) /\
       slots_sorted 0 (EXPA.chunk r) (len (EXPA.data r)) /\
       (forallb nul_free row = true ->
        0 < base -> base + 2 ^ 32 <= 2 ^ 64 ->
        EXPA.getEXPASize s + len (flat_map EXPA_payload row) < 2 ^ 32 ->
        EXPA_row_write_then_read s s row base = Ok row)).
Proof.
  split.
  - intros base off buf t v Ht Hm Hoff Hfit H32.
    split; [|split].
    + destruct (EXPA_writeEXPAEntry_ok off buf off t v Hm Hoff Hfit)
        as (buf' & c & Hw).
      exists buf'. rewrite Hw.
      rewrite (EXPA_writeEXPAEntry_entry _ _ _ _ _ _ Hw Hm Hoff ltac:(lia)).
      reflexivity.
    + intros Hna.
      assert (Hts : In t [STRING3; STRING; STRING2])
        by (destruct Ht as [<-|[<-|[<-|[<-|[]]]]]; simpl; auto; congruence).
      assert (Hsz : getSize t = 8)
        by (destruct Hts as [<-|[<-|[<-|[]]]]; reflexivity).
      destruct v as [| | | | |str| |];
        try (destruct Hts as [<-|[<-|[<-|[]]]]; discriminate Hm).
      apply EXPANew_writeEXPAEntry_string; auto; lia.
    + intros Hnul Hbase Hlim Hsz.
      destruct (chunk_cells_resolved base off buf t v Ht Hm Hnul Hoff Hfit Hsz
                  Hbase Hlim) as (_ & Hr & Hnew).
      split; [exact Hr|]. intros Hna. apply (Hnew Hna).
  - intros s row base Hlen Hm.
    destruct (row_matches_zip _ _ Hm) as [Hz Hl].
    destruct (EXPA_row_resolved s row base Hlen Hz)
      as (r & Hw & _ & Hv & Hso & Hread).
    rewrite <- Hl, Nat.min_id, firstn_all in Hv, Hread.
    rewrite Hl, firstn_all in Hread.
    exists r. split; [exact Hw|]. split; [exact Hv|]. split; [exact Hso|].
    destruct s as [fields]. exact Hread.
Qed.

Lemma C4_chunk_cells_witness :
  (cell_write_then_read EXPA.writeEXPAEntry EXPA.readEXPAEntry 4096
     (repeat Byte.xcc 16) 0 INT_ARRAY (VIntArray [1; 2; 3])
   = Ok (VIntArray [1; 2; 3]) /\
   cell_write_then_read EXPANew.writeEXPAEntry EXPANew.readEXPAEntry 4096
     (repeat Byte.xcc 8) 0 STRING (VString "sword")
   = Ok (VString "sword")) /\
  EXPA_row_write_then_read
    {| structure := [{| name := "id"; type := INT32 |};
                     {| name := "name"; type := STRING |};
                     {| name := "drops"; type := INT_ARRAY |}] |}
    {| structure := [{| name := "id"; type := INT32 |};
                     {| name := "name"; type := STRING |};
                     {| name := "drops"; type := INT_ARRAY |}] |}
    [VInt32 42; VString "sword"; VIntArray [1; 2; 3]] 4096
  = Ok [VInt32 42; VString "sword"; VIntArray [1; 2; 3]].
Proof.
  split; [split|].
  - destruct C4_chunk_cells as [Hcell _].
    destruct (Hcell 4096 0 (repeat Byte.xcc 16) INT_ARRAY (VIntArray [1; 2; 3]))
      as (_ & _ & Hr);
      [simpl; auto|reflexivity|lia|simpl; lia|simpl; lia|].
    apply Hr; [reflexivity|lia|lia|simpl; lia].
  - destruct C4_chunk_cells as [Hcell _].
    destruct (Hcell 4096 0 (repeat Byte.xcc 8) STRING (VString "sword"))
      as (_ & _ & Hr);
      [simpl; auto|reflexivity|lia|simpl; lia|simpl; lia|].
    apply Hr; [reflexivity|lia|lia|simpl; lia|discriminate].
  - destruct C4_chunk_cells as [_ Hrow].
    destruct (Hrow {| structure := [{| name := "id"; type := INT32 |};
                                    {| name := "name"; type := STRING |};
                                    {| name := "drops"; type := INT_ARRAY |}] |}
                [VInt32 42; VString "sword"; VIntArray [1; 2; 3]] 4096)
      as (r & _ & _ & _ & Hr); [vm_compute; reflexivity|reflexivity|].
    apply Hr; [reflexivity|lia|lia|vm_compute; reflexivity].
Defined.

(** ** C10: more values than fields, and fewer *)


